(* ===== verification/_CoqProject ===== *)
-Q . S2P
Prelude.v
HttpPool.v
Glob.v
F64.v
FloatText.v
Json.v
PayloadRules.v
Channel.v
ChannelManager.v
RedisRateLimit.v
RateLimiter.v
Trackers.v
Router.v
Affinity.v
Fallback.v
PersistedStore.v
VirtualKey.v
Ndjson.v
Migration.v
AuditTrail.v
Logs.v
Cache.v
Access.v
Guardrails.v
ProviderBudget.v
Quota.v
Collectors.v
Desktop.v
Notification.v
Delivery.v
ModelRegistry.v
Usage.v
Thinking.v
Translate.v
Provider.v
ModelFetch.v
Sanitizer.v
Credentials.v
Mcp.v
Watcher.v
AdminChannels.v
AdminKeys.v
AdminSettings.v
Login.v
Console.v
Server.v
Lifecycle.v
Startup.v
Config.v
Machine.v
Attempt.v
Dispatch.v
DispatchProps.v
Admission.v
Bookkeeping.v
OpenAI.v
McpGateway.v
ToolLoop.v
Responses.v
Embeddings.v
Streams.v
Keepalive.v
SharedState.v
Scenario.v
Launch.v
