(* ===== verification/Prelude.v ===== *)
(** * ModelSwitch: a verification of the gateway's core

    ModelSwitch (src/src-tauri/src) is a gateway for large language models.  A
    client sends a chat request in one of three wire formats; the gateway
    authenticates it by virtual key, screens it, reserves the estimated cost,
    looks in a cache, and tries the channels (upstream accounts) that can serve
    the model, and then the fallback models, until one answers.  What the
    answer costs is settled afterwards by a background task.

    ** The parts and how they interact

    The library follows the source: one file per component, every definition
    under the name it has in Rust.

    - [Prelude]: scopes, tactics, panics as values ([outcome]), machine integers,
      strings, and the lemmas on lists, maps and sums that the components share.
    - [F64], [Json], [Glob]: doubles as the Standard Library's [SpecFloat];
      [serde_json::Value]; the wildcard patterns of channel/mod.rs.
    - Data of the gateway: [Channel] (channel/mod.rs, the circuit breaker),
      [ChannelManager] (channel/manager.rs and the probes of health/mod.rs),
      [PersistedStore] (persisted_store.rs), [VirtualKey] (virtual_key/),
      [ProviderBudget], [Quota] (quota/mod.rs), [ModelRegistry], [Cache]
      (proxy/cache.rs with the coalescing of requests in flight).
    - Decisions: [RateLimiter] with its backend [RedisRateLimit], [Trackers]
      (cooldowns, latencies, active requests), [Router], [Affinity], [Fallback],
      [Guardrails], [Access] (middleware/).
    - Documents: [PayloadRules], [Thinking], [Translate] (the wire formats),
      [Usage] (tokens and costs), [Provider] (addresses, headers, event streams).
    - The request path.  [Machine] holds the shared state ([App.AppState]) and
      the operations a request performs on it ([App.op], [App.handle]): each is
      one call of a component.  A handler is a program of such operations
      ([Prog.prog]); [Prog.run] performs it with readings (the time, random
      draws, what the upstream answers) and with the operations of other
      requests in between.  [Attempt] is one attempt on a channel
      (proxy/attempt.rs, response.rs) with the background tasks it leaves,
      [Dispatch] the whole request (proxy/dispatch.rs and the handlers).
    - [DispatchProps], [Admission] and [Bookkeeping] prove what every run of a
      request guarantees; [Scenario] runs whole requests on a concrete gateway.
    - [OpenAI] and [ToolLoop] (proxy/openai.rs, proxy/mcp_tools.rs: the loop
      that executes the tool calls of a model), [Responses] and [Embeddings]
      (proxy/responses.rs, embeddings.rs, images.rs) are the other endpoints;
      [Streams] compares what is kept of a stream with what was forwarded,
      [Keepalive] (proxy/stream.rs, proxy/response.rs) what a client reads between
      the signs of life it is sent;
      [Mcp] and [McpGateway] (mcp/) hold the tool servers and offer their tools.
    - [SharedState] is the type of the shared state: what each store keeps to,
      and that every operation of a request, and of what else may happen between
      two of them ([elsewhere]), preserves it.  Changes of channels are apart:
      they can leave a rotation index beyond the keys
      ([get_credential_panics_after_update]).
    - The records: [Ndjson] (append-only files with backups), [AuditTrail]
      (admin/audit.rs), [Logs] (log.rs and admin/reports.rs).
    - The administration: [AdminChannels] (admin/channels/ and the reload of
      admin/system.rs), [AdminKeys] (admin/virtual_keys/, admin/portal.rs),
      [Watcher] (config/watcher.rs, the hot reload), [Notification]
      (notification/mod.rs), [Login] (auth/, config/auth.rs and the login
      endpoints of admin/auth.rs).  Their handlers work on the same stores as the
      requests ([ChannelManager], [VirtualKey], [RateLimiter], ...): each file
      has a record [Stores] of those its handlers touch.
    - The gateway as a whole: [Server] (server/routes.rs and the layers of
      middleware/) says which handlers a request can reach, [Lifecycle]
      (server.rs, server/tls.rs) when the server binds, serves and stops, and
      [Startup] (server/services.rs) what its first tasks do to one another.
      [Sanitizer] (middleware/sanitizer.rs) redacts bodies and streams,
      [Credentials] (credential/) keeps the secrets of the channels, [Migration]
      (migration.rs) brings old files to the present format, and [Collectors]
      (quota/collectors/, quota/poller.rs) asks the providers for their quotas;
      [FloatText] reads decimal texts as binary64 numbers for it.
    - Around it: [Config] (config.rs, config/gateway.rs, bin/cli.rs) reads and
      saves the file and has the commands; [Launch] (server/services.rs) builds
      the shared state of [Machine] from a [Config.ConfigFile.AppConfig] and runs
      the discovery of models (model_registry.rs); [HttpPool] (http_pool.rs)
      chooses the clients requests are sent with; [ModelFetch] (model_fetch.rs,
      endpoint_probe.rs and the diagnostics of channel/mod.rs) asks providers for
      models; [AdminSettings] (admin/mcp.rs, billing and system settings) changes
      the file's tool servers and the settings that take effect at once,
      [Console] (admin/channels/actions.rs, admin/system.rs) shows the state;
      [Delivery] (notification/webhook.rs, bark.rs, email.rs) makes requests and
      mail of what [Notification] decides; [Desktop] (tauri_cmds.rs,
      webview_login.rs, quota/webview_scrape.rs) starts and stops servers and
      reads pages in windows.

    ** What is shown

    - Money: no interleaving of reservations and settlements takes a key beyond
      its budget by more than the costs that turn out above the reservations
      ([reservations_within_budget]); every cent a request reserves is settled,
      carried by one task, or lost, and it is stated exactly when
      ([reservation_settled_or_lost], [stream_task_settles]); a refund across
      midnight is wrong ([refund_crosses_midnight]); provider caps and usage
      totals are sums over the history ([provider_budget_exact],
      [usage_never_lost]); codes pay once ([code_redeemed_once]).
    - Admission: nothing is sent unchecked ([nothing_sent_unchecked]), by the
      keys ([validate_reachable], [virtual_key_gate], [cidr_is_prefix_match]),
      the limiters ([limiter_admission], [redis_window_exact]), the guardrails
      ([guardrails_verdict]); guessing the administrator's token is slow
      ([failed_logins_paced]) unless a log-in route answers the address in
      between ([login_route_resets]).
    - Routing: the selection is the best of what passes the filters
      ([select_channel_best], [weighted_random_proportional]); chains and retry
      settings do not depend on iteration order ([fallback_chain_spec],
      [retry_config_most_specific], [longest_prefix_wins]); an attempt records
      what the answer calls for ([attempt_bookkeeping]); the breaker and the
      cooldowns trip exactly when they should ([mark_circuit_open_window],
      [cooldown_trips_exactly]), but a success never closes a circuit early
      ([dispatch_success_never_promotes]).
    - Coalescing: a registration is completed except when it is left
      ([registration_completed_or_left]), and a wake-up can be lost
      ([coalesced_wakeup_lost]); cache hits are sound ([cache_hit_sound]).
    - Documents: requests survive the translation to Anthropic's format and back
      ([openai_request_roundtrip]), thinking parameters survive normalisation
      ([thinking_survives]), payload rules have one meaning
      ([payload_apply_spec]), model names and credentials are safe in upstream
      requests ([model_url_safe], [credentials_from_channel]).
    - Persistence: atomic writes and round trips ([persist_atomic],
      [persist_load_roundtrip], [config_roundtrip]).
    - Endpoints: the loop over tools ends within its bound
      ([tool_loop_bounded]); a tool that is offered is reached under its name
      ([gateway_tool_reachable], [mcp_names]); an answer survives the Responses
      format ([responses_answer_kept]); an embedding is accounted like a chat
      ([embeddings_account]); a stream that breaks off is cached as if whole
      ([broken_stream_cached]).
    - State: the shared state keeps its type and no operation panics while the
      channels are not changed ([shared_state_typed]); a reload makes the table that the file describes
      ([reload_table]), and saving and reloading changes nothing
      ([saved_config_reloads]).
    - Records: the hash chain of the audit log in memory verifies
      ([audit_chain_verifies]), the file's does not after a clearing
      ([cleared_file_unlinked]); it is stated exactly which tampering it misses ([audit_tampering]), and
      every change of a channel through the console is in it
      ([channel_changes_audited]); the ring of the dispatch log refines the log
      that keeps everything ([ring_refines_log]) and the reports are its exact
      sums ([usage_report_exact], [usage_history_totals]).
    - Administration: what is stored for a channel is guarded
      ([admin_channels_guarded], [notification_url_guard]) but for its base
      address ([base_url_unchecked]) and for what a reloaded file brings
      ([reload_unchecked]); batches do what they were asked
      ([batch_delete_exact], [batch_keys_made]); pages are complete
      ([key_pages_complete]); a holder sees what is theirs ([portal_sees_own]);
      an update cannot lift a limit ([update_never_lifts]).
    - Login: only a user the provider vouches for is logged in, and secrets
      reach only the issuer ([oidc_login_verified]); state tokens live ten
      minutes ([state_token_lifetime]); a user name stays in its place in a
      distinguished name ([bind_dn_names_user]); a login replaces the user's key
      by an unrestricted one ([login_replaces_key], [login_lifts_restrictions]).
    - Server: no handler runs without what guards it ([handlers_guarded]), a
      role reaches what it permits ([roles_reach]), what is open is listed
      ([open_handlers]), answers carry their headers ([responses_hardened]);
      the server stops when its drain time is over ([uptime_bounded]) and serves
      a renewed certificate ([renewal_served]).
    - Start: stored keys that no request deletes survive if they are read before
      the first save ([keys_kept_if_read_first]), a key deleted before they are
      loaded comes back ([early_delete_undone]), and the gateway is open until they are there
      ([open_until_loaded]); savers keep a file if they take turns
      ([turns_keep_file]) and not if they run at once
      ([concurrent_savers_corrupt]); the migration adds and never takes away
      ([migration_only_adds], [migration_idempotent]), but makes a store of one
      entry unreadable ([small_store_unloadable]).
    - Secrets: credentials survive a restart ([credentials_survive_restart]) and
      not a change of the administrator's token ([changed_token_erases]); a
      redacted body has no match of the patterns that are gone for good once
      replaced ([body_redacted]) and a redacted stream is complete
      ([stream_redacted]).
    - Quotas: a round of polling gives every channel its own entry
      ([polling_round]) and a path reads what it names ([json_path_reads]).
    - Configuration: the two sources of defaults agree
      ([empty_gateway_is_default]); a saved file is whole or the old one
      ([config_save_atomic]) and is read as it was saved ([config_reloads]); a
      broken one opens the administration unless the environment has a token
      ([broken_config_opens]); the model of
      the file that [AdminSettings] is proved against is implemented by it
      ([server_file_refined]); the commands agree on it ([validated_is_served]).
    - Launch: every configuration leads to a well-formed state that stays so
      while the tasks of the start load servers, budgets, quotas, keys and spend
      ([launch_typed]) and has the budgets of the file ([budgets_from_file]);
      discovery asks over https only ([discovery_guard]) and only with an
      interval ([discovery_needs_interval]).
    - Clients and models: the counters of the pool are those of the guards
      modulo their width ([counters_track]), which overflows
      ([full_counters_pile_up]); errors quote no key ([secrets_not_quoted]);
      addresses are tried in order ([fetching_order]).
    - The rest: tool servers follow the file ([servers_follow_file]) unless it
      is damaged by others ([damaged_file_forgets]); an event
      is delivered once by each way ([event_delivered]); a stop that comes too
      early is lost ([early_stop_lost]); a scrape takes the first event
      ([takes_first_event]); the save at shutdown is atomic
      ([persist_sync_atomic]); a stream keeps its events among comments
      ([keepalive_keeps_events]) and is never silent for long
      ([no_long_silence]), but a slow body hangs ([slow_body_hangs]); the status
      pages hide secrets ([auth_status_hides]) and a round over the tool servers
      shows what it found ([health_round], [all_tools_listed]).

    The theorems about dispatch are proved once for the programs, with
    [Prog.safe] (a weakest precondition over a monitor of the operations
    performed) and its rules, and transferred to every run by [Prog.safe_run];
    they assume nothing about the state, the readings or the other requests.

    ** Conventions

    - Integers are [Z].  Where Rust's [+] would overflow it wraps (the release
      profile), saturating operations clamp, [as] casts reduce; [Prelude] has the
      operators.  [f64] is [F64.f64].
    - A panic is a value ([Panic] of [outcome], [Crash] of a program), so that
      its absence is a theorem.
    - The iteration order of a [HashMap] is an argument (an enumeration, a
      permutation, or [Host.iter]); theorems hold for every order.
    - The clock is read where the code reads it and given as an argument.
      [Instant] and [DateTime] are milliseconds; local dates are strings, as
      the code compares them.
    - An operation that holds its lock to its end is one atomic step.  Where a
      lock is given up in between (the wait of [InFlightRequests], the probes)
      the model has the separate steps.  Locks are never poisoned.
    - Third-party code is an argument: printing and parsing JSON, hashes,
      uuids, header syntax, Unicode classes ([Host]), the Redis link, the
      credential store, random draws.  Laws about it appear as hypotheses of the
      theorems that need them, and their witnesses instantiate it.
    - A request that never ends has no run: it is a reading that does not occur
      (at most sixteen newlines of keep-alive, see [Keepalive]).
    - Background tasks are data ([App.Task]); running one is [Attempt.run_task].
    - Tests of characters and case mapping are those of ASCII, except where a
      parameter stands for the Unicode class.

    ** Bounds and fuel

    The loops of the dispatch recurse on the chain and on the retry count, which
    are the bounds the code has itself.  [Provider.collapse_dots] takes the
    length of the name as fuel and [model_url_safe] shows that is enough;
    [Glob.matches_glob] is structural.  The circuit
    breaker's shifts, the windows' buckets and the totals are proved within
    their widths where the statement needs it.
    The loop over tools recurses on the configured number of iterations, at
    least one, as the code does.  A reload and the administration handlers are
    one step each with one reading of the clock, except where a handler reads,
    waits and writes ([update_read], [update_write]): there the steps are apart.

    ** Not modelled

    Metrics and telemetry, which nothing reads back; HTTP transport;
    the set-up of the log output; of the desktop
    shell the tray, the window events and the commands that pass through to
    other components; the trait FileBackend, which has no caller; of the
    administration the handlers that pass on what one store holds.  The
    benchmark client, the web console (TypeScript) and the tests are not part of
    the gateway.  What each part leaves out is in the manifest.
    [ProxyParams] has the fields the dispatch reads; [BucketedWindow] is built
    with the one window length the code uses; the sort comparators are not
    claimed for NaN. *)

From stdpp Require Export base gmap strings list sorting fin_maps.
From Stdlib Require Export ZArith Lia ZifyBool.
From Stdlib Require Export Ascii.

(** ** Scopes, automation and notations *)

Declare Scope switch_scope.
Delimit Scope switch_scope with switch.
Open Scope switch_scope.
Open Scope Z_scope.

Create HintDb switch discriminated.
Create Rewrite HintDb switch_rw.

(** ** Identifiers and clocks

    A [Uuid] is its 128-bit value.  An [Instant] (std::time) and a
    [DateTime] (chrono) are both a number of milliseconds since an epoch; an
    operation that reads the clock takes the reading as an argument. *)

Abbreviation Uuid := N (only parsing).
Abbreviation Instant := Z (only parsing).
Abbreviation DateTime := Z (only parsing).

Definition uuid_nil : Uuid := 0%N.
Definition millis_of_secs (s : Z) : Z := 1000 * s.
Definition millis_of_minutes (m : Z) : Z := 60000 * m.

(** ** Machine integers

    A [u64], [u32] or [usize] is a [Z] in its range.  Plain [+] and [-] wrap
    (the release profile has no overflow checks), the saturating methods
    clamp. *)

Definition u8_max : Z := 2 ^ 8 - 1.
Definition u32_max : Z := 2 ^ 32 - 1.
Definition u64_max : Z := 2 ^ 64 - 1.

Definition in_u32 (z : Z) : Prop := 0 ≤ z ≤ u32_max.
Definition in_u64 (z : Z) : Prop := 0 ≤ z ≤ u64_max.

Definition wrap32 (z : Z) : Z := z mod 2 ^ 32.
Definition wrap64 (z : Z) : Z := z mod 2 ^ 64.
Definition as_i64 (z : Z) : Z :=
  let w := wrap64 z in if w <? 2 ^ 63 then w else w - 2 ^ 64.

Lemma as_i64_small z : - 2 ^ 63 ≤ z < 2 ^ 63 → as_i64 z = z.
Proof.
  intros Hz. unfold as_i64, wrap64. destruct (Z.leb_spec 0 z).
  - rewrite Z.mod_small by lia. case_match; lia.
  - rewrite <- (Z.mod_unique z (2 ^ 64) (-1) (z + 2 ^ 64)) by lia. case_match; lia.
Qed.

Definition add_u64 (a b : Z) : Z := wrap64 (a + b).
Definition add_u32 (a b : Z) : Z := wrap32 (a + b).
Definition sat_add64 (a b : Z) : Z := Z.min u64_max (a + b).
Definition sat_sub (a b : Z) : Z := Z.max 0 (a - b).
Definition sat_mul32 (a b : Z) : Z := Z.min u32_max (a * b).
Definition sat_mul64 (a b : Z) : Z := Z.min u64_max (a * b).
Definition sat_pow32 (a n : Z) : Z := Z.min u32_max (a ^ n).
Definition div_ceil (a b : Z) : Z := (a + b - 1) / b.
Definition clamp (lo hi z : Z) : Z := Z.max lo (Z.min hi z).

(** ** Panics

    A Rust expression that indexes, slices or inserts out of range panics.
    [outcome] is the result of a computation that may. *)

Inductive outcome (A : Type) : Type :=
  | Done (a : A)
  | Panic.
Arguments Done {A} a.
Arguments Panic {A}.

Definition outcome_bind {A B} (m : outcome A) (k : A → outcome B) : outcome B :=
  match m with Done a => k a | Panic => Panic end.

Notation "'let!' x ':=' m 'in' k" := (outcome_bind m (fun x => k))
  (at level 10, x pattern, m at level 100, k at level 200)
  : switch_scope.

(** The [?] operator on a [Result]. *)
Definition result_bind {A B E} (m : A + E) (k : A → B + E) : B + E :=
  match m with inl a => k a | inr e => inr e end.

Notation "'let?' x ':=' m 'in' k" := (result_bind m (fun x => k))
  (at level 10, x pattern, m at level 100, k at level 200)
  : switch_scope.

Lemma result_bind_inl {A B E} (m : A + E) (k : A → B + E) b :
  result_bind m k = inl b ↔ ∃ a, m = inl a ∧ k a = inl b.
Proof. destruct m; naive_solver. Qed.

Definition returns {A} (m : outcome A) : Prop := ∃ a, m = Done a.

#[global] Instance outcome_eq_dec {A} `{EqDecision A} : EqDecision (outcome A).
Proof. solve_decision. Defined.

(** ** Sequences *)

Definition sumZ (l : list Z) : Z := foldr Z.add 0 l.

(** [l.iter().filter(P).map(f).sum()] *)
Definition sum_where {A} (P : A → bool) (f : A → Z) (l : list A) : Z :=
  sumZ (f <$> List.filter P l).

(** [push_back(x)] on a deque, then [pop_front()] when it is longer than [cap]. *)
Definition push_bounded {A} (cap : nat) (w : list A) (x : A) : list A :=
  let w' := w ++ [x] in
  if (cap <? length w')%nat then tail w' else w'.

(** The last [n] elements. *)
Definition lastn {A} (n : nat) (l : list A) : list A := drop (length l - n) l.

(** The values of a HashMap, in one of the orders an iteration may see. *)
Definition map_values {K V} `{Countable K} (m : gmap K V) : list V :=
  (map_to_list m).*2.

Lemma sumZ_cons x l : sumZ (x :: l) = x + sumZ l.
Proof. done. Qed.

Lemma sumZ_app l k : sumZ (l ++ k) = sumZ l + sumZ k.
Proof. unfold sumZ. induction l as [|x l IH]; simpl; lia. Qed.

#[global] Instance sumZ_perm : Proper (Permutation ==> eq) sumZ.
Proof. induction 1; unfold sumZ in *; simpl in *; lia. Qed.

Section sum_where.
Context {A : Type} (f : A → Z).
Implicit Types (P Q : A → bool) (l : list A).

Lemma sum_where_nil P : sum_where P f [] = 0.
Proof. done. Qed.

Lemma sum_where_cons P x l :
  sum_where P f (x :: l) = (if P x then f x else 0) + sum_where P f l.
Proof. unfold sum_where, sumZ. simpl. by destruct (P x). Qed.

Lemma sum_where_app P l k : sum_where P f (l ++ k) = sum_where P f l + sum_where P f k.
Proof. unfold sum_where. by rewrite List.filter_app, fmap_app, sumZ_app. Qed.

Lemma sum_where_snoc P x l :
  sum_where P f (l ++ [x]) = sum_where P f l + (if P x then f x else 0).
Proof. rewrite sum_where_app, sum_where_cons, sum_where_nil. lia. Qed.

Lemma sum_where_ext P Q l :
  (∀ x, x ∈ l → P x = Q x) → sum_where P f l = sum_where Q f l.
Proof.
  induction l as [|x l IH]; intros H; [done|]. rewrite !sum_where_cons.
  rewrite (H x) by set_solver. rewrite IH by set_solver. done.
Qed.

Lemma sum_where_mono P Q l :
  (∀ x, x ∈ l → 0 ≤ f x) → (∀ x, x ∈ l → P x = true → Q x = true) →
  sum_where P f l ≤ sum_where Q f l.
Proof.
  induction l as [|x l IH]; intros H0 H; [done|]. rewrite !sum_where_cons.
  assert (sum_where P f l ≤ sum_where Q f l) by (apply IH; set_solver).
  assert (0 ≤ f x) by (apply H0; set_solver).
  pose proof (H x ltac:(set_solver)). destruct (P x), (Q x); try lia; naive_solver lia.
Qed.

Lemma sum_where_nonneg P l : (∀ x, x ∈ l → 0 ≤ f x) → 0 ≤ sum_where P f l.
Proof.
  induction l as [|x l IH]; intros H0; [done|]. rewrite !sum_where_cons.
  assert (0 ≤ sum_where P f l) by (apply IH; set_solver).
  assert (0 ≤ f x) by (apply H0; set_solver). destruct (P x); lia.
Qed.

Lemma sum_where_none P l : (∀ x, x ∈ l → P x = false) → sum_where P f l = 0.
Proof.
  intros H. induction l as [|x l IH]; [done|]. rewrite sum_where_cons, H by set_solver.
  rewrite IH; [lia|set_solver].
Qed.
End sum_where.

Lemma sumZ_mono {A} (F G : A → Z) l :
  (∀ x, x ∈ l → F x ≤ G x) → sumZ (F <$> l) ≤ sumZ (G <$> l).
Proof.
  induction l as [|x l IH]; intros H; [done|]. rewrite !fmap_cons, !sumZ_cons.
  pose proof (H x ltac:(set_solver)).
  assert (sumZ (F <$> l) ≤ sumZ (G <$> l)) by (apply IH; set_solver). lia.
Qed.

Lemma sumZ_plus {A} (F G : A → Z) l :
  sumZ ((λ x, F x + G x) <$> l) = sumZ (F <$> l) + sumZ (G <$> l).
Proof. induction l as [|x l IH]; [done|]. rewrite !fmap_cons, !sumZ_cons. lia. Qed.

(** A sum over a list, by index. *)
Lemma sum_where_index {A} (P : A → bool) f l :
  sum_where P f l =
  sumZ ((λ i, match l !! i with Some b => if P b then f b else 0 | None => 0 end)
          <$> seq 0 (length l)).
Proof.
  induction l as [|x l IH]; [done|]. rewrite sum_where_cons, IH. simpl length.
  rewrite <- cons_seq, <- fmap_S_seq, fmap_cons, <- list_fmap_compose. done.
Qed.

Lemma sumZ_indicator (k a : Z) n :
  0 ≤ k < Z.of_nat n →
  sumZ ((λ i, if k =? Z.of_nat i then a else 0) <$> seq 0 n) = a.
Proof.
  induction n as [|n IH]; [lia|]. intros Hk. rewrite seq_S, fmap_app, sumZ_app. simpl.
  destruct (Z.eqb_spec k (Z.of_nat n)) as [->|].
  - assert (sumZ ((λ i, if Z.of_nat n =? Z.of_nat i then a else 0) <$> seq 0 n) ≤ 0 ∧
            0 ≤ sumZ ((λ i, if Z.of_nat n =? Z.of_nat i then a else 0) <$> seq 0 n)) as Hz;
      [|unfold sumZ in *; simpl in *; lia].
    assert (((λ i, if Z.of_nat n =? Z.of_nat i then a else 0) <$> seq 0 n) =
            ((λ _, 0) <$> seq 0 n)) as ->.
    { apply list_fmap_ext. intros _ i Hi%list_elem_of_lookup_2.
      apply elem_of_seq in Hi. case_match; [lia|done]. }
    generalize (seq 0 n). intros l.
    assert (sumZ ((λ _, 0) <$> l) = 0); [|lia].
    induction l as [|x l IHl]; [done|]. by rewrite fmap_cons, sumZ_cons, IHl.
  - unfold sumZ in *. simpl. rewrite IH; lia.
Qed.

(** A sum by classes numbered below [n]. *)
Lemma sum_where_classes {A} (cls : A → Z) (Q : A → bool) f l n :
  (∀ x, x ∈ l → 0 ≤ cls x < Z.of_nat n) →
  sumZ ((λ i, sum_where (λ x, (cls x =? Z.of_nat i) && Q x) f l) <$> seq 0 n) =
  sum_where Q f l.
Proof.
  induction l as [|x l IH]; intros H.
  - rewrite sum_where_nil. clear. generalize (seq 0 n).
    induction l as [|y l IHl]; [done|]. by rewrite fmap_cons, sumZ_cons, IHl.
  - rewrite sum_where_cons, <- IH by set_solver.
    rewrite <- (sumZ_indicator (cls x) (if Q x then f x else 0) n) at 1 by set_solver.
    rewrite <- sumZ_plus. f_equal. apply list_fmap_ext. intros _ i _.
    rewrite sum_where_cons. by destruct (cls x =? Z.of_nat i), (Q x).
Qed.

Section windows.
Context {A : Type}.
Implicit Types (l w : list A).

Lemma length_push_bounded cap w x :
  (length w ≤ cap)%nat → (length (push_bounded cap w x) ≤ cap)%nat.
Proof.
  unfold push_bounded. rewrite length_app. simpl. intros.
  case_match; destruct w; simpl in *; rewrite ?length_app; simpl; lia.
Qed.

Lemma length_lastn n l : length (lastn n l) = Nat.min n (length l).
Proof. unfold lastn. rewrite length_drop. lia. Qed.

(** A bounded deque holds the last [cap] elements pushed. *)
Lemma push_bounded_lastn cap l x :
  (0 < cap)%nat → push_bounded cap (lastn cap l) x = lastn cap (l ++ [x]).
Proof.
  intros Hc. unfold push_bounded. rewrite length_app, length_lastn. simpl.
  unfold lastn. rewrite length_app. simpl. case_match eqn:E.
  - assert (cap ≤ length l)%nat by lia.
    replace (length l + 1 - cap)%nat with (S (length l - cap)) by lia.
    rewrite drop_app_le by lia.
    assert (length (drop (length l - cap) l) = cap) as HL by (rewrite length_drop; lia).
    destruct (drop (length l - cap) l) as [|y k] eqn:D; simpl in *; [lia|].
    replace (S (length l - cap)) with ((length l - cap) + 1)%nat by lia.
    rewrite <- drop_drop, D. done.
  - assert (length l < cap)%nat by lia.
    replace (length l - cap)%nat with 0%nat by lia.
    by replace (length l + 1 - cap)%nat with 0%nat by lia.
Qed.
End windows.

(** The sum of the values of a map, under insertion and deletion. *)
Section sum_values.
Context {K : Type} `{Countable K}.
Implicit Types m : gmap K Z.

Definition sum_values m : Z := sumZ (map_values m).

Lemma sum_values_empty : sum_values ∅ = 0.
Proof. unfold sum_values, map_values. by rewrite map_to_list_empty. Qed.

Lemma sum_values_insert_fresh m k v :
  m !! k = None → sum_values (<[k := v]> m) = v + sum_values m.
Proof.
  intros. unfold sum_values, map_values. by rewrite map_to_list_insert.
Qed.

Lemma sum_values_delete m k :
  sum_values m = default 0 (m !! k) + sum_values (delete k m).
Proof.
  destruct (m !! k) as [v|] eqn:E; simpl.
  - rewrite <- (insert_delete_id m k v) at 1 by done.
    apply sum_values_insert_fresh, lookup_delete_eq.
  - by rewrite delete_id.
Qed.

Lemma sum_values_insert m k v :
  sum_values (<[k := v]> m) = sum_values m - default 0 (m !! k) + v.
Proof.
  rewrite (sum_values_delete m k), <- insert_delete_eq.
  rewrite sum_values_insert_fresh by apply lookup_delete_eq. lia.
Qed.
End sum_values.

(** [Vec::sort_by] is a stable sort.  [le a b] says that the comparison of
    [a] and [b] is not [Greater]. *)
Section stable_sort.
Context {A : Type} (le : A → A → bool).

Fixpoint sort_insert (x : A) (l : list A) :=
  match l with
  | [] => [x]
  | y :: l' => if le x y then x :: l else y :: sort_insert x l'
  end.

Definition stable_sort (l : list A) : list A := foldr sort_insert [] l.

Lemma sort_insert_perm x l : sort_insert x l ≡ₚ x :: l.
Proof.
  induction l as [|y l IH]; simpl; [done|].
  case_match; [done|]. rewrite IH. apply Permutation_swap.
Qed.

Lemma stable_sort_perm l : stable_sort l ≡ₚ l.
Proof. induction l as [|x l IH]; simpl; [done|]. by rewrite sort_insert_perm, IH. Qed.

Lemma elem_of_stable_sort x l : x ∈ stable_sort l ↔ x ∈ l.
Proof. by rewrite stable_sort_perm. Qed.

Lemma stable_sort_length l : length (stable_sort l) = length l.
Proof. apply Permutation_length, stable_sort_perm. Qed.

Lemma stable_sort_nil l : stable_sort l = [] ↔ l = [].
Proof.
  split; [|by intros ->]. intros H. apply Permutation_nil.
  by rewrite <- H, stable_sort_perm.
Qed.

Context (le_total : ∀ a b, le a b = true ∨ le b a = true).
Context (le_trans : ∀ a b c, le a b = true → le b c = true → le a c = true).

Lemma sort_insert_sorted x l :
  StronglySorted (λ a b, le a b = true) l →
  StronglySorted (λ a b, le a b = true) (sort_insert x l).
Proof using le_total le_trans.
  induction 1 as [|y l Hl IH Hy]; simpl; [repeat constructor|].
  destruct (le x y) eqn:E.
  - constructor; [by constructor|]. constructor; [done|].
    eapply Forall_impl; [exact Hy|]. simpl. eauto.
  - constructor; [done|]. rewrite sort_insert_perm. constructor; [|done].
    by destruct (le_total x y); [congruence|].
Qed.

Lemma stable_sort_sorted l : StronglySorted (λ a b, le a b = true) (stable_sort l).
Proof using le_total le_trans.
  induction l; simpl; [constructor|]. by apply sort_insert_sorted.
Qed.

(** Everything in the first [k] places is at most everything after them. *)
Lemma stable_sort_take_le k l a b :
  a ∈ take k (stable_sort l) → b ∈ drop k (stable_sort l) → le a b = true.
Proof using le_total le_trans.
  intros Ha Hb. pose proof (stable_sort_sorted l) as Hs.
  rewrite <- (take_drop k) in Hs.
  by eapply StronglySorted_app_1_elem_of in Hs.
Qed.
End stable_sort.

(** ** Strings of the standard library *)

Definition is_ascii_digit (c : ascii) : bool :=
  (48 <=? Z.of_N (N_of_ascii c)) && (Z.of_N (N_of_ascii c) <=? 57).
Definition digit_value (c : ascii) : Z := Z.of_N (N_of_ascii c) - 48.

(** [str::to_ascii_lowercase]; [str::to_lowercase] agrees with it on ASCII. *)
Definition lower_ascii (c : ascii) : ascii :=
  let n := N_of_ascii c in
  if (65 <=? n)%N && (n <=? 90)%N then ascii_of_N (n + 32) else c.
Fixpoint to_lowercase (s : string) : string :=
  match s with
  | EmptyString => EmptyString
  | String c s' => String (lower_ascii c) (to_lowercase s')
  end.

Definition starts_with (s p : string) : bool := String.prefix p s.

(** [str::trim], of ASCII white space. *)
Definition is_space (c : ascii) : bool :=
  let n := N_of_ascii c in (n =? 32)%N || ((9 <=? n) && (n <=? 13))%N.
Fixpoint trim_start (s : string) : string :=
  match s with
  | String c s' => if is_space c then trim_start s' else s
  | EmptyString => s
  end.
Fixpoint trim_end (s : string) : string :=
  match s with
  | String c s' =>
      let r := trim_end s' in
      if is_space c && String.eqb r "" then EmptyString else String c r
  | EmptyString => s
  end.
Definition trim (s : string) : string := trim_end (trim_start s).

(** [s.trim_end_matches('/')] *)
Fixpoint trim_end_slashes (s : string) : string :=
  match s with
  | EmptyString => ""
  | String c s' =>
      let r := trim_end_slashes s' in
      if ascii_dec c "/" then if String.eqb r "" then "" else String c r else String c r
  end.

(** [s.strip_prefix(p)] *)
Fixpoint strip_prefix (p s : string) : option string :=
  match p, s with
  | EmptyString, _ => Some s
  | String a p', String b s' => if ascii_dec a b then strip_prefix p' s' else None
  | String _ _, EmptyString => None
  end.

(** [s.split(c)]: at least one piece, one more than there are separators. *)
Fixpoint split_on (c : ascii) (s : string) : list string :=
  match s with
  | EmptyString => [EmptyString]
  | String a s' =>
      if ascii_dec a c then EmptyString :: split_on c s'
      else match split_on c s' with
           | [] => [String a EmptyString]
           | w :: ws => String a w :: ws
           end
  end.

(** [s.split_once(c)] *)
Fixpoint split_once (c : ascii) (s : string) : option (string * string) :=
  match s with
  | EmptyString => None
  | String a s' =>
      if ascii_dec a c then Some (EmptyString, s')
      else option_map (λ '(u, v), (String a u, v)) (split_once c s')
  end.

(** [s.parse::<uN>()] for an unsigned type with maximum [max]: an optional
    [+], then one or more digits, and no overflow. *)
Fixpoint parse_digits (max : Z) (s : string) (acc : Z) : option Z :=
  match s with
  | EmptyString => Some acc
  | String c s' =>
      if is_ascii_digit c then
        let acc' := 10 * acc + digit_value c in
        if acc' <=? max then parse_digits max s' acc' else None
      else None
  end.
Definition parse_uint (max : Z) (s : string) : option Z :=
  match s with
  | EmptyString => None
  | String c s' =>
      if ascii_dec c "+"%char
      then match s' with EmptyString => None | _ => parse_digits max s' 0 end
      else parse_digits max s 0
  end.

(** [s.contains(p)] *)
Fixpoint contains (s p : string) : bool :=
  starts_with s p ||
  match s with String _ s' => contains s' p | EmptyString => false end.

(** [str::replace]; [skip] characters belong to the last occurrence found. *)
Fixpoint replace_from (pattern by_ : string) (skip : nat) (s : string) : string :=
  match s with
  | EmptyString => ""
  | String c s' =>
      match skip with
      | S k => replace_from pattern by_ k s'
      | O => if starts_with s pattern
             then by_ +:+ replace_from pattern by_ (String.length pattern - 1) s'
             else String c (replace_from pattern by_ 0 s')
      end
  end.
Definition replace (pattern by_ s : string) : string := replace_from pattern by_ 0 s.

(** [s.chars()]: the code points of valid UTF-8.  A lead byte opens a code
    point, a continuation byte adds six bits to it. *)
Definition lead_bits (b : Z) : Z :=
  if b <? 128 then b else if b <? 224 then b mod 32 else if b <? 240 then b mod 16 else b mod 8.
Fixpoint chars_from (open : option Z) (s : string) : list Z :=
  match s with
  | EmptyString => match open with Some c => [c] | None => [] end
  | String a s' =>
      let b := Z.of_N (N_of_ascii a) in
      if (128 <=? b) && (b <? 192)
      then chars_from ((λ c, 64 * c + b mod 64) <$> open) s'
      else match open with
           | Some c => c :: chars_from (Some (lead_bits b)) s'
           | None => chars_from (Some (lead_bits b)) s'
           end
  end.
Definition chars (s : string) : list Z := chars_from None s.

(** [s.chars().take(n).collect()] *)
Fixpoint take_chars (n : nat) (s : string) : string :=
  match s with
  | EmptyString => EmptyString
  | String a s' =>
      let b := Z.of_N (N_of_ascii a) in
      if (128 <=? b) && (b <? 192) then String a (take_chars n s')
      else match n with O => EmptyString | S n => String a (take_chars n s') end
  end.
Lemma chars_take n s : chars (take_chars n s) = take n (chars s).
Proof.
  assert (∀ s n o, chars_from o (take_chars n s) =
    match o with Some _ => take (S n) (chars_from o s) | None => take n (chars_from None s) end) as H; [|apply (H s n None)].
  clear. intros s. induction s as [|a s IH]; intros n o; [destruct o; cbn; by rewrite ?take_nil|]. cbn [take_chars chars_from].
  destruct (_ && _) eqn:E.
  - cbn [chars_from]. rewrite E, IH. by destruct o.
  - destruct n as [|n]; [destruct o; cbn; by rewrite ?take_0|]. cbn [chars_from]. rewrite E. destruct o; cbn [take]; by rewrite IH.
Qed.

Example chars_ascii_and_cjk : chars (String "a"%char (String "228"%char
  (String "189"%char (String "160"%char (String "b"%char EmptyString))))) = [97; 20320; 98].
Proof. reflexivity. Qed.

Lemma starts_with_spec s p : starts_with s p = true ↔ ∃ v, s = p +:+ v.
Proof.
  unfold starts_with. revert s. induction p as [|a p IH]; intros s.
  - split; [by exists s|]. by destruct s.
  - change (String a p +:+ ?v) with (String a (p +:+ v)).
    destruct s as [|b s]; [split; [done|by intros [v ?]]|]. simpl.
    destruct (ascii_dec a b) as [->|Hab].
    + rewrite IH. split; intros [v H]; exists v; [by rewrite H|by injection H].
    + split; [done|]. intros [v H]. by injection H.
Qed.

Lemma contains_spec s p : contains s p = true ↔ ∃ u v, s = u +:+ p +:+ v.
Proof.
  assert (Hp : ∀ s p, starts_with s p = true ↔ ∃ v, s = p +:+ v) by apply starts_with_spec.
  induction s as [|a s IH]; cbn [contains]; rewrite orb_true_iff, Hp.
  - split; [intros [[v ->]|]; [by exists "", v|done]|].
    intros (u&v&H). destruct u; [left; by exists v|done].
  - rewrite IH. split.
    + intros [[v ->]|(u&v&->)]; [by exists "", v|by exists (String a u), v].
    + intros (u&v&H). destruct u as [|b u]; [left; by exists v|]. injection H as -> ->.
      right. by exists u, v.
Qed.

Lemma substring_split n s : (n ≤ String.length s)%nat →
  String.substring 0 n s +:+ String.substring n (String.length s - n) s = s.
Proof.
  revert s. induction n as [|n IH]; intros s Hn.
  - rewrite Nat.sub_0_r. assert (∀ s, String.substring 0 (String.length s) s = s) as H.
    { clear. induction s as [|c s IH]; [done|]. cbn. by rewrite IH. }
    rewrite H. by destruct s.
  - destruct s as [|c s]; [cbn in Hn; lia|]. cbn in Hn. cbn [String.length Nat.sub].
    change (String c (String.substring 0 n s +:+ String.substring n (String.length s - n) s) = String c s).
    rewrite IH by lia. done.
Qed.

Lemma string_leb_trans (a b c : string) : String.leb a b = true → String.leb b c = true → String.leb a c = true.
Proof.
  intros H1%Is_true_true H2%Is_true_true. apply Is_true_true. change (strings.String.le a c).
  etransitivity; [exact H1|exact H2].
Qed.

(** A prefix without the character ends before it, and an occurrence lies on one side. *)
Fixpoint lacks (c : ascii) (s : string) : Prop :=
  match s with EmptyString => True | String a s' => a ≠ c ∧ lacks c s' end.
Lemma starts_with_across c q b r : lacks c q → starts_with (b +:+ String c r) q = true → starts_with b q = true.
Proof.
  rewrite !starts_with_spec. revert q. induction b as [|a b IH]; intros q Hq [v Hv].
  - destruct q as [|x q]; [by exists ""|]. destruct Hq as [Hx _]. by injection Hv.
  - destruct q as [|x q]; [by exists (String a b)|]. injection Hv as -> Hv. destruct (IH q (proj2 Hq)) as [w Hw]; [by exists v|].
    exists w. change (String x b = String x (q +:+ w)). by rewrite Hw.
Qed.
Lemma contains_across c q b r : lacks c q → q ≠ "" → contains (b +:+ String c r) q = true →
  contains b q = true ∨ contains r q = true.
Proof.
  intros Hq Hne. induction b as [|a b IH].
  - change ("" +:+ String c r) with (String c r). cbn [contains]. rewrite orb_true_iff. intros [H|H]; [|by right].
    apply starts_with_spec in H as [v Hv]. destruct q as [|x q]; [done|]. destruct Hq as [Hx _]. by injection Hv.
  - change (String a b +:+ String c r) with (String a (b +:+ String c r)). cbn [contains]. rewrite !orb_true_iff. intros [H|H].
    + left. left. by apply (starts_with_across c q (String a b) r).
    + destruct (IH H); [left|]; auto.
Qed.

Lemma split_on_cons c s : ∃ w ws, split_on c s = w :: ws.
Proof.
  destruct s as [|a s]; simpl; [eauto|]. repeat case_match; eauto.
Qed.

Lemma split_on_app c a b : split_on c (a +:+ String c b) = split_on c a ++ split_on c b.
Proof.
  induction a as [|x a IH].
  - change ("" +:+ String c b) with (String c b). cbn. by destruct (ascii_dec c c).
  - change (String x a +:+ String c b) with (String x (a +:+ String c b)). cbn [split_on].
    rewrite IH. destruct (ascii_dec x c); [done|].
    destruct (split_on_cons c a) as (w&ws&->). done.
Qed.

Lemma split_on_single c s w : split_on c s = [w] → w = s.
Proof.
  revert w. induction s as [|a s IH]; simpl; intros w H; [by simplify_eq|].
  destruct (split_on_cons c s) as (u&us&E). rewrite E in *.
  case_match; simplify_eq. f_equal. by apply IH.
Qed.

Lemma strip_prefix_Some p : ∀ s r, strip_prefix p s = Some r ↔ s = p +:+ r.
Proof.
  induction p as [|a p IH]; intros s r; simpl.
  - change ("" +:+ r) with r. split; congruence.
  - change (String a p +:+ r) with (String a (p +:+ r)).
    destruct s as [|b s]; [split; congruence|]. destruct (ascii_dec a b) as [->|Hab].
    + rewrite IH. split; congruence.
    + split; [done|]. congruence.
Qed.

Lemma strip_prefix_app p s : strip_prefix p (p +:+ s) = Some s.
Proof. by apply strip_prefix_Some. Qed.

Lemma length_app_str (a b : string) :
  String.length (a +:+ b) = (String.length a + String.length b)%nat.
Proof.
  induction a as [|c a IH]; [done|]. change (String c a +:+ b) with (String c (a +:+ b)).
  cbn. by rewrite IH.
Qed.
Lemma app_nil_r_str (s : string) : s +:+ "" = s.
Proof. induction s as [|a s IH]; [done|]. change (String a (s +:+ "") = String a s). by rewrite IH. Qed.
Lemma app_assoc_string (a b c : string) : (a +:+ b) +:+ c = a +:+ (b +:+ c).
Proof.
  induction a as [|x a IH]; [done|].
  change (String x ((a +:+ b) +:+ c) = String x (a +:+ (b +:+ c))). by rewrite IH.
Qed.

(** A text without a dot. *)
Definition dotless (s : string) : Prop := split_on "." s = [s].
Lemma dotless_cons c s : c ≠ "."%char → dotless s → dotless (String c s).
Proof. unfold dotless. intros Hc Hs. cbn. rewrite Hs. by destruct (ascii_dec c "."). Qed.

Lemma parse_digits_bounds max s acc z :
  0 ≤ acc → parse_digits max s acc = Some z → 0 ≤ z.
Proof.
  revert acc. induction s as [|c s IH]; simpl; intros acc Hacc H; [congruence|].
  destruct (is_ascii_digit c) eqn:D; [|done].
  case_match; [|done]. eapply IH; [|done].
  unfold is_ascii_digit, digit_value in *. lia.
Qed.

Lemma parse_digits_max max s acc z :
  acc ≤ max → parse_digits max s acc = Some z → z ≤ max.
Proof.
  revert acc. induction s as [|c s IH]; simpl; intros acc Hacc H; [congruence|].
  destruct (is_ascii_digit c); [|done]. case_match; [|done]. eapply IH; [|done]. lia.
Qed.

Lemma parse_uint_range max s z : 0 ≤ max → parse_uint max s = Some z → 0 ≤ z ≤ max.
Proof.
  intros Hm H. unfold parse_uint in H.
  destruct s as [|c s]; [done|]. case_match.
  - destruct s; [done|].
    split; [eapply parse_digits_bounds|eapply parse_digits_max]; [|exact H| |exact H]; lia.
  - split; [eapply parse_digits_bounds|eapply parse_digits_max]; [|exact H| |exact H]; lia.
Qed.

(** ** The last element of a key, and tables built by insertion *)

Section chosen.
Context {A K : Type} (beq : K → K → bool) (beq_spec : ∀ a b, reflect (a = b) (beq a b)).
Context (key : A → K).

(** The last element of a key. *)
Definition chosen (l : list A) (k : K) : option A := last (List.filter (λ x, beq (key x) k) l).

Lemma chosen_snoc l x k : chosen (l ++ [x]) k = if beq (key x) k then Some x else chosen l k.
Proof using.
  unfold chosen. rewrite List.filter_app. cbn. destruct (beq (key x) k); [by rewrite last_snoc|].
  by rewrite app_nil_r.
Qed.

Lemma chosen_in l k x : chosen l k = Some x → x ∈ l ∧ key x = k.
Proof using beq_spec.
  intros H%last_Some_elem_of. rewrite list_elem_of_In, filter_In, <- list_elem_of_In in H.
  by destruct (beq_spec (key x) k), H.
Qed.
Lemma chosen_none l k : chosen l k = None ↔ ∀ x, x ∈ l → key x ≠ k.
Proof using beq_spec.
  split.
  - intros H x Hx <-. apply last_None in H.
    assert (x ∈ List.filter (λ y, beq (key y) (key x)) l) as Hin.
    { rewrite list_elem_of_In, filter_In, <- list_elem_of_In. by destruct (beq_spec (key x) (key x)). }
    rewrite H in Hin. by apply not_elem_of_nil in Hin.
  - intros H. destruct (chosen l k) as [x|] eqn:E; [|done]. apply chosen_in in E as [Hx <-].
    by destruct (H x Hx).
Qed.
Lemma chosen_unique l k x : NoDup (key <$> l) → x ∈ l → key x = k → chosen l k = Some x.
Proof using beq_spec.
  intros Hnd Hx Hu. destruct (chosen l k) as [y|] eqn:E.
  - apply chosen_in in E as [Hy Hk]. f_equal.
    apply list_elem_of_lookup_1 in Hx as [i Hi], Hy as [j Hj].
    assert (i = j) as ->; [|congruence].
    apply (NoDup_lookup (key <$> l) i j k); [done|..]; rewrite list_lookup_fmap;
      [rewrite Hi|rewrite Hj]; cbn; congruence.
  - exfalso. apply (proj1 (chosen_none l k) E x Hx Hu).
Qed.

Lemma NoDup_keys_filter (P : A → bool) l : NoDup (key <$> l) → NoDup (key <$> List.filter P l).
Proof using.
  induction l as [|x l IH]; cbn; [done|]. intros [Hx Hl]%NoDup_cons. destruct (P x); [|by apply IH].
  rewrite fmap_cons. apply NoDup_cons. split; [|by apply IH].
  intros (y&Hy&Hin)%list_elem_of_fmap. apply Hx. rewrite Hy. apply list_elem_of_fmap_2.
  rewrite list_elem_of_In, filter_In, <- list_elem_of_In in Hin. apply Hin.
Qed.
Lemma chosen_filter (P : A → bool) l k :
  NoDup (key <$> l) →
  chosen (List.filter P l) k =
  match chosen l k with Some x => if P x then Some x else None | None => None end.
Proof using beq_spec.
  intros Hnd. assert (∀ x, x ∈ List.filter P l ↔ x ∈ l ∧ P x = true) as Hin
    by (intros x; by rewrite list_elem_of_In, filter_In, <- list_elem_of_In).
  destruct (chosen l k) as [x|] eqn:E.
  - apply chosen_in in E as [Hx Hk]. destruct (P x) eqn:HP.
    + apply chosen_unique; [by apply NoDup_keys_filter|by apply Hin|done].
    + apply chosen_none. intros y [Hy HPy]%Hin Hky.
      assert (Some x = Some y) as [= ->]; [|congruence].
      rewrite <- (chosen_unique l k x), <- (chosen_unique l k y) by done. done.
  - apply chosen_none. intros y [Hy _]%Hin. by apply (proj1 (chosen_none l k) E).
Qed.
End chosen.

Section tables.
Context {A B : Type} (key : A → Uuid) (val : A → B).
#[local] Abbreviation picked := (chosen N.eqb key).

Lemma fold_insert m l u :
  foldl (λ m x, <[key x := val x]> m) m l !! u =
  match picked l u with Some x => Some (val x) | None => (m : gmap Uuid B) !! u end.
Proof.
  induction l as [|x l IH] using rev_ind; [done|]. rewrite foldl_app, chosen_snoc. cbn.
  destruct (N.eqb_spec (key x) u) as [<-|Hne]; [by rewrite lookup_insert_eq|].
  by rewrite lookup_insert_ne.
Qed.

Lemma fold_replace m l u :
  foldl (λ m x, match (m : gmap Uuid B) !! key x with
                | Some _ => <[key x := val x]> m | None => m end) m l !! u =
  match m !! u with
  | Some b => Some (match picked l u with Some x => val x | None => b end)
  | None => None
  end.
Proof.
  induction l as [|x l IH] using rev_ind; [cbn; by destruct (m !! u)|].
  rewrite foldl_app, chosen_snoc. cbn. set (m' := foldl _ _ _) in *. destruct (N.eqb_spec (key x) u) as [->|Hne].
  - destruct (m' !! u) as [b|] eqn:E.
    + rewrite lookup_insert_eq. by destruct (m !! u).
    + by destruct (m !! u).
  - destruct (m' !! key x); [by rewrite lookup_insert_ne|done].
Qed.
End tables.

(** ** Elements grouped by a key, as in an ordered map

    [in_order] is [into_values] of a [BTreeMap]. *)

Definition in_order {K V} `{Countable K} (le : K → K → bool) (m : gmap K V) : list V :=
  (stable_sort (λ a b, le a.1 b.1) (map_to_list m)).*2.

Section group.
Context {A B : Type} {K : Type} `{Countable K}.
Context (key : A → K) (init : A → B) (step : A → B → B).

Definition into (m : gmap K B) (x : A) : gmap K B :=
  <[key x := step x (default (init x) (m !! key x))]> m.

(** The group of a key: its elements in order. *)
Lemma group_lookup ls k :
  foldl into ∅ ls !! k =
  match List.filter (λ x, bool_decide (key x = k)) ls with
  | [] => None
  | x :: rest => Some (foldl (λ b y, step y b) (step x (init x)) rest)
  end.
Proof.
  induction ls as [|y ls IH] using rev_ind; [done|].
  rewrite foldl_app, List.filter_app. cbn [foldl List.filter]. unfold into at 1.
  destruct (decide (key y = k)) as [<-|Hne].
  - rewrite lookup_insert_eq, IH, bool_decide_eq_true_2 by done.
    destruct (List.filter _ ls) as [|x rest]; [done|]. cbn. by rewrite foldl_app.
  - rewrite lookup_insert_ne, IH, bool_decide_eq_false_2, app_nil_r by done. done.
Qed.

(** Sums over the groups are sums over the elements, up to a modulus (zero for
    none). *)
Context (measure : B → Z) (weight : A → Z) (modulus : Z).
Context (measure_init : ∀ x, measure (init x) = 0).
Context (measure_step : ∀ x b, measure (step x b) mod modulus = (measure b + weight x) mod modulus).

Lemma group_total ls :
  sumZ (measure <$> (map_to_list (foldl into ∅ ls)).*2) mod modulus = sumZ (weight <$> ls) mod modulus.
Proof using measure_init measure_step.
  induction ls as [|y ls IH] using rev_ind; [cbn; by rewrite map_to_list_empty|].
  rewrite foldl_app, fmap_app, sumZ_app. cbn [foldl fmap list_fmap]. set (m := foldl into ∅ ls) in *.
  rewrite Zplus_mod, <- IH, <- Zplus_mod. unfold into. cbn. rewrite Z.add_0_r.
  destruct (m !! key y) as [b|] eqn:E; cbn [default].
  - rewrite <- (insert_delete_id m (key y) b) at 2 by done. rewrite <- insert_delete_eq.
    rewrite !map_to_list_insert by apply lookup_delete_eq. cbn [fmap list_fmap snd default from_option Datatypes.id]. rewrite !sumZ_cons.
    rewrite Zplus_mod, measure_step, <- Zplus_mod. f_equal. lia.
  - rewrite map_to_list_insert by done. cbn [fmap list_fmap snd default from_option]. rewrite sumZ_cons.
    rewrite Zplus_mod, measure_step, <- Zplus_mod, measure_init. f_equal. lia.
Qed.
End group.

Lemma in_order_perm {K V} `{Countable K} le (m : gmap K V) : in_order le m ≡ₚ (map_to_list m).*2.
Proof. unfold in_order. by rewrite stable_sort_perm. Qed.

(** Keys of a map in order. *)
Lemma in_order_sorted {V} (m : gmap Z V) (key : V → Z) :
  (∀ k v, m !! k = Some v → key v = k) → StronglySorted Z.lt (key <$> in_order Z.leb m).
Proof.
  intros Hk. unfold in_order.
  assert (key <$> (stable_sort (λ a b, Z.leb a.1 b.1) (map_to_list m)).*2 =
          (stable_sort (λ a b, Z.leb a.1 b.1) (map_to_list m)).*1) as ->.
  { rewrite <- list_fmap_compose. apply list_fmap_ext. intros i [k v] H%list_elem_of_lookup_2.
    apply elem_of_stable_sort, elem_of_map_to_list, Hk in H. done. }
  pose proof (stable_sort_sorted (λ a b : Z * V, Z.leb a.1 b.1)
    ltac:(intros; rewrite !Z.leb_le; lia) ltac:(intros ???; rewrite !Z.leb_le; lia) (map_to_list m)) as Hs.
  assert (NoDup (stable_sort (λ a b : Z * V, Z.leb a.1 b.1) (map_to_list m)).*1) as Hn.
  { rewrite stable_sort_perm. apply NoDup_fst_map_to_list. }
  induction Hs as [|a l Hl IH Ha]; [constructor|]. cbn in *. apply NoDup_cons in Hn as [Hna Hn].
  constructor; [by apply IH|]. rewrite Forall_fmap. rewrite Forall_forall in Ha |- *. intros x Hx. cbn.
  specialize (Ha x Hx). apply Z.leb_le in Ha. destruct (decide (a.1 = x.1)) as [E|]; [|lia].
  destruct Hna. rewrite E. by apply list_elem_of_fmap_2.
Qed.
