(* ===== verification/HttpPool.v ===== *)
(** The pool of HTTP clients (http_pool.rs): the counters of the requests under way,
    the choice of the least busy client, and the clients of the proxies. *)

From S2P Require Import Prelude.

Module Pool.
Section pool.
(** [build] is [build_proxied_client]: a client that uses the proxy, or why there is
    none. *)
Context {Client : Type} (build : string → Client + string).

(** The counters of the pooled clients, which are known by their position, and the
    clients of the proxies. *)
Record HttpPool := mkPool {
  active : list Z;
  proxied_clients : gmap string Client;
}.
(** A guard counts on its client, or on a counter of its own. *)
Inductive PooledClient := Pooled (i : nat) | Standalone (c : Client).

Definition new (size : nat) : HttpPool := mkPool (replicate size 0) ∅.

(** Eight bits, wrapping. *)
Definition fetch_add (c : Z) : Z := (c + 1) mod 256.
Definition fetch_sub (c : Z) : Z := (c - 1) mod 256.

Fixpoint scan_counts (i best_idx : nat) (best_count : Z) (counts : list Z) : nat :=
  match counts with
  | [] => best_idx
  | count :: rest =>
      if count <? best_count then scan_counts (S i) i count rest else scan_counts (S i) best_idx best_count rest
  end.
Definition least_busy_index (counts : list Z) : nat := scan_counts 0 0 255 counts.

(** A pool without clients panics. *)
Definition take_client (i : nat) (p : HttpPool) : outcome (HttpPool * PooledClient) :=
  match active p !! i with
  | Some c => Done (mkPool (<[i := fetch_add c]> (active p)) (proxied_clients p), Pooled i)
  | None => Panic
  end.
Definition get (p : HttpPool) : outcome (HttpPool * PooledClient) := take_client (least_busy_index (active p)) p.
Definition first (p : HttpPool) : outcome (HttpPool * PooledClient) := take_client 0 p.

Definition drop_guard (g : PooledClient) (p : HttpPool) : HttpPool :=
  match g with
  | Pooled i => mkPool (alter fetch_sub i (active p)) (proxied_clients p)
  | Standalone _ => p
  end.

Definition get_proxied (proxy_url : string) (p : HttpPool) : HttpPool * (Client + string) :=
  match proxied_clients p !! proxy_url with
  | Some c => (p, inl c)
  | None =>
      match build proxy_url with
      | inl c => (mkPool (active p) (<[proxy_url := c]> (proxied_clients p)), inl c)
      | inr e => (p, inr e)
      end
  end.
Definition proxied_pooled_client (proxy_url : string) (p : HttpPool) : HttpPool * (PooledClient + string) :=
  let '(p, r) := get_proxied proxy_url p in (p, match r with inl c => inl (Standalone c) | inr e => inr e end).

(** The requests: each takes a guard and drops it when it is over. *)
Inductive Use := Get | First | Proxied (url : string) | Release (k : nat).
Definition use (u : Use) (s : HttpPool * list PooledClient) : outcome (HttpPool * list PooledClient) :=
  let '(p, guards) := s in
  match u with
  | Get => let! r := get p in Done (r.1, r.2 :: guards)
  | First => let! r := first p in Done (r.1, r.2 :: guards)
  | Proxied url =>
      let '(p, r) := proxied_pooled_client url p in
      Done (p, match r with inl g => g :: guards | inr _ => guards end)
  | Release k =>
      Done (match guards !! k with Some g => (drop_guard g p, base.delete k guards) | None => (p, guards) end)
  end.
Fixpoint uses (us : list Use) (s : HttpPool * list PooledClient) : outcome (HttpPool * list PooledClient) :=
  match us with
  | [] => Done s
  | u :: us => let! s := use u s in uses us s
  end.
End pool.
Arguments HttpPool : clear implicits.
Arguments PooledClient : clear implicits.
End Pool.

Module PoolProps.
Import Pool.

(** *** The choice *)

Lemma scan_none i bi bc counts : Forall (λ c, bc ≤ c) counts → scan_counts i bi bc counts = bi.
Proof.
  intros H. revert i. induction H as [|c l Hc _ IH]; intros i; [done|]. cbn. rewrite (proj2 (Z.ltb_ge c bc)) by done. apply IH.
Qed.
Lemma scan_first counts : ∀ i bi bc k c, counts !! k = Some c → c < bc →
  (∀ j d, (j < k)%nat → counts !! j = Some d → c < d) → Forall (λ d, c ≤ d) counts →
  scan_counts i bi bc counts = (i + k)%nat.
Proof.
  induction counts as [|x l IH]; intros i bi bc k c Hk Hc Hb Ha; [done|]. inversion Ha as [|? ? Hx Hl]; subst.
  destruct k as [|k].
  - injection Hk as ->. cbn. rewrite (proj2 (Z.ltb_lt c bc)) by done. rewrite scan_none by done. lia.
  - specialize (Hb 0%nat x ltac:(lia) eq_refl) as Hx0. rewrite Nat.add_succ_r, <- Nat.add_succ_l. cbn in Hk |- *.
    assert (∀ j d, (j < k)%nat → l !! j = Some d → c < d) as Hb' by (intros j d Hj; apply (Hb (S j)); lia).
    change (S (i + k)) with (S i + k)%nat.
    destruct (x <? bc); by apply (IH _ _ _ k c).
Qed.
Lemma least_busy_index_lt counts : counts ≠ [] → (least_busy_index counts < length counts)%nat.
Proof.
  assert (∀ l i bi bc, (scan_counts i bi bc l = bi ∨ scan_counts i bi bc l < i + length l)%nat) as H.
  { induction l as [|x l IH]; intros i bi bc; [by left|]. cbn. destruct (x <? bc).
    - right. destruct (IH (S i) i x); lia.
    - destruct (IH (S i) bi bc); [by left|right; lia]. }
  intros Hne. unfold least_busy_index. destruct (H counts 0%nat 0%nat 255) as [->|]; [|done]. destruct counts; cbn; [done|lia].
Qed.

Section props.
Context {Client : Type} (build : string → Client + string).

(** Among the guards, those of a client. *)
Definition held (i : nat) (guards : list (PooledClient Client)) : nat :=
  length (List.filter (λ g, match g with Pooled j => Nat.eqb i j | Standalone _ => false end) guards).
Definition tracks (s : HttpPool Client * list (PooledClient Client)) : Prop :=
  ∀ i c, active s.1 !! i = Some c → c = Z.of_nat (held i s.2) mod 256.

Lemma held_cons i g guards :
  held i (g :: guards) = (held i [g] + held i guards)%nat.
Proof. unfold held. cbn. by destruct (match g with Pooled j => _ | _ => _ end). Qed.
Lemma held_delete i k guards g : guards !! k = Some g →
  held i guards = (held i [g] + held i (base.delete k guards))%nat.
Proof.
  revert k. induction guards as [|x l IH]; intros k; [done|]. destruct k as [|k].
  - intros [= ->]. by rewrite held_cons.
  - intros Hk. rewrite held_cons, (IH k Hk). change (base.delete (S k) (x :: l)) with (x :: base.delete k l).
    rewrite (held_cons i x (base.delete k l)). lia.
Qed.
Lemma held_self i j : held i [Pooled j] = if Nat.eqb i j then 1%nat else 0%nat.
Proof. unfold held. cbn. by destruct (Nat.eqb i j). Qed.

Lemma take_client_tracks i p guards r : tracks (p, guards) → take_client i p = Done r → tracks (r.1, r.2 :: guards).
Proof.
  unfold take_client. destruct (active p !! i) as [c|] eqn:E; [|done]. intros Ht [= <-] j d. cbn [active fst snd].
  rewrite held_cons, held_self, Nat2Z.inj_add. destruct (Nat.eqb_spec j i) as [->|Hne].
  - rewrite list_lookup_insert_eq by (by eapply lookup_lt_Some). intros [= <-]. rewrite (Ht i c E). unfold fetch_add. cbn [snd].
    rewrite Zplus_mod_idemp_l. f_equal. lia.
  - rewrite list_lookup_insert_ne by done. intros H. rewrite (Ht j d H). done.
Qed.
Lemma use_tracks u s s' : tracks s → use build u s = Done s' → tracks s'.
Proof.
  destruct s as [p guards]. intros Ht. destruct u as [| |url|k]; cbn.
  - unfold get. destruct (take_client _ p) as [r|] eqn:E; [|done]. intros [= <-]. by eapply take_client_tracks.
  - unfold first. destruct (take_client _ p) as [r|] eqn:E; [|done]. intros [= <-]. by eapply take_client_tracks.
  - unfold proxied_pooled_client, get_proxied. intros E. destruct (proxied_clients p !! url); [|destruct (build url)]; by simplify_eq/=.
  - intros [= <-]. destruct (guards !! k) as [g|] eqn:E; [|done]. intros i c. cbn [fst snd].
    pose proof (held_delete i k guards g E) as Hd. destruct g as [j|x]; cbn [drop_guard active].
    + rewrite held_self in Hd. revert Hd. destruct (Nat.eqb_spec i j) as [->|Hne]; intros Hd.
      * rewrite list_lookup_alter_eq. destruct (active p !! j) as [d|] eqn:Ej; [|done]. cbn. intros [= <-].
        rewrite (Ht j d Ej). unfold fetch_sub. cbn [snd]. rewrite Zminus_mod_idemp_l. f_equal. lia.
      * rewrite list_lookup_alter_ne by done. intros H. rewrite (Ht i c H). cbn [snd]. f_equal. lia.
    + intros H. rewrite (Ht i c H). cbn [snd]. f_equal. change (held i [Standalone x]) with 0%nat in Hd. lia.
Qed.

(** Whatever the requests do, the counter of a client is the number of guards on it that
    have not been dropped, as far as eight bits go; and a pool of at least one client
    never panics. *)
Theorem counters_track us size :
  (0 < size)%nat →
  ∃ p guards, uses build us (new size, []) = Done (p, guards) ∧
    length (active p) = size ∧
    ∀ i c, active p !! i = Some c → c = Z.of_nat (held i guards) mod 256.
Proof.
  intros Hs. assert (∀ s, tracks s → length (active s.1) = size →
    ∃ s', uses build us s = Done s' ∧ tracks s' ∧ length (active s'.1) = size) as H.
  { induction us as [|u us IH]; intros s Ht Hl; [by exists s|]. cbn [uses].
    assert (∃ s1, use build u s = Done s1 ∧ length (active s1.1) = size) as (s1&E&Hl1).
    { destruct s as [p guards]. cbn in Hl. assert (active p ≠ []) as Hne by (intros Hn; rewrite Hn in Hl; cbn in Hl; lia).
      destruct u as [| |url|k]; cbn [use].
      - unfold get, take_client. pose proof (least_busy_index_lt _ Hne) as [c Hc]%lookup_lt_is_Some_2. rewrite Hc. cbn.
        eexists. split; [done|]. cbn. by rewrite length_insert.
      - unfold first, take_client. destruct (active p) as [|c l] eqn:Ea; [done|]. cbn. eexists. by split.
      - unfold proxied_pooled_client, get_proxied. destruct (proxied_clients p !! url); [|destruct (build url)]; by eexists.
      - eexists. split; [done|]. destruct (guards !! k) as [[j|]|]; [|done..]. cbn. by rewrite length_alter. }
    rewrite E. cbn. apply IH; [by eapply use_tracks|done]. }
  destruct (H (new size, [])) as ([p guards]&E&Ht&Hl).
  - intros i c. cbn. intros [-> _]%lookup_replicate. done.
  - cbn. apply length_replicate.
  - by exists p, guards.
Qed.

(** *** Requests that do not end *)

Lemma uses_app us1 us2 s : uses build (us1 ++ us2) s = let! s := uses build us1 s in uses build us2 s.
Proof.
  revert s. induction us1 as [|u us1 IH]; intros s; [done|]. cbn. by destruct (use build u s) as [s1|]; cbn.
Qed.
Lemma uses_get_snoc k s p guards i c :
  uses build (replicate k Get) s = Done (p, guards) → least_busy_index (active p) = i → active p !! i = Some c →
  uses build (replicate (S k) Get) s =
    Done (mkPool (<[i := fetch_add c]> (active p)) (proxied_clients p), Pooled i :: guards).
Proof.
  intros E Hi Hc. rewrite replicate_S_end, uses_app, E. cbn. unfold get, take_client. by rewrite Hi, Hc.
Qed.

(** The counters of [n] clients after [k] requests, and which clients these have. *)
Definition level (n k : nat) : list Z :=
  (λ i, Z.of_nat (k / n) + if (i <? k mod n)%nat then 1 else 0) <$> seq 0 n.
Definition turns (n k : nat) : list (PooledClient Client) := (λ j, Pooled (j mod n)) <$> reverse (seq 0 k).

Lemma level_lookup n k i : (i < n)%nat →
  level n k !! i = Some (Z.of_nat (k / n) + if (i <? k mod n)%nat then 1 else 0).
Proof. intros H. unfold level. by rewrite list_lookup_fmap, lookup_seq_lt. Qed.
Lemma level_length n k : length (level n k) = n.
Proof. unfold level. by rewrite length_fmap, length_seq. Qed.
Lemma level_step n k : (0 < n)%nat →
  <[(k mod n)%nat := Z.of_nat (k / n) + 1]> (level n k) = level n (S k).
Proof.
  intros Hn. pose proof (Nat.div_mod_eq k n) as Hk. pose proof (Nat.mod_upper_bound k n ltac:(lia)) as Hm.
  apply list_eq_same_length with n; [by rewrite level_length|by rewrite length_insert, level_length|].
  intros i x y Hi. rewrite (level_lookup n (S k)) by done. intros Hx [= <-]. revert Hx.
  assert (S k / n = if (S (k mod n) <? n)%nat then k / n else S (k / n))%nat as ->.
  { symmetry. destruct (Nat.ltb_spec (S (k mod n)) n); [apply Nat.div_unique with (S (k mod n)); lia|].
    apply Nat.div_unique with 0%nat; lia. }
  assert (S k mod n = if (S (k mod n) <? n)%nat then S (k mod n) else 0)%nat as ->.
  { symmetry. destruct (Nat.ltb_spec (S (k mod n)) n); [apply Nat.mod_unique with (k / n)%nat; lia|].
    apply Nat.mod_unique with (S (k / n)); lia. }
  destruct (decide (i = k mod n)%nat) as [->|Hne].
  - rewrite list_lookup_insert_eq by (by rewrite level_length). intros [= <-].
    destruct (Nat.ltb_spec (S (k mod n)) n); destruct (Nat.ltb_spec (k mod n) (S (k mod n))); cbn; lia.
  - rewrite list_lookup_insert_ne, level_lookup by done. intros [= <-].
    destruct (Nat.ltb_spec (S (k mod n)) n), (Nat.ltb_spec i (k mod n)); cbv beta iota;
      try destruct (Nat.ltb_spec i (S (k mod n))); try destruct (Nat.ltb_spec i 0); lia.
Qed.

(** As long as no counter is full, the requests take turns. *)
Lemma gets_take_turns n k : (0 < n)%nat → (k ≤ 255 * n)%nat →
  uses build (replicate k Get) (new n, []) = Done (mkPool (level n k) ∅, turns n k).
Proof.
  intros Hn. induction k as [|k IH]; intros Hk.
  - cbn. unfold new. do 3 f_equal. apply list_eq_same_length with n; [apply level_length|apply length_replicate|].
    intros i x y Hi [-> _]%lookup_replicate. rewrite level_lookup, Nat.Div0.div_0_l, Nat.Div0.mod_0_l by done. by intros [= <-].
  - pose proof (Nat.mod_upper_bound k n ltac:(lia)) as Hm. pose proof (Nat.div_mod_eq k n) as Hd.
    assert (k / n < 255)%nat as Hlt by (apply Nat.Div0.div_lt_upper_bound; lia).
    assert (level n k !! (k mod n)%nat = Some (Z.of_nat (k / n))) as Hl.
    { rewrite level_lookup by done. rewrite Nat.ltb_irrefl. f_equal. lia. }
    rewrite (uses_get_snoc k _ _ _ (k mod n) (Z.of_nat (k / n)) (IH ltac:(lia))); cbn [active proxied_clients]; [| |done].
    + unfold fetch_add. rewrite Z.mod_small by lia. rewrite level_step by done. do 2 f_equal.
      unfold turns. rewrite seq_S, reverse_snoc. done.
    + apply (scan_first _ 0 0 255 (k mod n) (Z.of_nat (k / n))); [done|lia| |].
      * intros j d Hj. rewrite level_lookup by lia. rewrite (proj2 (Nat.ltb_lt j (k mod n))) by done. intros [= <-]. lia.
      * apply Forall_lookup_2. intros j d Hj. pose proof (lookup_lt_Some _ _ _ Hj) as Hjn. rewrite level_length in Hjn.
        rewrite level_lookup in Hj by done. injection Hj as <-. destruct (j <? k mod n)%nat; lia.
Qed.

(** C40. The counters are of eight bits. When, with none of the requests ended, there are
    255 under way on each of the [n] clients, the next one takes the counter of the first
    round to zero, and as long as none ends that client gets all further requests: after
    [m] of them its counter stands at [255 + m] modulo 256, and every other at 255. *)
Theorem full_counters_pile_up n m :
  (0 < n)%nat →
  uses build (replicate (255 * n + m) Get) (new n, []) =
    Done (mkPool ((255 + Z.of_nat m) mod 256 :: replicate (n - 1) 255) ∅, replicate m (Pooled 0) ++ turns n (255 * n)).
Proof.
  intros Hn.
  induction m as [|m IH].
  - rewrite Nat.add_0_r, gets_take_turns by lia. do 3 f_equal. apply list_eq_same_length with n; [|apply level_length|].
    { cbn. rewrite length_replicate. lia. }
    intros i x y Hi. rewrite level_lookup, Nat.div_mul, Nat.Div0.mod_mul by lia. intros [= <-] Hy. cbn.
    destruct i as [|i]; cbn in Hy; [by injection Hy as <-|]. by apply lookup_replicate in Hy as [-> _].
  - rewrite Nat.add_succ_r. erewrite (uses_get_snoc _ _ _ _ 0%nat); [|exact IH| |reflexivity]; cbn [active proxied_clients list_insert insert].
    + cbn [replicate app]. do 4 f_equal. unfold fetch_add. rewrite Zplus_mod_idemp_l. f_equal. lia.
    + assert (0 ≤ (255 + Z.of_nat m) mod 256 < 256) as Hb by (apply Z.mod_pos_bound; lia).
      unfold least_busy_index. cbn [scan_counts]. destruct (Z.ltb_spec ((255 + Z.of_nat m) mod 256) 255);
        apply scan_none, Forall_replicate; lia.
Qed.
End props.
End PoolProps.

Module PoolSample.
Import Pool PoolProps.
Local Abbreviation nowhere := (λ _ : string, inr "no proxy" : unit + string).

Lemma counters_track_witness :
  uses nowhere [Get; Get; Release 0; First; Proxied "socks5://p"] (new 2, []) =
    Done (mkPool [2; 0] ∅, [Pooled 0; Pooled 0]) ∧
  ∃ p guards, uses nowhere [Get; Get; Release 0; First; Proxied "socks5://p"] (new 2, []) = Done (p, guards) ∧
    length (active p) = 2%nat ∧
    ∀ i c, active p !! i = Some c → c = Z.of_nat (held i guards) mod 256.
Proof.
  split; [reflexivity|]. apply (counters_track nowhere [Get; Get; Release 0; First; Proxied "socks5://p"] 2). lia.
Defined.
Lemma full_counters_pile_up_witness :
  uses nowhere (replicate (255 * 2 + 3) Get) (new 2, []) = Done (mkPool [2; 255] ∅, replicate 3 (Pooled 0) ++ turns 2 (255 * 2)).
Proof. rewrite (full_counters_pile_up nowhere 2 3) by lia. reflexivity. Defined.

(** What a proxy needs is made once. *)
Example proxies_are_kept :
  let built := λ url : string, inl url : string + string in
  let '(p, a) := get_proxied built "socks5://p" (new 1) in
  (get_proxied (λ _, inr "down") "socks5://p" p).2 = a.
Proof. reflexivity. Qed.
End PoolSample.
