(* ===== verification/Glob.v ===== *)
(** Wildcard patterns (channel/mod.rs, [matches_glob]): [*] stands for any
    sequence of bytes, [?] for one byte, anything else for itself.  The
    recursive matcher is shown to decide the declarative relation
    [GlobMatches]. *)

From S2P Require Import Prelude.

Module Glob.

(** [match_helper p t], on the bytes of the pattern and of the text.  The
    recursion on the text happens under a [*], so it is a nested loop. *)
Fixpoint match_helper (p t : string) {struct p} : bool :=
  match p with
  | EmptyString => match t with EmptyString => true | _ => false end
  | String c p' =>
      if ascii_dec c "*"%char then
        (fix star (t : string) : bool :=
           match_helper p' t ||
           match t with EmptyString => false | String _ t' => star t' end) t
      else if ascii_dec c "?"%char then
        match t with EmptyString => false | String _ t' => match_helper p' t' end
      else
        match t with
        | EmptyString => false
        | String d t' => (if ascii_dec d c then true else false) && match_helper p' t'
        end
  end.

Definition matches_glob (pattern text : string) : bool := match_helper pattern text.

(** What a pattern means. *)
Inductive GlobMatches : string → string → Prop :=
  | GM_nil : GlobMatches "" ""
  | GM_star p u t : GlobMatches p t → GlobMatches (String "*" p) (u +:+ t)
  | GM_any p c t : GlobMatches p t → GlobMatches (String "?" p) (String c t)
  | GM_lit c p t : c ≠ "*"%char → c ≠ "?"%char →
      GlobMatches p t → GlobMatches (String c p) (String c t).

(** A pattern without wildcards. *)
Fixpoint literal (p : string) : bool :=
  match p with
  | EmptyString => true
  | String c p' =>
      (if ascii_dec c "*"%char then false else true) &&
      (if ascii_dec c "?"%char then false else true) && literal p'
  end.

#[local] Hint Constructors GlobMatches : switch.

(** The three tests of the Rust matcher, as equations. *)
Lemma match_helper_star p t :
  match_helper (String "*" p) t =
  match_helper p t ||
  match t with EmptyString => false | String _ t' => match_helper (String "*" p) t' end.
Proof. by destruct t. Qed.

Lemma match_helper_any p t :
  match_helper (String "?" p) t =
  match t with EmptyString => false | String _ t' => match_helper p t' end.
Proof. by destruct t. Qed.

Lemma match_helper_lit c p t :
  c ≠ "*"%char → c ≠ "?"%char →
  match_helper (String c p) t = true ↔ ∃ t', t = String c t' ∧ match_helper p t' = true.
Proof.
  intros H1 H2. cbn [match_helper].
  destruct (ascii_dec c "*"%char) ; [done|].
  destruct (ascii_dec c "?"%char) ; [done|].
  destruct t as [|d t]; [naive_solver|].
  destruct (ascii_dec d c) as [->|]; simpl; [|naive_solver].
  split; [eauto|]. intros (?&[= ->]&?). done.
Qed.

Lemma match_helper_sound p t : match_helper p t = true → GlobMatches p t.
Proof.
  revert t. induction p as [|c p IH]; intros t.
  - destruct t; [eauto with switch|done].
  - destruct (ascii_dec c "*"%char) as [->|Hs].
    { induction t as [|d t IHt]; rewrite match_helper_star.
      - rewrite orb_false_r. intros H. by apply (GM_star p "" ""), IH.
      - intros [H|H]%orb_true_iff; [by apply (GM_star p ""), IH|].
        specialize (IHt H). inversion IHt as [|? u t' Hm E| |]; subst; [|done].
        by apply (GM_star p (String d u) t'). }
    destruct (ascii_dec c "?"%char) as [->|Hq].
    { rewrite match_helper_any. destruct t; [done|eauto with switch]. }
    intros (t'&->&?)%match_helper_lit; eauto with switch.
Qed.

Lemma match_helper_complete p t : GlobMatches p t → match_helper p t = true.
Proof.
  induction 1 as [|p u t _ IH|p c t _ IH|c p t H1 H2 _ IH]; [done| | |].
  - induction u as [|d u IHu]; rewrite match_helper_star; apply orb_true_iff.
    + by left.
    + by right.
  - by rewrite match_helper_any.
  - apply match_helper_lit; eauto.
Qed.

Lemma matches_glob_iff p t : matches_glob p t = true ↔ GlobMatches p t.
Proof. split; [apply match_helper_sound|apply match_helper_complete]. Qed.

Lemma matches_glob_literal p t : literal p = true → matches_glob p t = true ↔ t = p.
Proof.
  unfold matches_glob. revert t.
  induction p as [|c p IH]; intros t Hl; [by destruct t|].
  simpl in Hl. destruct (ascii_dec c "*"%char); [done|].
  destruct (ascii_dec c "?"%char); [done|]. simpl in Hl.
  rewrite match_helper_lit by done. split.
  - intros (t'&->&?%IH); [by subst|done].
  - intros ->. eexists; split; [done|]. by apply IH.
Qed.

Lemma matches_glob_star_all t : matches_glob "*" t = true.
Proof.
  unfold matches_glob. induction t as [|c t IH]; [done|].
  rewrite match_helper_star. by apply orb_true_iff; right.
Qed.

End Glob.

#[export] Hint Rewrite Glob.matches_glob_star_all : switch_rw.
