(* ===== verification/F64.v ===== *)
(** IEEE 754 binary64 arithmetic, computable and without axioms: the
    Standard Library's [SpecFloat] at precision 53, with the conversions Rust
    performs on [as] casts. *)

From S2P Require Import Prelude.
From Stdlib Require Export SpecFloat.

Module F64.

Abbreviation f64 := spec_float (only parsing).

Definition add (a b : f64) : f64 := SFadd 53 1024 a b.
Definition mul (a b : f64) : f64 := SFmul 53 1024 a b.
Definition div (a b : f64) : f64 := SFdiv 53 1024 a b.
Definition sub (a b : f64) : f64 := SFsub 53 1024 a b.

(** An integer [as f64]: rounded to nearest, ties to even. *)
Definition of_Z (z : Z) : f64 := binary_normalize 53 1024 z 0 false.

(** The literal with value [a / b]; both must be exact. *)
Definition lit (a b : Z) : f64 := div (of_Z a) (of_Z b).

Definition zero : f64 := S754_zero false.
Definition one : f64 := of_Z 1.
(** [f64::MAX] *)
Definition max_value : f64 := S754_finite false (2 ^ 53 - 1) 971.

Definition leb (a b : f64) : bool :=
  match SFcompare a b with Some Lt | Some Eq => true | _ => false end.
Definition ltb (a b : f64) : bool :=
  match SFcompare a b with Some Lt => true | _ => false end.
(** [a.partial_cmp(&b).unwrap_or(Equal) != Greater] *)
Definition not_gt (a b : f64) : bool :=
  match SFcompare a b with Some Gt => false | _ => true end.

(** [a.min(b)]: the other operand when one is NaN. *)
Definition min (a b : f64) : f64 :=
  match a, b with
  | S754_nan, _ => b
  | _, S754_nan => a
  | _, _ => if ltb b a then b else a
  end.

(** Magnitude of a finite non-zero float, rounded down or up. *)
Definition mag_floor (m : positive) (e : Z) : Z :=
  if 0 <=? e then Zpos m * 2 ^ e else Zpos m / 2 ^ (- e).
Definition mag_ceil (m : positive) (e : Z) : Z :=
  if 0 <=? e then Zpos m * 2 ^ e else div_ceil (Zpos m) (2 ^ (- e)).

(** [f as u64]: truncates, saturates, and sends NaN to 0. *)
Definition to_u64 (f : f64) : Z :=
  match f with
  | S754_nan | S754_zero _ => 0
  | S754_infinity s => if s then 0 else u64_max
  | S754_finite s m e => if s then 0 else Z.min u64_max (mag_floor m e)
  end.

(** [f.ceil() as usize] *)
Definition ceil_usize (f : f64) : Z :=
  match f with
  | S754_nan | S754_zero _ => 0
  | S754_infinity s => if s then 0 else u64_max
  | S754_finite s m e => if s then 0 else Z.min u64_max (mag_ceil m e)
  end.

Lemma to_u64_range f : in_u64 (to_u64 f).
Proof.
  unfold in_u64. destruct f as [|s| |s m e]; simpl; [by split..| | |];
    try destruct s; try by split.
  unfold mag_floor. case_match.
  - split; [|apply Z.le_min_l]. apply Z.min_glb; [done|]. nia.
  - split; [|apply Z.le_min_l]. apply Z.min_glb; [done|]. apply Z.div_pos; [lia|].
    apply Z.pow_pos_nonneg; lia.
Qed.

End F64.
