(* ===== verification/FloatText.v ===== *)
(** The decimal form of doubles: what [str::parse::<f64>] reads and what the
    formats [{:.2}] and [{:.0}] print, both rounded correctly (to nearest, ties to
    even) from the exact value. *)

From stdpp Require Import pretty.
From S2P Require Import Prelude F64.

Module FloatText.

(** *** Reading *)

(** The value of a run of digits, how many there are, and what follows. *)
Fixpoint read_digits (s : string) (acc : Z) (n : Z) : Z * Z * string :=
  match s with
  | String c s' =>
      if is_ascii_digit c then read_digits s' (10 * acc + digit_value c) (n + 1) else (acc, n, s)
  | EmptyString => (acc, n, s)
  end.

(** [m * 10 ^ e], rounded. *)
Definition of_decimal (negative : bool) (m e : Z) : F64.f64 :=
  if m =? 0 then S754_zero negative
  else if 0 <=? e then
    let z := m * 10 ^ e in binary_normalize 53 1024 (if negative then - z else z) 0 negative
  else
    let '(q, e', l) := SFdiv_core_binary 53 1024 m 0 (10 ^ (- e)) 0 in
    binary_round_aux 53 1024 negative q e' l.

(** The sign of an exponent or of a number: [true] for minus. *)
Definition read_sign (s : string) : bool * string :=
  match s with
  | String "-" s' => (true, s')
  | String "+" s' => (false, s')
  | _ => (false, s)
  end.

(** An exponent, to the end of the text; without one the text must end. *)
Definition read_exponent (s : string) : option Z :=
  match s with
  | EmptyString => Some 0
  | String c s' =>
      if bool_decide (c = "e"%char ∨ c = "E"%char) then
        let '(negative, s'') := read_sign s' in
        match read_digits s'' 0 0 with
        | (e, n, EmptyString) => if n =? 0 then None else Some (if negative then - e else e)
        | _ => None
        end
      else None
  end.

Definition read_number (negative : bool) (s : string) : option F64.f64 :=
  let '(int, n, rest) := read_digits s 0 0 in
  let '(m, n', rest') := match rest with
                         | String "." rest' => read_digits rest' int 0
                         | _ => (int, 0, rest)
                         end in
  if n + n' =? 0 then None
  else match read_exponent rest' with
       | Some e => Some (of_decimal negative m (e - n'))
       | None => None
       end.

Definition parse_f64 (s : string) : option F64.f64 :=
  let '(negative, s') := read_sign s in
  match read_number negative s' with
  | Some f => Some f
  | None =>
      let lower := to_lowercase s' in
      if String.eqb lower "nan" then Some S754_nan
      else if String.eqb lower "inf" || String.eqb lower "infinity" then Some (S754_infinity negative)
      else None
  end.

(** *** Printing *)

(** [n / d], to nearest, ties to even. *)
Definition div_nearest (n d : Z) : Z :=
  let q := n / d in
  match (2 * (n mod d)) ?= d with
  | Lt => q
  | Gt => q + 1
  | Eq => if Z.even q then q else q + 1
  end.

Fixpoint pad_zeros (n : nat) : string :=
  match n with O => "" | S k => "0" +:+ pad_zeros k end.

(** A count of units of [10 ^ - digits]. *)
Definition show_scaled (digits : nat) (z : Z) : string :=
  let text := pretty z in
  match digits with
  | O => text
  | _ =>
      let text := pad_zeros (S digits - String.length text) +:+ text in
      let n := (String.length text - digits)%nat in
      String.substring 0 n text +:+ "." +:+ String.substring n digits text
  end.

(** [format!("{:.digits$}", f)] *)
Definition show_fixed (digits : nat) (f : F64.f64) : string :=
  let minus s := if (s : bool) then "-" else "" in
  match f with
  | S754_nan => "NaN"
  | S754_infinity s => minus s +:+ "inf"
  | S754_zero s => minus s +:+ show_scaled digits 0
  | S754_finite s m e =>
      let scaled := Zpos m * 10 ^ Z.of_nat digits in
      let units := if 0 <=? e then scaled * 2 ^ e else div_nearest scaled (2 ^ (- e)) in
      minus s +:+ show_scaled digits units
  end.
End FloatText.

Module FloatTextFacts.
Import FloatText.

Example parse_examples :
  parse_f64 "0.1" = Some (F64.lit 1 10) ∧ parse_f64 "-12.5e1" = Some (F64.of_Z (-125)) ∧
  parse_f64 "." = None ∧ parse_f64 "1." = Some F64.one ∧ parse_f64 "1e" = None ∧
  parse_f64 "-Inf" = Some (S754_infinity true) ∧ parse_f64 "" = None ∧ parse_f64 "1 " = None ∧
  parse_f64 "9007199254740993" = Some (F64.of_Z 9007199254740992).
Proof. by vm_compute. Qed.

Example show_examples :
  show_fixed 2 (F64.lit 1 10) = "0.10" ∧ show_fixed 0 (F64.lit 5 2) = "2" ∧ show_fixed 2 (F64.of_Z (-3)) = "-3.00" ∧
  show_fixed 2 (F64.lit 1005 1000) = "1.00" ∧ show_fixed 2 (F64.lit 12345 10) = "1234.50".
Proof. by vm_compute. Qed.
End FloatTextFacts.
