(* ===== verification/Json.v ===== *)
(** JSON documents: the enum [serde_json::Value], with an object as a finite
    map (its key order is not part of the model), and the accessors the
    gateway uses.  Printing and parsing JSON text are not modelled here: a
    definition that needs them takes them as arguments. *)

From S2P Require Import Prelude.
From Stdlib Require Export SpecFloat.

Module Json.

(** A number as serde_json stores it. *)
Inductive number :=
  | PosInt (n : Z)
  | NegInt (n : Z)
  | Float (f : spec_float).

Inductive value :=
  | Null
  | Bool (b : bool)
  | Number (n : number)
  | Str (s : string)
  | Array (l : list value)
  | Object (m : gmap string value).

Definition get (v : value) (k : string) : option value :=
  match v with Object m => m !! k | _ => None end.
Definition get2 (v : value) (a b : string) : option value :=
  match get v a with Some x => get x b | None => None end.
Definition get3 (v : value) (a b c : string) : option value :=
  match get2 v a b with Some x => get x c | None => None end.
Definition as_str (v : value) : option string :=
  match v with Str s => Some s | _ => None end.
Definition as_bool (v : value) : option bool :=
  match v with Bool b => Some b | _ => None end.
Definition as_u64 (v : value) : option Z :=
  match v with Number (PosInt n) => Some n | _ => None end.
Definition as_array (v : value) : option (list value) :=
  match v with Array l => Some l | _ => None end.
Definition as_object (v : value) : option (gmap string value) :=
  match v with Object m => Some m | _ => None end.
Definition is_object (v : value) : bool :=
  match v with Object _ => true | _ => false end.
Definition is_array (v : value) : bool :=
  match v with Array _ => true | _ => false end.

(** The body of [json!({ ... })]. *)
Definition obj (fields : list (string * value)) : value := Object (list_to_map fields).
Definition num (n : Z) : value := Number (PosInt n).

(** Reading a field of a [json!] body: the first binding of the key. *)
Fixpoint assoc (k : string) (fields : list (string * value)) : option value :=
  match fields with
  | [] => None
  | (k', v) :: rest => if String.eqb k k' then Some v else assoc k rest
  end.

(** [arr.get(idx)] for a [usize]. *)
Definition get_idx (l : list value) (i : Z) : option value :=
  if i <? Z.of_nat (length l) then l !! Z.to_nat i else None.

Lemma get_obj fields k : get (obj fields) k = assoc k fields.
Proof.
  unfold get, obj. induction fields as [|[k' v] rest IH]; [apply lookup_empty|].
  cbn [list_to_map foldr assoc fst snd uncurry]. destruct (String.eqb_spec k k') as [->|Hne].
  - apply lookup_insert_eq.
  - by rewrite lookup_insert_ne.
Qed.

Lemma get_idx_lookup l i : 0 ≤ i → get_idx l i = l !! Z.to_nat i.
Proof.
  intros Hi. unfold get_idx. case_match; [done|].
  symmetry. apply lookup_ge_None. lia.
Qed.

Lemma get_idx_Some l i v : get_idx l i = Some v → (Z.to_nat i < length l)%nat.
Proof. unfold get_idx. case_match; [|done]. apply lookup_lt_Some. Qed.

Lemma get_idx_insert_eq l i v :
  (Z.to_nat i < length l)%nat → 0 ≤ i → get_idx (<[Z.to_nat i := v]> l) i = Some v.
Proof.
  intros ??. rewrite get_idx_lookup by done. by apply list_lookup_insert_eq.
Qed.

Lemma get_idx_insert_ne l i j v :
  0 ≤ i → 0 ≤ j → i ≠ j → get_idx (<[Z.to_nat i := v]> l) j = get_idx l j.
Proof.
  intros. rewrite !get_idx_lookup by done. apply list_lookup_insert_ne. lia.
Qed.

Lemma get_idx_insert_gone l i v : get_idx l i = None → <[Z.to_nat i := v]> l = l.
Proof.
  unfold get_idx. case_match; intros Hn; apply list_insert_ge; [|lia].
  by apply lookup_ge_None.
Qed.

End Json.

(** Evaluates the reads of fields of concrete [json!] bodies. *)
Ltac read_obj :=
  repeat (rewrite Json.get_obj;
          cbn [Json.assoc String.eqb Ascii.eqb Bool.eqb andb]).
