(* ===== verification/PayloadRules.v ===== *)
(** Payload rules (proxy/payload_rules/path.rs, types.rs, store.rs): reading,
    writing and deleting at a dotted JSON path; the channel-level and
    per-model rules that rewrite an outgoing request body; the per-channel
    registry.  The main results are that a write is read back and touches
    nothing else, and that rules with single-segment paths have the effect
    of one map expression whatever the iteration order of the hash maps. *)

From S2P Require Import Prelude Glob Json.

Module Path.
Import Json.

Definition parse_usize (s : string) : option Z := parse_uint u64_max s.
Definition is_empty (s : string) : bool := match s with EmptyString => true | _ => false end.

Fixpoint get_segments (current : value) (segments : list string) : option value :=
  match segments with
  | [] => Some current
  | segment :: rest =>
      if is_empty segment then None else
      match current with
      | Object map =>
          match map !! segment with
          | Some child => get_segments child rest
          | None => None
          end
      | Array arr =>
          match parse_usize segment with
          | Some idx =>
              match get_idx arr idx with
              | Some child => get_segments child rest
              | None => None
              end
          | None => None
          end
      | _ => None
      end
  end.

Definition get_path (body : value) (path : string) : option value :=
  get_segments body (split_on "." path).

(** A scalar or [null] met on the way down is replaced by an object. *)
Definition as_container (v : value) : value :=
  if negb (is_object v) && negb (is_array v) then Object ∅ else v.

Fixpoint set_path_recursive (body : value) (segments : list string) (v : value) : value :=
  match segments with
  | [] => body
  | first :: rest =>
      if is_empty first then body else
      match rest with
      | [] =>
          match body with
          | Object map => Object (<[first := v]> map)
          | Array arr =>
              match parse_usize first with
              | Some idx =>
                  if idx <? Z.of_nat (length arr)
                  then Array (<[Z.to_nat idx := v]> arr) else body
              | None => body
              end
          | _ => body
          end
      | _ =>
          match body with
          | Object map =>
              let entry := as_container (default (Object ∅) (map !! first)) in
              Object (<[first := set_path_recursive entry rest v]> map)
          | Array arr =>
              match parse_usize first with
              | Some idx =>
                  match get_idx arr idx with
                  | Some child =>
                      Array (<[Z.to_nat idx := set_path_recursive (as_container child) rest v]> arr)
                  | None => body
                  end
              | None => body
              end
          | _ => body
          end
      end
  end.

Definition set_path (body : value) (path : string) (v : value) : value :=
  set_path_recursive body (split_on "." path) v.

Fixpoint delete_path_recursive (body : value) (segments : list string) : value :=
  match segments with
  | [] => body
  | first :: rest =>
      if is_empty first then body else
      match rest with
      | [] =>
          match body with
          | Object map => Object (delete first map)
          | Array arr =>
              match parse_usize first with
              | Some idx =>
                  if idx <? Z.of_nat (length arr)
                  then Array (delete (Z.to_nat idx) arr) else body
              | None => body
              end
          | _ => body
          end
      | _ =>
          match body with
          | Object map =>
              match map !! first with
              | Some child => Object (<[first := delete_path_recursive child rest]> map)
              | None => body
              end
          | Array arr =>
              match parse_usize first with
              | Some idx =>
                  match get_idx arr idx with
                  | Some child =>
                      Array (<[Z.to_nat idx := delete_path_recursive child rest]> arr)
                  | None => body
                  end
              | None => body
              end
          | _ => body
          end
      end
  end.

Definition delete_path (body : value) (path : string) : value :=
  delete_path_recursive body (split_on "." path).

Definition path_exists (body : value) (path : string) : bool :=
  match get_path body path with Some _ => true | None => false end.

(** Whether a write at [segments] reaches its place: every segment is
    non-empty, the root is a container, and an array on the way is indexed
    within its bounds. *)
Fixpoint settable (body : value) (segments : list string) : bool :=
  match segments with
  | [] => false
  | first :: rest =>
      negb (is_empty first) &&
      match body with
      | Object map =>
          match rest with
          | [] => true
          | _ => settable (as_container (default (Object ∅) (map !! first))) rest
          end
      | Array arr =>
          match parse_usize first with
          | Some idx =>
              match get_idx arr idx with
              | Some child =>
                  match rest with [] => true | _ => settable (as_container child) rest end
              | None => false
              end
          | None => false
          end
      | _ => false
      end
  end.

(** Two segments that select different children of any container: distinct
    keys, and not two spellings of one array index ([1], [01], [+1]). *)
Definition apart (a b : string) : Prop :=
  a ≠ b ∧ (parse_usize a = parse_usize b → parse_usize a = None).

#[export] Hint Rewrite @lookup_insert_eq : switch_rw.

Lemma parse_usize_nonneg s i : parse_usize s = Some i → 0 ≤ i.
Proof. intros H. by apply parse_uint_range in H as [??]. Qed.

#[local] Hint Resolve parse_usize_nonneg get_idx_Some : switch.

(** Equations with the container and the continuation made explicit. *)
Lemma get_segments_array arr s idx rest :
  is_empty s = false → parse_usize s = Some idx →
  get_segments (Array arr) (s :: rest) = get_idx arr idx ≫= λ c, get_segments c rest.
Proof. intros E P. simpl. rewrite E, P. by destruct (get_idx arr idx). Qed.

Lemma get_as_container v segs :
  segs ≠ [] → get_segments (as_container v) segs = get_segments v segs.
Proof. destruct segs as [|s segs]; [done|]. by destruct v; simpl; destruct (is_empty s). Qed.

Lemma get_segments_empty segs : segs ≠ [] → get_segments (Object ∅) segs = None.
Proof. destruct segs as [|s segs]; [done|]. intros _. simpl. by destruct (is_empty s). Qed.

Lemma get_set_settable body segs v :
  settable body segs = true → get_segments (set_path_recursive body segs v) segs = Some v.
Proof.
  revert body. induction segs as [|s rest IH]; intros body H; [done|].
  cbn [settable] in H. apply andb_true_iff in H as [E%negb_true_iff H].
  cbn [set_path_recursive]. rewrite E.
  destruct body as [| | | |arr|map]; try done.
  - destruct (parse_usize s) as [idx|] eqn:P; [|done].
    destruct (get_idx arr idx) as [child|] eqn:G; [|done].
    assert (Z.to_nat idx < length arr)%nat by eauto with switch.
    assert (0 ≤ idx) by eauto with switch.
    destruct rest as [|s' rest].
    + rewrite (proj2 (Z.ltb_lt idx _)) by lia.
      by rewrite (get_segments_array _ _ idx), get_idx_insert_eq.
    + by rewrite (get_segments_array _ _ idx), get_idx_insert_eq by done; apply IH.
  - destruct rest as [|s' rest]; cbn [get_segments]; rewrite E, lookup_insert_eq; [done|].
    by apply IH.
Qed.

(** Writing below [pre ++ [a]] leaves every path through [pre ++ [b]] alone. *)
Lemma get_set_apart body pre a b p q v :
  apart a b →
  get_segments (set_path_recursive body (pre ++ a :: p) v) (pre ++ b :: q) =
  get_segments body (pre ++ b :: q).
Proof.
  intros [Hne Hidx]. revert body. induction pre as [|s pre IH]; intros body.
  - cbn [app set_path_recursive]. destruct (is_empty a); [done|].
    destruct body as [| | | |arr|map]; [by destruct p..| |].
    + assert (Ha : ∀ idx w, parse_usize a = Some idx →
        get_segments (Array (<[Z.to_nat idx:=w]> arr)) (b :: q) =
        get_segments (Array arr) (b :: q)).
      { intros idx w Pa. cbn [get_segments]. destruct (is_empty b); [done|].
        destruct (parse_usize b) as [jdx|] eqn:Pb; [|done].
        rewrite get_idx_insert_ne; eauto with switch. intros ->. naive_solver congruence. }
      destruct p; repeat case_match; eauto.
    + destruct p; cbn [get_segments]; by rewrite lookup_insert_ne.
  - cbn [app]. assert (Hcons : ∃ x l, pre ++ a :: p = x :: l) by (destruct pre; eauto).
    cbn [set_path_recursive]. destruct (is_empty s) eqn:E; [done|].
    destruct Hcons as (x&l&Hl). rewrite Hl, <- Hl.
    destruct body as [| | | |arr|map]; try done.
    + destruct (parse_usize s) as [idx|] eqn:P; [|done].
      destruct (get_idx arr idx) as [child|] eqn:G; [|done].
      rewrite !(get_segments_array _ _ idx), get_idx_insert_eq, G
        by eauto with switch. simpl. rewrite IH. apply get_as_container. by destruct pre.
    + cbn [get_segments]. rewrite E, lookup_insert_eq, IH.
      destruct (map !! s) as [child|]; simpl; [apply get_as_container; by destruct pre|].
      apply get_segments_empty. by destruct pre.
Qed.

Lemma get_delete_object body pre k m :
  get_segments body pre = Some (Object m) → is_empty k = false →
  get_segments (delete_path_recursive body (pre ++ [k])) (pre ++ [k]) = None.
Proof.
  revert body. induction pre as [|s pre IH]; intros body G E.
  - injection G as ->. cbn [app delete_path_recursive]. rewrite E.
    cbn [get_segments]. by rewrite E, lookup_delete_eq.
  - cbn [app]. assert (Hcons : ∃ x l, pre ++ [k] = x :: l) by (destruct pre; eauto).
    destruct Hcons as (x&l&Hl). cbn [delete_path_recursive]. rewrite Hl, <- Hl.
    cbn [get_segments] in G. destruct (is_empty s) eqn:E'; [done|].
    destruct body as [| | | |arr|map]; try done.
    + destruct (parse_usize s) as [idx|] eqn:P; [|done].
      destruct (get_idx arr idx) as [child|] eqn:Gi; [|done].
      rewrite (get_segments_array _ _ idx), get_idx_insert_eq by eauto with switch.
      simpl. by apply IH.
    + destruct (map !! s) as [child|] eqn:L; [|done].
      cbn [get_segments]. rewrite E', lookup_insert_eq. by apply IH.
Qed.

Lemma get_delete_apart body k b p q m :
  body = Object m → k ≠ b →
  get_segments (delete_path_recursive body (k :: p)) (b :: q) = get_segments body (b :: q).
Proof.
  intros -> Hne. cbn [delete_path_recursive]. destruct (is_empty k); [done|].
  destruct p as [|s p]; cbn [get_segments].
  - by rewrite lookup_delete_ne.
  - destruct (m !! k); [|done]. cbn [get_segments]. by rewrite lookup_insert_ne.
Qed.

End Path.

Module Rules.
Import Json Path.

(** types.rs: hash maps from a dotted path to a value. *)
Record PayloadRules := mkPayloadRules {
  defaults : gmap string value;
  overrides : gmap string value;
  strip : list string;
}.

Record ModelPayloadRule := mkModelPayloadRule {
  models : list string;
  protocol : option string;
  m_defaults : gmap string value;
  m_overrides : gmap string value;
  m_strip : list string;
}.

(** store.rs *)
Record ChannelRules := mkChannelRules {
  channel : PayloadRules;
  model_rules : list ModelPayloadRule;
}.

Definition default_rules : PayloadRules := mkPayloadRules ∅ ∅ [].
Definition default_channel_rules : ChannelRules := mkChannelRules default_rules [].

Definition default_match_all : list string := ["*"].

Definition apply_default (body : value) '((path, val) : string * value) : value :=
  if negb (path_exists body path) then set_path body path val else body.
Definition apply_override (body : value) '((path, val) : string * value) : value :=
  set_path body path val.

(** [ModelPayloadRule::matches] *)
Definition matches (r : ModelPayloadRule) (model proto : string) : bool :=
  let other_protocol :=
    match protocol r with
    | Some p => negb (is_empty p) && negb (String.eqb p proto)
    | None => false
    end in
  if other_protocol then false
  else match models r with
       | [] => true
       | _ => existsb (λ pattern, Glob.matches_glob pattern model) (models r)
       end.

Section hash_order.
(** The order in which an iteration visits a hash map is not specified. *)
Context (hash_order : gmap string value → list (string * value)).

Definition apply (r : PayloadRules) (body : value) : value :=
  if negb (is_object body) then body else
  let body := foldl apply_default body (hash_order (defaults r)) in
  let body := foldl apply_override body (hash_order (overrides r)) in
  foldl delete_path body (strip r).

Definition model_apply (r : ModelPayloadRule) (body : value) : value :=
  if negb (is_object body) then body else
  let body := foldl apply_default body (hash_order (m_defaults r)) in
  let body := foldl apply_override body (hash_order (m_overrides r)) in
  foldl delete_path body (m_strip r).

(** [ChannelPayloadRules::apply_for_model], on the registry's map. *)
Definition apply_for_model (rules : gmap Uuid ChannelRules) (channel_id : Uuid)
    (body : value) (model proto : string) : value :=
  match rules !! channel_id with
  | None => body
  | Some r =>
      foldl (λ b mr, if matches mr model proto then model_apply mr b else b)
        (apply (channel r) body) (model_rules r)
  end.
End hash_order.

(** The registry's other operations. *)
Definition set (rules : gmap Uuid ChannelRules) (id : Uuid) (r : ChannelRules) :=
  <[id := r]> rules.
Definition entry (rules : gmap Uuid ChannelRules) (id : Uuid) : ChannelRules :=
  default default_channel_rules (rules !! id).
Definition add (rules : gmap Uuid ChannelRules) (id : Uuid) (r : PayloadRules) :=
  <[id := mkChannelRules r (model_rules (entry rules id))]> rules.
Definition set_model_rules (rules : gmap Uuid ChannelRules) (id : Uuid)
    (rs : list ModelPayloadRule) :=
  <[id := mkChannelRules (channel (entry rules id)) rs]> rules.
Definition get_rules (rules : gmap Uuid ChannelRules) (id : Uuid) : option PayloadRules :=
  channel <$> rules !! id.
Definition get_full (rules : gmap Uuid ChannelRules) (id : Uuid) : option ChannelRules :=
  rules !! id.
Definition has_rules (rules : gmap Uuid ChannelRules) (id : Uuid) : bool :=
  match rules !! id with Some _ => true | None => false end.
Definition remove (rules : gmap Uuid ChannelRules) (id : Uuid) := delete id rules.

(** *** Rules whose paths are single keys *)

Definition flat (path : string) : bool :=
  match split_on "." path with [s] => negb (is_empty s) | _ => false end.

Definition flat_rules (r : PayloadRules) : Prop :=
  (∀ k v, defaults r !! k = Some v → flat k = true) ∧
  (∀ k v, overrides r !! k = Some v → flat k = true) ∧
  Forall (λ k, flat k = true) (strip r).

(** What flat rules mean: strip wins over overrides, they win over the body,
    and the body wins over the defaults. *)
Definition flat_spec (r : PayloadRules) (m : gmap string value) : gmap string value :=
  filter (λ kv, kv.1 ∉ strip r) (overrides r ∪ (m ∪ defaults r)).

Lemma flat_split k : flat k = true → split_on "." k = [k] ∧ is_empty k = false.
Proof.
  unfold flat. destruct (split_on "." k) as [|s [|]] eqn:E; try done.
  apply split_on_single in E as ->. by intros ->%negb_true_iff.
Qed.

Lemma set_path_flat m k v : flat k = true → set_path (Object m) k v = Object (<[k := v]> m).
Proof. intros [E1 E2]%flat_split. unfold set_path. rewrite E1. simpl. by rewrite E2. Qed.

Lemma delete_path_flat m k : flat k = true → delete_path (Object m) k = Object (delete k m).
Proof. intros [E1 E2]%flat_split. unfold delete_path. rewrite E1. simpl. by rewrite E2. Qed.

Lemma path_exists_flat m k :
  flat k = true → path_exists (Object m) k = match m !! k with Some _ => true | None => false end.
Proof.
  intros [E1 E2]%flat_split. unfold path_exists, get_path. rewrite E1. simpl. rewrite E2.
  by destruct (m !! k).
Qed.

Lemma union_insert_present (m m' : gmap string value) k v w :
  m !! k = Some w → m ∪ <[k := v]> m' = m ∪ m'.
Proof.
  intros E. apply map_eq. intros j. rewrite !lookup_union.
  destruct (decide (k = j)) as [<-|]; [|by rewrite lookup_insert_ne].
  rewrite E, lookup_insert_eq. by destruct (m' !! k).
Qed.

Lemma foldl_defaults_flat l m :
  Forall (λ kv, flat kv.1 = true) l →
  foldl apply_default (Object m) l = Object (m ∪ list_to_map l).
Proof.
  revert m. induction l as [|[k v] l IH]; simpl; intros m Hf.
  { by rewrite (right_id ∅ (∪)). }
  apply Forall_cons in Hf as [Hk Hf]. simpl in Hk. rewrite path_exists_flat by done.
  destruct (m !! k) as [w|] eqn:E; simpl.
  - rewrite IH by done. f_equal. symmetry. by eapply union_insert_present.
  - rewrite set_path_flat, IH by done. f_equal.
    by rewrite <- insert_union_l, insert_union_r.
Qed.

Lemma foldl_overrides_flat l m :
  Forall (λ kv, flat kv.1 = true) l → NoDup l.*1 →
  foldl apply_override (Object m) l = Object (list_to_map l ∪ m).
Proof.
  revert m. induction l as [|[k v] l IH]; simpl; intros m Hf Hd.
  { by rewrite (left_id ∅ (∪)). }
  apply Forall_cons in Hf as [Hk Hf]. apply NoDup_cons in Hd as [Hn Hd].
  rewrite set_path_flat, IH by done. f_equal.
  rewrite <- insert_union_l. symmetry. apply insert_union_r.
  by apply not_elem_of_list_to_map_1.
Qed.

Lemma foldl_strip_flat l m :
  Forall (λ k, flat k = true) l →
  foldl delete_path (Object m) l = Object (filter (λ kv, kv.1 ∉ l) m).
Proof.
  revert m. induction l as [|k l IH]; simpl; intros m Hf.
  { f_equal. symmetry. apply map_filter_id. intros ???. apply not_elem_of_nil. }
  apply Forall_cons in Hf as [Hk Hf]. rewrite delete_path_flat, IH by done. f_equal.
  apply map_eq. intros j. apply option_eq. intros w.
  rewrite !map_lookup_filter_Some, lookup_delete_Some, not_elem_of_cons. naive_solver.
Qed.

Section hash_order_flat.
Context (hash_order : gmap string value → list (string * value)).
Context (hash_order_perm : ∀ m, hash_order m ≡ₚ map_to_list m).

Lemma hash_order_NoDup m : NoDup (hash_order m).*1.
Proof using hash_order_perm. rewrite hash_order_perm. apply NoDup_fst_map_to_list. Qed.

Lemma hash_order_map m : list_to_map (hash_order m) = m.
Proof using hash_order_perm.
  rewrite (list_to_map_proper _ (map_to_list m));
    [apply list_to_map_to_list|apply hash_order_NoDup|apply hash_order_perm].
Qed.

Lemma hash_order_flat m :
  (∀ k v, m !! k = Some v → flat k = true) → Forall (λ kv, flat kv.1 = true) (hash_order m).
Proof using hash_order_perm.
  intros H. rewrite hash_order_perm, Forall_forall.
  intros [k v] Hkv%elem_of_map_to_list. eauto.
Qed.

Lemma apply_flat r m :
  flat_rules r → apply hash_order r (Object m) = Object (flat_spec r m).
Proof using hash_order_perm.
  intros (Hd&Ho&Hs). unfold apply, flat_spec. simpl.
  rewrite foldl_defaults_flat by (by apply hash_order_flat).
  rewrite foldl_overrides_flat by (apply hash_order_flat || apply hash_order_NoDup; done).
  by rewrite foldl_strip_flat, !hash_order_map.
Qed.
End hash_order_flat.

(** The specification, key by key. *)
Lemma flat_spec_lookup r m k :
  flat_spec r m !! k =
  if decide (k ∈ strip r) then None else overrides r !! k ∪ (m !! k ∪ defaults r !! k).
Proof.
  unfold flat_spec. rewrite map_lookup_filter, !lookup_union.
  destruct (overrides r !! k ∪ (m !! k ∪ defaults r !! k)) as [w|]; simpl.
  - destruct (decide (k ∈ strip r)); [by rewrite option_guard_False by naive_solver|].
    by rewrite option_guard_True.
  - by destruct (decide _).
Qed.

Lemma flat_spec_idemp r m : flat_spec r (flat_spec r m) = flat_spec r m.
Proof.
  apply map_eq. intros k. rewrite !flat_spec_lookup. destruct (decide _); [done|].
  by destruct (overrides r !! k), (m !! k), (defaults r !! k).
Qed.

End Rules.

(** ** Properties *)

Module PayloadProps.
Import Json Path Rules.

(** A write at a path that reaches its place is read back: when every
    segment is non-empty, the root is a container and every array on the way
    is indexed within bounds, [get_path] after [set_path] returns the value
    written. *)
Theorem set_path_read_back body path v :
  settable body (split_on "." path) = true → get_path (set_path body path v) path = Some v.
Proof. apply get_set_settable. Qed.

Definition sample_body : value :=
  obj [("model", Str "gpt-4"); ("messages", Array [obj [("role", Str "user")]])].

Lemma set_path_read_back_witness :
  settable sample_body (split_on "." "messages.0.role") = true ∧
  get_path (set_path sample_body "messages.0.role" (Str "system")) "messages.0.role"
    = Some (Str "system").
Proof.
  split; [vm_compute; reflexivity|].
  apply (set_path_read_back sample_body). vm_compute; reflexivity.
Defined.

(** A write does not disturb its surroundings: after a common prefix [pre],
    every path that continues with another child ([apart]) reads the same
    before and after, whether or not the write reached its place. *)
Theorem set_path_frame body path1 path2 pre a b p q v :
  split_on "." path1 = pre ++ a :: p →
  split_on "." path2 = pre ++ b :: q →
  apart a b →
  get_path (set_path body path1 v) path2 = get_path body path2.
Proof. intros E1 E2 Hab. unfold get_path, set_path. rewrite E1, E2. by apply get_set_apart. Qed.

Lemma set_path_frame_witness :
  apart "role" "name" ∧
  get_path (set_path sample_body "messages.0.role" (Str "system")) "messages.0.name"
    = get_path sample_body "messages.0.name".
Proof.
  split; [split; [discriminate|reflexivity]|].
  apply (set_path_frame sample_body _ _ ["messages"; "0"] "role" "name" [] []);
    [reflexivity|reflexivity|split; [discriminate|reflexivity]].
Defined.

(** Deleting a key of an object that a path reaches makes the path read
    [None]. *)
Lemma delete_path_removes body path pre k m :
  split_on "." path = pre ++ [k] → is_empty k = false →
  get_segments body pre = Some (Object m) →
  get_path (delete_path body path) path = None.
Proof. intros E ??. unfold get_path, delete_path. rewrite E. by eapply get_delete_object. Qed.

(** C16. Rules with single-segment paths have one meaning, whatever order the
    hash maps are iterated in: key by key, a stripped key is absent, then an
    override wins, then the body's own value, then the default.  Applying
    the rules twice is applying them once. *)
Theorem payload_apply_spec (hash_order : gmap string value → list (string * value)) r m :
  (∀ m, hash_order m ≡ₚ map_to_list m) →
  flat_rules r →
  ∃ m', apply hash_order r (Object m) = Object m' ∧
    apply hash_order r (Object m') = Object m' ∧
    ∀ k, m' !! k = if decide (k ∈ strip r) then None
                   else overrides r !! k ∪ (m !! k ∪ defaults r !! k).
Proof.
  intros Ho Hf. exists (flat_spec r m).
  rewrite !apply_flat, flat_spec_idemp by done. split_and!; [done|done|].
  apply flat_spec_lookup.
Qed.

Definition sample_rules : PayloadRules :=
  mkPayloadRules {["temperature" := num 1]} {["stream" := Bool false]} ["logit_bias"].

Lemma sample_rules_flat : flat_rules sample_rules.
Proof.
  split_and!; simpl; [..|by repeat constructor];
    intros k v [<- _]%lookup_singleton_Some; reflexivity.
Defined.

Lemma payload_apply_spec_witness :
  ∃ m', apply map_to_list sample_rules (Object ∅) = Object m' ∧
    apply map_to_list sample_rules (Object m') = Object m' ∧
    ∀ k, m' !! k = if decide (k ∈ strip sample_rules) then None
                   else overrides sample_rules !! k ∪ ((∅ : gmap string value) !! k ∪ defaults sample_rules !! k).
Proof. exact (payload_apply_spec map_to_list sample_rules ∅ (λ m, reflexivity _) sample_rules_flat). Defined.

(** With overlapping paths ([a] and [a.b]) the result does depend on the
    iteration order, so the same rules can rewrite a request differently. *)
Lemma overrides_order_matters :
  foldl apply_override (Object ∅) [("a", num 1); ("a.b", num 2)] ≠
  foldl apply_override (Object ∅) [("a.b", num 2); ("a", num 1)].
Proof. vm_compute. congruence. Qed.

(** A scalar on the way is overwritten by an object. *)
Lemma set_path_replaces_scalar :
  set_path (obj [("a", num 1)]) "a.b" (num 2) = obj [("a", obj [("b", num 2)])].
Proof. reflexivity. Qed.

(** Only the model rules that match are applied, and a body that is not an
    object, or a channel without rules, passes through unchanged. *)
Lemma apply_for_model_matching hash_order rules id r body model proto :
  rules !! id = Some r →
  apply_for_model hash_order rules id body model proto =
  foldl (λ b mr, model_apply hash_order mr b) (apply hash_order (channel r) body)
    (filter (λ mr, matches mr model proto = true) (model_rules r)).
Proof.
  intros E. unfold apply_for_model. rewrite E.
  generalize (apply hash_order (channel r) body) as b.
  induction (model_rules r) as [|mr l IH]; intros b; simpl; [done|].
  rewrite filter_cons. case_decide as D; [by rewrite D|].
  destruct (matches mr model proto); [done|]. apply IH.
Qed.

Lemma apply_for_model_unregistered hash_order rules id body model proto :
  rules !! id = None → apply_for_model hash_order rules id body model proto = body.
Proof. unfold apply_for_model. by intros ->. Qed.

Lemma apply_for_model_non_object hash_order rules id body model proto :
  is_object body = false → apply_for_model hash_order rules id body model proto = body.
Proof.
  intros E. unfold apply_for_model, apply. case_match; [|done]. rewrite E. simpl.
  induction (model_rules c) as [|mr l IH]; simpl; [done|].
  unfold model_apply at 2. rewrite E. simpl. by destruct (matches _ _ _).
Qed.

End PayloadProps.
