(* ===== verification/Channel.v ===== *)
(** A channel and its circuit breaker (channel/mod.rs, config/channel.rs): the
    provider names, the channel record, availability, the transitions of the
    circuit breaker, the per-model cooldowns, the cost of a request, and the
    conversion from the configuration. *)

From S2P Require Import Prelude Glob F64 Json PayloadRules.

Module Channel.

(** ** Data *)

Inductive Provider :=
  | OpenAI | Anthropic | DeepSeek | Gemini | OpenRouter | Ollama | Mistral
  | Groq | Together | Cohere | Xai | SiliconFlow | Yi | Moonshot | Zhipu
  | Custom (s : string).

Definition from_str (s : string) : Provider :=
  let l := to_lowercase s in
  if String.eqb l "openai" then OpenAI
  else if String.eqb l "anthropic" then Anthropic
  else if String.eqb l "deepseek" then DeepSeek
  else if String.eqb l "gemini" then Gemini
  else if String.eqb l "openrouter" then OpenRouter
  else if String.eqb l "ollama" then Ollama
  else if String.eqb l "mistral" then Mistral
  else if String.eqb l "groq" then Groq
  else if String.eqb l "together" then Together
  else if String.eqb l "cohere" then Cohere
  else if String.eqb l "xai" then Xai
  else if String.eqb l "siliconflow" then SiliconFlow
  else if String.eqb l "yi" then Yi
  else if String.eqb l "moonshot" then Moonshot
  else if String.eqb l "zhipu" then Zhipu
  else Custom l.

Definition as_str (p : Provider) : string :=
  match p with
  | OpenAI => "openai"
  | Anthropic => "anthropic"
  | DeepSeek => "deepseek"
  | Gemini => "gemini"
  | OpenRouter => "openrouter"
  | Ollama => "ollama"
  | Mistral => "mistral"
  | Groq => "groq"
  | Together => "together"
  | Cohere => "cohere"
  | Xai => "xai"
  | SiliconFlow => "siliconflow"
  | Yi => "yi"
  | Moonshot => "moonshot"
  | Zhipu => "zhipu"
  | Custom s => s
  end.

Inductive CredentialType := ApiKey | WebSession.

Record Credential := mkCredential {
  cred_type : CredentialType;
  key_ref : string;
  api_key : option string;
  expires_at : option DateTime;
}.

Inductive ChannelStatus := Healthy | HalfOpen | CircuitOpen | Disabled.

#[global] Instance ChannelStatus_eq_dec : EqDecision ChannelStatus.
Proof. solve_decision. Defined.

Record QuotaConfig := mkQuotaConfig {
  strategy : option string;
  balance_url : option string;
  balance_path : option string;
  limit_path : option string;
  usage_path : option string;
  auth_prefix : option string;
  refresh_secs : option Z;
}.

Record Channel := mkChannel {
  id : Uuid;
  name : string;
  provider : Provider;
  priority : Z;
  weight : Z;
  cost_per_token : option F64.f64;
  input_cost_per_mtok : option F64.f64;
  output_cost_per_mtok : option F64.f64;
  credential : Credential;
  enabled : bool;
  status : ChannelStatus;
  circuit_open_until : option DateTime;
  base_url : string;
  model_mapping : gmap string string;
  created_at : DateTime;
  updated_at : DateTime;
  avg_latency_ms : Z;
  consecutive_failures : Z;
  cooldown_minutes : option Z;
  rpm_limit : option Z;
  tpm_limit : option Z;
  account_group : option string;
  max_concurrent : option Z;
  api_keys : list string;
  excluded_models : list string;
  model_cooldowns : gmap string DateTime;
  proxy_url : option string;
  headers : gmap string string;
  max_retries : option Z;
  models_endpoint : option string;
  models_refresh_interval_secs : Z;
  tags : list string;
  quota : option QuotaConfig;
}.

(** *** Assignments to the fields that change at run time *)

Definition set_status (s : ChannelStatus) (now : DateTime) (c : Channel) : Channel :=
  mkChannel
    (c.(id)) (c.(name)) (c.(provider)) (c.(priority)) (c.(weight))
    (c.(cost_per_token)) (c.(input_cost_per_mtok)) (c.(output_cost_per_mtok))
    (c.(credential)) (c.(enabled)) s (c.(circuit_open_until)) (c.(base_url))
    (c.(model_mapping)) (c.(created_at)) now (c.(avg_latency_ms))
    (c.(consecutive_failures)) (c.(cooldown_minutes)) (c.(rpm_limit))
    (c.(tpm_limit)) (c.(account_group)) (c.(max_concurrent)) (c.(api_keys))
    (c.(excluded_models)) (c.(model_cooldowns)) (c.(proxy_url)) (c.(headers))
    (c.(max_retries)) (c.(models_endpoint)) (c.(models_refresh_interval_secs))
    (c.(tags)) (c.(quota)).
Definition set_circuit_open_until (until : option DateTime) (c : Channel) : Channel :=
  mkChannel
    (c.(id)) (c.(name)) (c.(provider)) (c.(priority)) (c.(weight))
    (c.(cost_per_token)) (c.(input_cost_per_mtok)) (c.(output_cost_per_mtok))
    (c.(credential)) (c.(enabled)) (c.(status)) until (c.(base_url))
    (c.(model_mapping)) (c.(created_at)) (c.(updated_at)) (c.(avg_latency_ms))
    (c.(consecutive_failures)) (c.(cooldown_minutes)) (c.(rpm_limit))
    (c.(tpm_limit)) (c.(account_group)) (c.(max_concurrent)) (c.(api_keys))
    (c.(excluded_models)) (c.(model_cooldowns)) (c.(proxy_url)) (c.(headers))
    (c.(max_retries)) (c.(models_endpoint)) (c.(models_refresh_interval_secs))
    (c.(tags)) (c.(quota)).
Definition set_consecutive_failures (n : Z) (c : Channel) : Channel :=
  mkChannel
    (c.(id)) (c.(name)) (c.(provider)) (c.(priority)) (c.(weight))
    (c.(cost_per_token)) (c.(input_cost_per_mtok)) (c.(output_cost_per_mtok))
    (c.(credential)) (c.(enabled)) (c.(status)) (c.(circuit_open_until))
    (c.(base_url)) (c.(model_mapping)) (c.(created_at)) (c.(updated_at))
    (c.(avg_latency_ms)) n (c.(cooldown_minutes)) (c.(rpm_limit))
    (c.(tpm_limit)) (c.(account_group)) (c.(max_concurrent)) (c.(api_keys))
    (c.(excluded_models)) (c.(model_cooldowns)) (c.(proxy_url)) (c.(headers))
    (c.(max_retries)) (c.(models_endpoint)) (c.(models_refresh_interval_secs))
    (c.(tags)) (c.(quota)).
Definition set_avg_latency_ms (ms : Z) (c : Channel) : Channel :=
  mkChannel
    (c.(id)) (c.(name)) (c.(provider)) (c.(priority)) (c.(weight))
    (c.(cost_per_token)) (c.(input_cost_per_mtok)) (c.(output_cost_per_mtok))
    (c.(credential)) (c.(enabled)) (c.(status)) (c.(circuit_open_until))
    (c.(base_url)) (c.(model_mapping)) (c.(created_at)) (c.(updated_at)) ms
    (c.(consecutive_failures)) (c.(cooldown_minutes)) (c.(rpm_limit))
    (c.(tpm_limit)) (c.(account_group)) (c.(max_concurrent)) (c.(api_keys))
    (c.(excluded_models)) (c.(model_cooldowns)) (c.(proxy_url)) (c.(headers))
    (c.(max_retries)) (c.(models_endpoint)) (c.(models_refresh_interval_secs))
    (c.(tags)) (c.(quota)).
Definition set_model_cooldowns (m : gmap string DateTime) (c : Channel) : Channel :=
  mkChannel
    (c.(id)) (c.(name)) (c.(provider)) (c.(priority)) (c.(weight))
    (c.(cost_per_token)) (c.(input_cost_per_mtok)) (c.(output_cost_per_mtok))
    (c.(credential)) (c.(enabled)) (c.(status)) (c.(circuit_open_until))
    (c.(base_url)) (c.(model_mapping)) (c.(created_at)) (c.(updated_at))
    (c.(avg_latency_ms)) (c.(consecutive_failures)) (c.(cooldown_minutes))
    (c.(rpm_limit)) (c.(tpm_limit)) (c.(account_group)) (c.(max_concurrent))
    (c.(api_keys)) (c.(excluded_models)) m (c.(proxy_url)) (c.(headers))
    (c.(max_retries)) (c.(models_endpoint)) (c.(models_refresh_interval_secs))
    (c.(tags)) (c.(quota)).

(** ** Operations of a channel *)

Definition is_available (c : Channel) (now : DateTime) : bool :=
  if negb c.(enabled) || bool_decide (c.(status) = Disabled) then false
  else if bool_decide (c.(status) = CircuitOpen) then
    match c.(circuit_open_until) with
    | Some until => until <=? now
    | None => false
    end
  else true.

Definition map_model (c : Channel) (requested_model : string) : string :=
  default requested_model (c.(model_mapping) !! requested_model).

Definition all_keys (c : Channel) : list string :=
  match c.(credential).(api_key) with Some key => [key] | None => [] end ++ c.(api_keys).

Definition is_model_excluded (c : Channel) (model : string) : bool :=
  match c.(excluded_models) with
  | [] => false
  | _ => existsb (λ pattern, Glob.matches_glob pattern model) c.(excluded_models)
  end.

Definition rate_limit_minutes (retry_after_secs : option Z) : Z :=
  match retry_after_secs with
  | Some s => clamp 1 30 (div_ceil s 60)
  | None => 2
  end.

Definition mark_model_rate_limited (model : string) (retry_after_secs : option Z)
    (now : DateTime) (c : Channel) : Channel :=
  let expiry := now + millis_of_minutes (as_i64 (rate_limit_minutes retry_after_secs)) in
  set_model_cooldowns (<[model := expiry]> c.(model_cooldowns)) c.

Definition is_model_in_cooldown (c : Channel) (model : string) (now : DateTime) : bool :=
  match c.(model_cooldowns) !! model with
  | Some expiry => now <? expiry
  | None => false
  end.

Definition clean_expired_model_cooldowns (now : DateTime) (c : Channel) : Channel :=
  set_model_cooldowns (filter (λ kv, now < kv.2) c.(model_cooldowns)) c.

Definition calculate_cost (c : Channel) (input_tokens output_tokens : option Z)
    : option F64.f64 :=
  match input_tokens, output_tokens with
  | None, None => None
  | _, _ =>
      let in_tok := F64.of_Z (default 0 input_tokens) in
      let out_tok := F64.of_Z (default 0 output_tokens) in
      match c.(input_cost_per_mtok), c.(output_cost_per_mtok) with
      | None, None =>
          (λ rate_per_1k,
             F64.mul (F64.div (F64.add in_tok out_tok) (F64.of_Z 1000)) rate_per_1k)
            <$> c.(cost_per_token)
      | _, _ =>
          let in_rate := default F64.zero c.(input_cost_per_mtok) in
          let out_rate := default F64.zero c.(output_cost_per_mtok) in
          Some (F64.add (F64.mul (F64.div in_tok (F64.of_Z 1000000)) in_rate)
                        (F64.mul (F64.div out_tok (F64.of_Z 1000000)) out_rate))
      end
  end.

Definition mark_circuit_open (duration_mins : Z) (now : DateTime) (c : Channel) : Channel :=
  set_circuit_open_until (Some (now + millis_of_minutes (as_i64 duration_mins)))
    (set_status CircuitOpen now c).

Definition recover_if_expired (now : DateTime) (c : Channel) : Channel :=
  if bool_decide (c.(status) = CircuitOpen) then
    match c.(circuit_open_until) with
    | Some until =>
        if until <=? now then set_circuit_open_until None (set_status HalfOpen now c) else c
    | None => c
    end
  else c.

Definition recover_to_healthy (now : DateTime) (c : Channel) : Channel :=
  if bool_decide (c.(status) = HalfOpen)
  then set_consecutive_failures 0 (set_status Healthy now c)
  else c.

(** ** The configuration of a channel *)

Record PayloadRulesConfig := mkPayloadRulesConfig {
  pc_defaults : gmap string Json.value;
  pc_overrides : gmap string Json.value;
  pc_strip : list string;
  pc_model_rules : list Rules.ModelPayloadRule;
}.

Record ChannelConfig := mkChannelConfig {
  c_id : string;
  c_name : string;
  c_provider : string;
  c_priority : Z;
  c_weight : Z;
  c_cost_per_token : option F64.f64;
  c_input_cost_per_mtok : option F64.f64;
  c_output_cost_per_mtok : option F64.f64;
  c_credential_type : string;
  c_credential_ref : string;
  c_api_key : option string;
  c_base_url : string;
  c_enabled : bool;
  c_model_mapping : gmap string string;
  c_cooldown_minutes : option Z;
  c_rpm_limit : option Z;
  c_tpm_limit : option Z;
  c_payload_rules : option PayloadRulesConfig;
  c_quota : option QuotaConfig;
  c_account_group : option string;
  c_max_concurrent : option Z;
  c_api_keys : list string;
  c_excluded_models : list string;
  c_proxy_url : option string;
  c_headers : option (gmap string string);
  c_max_retries : option Z;
  c_models_endpoint : option string;
  c_models_refresh_interval_secs : Z;
  c_tags : list string;
}.

(** [Channel::from_config]: [parse_uuid] is [Uuid::parse_str], [fresh_id]
    what [Uuid::new_v4] returns. *)
Definition from_config (parse_uuid : string → option Uuid) (fresh_id : Uuid)
    (now : DateTime) (c : ChannelConfig) : Channel :=
  {| id := default fresh_id (parse_uuid c.(c_id));
     name := c.(c_name);
     provider := from_str c.(c_provider);
     priority := c.(c_priority);
     weight := c.(c_weight);
     cost_per_token := c.(c_cost_per_token);
     input_cost_per_mtok := c.(c_input_cost_per_mtok);
     output_cost_per_mtok := c.(c_output_cost_per_mtok);
     credential :=
       {| cred_type := if String.eqb c.(c_credential_type) "web_session"
                       then WebSession else ApiKey;
          key_ref := c.(c_credential_ref);
          api_key := c.(c_api_key);
          expires_at := None |};
     enabled := c.(c_enabled);
     status := Healthy;
     circuit_open_until := None;
     base_url := c.(c_base_url);
     model_mapping := c.(c_model_mapping);
     created_at := now;
     updated_at := now;
     avg_latency_ms := 0;
     consecutive_failures := 0;
     cooldown_minutes := c.(c_cooldown_minutes);
     rpm_limit := c.(c_rpm_limit);
     tpm_limit := c.(c_tpm_limit);
     account_group := c.(c_account_group);
     max_concurrent := c.(c_max_concurrent);
     api_keys := c.(c_api_keys);
     excluded_models := c.(c_excluded_models);
     model_cooldowns := ∅;
     proxy_url := c.(c_proxy_url);
     headers := default ∅ c.(c_headers);
     max_retries := c.(c_max_retries);
     models_endpoint := c.(c_models_endpoint);
     models_refresh_interval_secs := c.(c_models_refresh_interval_secs);
     tags := c.(c_tags);
     quota := c.(c_quota) |}.

(** A small configuration, for evaluating the model. *)
Definition sample_config (cid name : string) (prio weight : Z) : ChannelConfig :=
  mkChannelConfig cid name "openai" prio weight None None None "api_key" "ref"
    (Some "key1") "https://api.openai.com" true ∅ None None None None None None
    None ["key2"; "key3"] [] None None None None 300 [].

(** A numeral reader, standing in for [Uuid::parse_str]. *)
Definition sample_parse (s : string) : option Uuid := Z.to_N <$> parse_uint u64_max s.

Definition sample_channel (cid name : string) (prio weight : Z) : Channel :=
  from_config sample_parse 0%N 0 (sample_config cid name prio weight).

End Channel.
