(* ===== verification/ChannelManager.v ===== *)
(** The channel manager (channel/manager.rs), the connectivity test
    (channel/mod.rs) and the health probes (health/mod.rs): the shared map of
    channels, the circuit-breaker operations on it, key rotation, and the
    configuration that is written back.  Every operation holds the locks it
    needs to its end, so each is one atomic step; the connectivity test and
    the probes await the network in between and are modelled as two steps. *)

From S2P Require Import Prelude Glob F64 Json PayloadRules Channel.

Module ChannelManager.
Import Channel.

Record ChannelManager := mkManager {
  channels : gmap Uuid Channel;
  circuit_breaker_minutes : Z;
  key_indices : gmap Uuid Z;
  disable_cooling : bool;
}.

Definition set_channels (mgr : ChannelManager) (m : gmap Uuid Channel) : ChannelManager :=
  mkManager m mgr.(circuit_breaker_minutes) mgr.(key_indices) mgr.(disable_cooling).

Definition collect_channels (cs : list Channel) : gmap Uuid Channel :=
  foldl (λ m c, <[c.(id) := c]> m) ∅ cs.

(** [ChannelManager::new]; a configured channel comes with the identifier
    that stands in for an unparsable one. *)
Definition new (parse_uuid : string → option Uuid) (now : DateTime)
    (configs : list (ChannelConfig * Uuid)) (minutes : Z) (cooling_off : bool)
    : ChannelManager :=
  mkManager
    (collect_channels (map (λ '(c, fresh), from_config parse_uuid fresh now c) configs))
    minutes ∅ cooling_off.

Definition set_disable_cooling (value : bool) (mgr : ChannelManager) : ChannelManager :=
  mkManager mgr.(channels) mgr.(circuit_breaker_minutes) mgr.(key_indices) value.

(** [list]: copies, each recovered; the stored channels are not touched. *)
Definition list_channels (mgr : ChannelManager) (now : DateTime) : list Channel :=
  map (recover_if_expired now) (map_values mgr.(channels)).

Definition get (mgr : ChannelManager) (cid : Uuid) : option Channel :=
  mgr.(channels) !! cid.

Definition create (c : Channel) (mgr : ChannelManager) : ChannelManager :=
  set_channels mgr (<[c.(id) := c]> mgr.(channels)).

Definition update (cid : Uuid) (updated : Channel) (mgr : ChannelManager)
    : option Channel * ChannelManager :=
  match mgr.(channels) !! cid with
  | Some _ => (Some updated, set_channels mgr (<[cid := updated]> mgr.(channels)))
  | None => (None, mgr)
  end.

Definition delete_channel (cid : Uuid) (mgr : ChannelManager) : bool * ChannelManager :=
  (bool_decide (is_Some (mgr.(channels) !! cid)),
   set_channels mgr (delete cid mgr.(channels))).

Definition replace_all (cs : list Channel) (mgr : ChannelManager) : ChannelManager :=
  set_channels mgr (collect_channels cs).

(** Minutes the circuit stays open after the failure that brought the
    counter to [failures]. *)
Definition backoff_minutes (base_minutes failures : Z) : Z :=
  Z.min (sat_mul32 (wrap32 base_minutes) (sat_pow32 2 (sat_sub failures 1))) 30.

Definition fail_channel (default_minutes : Z) (cooling_off : bool) (now : DateTime)
    (c : Channel) : Channel :=
  let c := set_consecutive_failures (add_u32 c.(consecutive_failures) 1) c in
  if cooling_off then c
  else
    let base_minutes := default default_minutes c.(cooldown_minutes) in
    Channel.mark_circuit_open (backoff_minutes base_minutes c.(consecutive_failures)) now c.

Definition mark_circuit_open (cid : Uuid) (now : DateTime) (mgr : ChannelManager)
    : ChannelManager :=
  set_channels mgr
    (alter (fail_channel mgr.(circuit_breaker_minutes) mgr.(disable_cooling) now)
       cid mgr.(channels)).

Definition retry_minutes (default_minutes : Z) (retry_after_secs : option Z) : Z :=
  match retry_after_secs with
  | Some s => Z.max (s / 60) 1
  | None => default_minutes
  end.

Definition mark_circuit_open_with_retry (cid : Uuid) (retry_after_secs : option Z)
    (now : DateTime) (mgr : ChannelManager) : ChannelManager :=
  if mgr.(disable_cooling) then mgr
  else
    let minutes := retry_minutes mgr.(circuit_breaker_minutes) retry_after_secs in
    set_channels mgr (alter (Channel.mark_circuit_open minutes now) cid mgr.(channels)).

Definition mark_model_rate_limited (cid : Uuid) (model : string)
    (retry_after_secs : option Z) (now : DateTime) (mgr : ChannelManager)
    : ChannelManager :=
  if mgr.(disable_cooling) then mgr
  else set_channels mgr
         (alter (Channel.mark_model_rate_limited model retry_after_secs now)
            cid mgr.(channels)).

Definition clean_expired_model_cooldowns (now : DateTime) (mgr : ChannelManager)
    : ChannelManager :=
  set_channels mgr (Channel.clean_expired_model_cooldowns now <$> mgr.(channels)).

(** [get_credential]: [store_get] is the credential store's lookup with its
    errors flattened.  The rotation counter is advanced before the key is
    indexed, so it moves even when the index is out of range. *)
Definition get_credential (store_get : string → string → option string) (cid : Uuid)
    (mgr : ChannelManager) : outcome (option string) * ChannelManager :=
  match mgr.(channels) !! cid with
  | None => (Done None, mgr)
  | Some ch =>
      let primary_key := ch.(credential).(api_key) in
      let fallback :=
        match primary_key with
        | Some key => Done (Some key)
        | None => Done (store_get "modelswitch" ch.(credential).(key_ref))
        end in
      match ch.(api_keys) with
      | [] => (fallback, mgr)
      | _ =>
          let keys := match primary_key with Some key => [key] | None => [] end
                      ++ ch.(api_keys) in
          match keys with
          | [] => (fallback, mgr)
          | _ =>
              let current := default 0 (mgr.(key_indices) !! cid) in
              let next := (current + 1) mod Z.of_nat (length keys) in
              let mgr' := mkManager mgr.(channels) mgr.(circuit_breaker_minutes)
                            (<[cid := next]> mgr.(key_indices)) mgr.(disable_cooling) in
              (match (if current <? Z.of_nat (length keys)
                      then keys !! Z.to_nat current else None) with
               | Some key => Done (Some key)
               | None => Panic
               end, mgr')
          end
      end
  end.

(** [persist]: the configuration written for one channel; [show_uuid] is
    [Uuid::to_string]. *)
Definition to_config (show_uuid : Uuid → string) (c : Channel) : ChannelConfig :=
  {| c_id := show_uuid c.(id);
     c_name := c.(name);
     c_provider := as_str c.(provider);
     c_priority := c.(priority);
     c_weight := c.(weight);
     c_cost_per_token := c.(cost_per_token);
     c_input_cost_per_mtok := c.(input_cost_per_mtok);
     c_output_cost_per_mtok := c.(output_cost_per_mtok);
     c_credential_type := match c.(credential).(cred_type) with
                          | ApiKey => "api_key" | WebSession => "web_session" end;
     c_credential_ref := c.(credential).(key_ref);
     c_api_key := c.(credential).(api_key);
     c_base_url := c.(base_url);
     c_enabled := c.(enabled);
     c_model_mapping := c.(model_mapping);
     c_cooldown_minutes := c.(cooldown_minutes);
     c_rpm_limit := c.(rpm_limit);
     c_tpm_limit := c.(tpm_limit);
     c_payload_rules := None;
     c_quota := c.(quota);
     c_account_group := c.(account_group);
     c_max_concurrent := c.(max_concurrent);
     c_api_keys := c.(api_keys);
     c_excluded_models := c.(excluded_models);
     c_proxy_url := c.(proxy_url);
     c_headers := if bool_decide (c.(headers) = ∅) then None else Some c.(headers);
     c_max_retries := c.(max_retries);
     c_models_endpoint := c.(models_endpoint);
     c_models_refresh_interval_secs := c.(models_refresh_interval_secs);
     c_tags := c.(tags) |}.

Definition persisted_channels (show_uuid : Uuid → string) (mgr : ChannelManager)
    : list ChannelConfig :=
  map (to_config show_uuid) (map_values mgr.(channels)).

(** Exponential moving average, alpha = 0.3. *)
Definition ema_latency (avg latency_ms : Z) : Z :=
  if avg =? 0 then latency_ms
  else F64.to_u64 (F64.add (F64.mul (F64.of_Z avg) (F64.lit 7 10))
                           (F64.mul (F64.of_Z latency_ms) (F64.lit 3 10))).

Definition succeed_channel (latency_ms : Z) (now : DateTime) (c : Channel) : Channel :=
  let c := set_avg_latency_ms (ema_latency c.(avg_latency_ms) latency_ms) c in
  let c := set_consecutive_failures 0 c in
  recover_to_healthy now c.

Definition record_latency (cid : Uuid) (latency_ms : Z) (now : DateTime)
    (mgr : ChannelManager) : ChannelManager :=
  set_channels mgr (alter (succeed_channel latency_ms now) cid mgr.(channels)).

Definition reset_channel (now : DateTime) (c : Channel) : Channel :=
  set_consecutive_failures 0 (set_circuit_open_until None (set_status Healthy now c)).

Definition force_recover (cid : Uuid) (now : DateTime) (mgr : ChannelManager)
    : ChannelManager :=
  set_channels mgr (alter (reset_channel now) cid mgr.(channels)).

(** *** Connectivity test and probes *)

Record ChannelTestResult := mkTestResult {
  channel_id : Uuid;
  channel_name : string;
  success : bool;
  latency_ms : option Z;
  error : option string;
  tested_at : DateTime;
}.

(** [run_channel_test] up to the network: the copy of the channel, or the
    answer when there is none. *)
Definition channel_test_begin (cid : Uuid) (now : DateTime) (mgr : ChannelManager)
    : ChannelTestResult + Channel :=
  match get mgr cid with
  | Some c => inr c
  | None => inl (mkTestResult cid "" false None (Some "channel not found") now)
  end.

(** After the network: [connectivity] is the result of the check, and the
    copy taken before it is what is written back on success. *)
Definition channel_test_end (cid : Uuid) (channel : Channel)
    (connectivity : unit + string) (elapsed : Z) (now : DateTime) (mgr : ChannelManager)
    : ChannelTestResult * ChannelManager :=
  match connectivity with
  | inl _ =>
      let updated := set_consecutive_failures 0 (set_status Healthy now channel) in
      (mkTestResult cid channel.(name) true (Some elapsed) None now,
       snd (update cid updated mgr))
  | inr e =>
      (mkTestResult cid channel.(name) false (Some elapsed) (Some e) now,
       mark_circuit_open cid now mgr)
  end.

(** [run_periodic_probe], the verdict on one listed copy. *)
Definition probe_verdict (channel : Channel) (healthy : bool) (now : DateTime)
    (mgr : ChannelManager) : ChannelManager :=
  if healthy then
    if bool_decide (channel.(status) = CircuitOpen)
    then force_recover channel.(id) now mgr else mgr
  else if bool_decide (channel.(status) = Healthy)
       then mark_circuit_open channel.(id) now mgr else mgr.

(** [check_channel_health], the verdict of the provider-specific probe. *)
Definition health_verdict (channel : Channel) (healthy : bool) (latency : Z)
    (now : DateTime) (mgr : ChannelManager) : ChannelManager :=
  if healthy then
    let mgr := record_latency channel.(id) latency now mgr in
    if bool_decide (channel.(status) = CircuitOpen)
    then force_recover channel.(id) now mgr else mgr
  else if bool_decide (channel.(status) = Healthy)
       then mark_circuit_open channel.(id) now mgr else mgr.

End ChannelManager.

(** ** Steps *)

Module ManagerSteps.
Import Channel ChannelManager.

(** What can happen to a manager.  The admin API and the configuration
    watcher hand over channels they built with [from_config] or read with
    [get]; a probe's verdict is about a copy made by [list]. *)
Inductive step : ChannelManager → ChannelManager → Prop :=
  | step_mark_open cid now m : step m (mark_circuit_open cid now m)
  | step_mark_retry cid r now m : step m (mark_circuit_open_with_retry cid r now m)
  | step_rate_limited cid mo r now m : step m (mark_model_rate_limited cid mo r now m)
  | step_clean now m : step m (clean_expired_model_cooldowns now m)
  | step_latency cid l now m : step m (record_latency cid l now m)
  | step_recover cid now m : step m (force_recover cid now m)
  | step_cooling b m : step m (set_disable_cooling b m)
  | step_credential sg cid m : step m (get_credential sg cid m).2
  | step_create c m : c.(status) ≠ HalfOpen → step m (create c m)
  | step_update cid c m : c.(status) ≠ HalfOpen → step m (update cid c m).2
  | step_replace cs m :
      Forall (λ c, c.(status) ≠ HalfOpen) cs → step m (replace_all cs m)
  | step_delete cid m : step m (delete_channel cid m).2
  | step_test cid c r el now m : step m (channel_test_end cid c r el now m).2
  | step_probe c b now m : step m (probe_verdict c b now m)
  | step_health c b l now m : step m (health_verdict c b l now m).

(** A manager as [new] builds it, and what it becomes. *)
Definition reachable (m : ChannelManager) : Prop :=
  ∃ parse now configs minutes off, rtc step (new parse now configs minutes off) m.

Definition all_channels (P : Channel → Prop) (m : ChannelManager) : Prop :=
  map_Forall (λ _, P) m.(channels).

Definition no_half_open : ChannelManager → Prop := all_channels (λ c, c.(status) ≠ HalfOpen).

(** The lifting of a per-channel fact through the map operations. *)
Section all_channels.
Context (P : Channel → Prop).

Lemma all_channels_alter f cid (m : gmap Uuid Channel) :
  (∀ c, P c → P (f c)) → map_Forall (λ _, P) m → map_Forall (λ _, P) (alter f cid m).
Proof.
  intros Hf Hm i c. rewrite lookup_alter. case_decide; [subst|apply Hm].
  intros (c'&Hc&->)%fmap_Some. eapply Hf, Hm, Hc.
Qed.

Lemma all_channels_collect cs : Forall P cs → map_Forall (λ _, P) (collect_channels cs).
Proof.
  unfold collect_channels. intros Hcs.
  assert (H0 : map_Forall (λ _, P) (∅ : gmap Uuid Channel)) by apply map_Forall_empty.
  revert H0. generalize (∅ : gmap Uuid Channel). induction Hcs; intros m Hm; simpl; [done|].
  apply IHHcs. by apply (map_Forall_insert_2 (λ _, P)).
Qed.

Lemma all_channels_insert cid c (m : gmap Uuid Channel) :
  P c → map_Forall (λ _, P) m → map_Forall (λ _, P) (<[cid := c]> m).
Proof. intros. by apply (map_Forall_insert_2 (λ _, P)). Qed.
End all_channels.

Lemma recover_status now c :
  c.(status) ≠ HalfOpen → (recover_to_healthy now c).(status) = c.(status).
Proof. unfold recover_to_healthy. intros H. by rewrite bool_decide_eq_false_2. Qed.

#[local] Hint Resolve all_channels_alter all_channels_insert : switch.

Lemma fail_channel_status d off now c :
  c.(status) ≠ HalfOpen → (fail_channel d off now c).(status) ≠ HalfOpen.
Proof. unfold fail_channel. by destruct off. Qed.

Lemma succeed_channel_status l now c :
  c.(status) ≠ HalfOpen → (succeed_channel l now c).(status) = c.(status).
Proof. intros H. unfold succeed_channel. by rewrite recover_status. Qed.

Lemma succeed_channel_no_half l now c :
  c.(status) ≠ HalfOpen →
  (succeed_channel l now c).(status) = c.(status) ∧
  (succeed_channel l now c).(circuit_open_until) = c.(circuit_open_until).
Proof.
  intros H. split; [by apply succeed_channel_status|].
  unfold succeed_channel, recover_to_healthy. by rewrite bool_decide_eq_false_2.
Qed.

Lemma get_credential_channels sg cid m :
  ((get_credential sg cid m).2).(channels) = m.(channels).
Proof. unfold get_credential. by repeat case_match. Qed.

Lemma mark_open_no_half cid now m : no_half_open m → no_half_open (mark_circuit_open cid now m).
Proof. apply all_channels_alter. intros. by apply fail_channel_status. Qed.

Lemma latency_no_half cid l now m : no_half_open m → no_half_open (record_latency cid l now m).
Proof. apply all_channels_alter. intros. by rewrite succeed_channel_status. Qed.

Lemma recover_no_half cid now m : no_half_open m → no_half_open (force_recover cid now m).
Proof. by apply all_channels_alter. Qed.

Lemma update_no_half cid c m :
  c.(status) ≠ HalfOpen → no_half_open m → no_half_open (update cid c m).2.
Proof. unfold update. intros. case_match; [by apply all_channels_insert|done]. Qed.

#[local] Hint Resolve mark_open_no_half latency_no_half recover_no_half update_no_half : switch.

Lemma step_no_half_open m m' : step m m' → no_half_open m → no_half_open m'.
Proof.
  intros Hs Hm. destruct Hs; eauto with switch.
  - unfold mark_circuit_open_with_retry. destruct (disable_cooling m); [done|].
    by apply all_channels_alter.
  - unfold mark_model_rate_limited. destruct (disable_cooling m); [done|].
    by apply all_channels_alter.
  - apply map_Forall_fmap. intros i c Hc. exact (Hm i c Hc).
  - unfold no_half_open, all_channels. by rewrite get_credential_channels.
  - by apply all_channels_insert.
  - by apply all_channels_collect.
  - by apply map_Forall_delete.
  - unfold channel_test_end. destruct r; simpl; eauto with switch.
  - unfold probe_verdict. repeat case_match; eauto with switch.
  - unfold health_verdict. repeat case_match; eauto with switch.
Qed.

Lemma reachable_no_half_open m : reachable m → no_half_open m.
Proof.
  intros (parse&now&configs&minutes&off&Hr).
  assert (H0 : no_half_open (new parse now configs minutes off)).
  { apply all_channels_collect, Forall_map, Forall_forall. by intros [c fresh] _. }
  induction Hr; eauto using step_no_half_open.
Qed.

End ManagerSteps.

(** ** Supporting facts *)

Module ManagerFacts.
Import Channel ChannelManager.

Lemma wrap32_id z : in_u32 z → wrap32 z = z.
Proof. unfold in_u32, u32_max, wrap32. intros. apply Z.mod_small. lia. Qed.

(** The saturations in the backoff do not matter below the cap of 30. *)
Lemma backoff_minutes_exact base failures :
  in_u32 base → 1 ≤ failures ≤ u32_max →
  backoff_minutes base failures = Z.min 30 (base * 2 ^ (failures - 1)).
Proof.
  intros Hb Hf. unfold backoff_minutes, sat_mul32, sat_pow32, sat_sub.
  rewrite wrap32_id by done. rewrite (Z.max_r 0) by lia. unfold in_u32, u32_max in *.
  assert (0 < 2 ^ (failures - 1)) by (apply Z.pow_pos_nonneg; lia).
  generalize dependent (2 ^ (failures - 1)). intros p Hp.
  destruct (Z.le_gt_cases p (2 ^ 32 - 1)).
  - rewrite (Z.min_r _ p) by lia. lia.
  - rewrite (Z.min_l _ p) by lia. destruct (Z.eq_dec base 0) as [->|]; [lia|].
    assert (2 ^ 32 - 1 ≤ base * (2 ^ 32 - 1)) by nia.
    assert (p ≤ base * p) by nia. lia.
Qed.

Lemma div_ceil_bounds a b : 0 < b → a ≤ b * div_ceil a b < a + b.
Proof. unfold div_ceil. intros. pose proof (Z.div_mod (a + b - 1) b). pose proof (Z.mod_pos_bound (a + b - 1) b). lia. Qed.

Lemma rate_limit_minutes_range r : 1 ≤ rate_limit_minutes r ≤ 30.
Proof. unfold rate_limit_minutes, clamp. destruct r; lia. Qed.

(** Round trip of the provider names. *)
Lemma lower_ascii_idemp c : lower_ascii (lower_ascii c) = lower_ascii c.
Proof.
  unfold lower_ascii at 2 3. case_match eqn:E; [|unfold lower_ascii; by rewrite E].
  unfold lower_ascii. rewrite N_ascii_embedding by lia. case_match; [lia|done].
Qed.

Lemma to_lowercase_idemp s : to_lowercase (to_lowercase s) = to_lowercase s.
Proof. induction s as [|c s IH]; simpl; [done|]. by rewrite lower_ascii_idemp, IH. Qed.

Lemma from_str_as_str s : from_str (as_str (from_str s)) = from_str s.
Proof.
  unfold from_str at 2 3.
  repeat (case_match; [done|]). simpl. unfold from_str. rewrite to_lowercase_idemp.
  by repeat match goal with H : String.eqb _ _ = false |- _ => rewrite H; clear H end.
Qed.

(** What a reload of the written configuration keeps of a channel. *)
Definition reloaded (now : DateTime) (c : Channel) : Channel :=
  mkChannel c.(id) c.(name) c.(provider) c.(priority) c.(weight) c.(cost_per_token)
    c.(input_cost_per_mtok) c.(output_cost_per_mtok)
    (mkCredential c.(credential).(cred_type) c.(credential).(key_ref)
       c.(credential).(api_key) None)
    c.(enabled) Healthy None c.(base_url) c.(model_mapping) now now 0 0
    c.(cooldown_minutes) c.(rpm_limit) c.(tpm_limit) c.(account_group)
    c.(max_concurrent) c.(api_keys) c.(excluded_models) ∅ c.(proxy_url) c.(headers)
    c.(max_retries) c.(models_endpoint) c.(models_refresh_interval_secs) c.(tags)
    c.(quota).

(** The state of the rotation: the keys and the counter of a channel. *)
Lemma get_credential_rotates sg cid m c :
  m.(channels) !! cid = Some c → c.(api_keys) ≠ [] →
  let keys := all_keys c in
  let current := default 0 (m.(key_indices) !! cid) in
  get_credential sg cid m =
    (match (if current <? Z.of_nat (length keys) then keys !! Z.to_nat current else None) with
     | Some key => Done (Some key) | None => Panic end,
     mkManager m.(channels) m.(circuit_breaker_minutes)
       (<[cid := (current + 1) mod Z.of_nat (length keys)]> m.(key_indices))
       m.(disable_cooling)).
Proof.
  intros E Hk. cbv zeta. unfold get_credential, all_keys. rewrite E.
  destruct (api_keys c) as [|k ks]; [done|].
  by destruct (Channel.api_key (credential c)).
Qed.

(** [k] calls in a row. *)
Definition rotated sg cid (k : nat) (m : ChannelManager) : ChannelManager :=
  Nat.iter k (λ m, (get_credential sg cid m).2) m.

Lemma rotated_state sg cid m c k i :
  m.(channels) !! cid = Some c → c.(api_keys) ≠ [] →
  default 0 (m.(key_indices) !! cid) = i →
  0 ≤ i < Z.of_nat (length (all_keys c)) →
  (rotated sg cid k m).(channels) = m.(channels) ∧
  default 0 ((rotated sg cid k m).(key_indices) !! cid) =
    (i + Z.of_nat k) mod Z.of_nat (length (all_keys c)).
Proof.
  intros E Hk Hi Hr. induction k as [|k [IH1 IH2]]; simpl.
  { split; [done|]. by rewrite Z.add_0_r, Z.mod_small. }
  fold (rotated sg cid k m). assert (E' : channels (rotated sg cid k m) !! cid = Some c)
    by (by rewrite IH1).
  rewrite (get_credential_rotates _ _ _ c) by done. simpl. split; [done|].
  rewrite lookup_insert_eq. simpl. rewrite IH2, Zplus_mod_idemp_l. f_equal. lia.
Qed.

End ManagerFacts.

(** ** Properties *)

Module ManagerProps.
Import Channel ChannelManager ManagerSteps ManagerFacts.

Definition sample_manager : ChannelManager :=
  new sample_parse 0 [(sample_config "1" "a" 1 100, 0%N); (sample_config "2" "b" 1 100, 0%N)]
    5 false.

(** [HalfOpen] never reaches the shared map: [recover_if_expired] only runs
    on copies.  So in every reachable state a successful dispatch
    ([record_latency]) changes no channel's status, and a channel whose
    circuit once opened stays [CircuitOpen] however many requests it then
    serves. *)
Theorem dispatch_success_never_promotes m cid latency now k :
  reachable m →
  (record_latency cid latency now m).(channels) !! k = None ∧ m.(channels) !! k = None ∨
  ∃ c c', m.(channels) !! k = Some c ∧
    (record_latency cid latency now m).(channels) !! k = Some c' ∧
    c'.(status) = c.(status) ∧ c'.(circuit_open_until) = c.(circuit_open_until) ∧
    c.(status) ≠ HalfOpen.
Proof.
  intros Hr%reachable_no_half_open. simpl.
  destruct (channels m !! k) as [c|] eqn:E.
  - right. pose proof (Hr k c E) as Hc. rewrite lookup_alter, E.
    exists c. case_decide as D; [|exists c; done]. subst k. rewrite E.
    destruct (succeed_channel_no_half latency now c Hc) as [? ?].
    by eexists.
  - left. split; [|done]. rewrite lookup_alter. case_decide; [by subst; rewrite E|done].
Qed.

Lemma dispatch_success_never_promotes_witness :
  let m := mark_circuit_open 1%N 1000 sample_manager in
  (record_latency 1%N 20 900000 m).(channels) !! 1%N = None ∧ m.(channels) !! 1%N = None ∨
  ∃ c c', m.(channels) !! 1%N = Some c ∧
    (record_latency 1%N 20 900000 m).(channels) !! 1%N = Some c' ∧
    c'.(status) = c.(status) ∧ c'.(circuit_open_until) = c.(circuit_open_until) ∧
    c.(status) ≠ HalfOpen.
Proof.
  apply (dispatch_success_never_promotes (mark_circuit_open 1%N 1000 sample_manager)).
  do 5 eexists. apply rtc_once. apply (step_mark_open 1%N 1000 sample_manager).
Defined.

(** Opening the circuit: with cooling enabled, the first failure already
    opens it; after [n] earlier failures in a row it stays open for
    [base * 2^n] minutes, at most 30, counted from now; the channel is
    unavailable before that instant and, if enabled, available from it on;
    no other channel changes. *)
Theorem mark_circuit_open_window m cid now c :
  m.(disable_cooling) = false →
  m.(channels) !! cid = Some c →
  let base := default m.(circuit_breaker_minutes) c.(cooldown_minutes) in
  in_u32 base →
  0 ≤ c.(consecutive_failures) < u32_max →
  let until := now + 60000 * Z.min 30 (base * 2 ^ c.(consecutive_failures)) in
  (∀ k, k ≠ cid → (mark_circuit_open cid now m).(channels) !! k = m.(channels) !! k) ∧
  ∃ c', (mark_circuit_open cid now m).(channels) !! cid = Some c' ∧
    c'.(status) = CircuitOpen ∧
    c'.(circuit_open_until) = Some until ∧
    c'.(consecutive_failures) = c.(consecutive_failures) + 1 ∧
    ∀ t, is_available c' t = c.(enabled) && (until <=? t).
Proof.
  intros Hd E base Hb Hf until. split.
  { intros k Hk. by apply lookup_alter_ne. }
  eexists. split; [simpl; by rewrite lookup_alter_eq, E|].
  unfold fail_channel. rewrite Hd. simpl. fold base.
  assert (Hw : add_u32 (consecutive_failures c) 1 = consecutive_failures c + 1).
  { apply wrap32_id. unfold in_u32. lia. }
  rewrite Hw, backoff_minutes_exact by (done || lia).
  replace (consecutive_failures c + 1 - 1) with (consecutive_failures c) by lia.
  assert (Hm : 0 ≤ base * 2 ^ consecutive_failures c).
  { apply Z.mul_nonneg_nonneg; [by destruct Hb|]. apply Z.pow_nonneg. lia. }
  rewrite as_i64_small by lia. split_and!; try done.
  intros t. unfold is_available. simpl. rewrite as_i64_small by lia. by destruct (enabled c).
Qed.

Lemma mark_circuit_open_window_witness :
  ∃ c, sample_manager.(channels) !! 1%N = Some c ∧
  let until := 1000 + 60000 * Z.min 30 (5 * 2 ^ 0) in
  (∀ k, k ≠ 1%N → (mark_circuit_open 1%N 1000 sample_manager).(channels) !! k
     = sample_manager.(channels) !! k) ∧
  ∃ c', (mark_circuit_open 1%N 1000 sample_manager).(channels) !! 1%N = Some c' ∧
    c'.(status) = CircuitOpen ∧ c'.(circuit_open_until) = Some until ∧
    c'.(consecutive_failures) = 1 ∧ ∀ t, is_available c' t = c.(enabled) && (until <=? t).
Proof.
  exists (sample_channel "1" "a" 1 100). split; [reflexivity|].
  apply (mark_circuit_open_window sample_manager 1%N 1000 (sample_channel "1" "a" 1 100));
    [reflexivity|reflexivity|split; vm_compute; discriminate|split; vm_compute; congruence].
Defined.

(** A rate-limit response with [Retry-After: s] blocks exactly that model of
    exactly that channel: for [s] up to half an hour no earlier than [s]
    seconds from now is the model offered again, and the block lasts less
    than a minute longer than asked (and always between 1 and 30 minutes). *)
Theorem rate_limit_blocks_model m cid c model s now t :
  m.(disable_cooling) = false →
  m.(channels) !! cid = Some c →
  0 < s ≤ 1800 →
  ∃ c', (mark_model_rate_limited cid model (Some s) now m).(channels) !! cid = Some c' ∧
    (now ≤ t < now + 1000 * s → is_model_in_cooldown c' model t = true) ∧
    (now + 1000 * s + 60000 ≤ t → is_model_in_cooldown c' model t = false) ∧
    (∀ other, other ≠ model → is_model_in_cooldown c' other t = is_model_in_cooldown c other t) ∧
    is_available c' t = is_available c t.
Proof.
  intros Hd E Hs. unfold mark_model_rate_limited. rewrite Hd. simpl.
  eexists. split; [by rewrite lookup_alter_eq, E|]. unfold is_model_in_cooldown. simpl.
  rewrite lookup_insert_eq.
  assert (Hc : s ≤ 60 * div_ceil s 60 < s + 60) by (by apply div_ceil_bounds).
  unfold rate_limit_minutes, clamp, millis_of_minutes. rewrite as_i64_small by lia.
  split_and!; [lia|lia| |done]. intros other Ho. rewrite lookup_insert_ne; [done|congruence].
Qed.

Lemma rate_limit_blocks_model_witness :
  ∃ c, sample_manager.(channels) !! 1%N = Some c ∧ ∃ c',
    (mark_model_rate_limited 1%N "gpt-4" (Some 90) 0 sample_manager).(channels) !! 1%N = Some c' ∧
    (0 ≤ 5000 < 0 + 1000 * 90 → is_model_in_cooldown c' "gpt-4" 5000 = true) ∧
    (0 + 1000 * 90 + 60000 ≤ 5000 → is_model_in_cooldown c' "gpt-4" 5000 = false) ∧
    (∀ other, other ≠ "gpt-4"%string →
       is_model_in_cooldown c' other 5000 = is_model_in_cooldown c other 5000) ∧
    is_available c' 5000 = is_available c 5000.
Proof.
  exists (sample_channel "1" "a" 1 100). split; [reflexivity|].
  apply (rate_limit_blocks_model sample_manager 1%N (sample_channel "1" "a" 1 100) "gpt-4" 90 0 5000);
    [reflexivity|reflexivity|lia].
Defined.

(** The circuit breaker rounds the other way: after [Retry-After: 119] the
    channel is available again after 60 seconds. *)
Lemma retry_circuit_reopens_early c :
  c.(enabled) = true →
  is_available (Channel.mark_circuit_open (retry_minutes 5 (Some 119)) 0 c) 60000 = true.
Proof. intros E. unfold is_available. simpl. by rewrite E. Qed.

(** With [disable_cooling] set, no failure report makes any channel or model
    unavailable. *)
Theorem cooling_disabled_keeps_available m cid retry model now k t :
  m.(disable_cooling) = true →
  ∀ m', m' ∈ [mark_circuit_open cid now m;
              mark_circuit_open_with_retry cid retry now m;
              mark_model_rate_limited cid model retry now m] →
  (λ c, is_available c t) <$> m'.(channels) !! k = (λ c, is_available c t) <$> m.(channels) !! k ∧
  ∀ mo, (λ c, is_model_in_cooldown c mo t) <$> m'.(channels) !! k =
        (λ c, is_model_in_cooldown c mo t) <$> m.(channels) !! k.
Proof.
  intros Hd m' Hm'. unfold mark_circuit_open_with_retry, mark_model_rate_limited in Hm'.
  rewrite Hd in Hm'. rewrite !elem_of_cons, elem_of_nil in Hm'.
  destruct Hm' as [->|[->|[->|[]]]]; [|done|done].
  simpl. rewrite Hd, lookup_alter. case_decide as D; [subst k|done].
  by destruct (channels m !! cid).
Qed.

Lemma cooling_disabled_keeps_available_witness :
  let m := set_disable_cooling true sample_manager in
  let m' := mark_circuit_open 1%N 0 m in
  (λ c, is_available c 10) <$> m'.(channels) !! 1%N = (λ c, is_available c 10) <$> m.(channels) !! 1%N ∧
  ∀ mo, (λ c, is_model_in_cooldown c mo 10) <$> m'.(channels) !! 1%N =
        (λ c, is_model_in_cooldown c mo 10) <$> m.(channels) !! 1%N.
Proof.
  apply (cooling_disabled_keeps_available (set_disable_cooling true sample_manager)
           1%N None "gpt-4" 0 1%N 10); [reflexivity|left].
Defined.

(** Key rotation is round robin: from a counter [i] within range, the [k]-th
    following call returns key number [(i + k) mod n] of the primary key
    followed by the rotation keys, and never panics. *)
Theorem get_credential_round_robin sg cid m c k i :
  m.(channels) !! cid = Some c → c.(api_keys) ≠ [] →
  default 0 (m.(key_indices) !! cid) = i →
  0 ≤ i < Z.of_nat (length (all_keys c)) →
  ∃ key,
    all_keys c !! Z.to_nat ((i + Z.of_nat k) mod Z.of_nat (length (all_keys c))) = Some key ∧
    (get_credential sg cid (rotated sg cid k m)).1 = Done (Some key).
Proof.
  intros E Hk Hi Hr. destruct (rotated_state sg cid m c k i) as [H1 H2]; [done..|].
  rewrite (get_credential_rotates _ _ _ c) by (by rewrite ?H1). simpl. rewrite H2.
  set (j := (i + Z.of_nat k) mod Z.of_nat (length (all_keys c))).
  assert (Hj : 0 ≤ j < Z.of_nat (length (all_keys c))) by (apply Z.mod_pos_bound; lia).
  destruct (lookup_lt_is_Some_2 (all_keys c) (Z.to_nat j)) as [key Hkey]; [lia|].
  exists key. split; [done|]. rewrite (proj2 (Z.ltb_lt _ _)) by lia. by rewrite Hkey.
Qed.

Lemma get_credential_round_robin_witness :
  ∃ c, sample_manager.(channels) !! 1%N = Some c ∧ ∃ key,
    all_keys c !! Z.to_nat ((0 + Z.of_nat 4) mod Z.of_nat (length (all_keys c))) = Some key ∧
    (get_credential (λ _ _, None) 1%N (rotated (λ _ _, None) 1%N 4 sample_manager)).1
      = Done (Some key).
Proof.
  exists (sample_channel "1" "a" 1 100). split; [reflexivity|].
  apply (get_credential_round_robin (λ _ _, None) 1%N sample_manager
           (sample_channel "1" "a" 1 100) 4 0);
    [reflexivity|discriminate|reflexivity|split; vm_compute; congruence].
Defined.

(** The counter is not reset when a channel loses keys: two calls on a
    channel with three keys, then an update to two keys, and the next call
    indexes out of range and panics. *)
Theorem get_credential_panics_after_update :
  let c := sample_channel "1" "a" 1 100 in
  let fewer := from_config sample_parse 0%N 0
    (mkChannelConfig "1" "a" "openai" 1 100 None None None "api_key" "ref" (Some "key1")
       "https://api.openai.com" true ∅ None None None None None None None ["key2"] []
       None None None None 300 []) in
  let m := (update 1%N fewer (rotated (λ _ _, None) 1%N 2 sample_manager)).2 in
  reachable m ∧ (get_credential (λ _ _, None) 1%N m).1 = Panic.
Proof.
  split; [|reflexivity]. do 5 eexists.
  eapply rtc_l; [apply (step_credential (λ _ _, None) 1%N sample_manager)|].
  eapply rtc_l; [apply (step_credential (λ _ _, None) 1%N)|].
  apply rtc_once. apply step_update. vm_compute. discriminate.
Qed.

(** Writing the configuration and loading it again gives the channel back
    with fresh run-time state: every configured field survives. *)
Theorem config_roundtrip parse show fresh now c s :
  parse (show c.(id)) = Some c.(id) →
  c.(provider) = from_str s →
  from_config parse fresh now (to_config show c) = reloaded now c.
Proof.
  intros Hid Hp. unfold from_config, reloaded. simpl. rewrite Hid, Hp, from_str_as_str. simpl.
  f_equal; try done.
  - by destruct (cred_type (credential c)).
  - case_bool_decide as D; [by rewrite D|done].
Qed.

Lemma config_roundtrip_witness :
  let c := sample_channel "1" "a" 1 100 in
  from_config sample_parse 0%N 77 (to_config (λ _, "1"%string) c) = reloaded 77 c.
Proof.
  apply (config_roundtrip sample_parse (λ _, "1"%string) 0%N 77 (sample_channel "1" "a" 1 100)
           "openai"); reflexivity.
Defined.

(** What does not survive: the payload rules of the configuration. *)
Lemma persist_drops_payload_rules show m :
  Forall (λ cc, cc.(c_payload_rules) = None) (persisted_channels show m).
Proof. apply Forall_map, Forall_forall. done. Qed.

End ManagerProps.
