(* ===== verification/RedisRateLimit.v ===== *)
(** The Redis backend of the rate limiters (proxy/redis_rate_limit.rs): the
    Lua script run on a Redis hash, and the operations that call it.  The hash
    and its expiry are the state; that a call reaches the server is a
    parameter. *)

From S2P Require Import Prelude.

Module Redis.

Definition WINDOW_MS : Z := 60000.
Definition BUCKET_MS : Z := 10000.

(** ** The server: a hash of integers per key, with an expiry

    Expiry is what PEXPIRE sets; a hash whose expiry has passed, or whose last
    field was deleted, does not exist. *)

Record Hash := mkHash { fields : gmap Z Z; expires : option Instant }.
Abbreviation Db := (gmap string Hash) (only parsing).

Definition no_hash : Hash := mkHash ∅ None.

Definition live (now : Instant) (h : Hash) : Hash :=
  match expires h with
  | Some e => if e <=? now then no_hash else h
  | None => h
  end.

Definition sum_from (m : Z) (f : gmap Z Z) : Z :=
  sum_values (filter (λ kv, m ≤ kv.1) f).

(** A number of Lua is a double: an integer beyond 2^53 is rounded to an even multiple
    of a power of two. *)
Definition double (z : Z) : Z :=
  let e := Z.log2 z - 52 in
  if e <=? 0 then z
  else
    let m := z / 2 ^ e in
    let r := z mod 2 ^ e in
    let half := 2 ^ (e - 1) in
    (if (half <? r) || ((r =? half) && Z.odd m) then m + 1 else m) * 2 ^ e.
(** [HINCRBY] adds in 64 bits and fails on overflow. *)
Definition hincrby (v amount : Z) : option Z :=
  if (- 2 ^ 63 <=? v + amount) && (v + amount <? 2 ^ 63) then Some (v + amount) else None.

(** [CHECK_AND_ADD_LUA].  The quotients of times are exact; a script that fails keeps
    what it has deleted.  The fields come in the order the server gives them, which
    matters for the sum only beyond 2^53. *)
Definition script (now window bucket_size amount limit : Z) (add_flag : bool)
    (h0 : Hash) : Hash * option (bool * Z) :=
  let h := live now h0 in
  let amount := double amount in
  let limit := double limit in
  let current_bucket := now / bucket_size in
  let min_valid_bucket := (now - window) / bucket_size in
  let kept := filter (λ kv, min_valid_bucket ≤ kv.1) (fields h) in
  let total := foldl (λ t kv, double (t + double kv.2)) 0 (map_to_list kept) in
  let refreshed := Some (now + (window + bucket_size)) in
  if (0 <? limit) && (limit <? double (total + amount)) then
    (mkHash kept (expires h), Some (false, total))
  else if add_flag && (0 <? amount) then
    match hincrby (default 0 (kept !! current_bucket)) amount with
    | Some v => (mkHash (<[current_bucket := v]> kept) refreshed, Some (true, double (total + amount)))
    | None => (mkHash kept (expires h), None)
    end
  else (mkHash kept (if bool_decide (kept = ∅) then None else refreshed), Some (true, total)).

(** ** The operations of the backend

    [link key] says whether the call for [key] reaches the server; [None] is
    the [Err] of a call that does not, or of a script that fails.  [show_uuid] prints a [Uuid]. *)

Section backend.
Context (show_uuid : Uuid → string) (prefix : string) (link : string → bool)
  (now : Instant).
Implicit Types (db : Db) (u : Uuid).

Definition channel_key u (dimension : string) : string :=
  "ch:" +:+ show_uuid u +:+ ":" +:+ dimension.
Definition vk_key u (dimension : string) : string :=
  "vk:" +:+ show_uuid u +:+ ":" +:+ dimension.
Definition global_key : string := "global:tpm".

Definition check_and_add (key_suffix : string) (amount limit : Z) (add : bool) db
    : Db * option (bool * Z) :=
  let redis_key := prefix +:+ ":" +:+ key_suffix in
  if link redis_key then
    let '(h, r) := script now WINDOW_MS BUCKET_MS amount limit add
                     (default no_hash (db !! redis_key)) in
    (<[redis_key := h]> db, r)
  else (db, None).

Definition check_channel_tpm u (estimated_tokens : Z) (tpm_limit : option Z) db
    : Db * option bool :=
  let limit := default 0 tpm_limit in
  let '(db', r) := check_and_add (channel_key u "tpm") estimated_tokens limit false db in
  (db', fst <$> r).

Definition check_channel_rpm u (rpm_limit : Z) db : Db * option bool :=
  let '(db', r) := check_and_add (channel_key u "rpm") 0 rpm_limit false db in
  (db', (λ '(_, current), current <? rpm_limit) <$> r).

(** The result says whether the operation succeeded. *)
Definition record_channel u (tokens : Z) db : Db * bool :=
  match check_and_add (channel_key u "rpm") 1 0 true db with
  | (db', None) => (db', false)
  | (db', Some _) =>
      if 0 <? tokens then
        let '(db'', r) := check_and_add (channel_key u "tpm") tokens 0 true db' in
        (db'', bool_decide (is_Some r))
      else (db', true)
  end.

Definition check_key_rpm u (rpm_limit : Z) db : Db * option bool :=
  let '(db', r) := check_and_add (vk_key u "rpm") 0 rpm_limit false db in
  (db', (λ '(_, current), current <? rpm_limit) <$> r).

Definition check_key_tpm u (tpm_limit : Z) db : Db * option bool :=
  let '(db', r) := check_and_add (vk_key u "tpm") 0 tpm_limit false db in
  (db', (λ '(_, current), current <? tpm_limit) <$> r).

Definition record_key_rpm u db : Db * bool :=
  let '(db', r) := check_and_add (vk_key u "rpm") 1 0 true db in
  (db', bool_decide (is_Some r)).

Definition record_key_tokens u (tokens : Z) db : Db * bool :=
  if tokens =? 0 then (db, true) else
  let '(db', r) := check_and_add (vk_key u "tpm") tokens 0 true db in
  (db', bool_decide (is_Some r)).

Definition check_global_tpm (estimated_tokens global_limit : Z) db : Db * option bool :=
  let '(db', r) := check_and_add global_key estimated_tokens global_limit false db in
  (db', fst <$> r).

Definition record_global_tpm (tokens : Z) db : Db * bool :=
  if tokens =? 0 then (db, true) else
  let '(db', r) := check_and_add global_key tokens 0 true db in
  (db', bool_decide (is_Some r)).
End backend.

(** ** Runs of the script on one key *)

Inductive call :=
  | Record_ (t amount : Z)
  | Check_ (t amount limit : Z).

Definition call_time (c : call) : Z :=
  match c with Record_ t _ => t | Check_ t _ _ => t end.
Definition call_amount (c : call) : Z :=
  match c with Record_ _ a => a | Check_ _ _ _ => 0 end.

Definition run_call (h : Hash) (c : call) : Hash :=
  match c with
  | Record_ t a => (script t WINDOW_MS BUCKET_MS a 0 true h).1
  | Check_ t a l => (script t WINDOW_MS BUCKET_MS a l false h).1
  end.
Definition run_calls (cs : list call) : Hash := foldl run_call no_hash cs.

(** What the calls recorded in buckets from [m] on. *)
Definition recorded_from (m : Z) (cs : list call) : Z :=
  sum_where (λ c, m <=? call_time c / BUCKET_MS) call_amount cs.

(** The calls are made at non-decreasing times, from [last] up to [now]. *)
Fixpoint timed (last now : Z) (cs : list call) : Prop :=
  match cs with
  | [] => last ≤ now
  | c :: cs' => last ≤ call_time c ∧ 0 ≤ call_amount c ∧ timed (call_time c) now cs'
  end.

(** All that the calls record. *)
Definition volume (cs : list call) : Z := sumZ (map call_amount cs).
(** The numbers of the calls stay where doubles are exact. *)
Definition exact (cs : list call) (amount limit : Z) : Prop :=
  0 ≤ amount ∧ volume cs + amount ≤ 2 ^ 53 ∧ 0 ≤ limit ≤ 2 ^ 53.
Fixpoint exact_calls (past cs : list call) : Prop :=
  match cs with
  | [] => True
  | c :: cs' =>
      match c with Record_ _ a => exact past a 0 | Check_ _ a l => exact past a l end ∧ exact_calls (past ++ [c]) cs'
  end.
End Redis.

Module RedisFacts.
Import Redis.

(** *** The script in unbounded integers *)

Definition window_script (now window bucket_size amount limit : Z) (add_flag : bool)
    (h0 : Hash) : Hash * (bool * Z) :=
  let h := live now h0 in
  let current_bucket := now / bucket_size in
  let min_valid_bucket := (now - window) / bucket_size in
  let kept := filter (λ kv, min_valid_bucket ≤ kv.1) (fields h) in
  let total := sum_values kept in
  if (0 <? limit) && (limit <? total + amount) then
    (mkHash kept (expires h), (false, total))
  else
    let '(kept', total') :=
      if add_flag && (0 <? amount)
      then (<[current_bucket := default 0 (kept !! current_bucket) + amount]> kept,
            total + amount)
      else (kept, total) in
    let expires' := if bool_decide (kept' = ∅) then None
                    else Some (now + (window + bucket_size)) in
    (mkHash kept' expires', (true, total')).
Definition window_call (h : Hash) (c : call) : Hash :=
  match c with
  | Record_ t a => (window_script t WINDOW_MS BUCKET_MS a 0 true h).1
  | Check_ t a l => (window_script t WINDOW_MS BUCKET_MS a l false h).1
  end.
Definition window_calls (cs : list call) : Hash := foldl window_call no_hash cs.

Lemma sum_from_insert m f b a :
  sum_from m (<[b := default 0 (f !! b) + a]> f) = sum_from m f + (if m <=? b then a else 0).
Proof.
  unfold sum_from. destruct (Z.leb_spec m b).
  - rewrite map_filter_insert_True by done. rewrite sum_values_insert.
    destruct (f !! b) as [v|] eqn:E; simpl.
    + rewrite map_lookup_filter, E. simpl. rewrite option_guard_True by done. simpl. lia.
    + rewrite map_lookup_filter, E. simpl. lia.
  - rewrite map_filter_insert_False by (simpl; lia).
    rewrite map_filter_delete, delete_id; [lia|].
    rewrite map_lookup_filter. destruct (f !! b); simpl; [|done].
    rewrite option_guard_False; [done|simpl; lia].
Qed.

Lemma sum_from_filter m m' f :
  m' ≤ m → sum_from m (filter (λ kv, m' ≤ kv.1) f) = sum_from m f.
Proof.
  intros. unfold sum_from. f_equal. rewrite map_filter_filter.
  apply map_filter_ext. intros. simpl. lia.
Qed.

Lemma sum_from_none m f : (∀ b, is_Some (f !! b) → b < m) → sum_from m f = 0.
Proof.
  intros H. unfold sum_from. rewrite map_empty_filter_2; [apply sum_values_empty|].
  intros b v Hb. simpl. pose proof (H b ltac:(eauto)). lia.
Qed.

(** What the hash holds after the calls [cs], the last of them at [last]: the
    recorded amounts of every bucket still in the window, and no bucket that
    its expiry could drop too early. *)
Definition holds (last : Z) (h : Hash) (cs : list call) : Prop :=
  (∀ m, (last - WINDOW_MS) / BUCKET_MS ≤ m →
     sum_from m (fields (live last h)) = recorded_from m cs) ∧
  (∀ e, expires h = Some e →
     e - (WINDOW_MS + BUCKET_MS) ≤ last ∧
     ∀ b, is_Some (fields h !! b) → b ≤ (e - (WINDOW_MS + BUCKET_MS)) / BUCKET_MS) ∧
  (expires h = None → fields h = ∅).

Lemma holds_no_hash t : holds t no_hash [].
Proof.
  split_and!; [|done|done]. intros m _. simpl. by rewrite sum_from_none; [|intros b []].
Qed.

Lemma holds_later last now h cs : last ≤ now → holds last h cs → holds now h cs.
Proof.
  intros Hle (Hs&He&Hn). unfold holds, WINDOW_MS, BUCKET_MS in *. change (60000 + 10000) with 70000 in *.
  split_and!; [|intros e Ee; destruct (He e Ee); split; [lia|done]|done].
  intros m Hm. rewrite <- Hs.
  2:{ etrans; [|exact Hm]. apply Z.div_le_mono; lia. }
  unfold live. destruct (expires h) as [e|] eqn:E; [|done].
  destruct (He e eq_refl) as [He1 Hb].
  destruct (Z.leb_spec e last), (Z.leb_spec e now); try done; try lia. simpl.
  rewrite !sum_from_none; [done| |intros b []; done].
  intros b Hb'. apply Hb in Hb'.
  assert ((e - 70000) / 10000 < (now - 60000) / 10000); [|lia].
  replace (now - 60000) with (now - 70000 + 1 * 10000) by lia.
  rewrite Z.div_add by lia.
  assert ((e - 70000) / 10000 ≤ (now - 70000) / 10000) by (apply Z.div_le_mono; lia). lia.
Qed.

Lemma live_expires last h cs b :
  holds last h cs → is_Some (fields (live last h) !! b) → b ≤ last / BUCKET_MS.
Proof.
  intros (_&He&Hn) Hb. unfold live in Hb. destruct (expires h) as [e|] eqn:E.
  - case_match; [by destruct Hb|]. destruct (He e eq_refl) as [He1 Hb1].
    etrans; [by apply Hb1|]. apply Z.div_le_mono; [done|lia].
  - rewrite Hn in Hb by done. by destruct Hb.
Qed.

Lemma recorded_from_snoc m cs c :
  recorded_from m (cs ++ [c]) =
  recorded_from m cs + (if m <=? call_time c / BUCKET_MS then call_amount c else 0).
Proof. unfold recorded_from; by rewrite sum_where_snoc. Qed.

(** The script on a hash that holds [cs]. *)
Lemma script_total last h cs a l f :
  holds last h cs →
  let v := recorded_from ((last - WINDOW_MS) / BUCKET_MS) cs in
  (window_script last WINDOW_MS BUCKET_MS a l f h).2 =
  if (0 <? l) && (l <? v + a) then (false, v)
  else (true, if f && (0 <? a) then v + a else v).
Proof.
  intros (Hs&_&_) v. unfold window_script. cbv zeta. specialize (Hs _ (Z.le_refl _)).
  unfold sum_from in Hs. rewrite Hs. fold v. case_match; [done|].
  by destruct (f && (0 <? a)).
Qed.

Lemma holds_record last h cs a :
  0 ≤ a → holds last h cs → holds last (window_call h (Record_ last a)) (cs ++ [Record_ last a]).
Proof.
  intros Ha H. pose proof H as (Hs&_&_). pose proof (live_expires last h cs) as Hb.
  unfold window_call, window_script. cbv zeta.
  set (k := filter _ _). change (0 <? 0) with false. cbn [andb].
  assert (∀ b, is_Some (k !! b) → b ≤ last / BUCKET_MS) as Hk.
  { intros b [v Hv]. apply Hb; [done|]. apply map_lookup_filter_Some in Hv as [? _]. eauto. }
  set (k' := if 0 <? a then <[last / BUCKET_MS := default 0 (k !! (last / BUCKET_MS)) + a]> k
             else k).
  assert (∀ m, (last - WINDOW_MS) / BUCKET_MS ≤ m →
            sum_from m k' = recorded_from m (cs ++ [Record_ last a])) as Hsum.
  { intros m Hm. rewrite recorded_from_snoc, <- Hs by done. simpl.
    assert (sum_from m k = sum_from m (fields (live last h))) as <- by by apply sum_from_filter.
    subst k'.
    destruct (Z.ltb_spec 0 a); [apply sum_from_insert|]. case_match; lia. }
  assert (∀ b, is_Some (k' !! b) → b ≤ last / BUCKET_MS) as Hk'.
  { intros b. subst k'. case_match; [|apply Hk]. intros [v Hv].
    apply lookup_insert_Some in Hv as [[<- _]|[_ ?]]; [lia|]. apply Hk. eauto. }
  replace (if 0 <? a then _ else _) with (k', (if 0 <? a then sum_values k + a else sum_values k))
    by (subst k'; by case_match).
  simpl. unfold holds, live; simpl. case_bool_decide as Ek.
  - rewrite Ek in *. split_and!; [done|done|done].
  - split_and!; [|intros e [= <-]|done].
    + replace (last + (WINDOW_MS + BUCKET_MS) <=? last) with false
        by (unfold WINDOW_MS, BUCKET_MS; lia). done.
    + split; [lia|]. intros b Hb'.
      replace (last + (WINDOW_MS + BUCKET_MS) - (WINDOW_MS + BUCKET_MS)) with last by lia. auto.
Qed.

Lemma expires_live last h :
  expires (live last h) =
  match expires h with Some e => if e <=? last then None else Some e | None => None end.
Proof. unfold live. destruct (expires h) eqn:E; [case_match|]; by rewrite ?E. Qed.

Lemma live_expires_live last k h :
  live last (mkHash k (expires (live last h))) = mkHash k (expires (live last h)).
Proof.
  rewrite expires_live. destruct (expires h) as [e|]; [|done].
  destruct (e <=? last) eqn:E; [done|]. unfold live. simpl. by rewrite E.
Qed.

Lemma holds_check last h cs a l :
  holds last h cs → holds last (window_call h (Check_ last a l)) (cs ++ [Check_ last a l]).
Proof.
  intros H. pose proof H as (Hs&He&Hn). pose proof (live_expires last h cs) as Hb.
  assert (∀ m, recorded_from m (cs ++ [Check_ last a l]) = recorded_from m cs) as Hr.
  { intros m. rewrite recorded_from_snoc. simpl. case_match; lia. }
  unfold window_call, window_script. cbv zeta. set (k := filter _ _).
  assert (∀ m, (last - WINDOW_MS) / BUCKET_MS ≤ m → sum_from m k = recorded_from m cs) as Hk.
  { intros m Hm. rewrite <- Hs by done. by apply sum_from_filter. }
  assert (∀ b, is_Some (k !! b) → is_Some (fields (live last h) !! b)) as Hsub.
  { intros b [v Hv]. apply map_lookup_filter_Some in Hv as [? _]. eauto. }
  case_match; simpl; unfold holds.
  - rewrite live_expires_live.
    split_and!; [intros; rewrite Hr; by apply Hk| |].
    + simpl. intros e. rewrite expires_live. unfold live in Hsub.
      destruct (expires h) as [e'|] eqn:E; [|done].
      case_match; [done|]. intros [= <-]. destruct (He _ eq_refl). naive_solver.
    + simpl. rewrite expires_live. intros E. apply map_eq. intros b. rewrite lookup_empty.
      destruct (k !! b) eqn:Eb; [|done]. destruct (Hsub b) as [v Hv]; [by eauto|].
      unfold live in Hv. destruct (expires h) eqn:E'; [|by rewrite Hn in Hv].
      by case_match.
  - case_bool_decide as Ek.
    + rewrite Ek in *. split_and!; [|done|done]. intros. rewrite Hr. by apply Hk.
    + split_and!; [|intros e [= <-]|done].
      * unfold live. simpl. replace (last + (WINDOW_MS + BUCKET_MS) <=? last) with false
          by (unfold WINDOW_MS, BUCKET_MS; lia). intros. rewrite Hr. by apply Hk.
      * split; [lia|]. intros b Hb'.
        replace (last + (WINDOW_MS + BUCKET_MS) - (WINDOW_MS + BUCKET_MS)) with last by lia. auto.
Qed.

Lemma holds_calls cs : ∀ last now h past,
  holds last h past → timed last now cs → holds now (foldl window_call h cs) (past ++ cs).
Proof.
  induction cs as [|c cs IH]; intros last now h past H Ht; simpl in *.
  - rewrite app_nil_r. by apply (holds_later last).
  - destruct Ht as (H1&H2&H3). rewrite cons_middle, app_assoc.
    apply (IH (call_time c)); [|done]. apply (holds_later _ _ _ _ H1) in H.
    destruct c; [by apply holds_record|by apply holds_check].
Qed.

Lemma holds_run now cs : timed 0 now cs → holds now (window_calls cs) cs.
Proof. intros. by apply (holds_calls cs 0 now no_hash []); [apply holds_no_hash|]. Qed.

(** *** Where doubles are exact *)

Lemma double_small z : 0 ≤ z ≤ 2 ^ 53 → double z = z.
Proof.
  intros Hz. destruct (decide (z = 2 ^ 53)) as [->|Hne]; [reflexivity|]. unfold double.
  assert (Z.log2 z - 52 ≤ 0) as H.
  { destruct (decide (z = 0)) as [->|]; [done|]. assert (Z.log2 z < 53); [|lia]. apply Z.log2_lt_pow2; lia. }
  by rewrite (proj2 (Z.leb_le _ _) H).
Qed.
Definition counts (h : Hash) : Prop := ∀ b v, fields h !! b = Some v → 0 ≤ v.
Lemma sumZ_nonneg l : Forall (λ v, 0 ≤ v) l → 0 ≤ sumZ l.
Proof. induction 1; [done|]. rewrite sumZ_cons. lia. Qed.
Lemma sum_doubles l : ∀ t, Forall (λ kv : Z * Z, 0 ≤ kv.2) l → 0 ≤ t → t + sumZ l.*2 ≤ 2 ^ 53 →
  foldl (λ t kv, double (t + double kv.2)) t l = t + sumZ l.*2.
Proof.
  induction l as [|[k v] l IH]; intros t Hl Ht Hs; [cbn; lia|]. inversion Hl as [|? ? Hv Hl']; subst. cbn in Hv.
  rewrite fmap_cons, sumZ_cons in *. cbn [foldl snd] in *.
  assert (0 ≤ sumZ l.*2) by (apply sumZ_nonneg, Forall_fmap; exact Hl').
  rewrite (double_small v), double_small by lia. rewrite IH by (done || lia). lia.
Qed.
Lemma counts_list h : counts h → Forall (λ kv : Z * Z, 0 ≤ kv.2) (map_to_list (fields h)).
Proof. intros H. apply Forall_forall. intros [k v] Hin%elem_of_map_to_list. cbn. by eapply H. Qed.
Lemma sum_values_nonneg (m : gmap Z Z) : (∀ b v, m !! b = Some v → 0 ≤ v) → 0 ≤ sum_values m.
Proof.
  intros H. apply sumZ_nonneg. unfold map_values. apply Forall_forall. intros v ([k ?]&->&Hin%elem_of_map_to_list)%list_elem_of_fmap.
  by eapply H.
Qed.
Lemma sum_values_filter (P : Z * Z → Prop) `{∀ x, Decision (P x)} (m : gmap Z Z) :
  (∀ b v, m !! b = Some v → 0 ≤ v) → sum_values (filter P m) ≤ sum_values m.
Proof.
  induction m as [|k v m Hk IH] using map_ind; intros Hm.
  { rewrite map_filter_empty. lia. }
  assert (0 ≤ v) by (apply (Hm k); apply lookup_insert_eq).
  assert (∀ b w, m !! b = Some w → 0 ≤ w) as Hm'.
  { intros b w Hb. apply (Hm b). rewrite lookup_insert_ne; [done|]. congruence. }
  specialize (IH Hm'). rewrite (sum_values_insert_fresh m) by done. destruct (decide (P (k, v))).
  - rewrite map_filter_insert_True by done. rewrite sum_values_insert_fresh; [lia|].
    apply map_lookup_filter_None. left. done.
  - rewrite map_filter_insert_not' by (done || congruence). lia.
Qed.
Lemma live_counts t h : counts h → counts (live t h) ∧ sum_values (fields (live t h)) ≤ Z.max 0 (sum_values (fields h)).
Proof. intros H. unfold live. repeat case_match; (split; [done || (by intros ? ?)|]); try lia. cbn. rewrite sum_values_empty. lia. Qed.

(** The hash after a call, and what it can hold. *)
Lemma window_counts t a l f h :
  0 ≤ a → counts h →
  let h' := (window_script t WINDOW_MS BUCKET_MS a l f h).1 in
  counts h' ∧ sum_values (fields h') ≤ sum_values (fields h) + (if f then a else 0).
Proof.
  intros Ha Hc. pose proof (sum_values_nonneg _ Hc) as Hn. destruct (live_counts t h Hc) as [Hl Hs]. cbn zeta. unfold window_script. cbv zeta.
  set (k := filter _ _). assert (∀ b v, k !! b = Some v → 0 ≤ v) as Hk.
  { intros b v [Hb _]%map_lookup_filter_Some. by apply (Hl b). }
  assert (sum_values k ≤ sum_values (fields h)) as Hkh.
  { pose proof (sum_values_filter (λ kv, (t - WINDOW_MS) / BUCKET_MS ≤ kv.1) (fields (live t h)) Hl). fold k in H. lia. }
  destruct ((0 <? l) && _); [cbn; destruct f; (split; [exact Hk|lia])|].
  destruct f, (Z.ltb_spec 0 a); cbn [andb]; cbn; (split; [|rewrite ?sum_values_insert; lia]); try exact Hk.
  intros b v. cbn. destruct (decide (t / BUCKET_MS = b)) as [<-|Hne]; [|rewrite lookup_insert_ne by done; apply Hk].
  rewrite lookup_insert_eq. intros [= <-]. destruct (k !! _) as [w|] eqn:E; cbn; [pose proof (Hk _ _ E)|]; lia.
Qed.
Lemma script_exact t a l f h :
  counts h → 0 ≤ a → sum_values (fields h) + a ≤ 2 ^ 53 → 0 ≤ l ≤ 2 ^ 53 →
  script t WINDOW_MS BUCKET_MS a l f h =
    ((window_script t WINDOW_MS BUCKET_MS a l f h).1, Some (window_script t WINDOW_MS BUCKET_MS a l f h).2).
Proof.
  intros Hc Ha Hs Hl. pose proof (sum_values_nonneg _ Hc) as Hn. destruct (live_counts t h Hc) as [Hlive Hls].
  unfold script, window_script. cbv zeta. set (k := filter _ _).
  assert (∀ b v, k !! b = Some v → 0 ≤ v) as Hk.
  { intros b v [Hb _]%map_lookup_filter_Some. by apply (Hlive b). }
  assert (sum_values k ≤ sum_values (fields h)) as Hkh.
  { pose proof (sum_values_filter (λ kv, (t - WINDOW_MS) / BUCKET_MS ≤ kv.1) (fields (live t h)) Hlive). fold k in H. lia. }
  pose proof (sum_values_nonneg _ Hk) as Hkn.
  rewrite (double_small a), (double_small l) by lia.
  assert (foldl (λ t kv, double (t + double kv.2)) 0 (map_to_list k) = sum_values k) as ->.
  { rewrite sum_doubles; [done|by apply (counts_list (mkHash k None))|done|]. unfold sum_values, map_values in *. lia. }
  rewrite double_small by lia. destruct ((0 <? l) && _); [done|]. destruct (f && (0 <? a)) eqn:E; [|done].
  apply andb_true_iff in E as [_ E%Z.ltb_lt].
  assert (default 0 (k !! (t / BUCKET_MS)) ≤ sum_values k) as Hd.
  { rewrite (sum_values_delete k (t / BUCKET_MS)). pose proof (sum_values_nonneg (delete (t / BUCKET_MS) k)).
    assert (0 ≤ sum_values (delete (t / BUCKET_MS) k)); [|lia]. apply sum_values_nonneg.
    intros b v [_ Hb]%lookup_delete_Some. by apply (Hk b). }
  assert (0 ≤ default 0 (k !! (t / BUCKET_MS))) as Hd0 by (destruct (k !! _) as [w|] eqn:Ew; [by apply (Hk (t / BUCKET_MS))|done]).
  unfold hincrby. replace ((- 2 ^ 63 <=? _) && _) with true by (symmetry; apply andb_true_iff; split; [apply Z.leb_le|apply Z.ltb_lt]; lia).
  rewrite bool_decide_false by (apply insert_non_empty). done.
Qed.
Lemma volume_snoc cs c : volume (cs ++ [c]) = volume cs + call_amount c.
Proof.
  unfold volume. rewrite map_app, sumZ_app. cbn [map]. rewrite sumZ_cons. cbn. lia.
Qed.
Lemma calls_exact cs : ∀ past,
  counts (window_calls past) → sum_values (fields (window_calls past)) ≤ volume past → exact_calls past cs →
  foldl run_call (window_calls past) cs = window_calls (past ++ cs) ∧
  counts (window_calls (past ++ cs)) ∧ sum_values (fields (window_calls (past ++ cs))) ≤ volume (past ++ cs).
Proof.
  induction cs as [|c cs IH]; intros past Hc Hs He; [by rewrite app_nil_r|]. destruct He as [He He']. cbn [foldl].
  assert (window_calls (past ++ [c]) = window_call (window_calls past) c) as Hw by (unfold window_calls; by rewrite foldl_app).
  assert (run_call (window_calls past) c = window_calls (past ++ [c]) ∧ counts (window_calls (past ++ [c])) ∧
    sum_values (fields (window_calls (past ++ [c]))) ≤ volume (past ++ [c])) as (->&H1&H2).
  { rewrite Hw, volume_snoc. unfold exact in He. destruct c as [t a|t a l]; cbn [call_amount run_call window_call];
      (rewrite script_exact by (done || lia)); (split; [done|]).
    - pose proof (window_counts t a 0 true (window_calls past) ltac:(lia) Hc). cbn zeta in H. lia || (split; [apply H|]; destruct H; lia).
    - pose proof (window_counts t a l false (window_calls past) ltac:(lia) Hc). cbn zeta in H. lia || (split; [apply H|]; destruct H; lia). }
  specialize (IH _ H1 H2 He'). by rewrite <- app_assoc in IH.
Qed.
Lemma run_exact cs : exact_calls [] cs →
  run_calls cs = window_calls cs ∧ counts (window_calls cs) ∧ sum_values (fields (window_calls cs)) ≤ volume cs.
Proof. intros H. apply (calls_exact cs []); [by intros ? ?|by cbn|done]. Qed.

End RedisFacts.

Module RedisProps.
Import Redis RedisFacts.

(** C15. The script implements a sliding window of whole buckets exactly: after
    any calls at times of one clock, which do not decrease, and with amounts that
    add up to no more than 2^53, neither the deletion of old buckets nor the
    expiry of the key loses an amount that still counts, so a check is
    refused exactly when the limit is set and the amounts recorded in the
    buckets from [floor((now - window) / bucket)] on, with the new amount,
    exceed it; and no script fails. *)
Theorem redis_window_exact now cs amount limit :
  timed 0 now cs → exact_calls [] cs → exact cs amount limit →
  (script now WINDOW_MS BUCKET_MS amount limit false (run_calls cs)).2 =
  let total := recorded_from ((now - WINDOW_MS) / BUCKET_MS) cs in
  Some (negb ((0 <? limit) && (limit <? total + amount)), total).
Proof.
  intros H He (Ha&Hv&Hl). destruct (run_exact cs He) as (->&Hc&Hs). rewrite script_exact by (done || lia). cbn [snd].
  rewrite (script_total _ _ _ _ _ _ (holds_run _ _ H)). cbv zeta. by case_match.
Qed.
(** Each gateway sends the time of its own clock: one that is a minute ahead deletes what
    still counts for the others. *)
Example clocks_apart :
  (script 20001 WINDOW_MS BUCKET_MS 1 5 false (run_calls [Record_ 20000 5])).2 = Some (false, 5) ∧
  (script 20001 WINDOW_MS BUCKET_MS 1 5 false (run_calls [Record_ 20000 5; Check_ 100000 1 5])).2 = Some (true, 0).
Proof. split; vm_compute; reflexivity. Qed.
(** Beyond 2^53 an amount can be lost in the sum. *)
Example large_amounts_inexact :
  (script 20001 WINDOW_MS BUCKET_MS 1 (2 ^ 53) false (run_calls [Record_ 20000 (2 ^ 53)])).2 = Some (true, 2 ^ 53).
Proof. vm_compute. reflexivity. Qed.

Definition redis_sample : list call :=
  [Record_ 1000 5; Check_ 2000 3 10; Record_ 30000 7; Record_ 72000 1].

Lemma redis_window_exact_witness :
  timed 0 85000 redis_sample ∧
  (script 85000 WINDOW_MS BUCKET_MS 2 9 false (run_calls redis_sample)).2 = Some (false, 8).
Proof.
  assert (timed 0 85000 redis_sample) as H by (simpl; lia). split; [exact H|].
  rewrite (redis_window_exact _ _ 2 9 H); [vm_compute; reflexivity|cbn; unfold exact, volume; cbn; lia|unfold exact, volume; cbn; lia].
Defined.

End RedisProps.
