(* ===== verification/RateLimiter.v ===== *)
(** The rate limiters (proxy/rate_limiter.rs): the token bucket, the window of
    one-second buckets, the per-channel and global limiter with its Redis
    backend and in-memory fallback, and the per-virtual-key limiter. *)

From S2P Require Import Prelude F64 RedisRateLimit.

(** ** Token bucket *)

Module TokenBucket.

Inductive RateLimitAlgorithm := SlidingWindow | TokenBucket_.

Record TokenBucket := mkTokenBucket {
  tokens : F64.f64;
  capacity : F64.f64;
  refill_rate : F64.f64;
  last_refill : Instant;
}.

Definition positive_finite (f : F64.f64) : bool :=
  match f with S754_finite false _ _ => true | _ => false end.

(** The two assertions panic. *)
Definition new (capacity refill_rate : F64.f64) (now : Instant) : outcome TokenBucket :=
  if positive_finite capacity && positive_finite refill_rate
  then Done (mkTokenBucket capacity capacity refill_rate now)
  else Panic.

(** [Duration::as_secs_f64], of a number of milliseconds. *)
Definition as_secs_f64 (ms : Z) : F64.f64 :=
  F64.add (F64.of_Z (ms / 1000))
          (F64.div (F64.of_Z (1000000 * (ms mod 1000))) (F64.of_Z 1000000000)).

(** [Instant::duration_since] is zero when the argument is later. *)
Definition refill (b : TokenBucket) (now : Instant) : TokenBucket * F64.f64 :=
  let elapsed := Z.max 0 (now - last_refill b) in
  let added := F64.mul (as_secs_f64 elapsed) (refill_rate b) in
  let t := F64.min (F64.add (tokens b) added) (capacity b) in
  (mkTokenBucket t (capacity b) (refill_rate b) now, t).

Definition try_consume (b : TokenBucket) (n : F64.f64) (now : Instant) : TokenBucket * bool :=
  let '(b', available) := refill b now in
  if F64.leb n available
  then (mkTokenBucket (F64.sub available n) (capacity b') (refill_rate b') (last_refill b'), true)
  else (mkTokenBucket available (capacity b') (refill_rate b') (last_refill b'), false).

Definition available_tokens (b : TokenBucket) (now : Instant) : TokenBucket * F64.f64 :=
  refill b now.

End TokenBucket.

(** ** A window of buckets *)

Module Window.

Definition WINDOW_MS : Z := 60000.

Record BucketedWindow := mkWindow {
  buckets : list (Z * Z);
  bucket_ms : Z;
  bucket_count : Z;
  window_ms : Z;
  epoch : Instant;
}.

(** The only argument of [BucketedWindow::new] is [WINDOW_MS]. *)
Definition new (window_ms : Z) (now : Instant) : BucketedWindow :=
  let bucket_ms := Z.min 1000 window_ms in
  let bucket_count := Z.max (window_ms / bucket_ms) 1 in
  mkWindow (replicate (Z.to_nat bucket_count) (0, 0)) bucket_ms bucket_count window_ms now.

Definition now_ms (w : BucketedWindow) (now : Instant) : Z := Z.max 0 (now - epoch w).

Definition set_bucket (w : BucketedWindow) (i : nat) (b : Z * Z) : BucketedWindow :=
  mkWindow (<[i := b]> (buckets w)) (bucket_ms w) (bucket_count w) (window_ms w) (epoch w).

(** The index is in range: there are [bucket_count] buckets. *)
Definition add (w : BucketedWindow) (count : Z) (now : Instant) : BucketedWindow :=
  let t := now_ms w now in
  let bucket_ts := t / bucket_ms w * bucket_ms w in
  let idx := Z.to_nat ((t / bucket_ms w) mod bucket_count w) in
  match buckets w !! idx with
  | Some (ts, c) =>
      if ts =? bucket_ts then set_bucket w idx (ts, add_u64 c count)
      else set_bucket w idx (bucket_ts, count)
  | None => w
  end.

Definition current_total (w : BucketedWindow) (now : Instant) : Z :=
  let cutoff := sat_sub (now_ms w now) (window_ms w) in
  wrap64 (sum_where (λ b, cutoff <=? b.1) snd (buckets w)).

Definition check_and_add (w : BucketedWindow) (count limit : Z) (now : Instant) : bool :=
  add_u64 (current_total w now) count <=? limit.

End Window.

(** ** The limiter of the channels *)

Module RateLimiter.

Record ChannelLimits := mkLimits { tpm : option Z; rpm : Z }.
Definition default_limits : ChannelLimits := mkLimits None 60.

Record ChannelWindows := mkWindows { tpm_window : Window.BucketedWindow;
                                     rpm_window : Window.BucketedWindow }.
Definition new_windows (now : Instant) : ChannelWindows :=
  mkWindows (Window.new Window.WINDOW_MS now) (Window.new Window.WINDOW_MS now).

Record PerChannelState := mkState { windows : ChannelWindows; limits : ChannelLimits }.

(** [redis] is the key prefix of the backend, if there is one. *)
Record RateLimiter := mkLimiter {
  channels : gmap Uuid PerChannelState;
  global_tpm : Window.BucketedWindow;
  global_tpm_limit : option Z;
  redis : option string;
}.

Definition new (global_tpm_limit : option Z) (now : Instant) : RateLimiter :=
  mkLimiter ∅ (Window.new Window.WINDOW_MS now) global_tpm_limit None.
Definition with_redis (global_tpm_limit : option Z) (prefix : string) (now : Instant)
    : RateLimiter :=
  mkLimiter ∅ (Window.new Window.WINDOW_MS now) global_tpm_limit (Some prefix).

Definition set_channels (m : gmap Uuid PerChannelState) (r : RateLimiter) : RateLimiter :=
  mkLimiter m (global_tpm r) (global_tpm_limit r) (redis r).

(** The state of a channel, and the limiter in which it exists. *)
Definition get_or_create_channel (r : RateLimiter) (u : Uuid) (now : Instant)
    : RateLimiter * PerChannelState :=
  match channels r !! u with
  | Some s => (r, s)
  | None =>
      let s := mkState (new_windows now) default_limits in
      (set_channels (<[u := s]> (channels r)) r, s)
  end.

Definition put (r : RateLimiter) (u : Uuid) (s : PerChannelState) : RateLimiter :=
  set_channels (<[u := s]> (channels r)) r.

Definition set_channel_tpm_limit (r : RateLimiter) (u : Uuid) (limit : Z) (now : Instant)
    : RateLimiter :=
  let '(r', s) := get_or_create_channel r u now in
  put r' u (mkState (windows s) (mkLimits (Some limit) (rpm (limits s)))).
Definition set_channel_rpm_limit (r : RateLimiter) (u : Uuid) (limit : Z) (now : Instant)
    : RateLimiter :=
  let '(r', s) := get_or_create_channel r u now in
  put r' u (mkState (windows s) (mkLimits (tpm (limits s)) limit)).

(** The in-memory part of [check]. *)
Definition check_memory (r : RateLimiter) (u : Uuid) (estimated_tokens : Z) (now : Instant)
    : RateLimiter * (bool * string) :=
  let admitted :=
    match global_tpm_limit r with
    | Some global_limit => Window.check_and_add (global_tpm r) estimated_tokens global_limit now
    | None => true
    end in
  if negb admitted then (r, (false, "global_tpm_exceeded")) else
  let '(r', s) := get_or_create_channel r u now in
  if rpm (limits s) <=? Window.current_total (rpm_window (windows s)) now then
    (r', (false, "channel_rpm_exceeded"))
  else
    match tpm (limits s) with
    | Some tpm_limit =>
        if tpm_limit <? add_u64 (Window.current_total (tpm_window (windows s)) now)
                          estimated_tokens
        then (r', (false, "channel_tpm_exceeded"))
        else (r', (true, "ok"))
    | None => (r', (true, "ok"))
    end.

Section redis.
Context (show_uuid : Uuid → string) (link : string → bool) (now : Instant).
Implicit Types (db : Redis.Db) (u : Uuid) (r : RateLimiter).

(** The Redis part of [check]: a verdict, or none when a call failed. *)
Definition check_redis r (prefix : string) u (estimated_tokens : Z) db
    : RateLimiter * Redis.Db * option (bool * string) :=
  let '(db1, v1) :=
    match global_tpm_limit r with
    | Some global_limit =>
        Redis.check_global_tpm prefix link now estimated_tokens global_limit db
    | None => (db, Some true)
    end in
  match v1 with
  | Some false => (r, db1, Some (false, "global_tpm_exceeded"))
  | None => let '(r', _) := get_or_create_channel r u now in (r', db1, None)
  | Some true =>
      let '(r', s) := get_or_create_channel r u now in
      let '(db2, v2) :=
        Redis.check_channel_rpm show_uuid prefix link now u (rpm (limits s)) db1 in
      match v2 with
      | Some false => (r', db2, Some (false, "channel_rpm_exceeded"))
      | None => (r', db2, None)
      | Some true =>
          match tpm (limits s) with
          | None => (r', db2, Some (true, "ok"))
          | Some tpm_limit =>
              let '(db3, v3) :=
                Redis.check_channel_tpm show_uuid prefix link now u estimated_tokens
                  (Some tpm_limit) db2 in
              match v3 with
              | Some false => (r', db3, Some (false, "channel_tpm_exceeded"))
              | None => (r', db3, None)
              | Some true => (r', db3, Some (true, "ok"))
              end
          end
      end
  end.

Definition check r u (estimated_tokens : Z) db
    : RateLimiter * Redis.Db * (bool * string) :=
  match redis r with
  | Some prefix =>
      match check_redis r prefix u estimated_tokens db with
      | (r', db', Some verdict) => (r', db', verdict)
      | (r', db', None) =>
          let '(r'', verdict) := check_memory r' u estimated_tokens now in
          (r'', db', verdict)
      end
  | None =>
      let '(r', verdict) := check_memory r u estimated_tokens now in (r', db, verdict)
  end.

(** The in-memory part of [record]. *)
Definition record_memory r u (tokens : Z) : RateLimiter :=
  let '(r', s) := get_or_create_channel r u now in
  let ws := mkWindows (Window.add (tpm_window (windows s)) tokens now)
                      (Window.add (rpm_window (windows s)) 1 now) in
  let r'' := put r' u (mkState ws (limits s)) in
  mkLimiter (channels r'') (Window.add (global_tpm r'') tokens now)
    (global_tpm_limit r'') (redis r'').

Definition record r u (tokens : Z) db : RateLimiter * Redis.Db :=
  let r' := record_memory r u tokens in
  match redis r with
  | Some prefix =>
      let '(db1, _) := Redis.record_channel show_uuid prefix link now u tokens db in
      let '(db2, _) := Redis.record_global_tpm prefix link now tokens db1 in
      (r', db2)
  | None => (r', db)
  end.
End redis.

Definition current_tpm (r : RateLimiter) (u : Uuid) (now : Instant) : Z :=
  match channels r !! u with
  | Some s => Window.current_total (tpm_window (windows s)) now
  | None => 0
  end.
Definition tpm_limit (r : RateLimiter) (u : Uuid) : option Z :=
  match channels r !! u with Some s => tpm (limits s) | None => None end.

End RateLimiter.

(** ** The limiter of the virtual keys *)

Module KeyRateLimiter.

Abbreviation WindowMap := (gmap Uuid Window.BucketedWindow) (only parsing).

Record KeyRateLimiter := mkLimiter {
  rpm_windows : WindowMap;
  tpm_windows : WindowMap;
  redis : option string;
}.

Definition new : KeyRateLimiter := mkLimiter ∅ ∅ None.
Definition with_redis (prefix : string) : KeyRateLimiter := mkLimiter ∅ ∅ (Some prefix).

Definition get_or_create (u : Uuid) (m : WindowMap) (now : Instant)
    : WindowMap * Window.BucketedWindow :=
  match m !! u with
  | Some w => (m, w)
  | None => let w := Window.new Window.WINDOW_MS now in (<[u := w]> m, w)
  end.

Section ops.
Context (show_uuid : Uuid → string) (link : string → bool) (now : Instant).
Implicit Types (db : Redis.Db) (u : Uuid) (r : KeyRateLimiter).

Definition check_memory r u (rpm_limit : Z) : KeyRateLimiter * bool :=
  let '(m, w) := get_or_create u (rpm_windows r) now in
  (mkLimiter m (tpm_windows r) (redis r), Window.current_total w now <? rpm_limit).

Definition check r u (rpm_limit : Z) db : KeyRateLimiter * Redis.Db * bool :=
  match redis r with
  | Some prefix =>
      match Redis.check_key_rpm show_uuid prefix link now u rpm_limit db with
      | (db', Some allowed) => (r, db', allowed)
      | (db', None) => let '(r', b) := check_memory r u rpm_limit in (r', db', b)
      end
  | None => let '(r', b) := check_memory r u rpm_limit in (r', db, b)
  end.

Definition record r u db : KeyRateLimiter * Redis.Db :=
  let '(m, w) := get_or_create u (rpm_windows r) now in
  let r' := mkLimiter (<[u := Window.add w 1 now]> m) (tpm_windows r) (redis r) in
  match redis r with
  | Some prefix => (r', (Redis.record_key_rpm show_uuid prefix link now u db).1)
  | None => (r', db)
  end.

Definition check_tpm_memory r u (tpm_limit : Z) : KeyRateLimiter * bool :=
  let '(m, w) := get_or_create u (tpm_windows r) now in
  (mkLimiter (rpm_windows r) m (redis r), Window.current_total w now <? tpm_limit).

Definition check_tpm r u (tpm_limit : Z) db : KeyRateLimiter * Redis.Db * bool :=
  match redis r with
  | Some prefix =>
      match Redis.check_key_tpm show_uuid prefix link now u tpm_limit db with
      | (db', Some allowed) => (r, db', allowed)
      | (db', None) => let '(r', b) := check_tpm_memory r u tpm_limit in (r', db', b)
      end
  | None => let '(r', b) := check_tpm_memory r u tpm_limit in (r', db, b)
  end.

Definition record_tokens r u (tokens : Z) db : KeyRateLimiter * Redis.Db :=
  if tokens =? 0 then (r, db) else
  let '(m, w) := get_or_create u (tpm_windows r) now in
  let r' := mkLimiter (rpm_windows r) (<[u := Window.add w tokens now]> m) (redis r) in
  match redis r with
  | Some prefix => (r', (Redis.record_key_tokens show_uuid prefix link now u tokens db).1)
  | None => (r', db)
  end.
End ops.

End KeyRateLimiter.

(** ** A window counts its log *)

Module WindowFacts.
Import Window.

(** Events are pairs of a time and a count. *)
Abbreviation Log := (list (Z * Z)) (only parsing).

Definition run (e : Instant) (log : Log) : BucketedWindow :=
  foldl (λ w ev, add w ev.2 ev.1) (new WINDOW_MS e) log.

(** What the events satisfying [P] sum to. *)
Definition counted (P : Z → bool) (log : Log) : Z := sum_where (λ ev, P ev.1) snd log.

(** The events come at non-decreasing times, from [last] up to [now]. *)
Fixpoint timed (last now : Z) (log : Log) : Prop :=
  match log with
  | [] => last ≤ now
  | ev :: log' => last ≤ ev.1 ∧ 0 ≤ ev.2 ∧ timed ev.1 now log'
  end.

Definition bucket_of (e t : Z) : Z := (t - e) / 1000.
Definition slot_of (e t : Z) : Z := bucket_of e t mod 60.

(** The pair in slot [i] of the window of a log: a start time and the sum of
    the events of the slot that fall in that bucket, the newest of the slot. *)
Definition slot_ok (e last : Z) (log : Log) (i : Z) (b : Z * Z) : Prop :=
  ∃ k, b.1 = 1000 * k ∧
    b.2 = counted (λ t, (slot_of e t =? i) && (bucket_of e t =? k)) log ∧
    ((∀ ev, ev ∈ log → slot_of e ev.1 ≠ i) ∨
     (k mod 60 = i ∧ 1000 * k ≤ last - e ∧
      ∀ ev, ev ∈ log → slot_of e ev.1 = i → bucket_of e ev.1 ≤ k)).

Record shape (e : Z) (w : BucketedWindow) : Prop := {
  shape_ms : bucket_ms w = 1000;
  shape_count : bucket_count w = 60;
  shape_window : window_ms w = 60000;
  shape_epoch : epoch w = e;
  shape_length : length (buckets w) = 60%nat;
}.

Definition represents (e last : Z) (log : Log) (w : BucketedWindow) : Prop :=
  shape e w ∧ ∀ i b, buckets w !! i = Some b → slot_ok e last log (Z.of_nat i) b.

Lemma shape_new e : shape e (new WINDOW_MS e).
Proof. by split. Qed.

Lemma represents_new e : represents e e [] (new WINDOW_MS e).
Proof.
  split; [apply shape_new|]. intros i b Hb. apply lookup_replicate in Hb as [-> _].
  exists 0. split_and!; [done|done|]. left. intros ev Hev. by apply not_elem_of_nil in Hev.
Qed.

Lemma slot_of_range e t : 0 ≤ slot_of e t < 60.
Proof. apply Z.mod_pos_bound. lia. Qed.

Lemma slot_ok_later e last now log i b :
  last ≤ now → slot_ok e last log i b → slot_ok e now log i b.
Proof.
  intros Hle (k&H1&H2&H3). exists k. split_and!; [done|done|].
  destruct H3 as [H3|(H3&H4&H5)]; [by left|right]. split_and!; [done|lia|done].
Qed.

(** An event leaves the other slots alone. *)
Lemma slot_ok_other e now log i b ev :
  slot_of e ev.1 ≠ i → slot_ok e now log i b → slot_ok e now (log ++ [ev]) i b.
Proof.
  intros Hi (k&H1&H2&H3). exists k. split_and!; [done| |].
  - unfold counted in *. rewrite sum_where_snoc, H2.
    replace (slot_of e ev.1 =? i) with false by lia. simpl. lia.
  - destruct H3 as [H3|(H3&H4&H5)]; [left|right; split_and!; [done|done|]];
      intros ev' [?| ->%list_elem_of_singleton]%elem_of_app; by eauto.
Qed.

Lemma counted_snoc P log ev : counted P (log ++ [ev]) = counted P log + (if P ev.1 then ev.2 else 0).
Proof. unfold counted. by rewrite sum_where_snoc. Qed.

(** An event in the slot is added to its bucket or starts a new one. *)
Lemma slot_ok_same e log t c b :
  e ≤ t → 0 ≤ c → (∀ ev, ev ∈ log → 0 ≤ ev.2) →
  counted (λ _, true) log + c ≤ u64_max →
  slot_ok e t log (slot_of e t) b →
  slot_ok e t (log ++ [(t, c)]) (slot_of e t)
    (if b.1 =? 1000 * bucket_of e t then (b.1, add_u64 b.2 c) else (1000 * bucket_of e t, c)).
Proof.
  intros He Hc Hpos Hmax (k&H1&H2&H3).
  assert (1000 * bucket_of e t ≤ t - e) as Hb by (unfold bucket_of; apply Z.mul_div_le; lia).
  assert (k ≠ bucket_of e t →
          counted (λ t', (slot_of e t' =? slot_of e t) && (bucket_of e t' =? bucket_of e t)) log = 0)
    as Hz.
  { intros Hk. apply sum_where_none. intros ev Hev.
    destruct (slot_of e ev.1 =? slot_of e t) eqn:Es; [|done]. simpl.
    destruct H3 as [H3|(H3&H4&H5)]; [by destruct (H3 ev Hev); lia|].
    specialize (H5 ev Hev ltac:(lia)).
    assert (k < bucket_of e t); [|lia].
    assert (k ≤ bucket_of e t); [|lia]. unfold bucket_of. apply Z.div_le_lower_bound; lia. }
  exists (bucket_of e t). rewrite counted_snoc. simpl.
  rewrite !Z.eqb_refl. simpl. split_and!.
  - case_match; simpl; lia.
  - destruct (Z.eqb_spec b.1 (1000 * bucket_of e t)); simpl.
    + assert (k = bucket_of e t) as -> by lia. rewrite H2.
      unfold add_u64, wrap64. rewrite Z.mod_small; [done|]. unfold u64_max in Hmax.
      match goal with |- _ ≤ ?x + _ < _ => assert (0 ≤ x ≤ counted (λ _, true) log) end; [|lia].
      split; [by apply sum_where_nonneg|by apply sum_where_mono].
    + rewrite Hz; lia.
  - right. split_and!; [done|done|].
    intros ev [Hev| ->%list_elem_of_singleton]%elem_of_app Hs; [|simpl; lia].
    destruct H3 as [H3|(H3&H4&H5)]; [by destruct (H3 ev Hev)|].
    etrans; [by apply H5|]. unfold bucket_of. apply Z.div_le_lower_bound; lia.
Qed.

Lemma represents_add e last log w t c :
  e ≤ last → last ≤ t → 0 ≤ c → (∀ ev, ev ∈ log → 0 ≤ ev.2) →
  counted (λ _, true) log + c ≤ u64_max →
  represents e last log w → represents e t (log ++ [(t, c)]) (add w c t).
Proof.
  intros He Ht Hc Hpos Hmax [[Hms Hcnt Hw Hep Hlen] Hs].
  unfold add, now_ms. rewrite Hms, Hcnt, Hep, Z.max_r by lia.
  change ((t - e) / 1000) with (bucket_of e t). change (bucket_of e t mod 60) with (slot_of e t).
  pose proof (slot_of_range e t) as Hr.
  destruct (buckets w !! Z.to_nat (slot_of e t)) as [[ts c0]|] eqn:E.
  2:{ apply lookup_ge_None in E. lia. }
  assert (slot_ok e t log (slot_of e t) (ts, c0)) as Hok.
  { apply (slot_ok_later _ last); [done|]. specialize (Hs _ _ E).
    by rewrite Z2Nat.id in Hs by lia. }
  apply (slot_ok_same _ _ _ c) in Hok; [|lia|done..]. simpl in Hok.
  rewrite (Z.mul_comm (bucket_of e t) 1000).
  assert (∀ b, slot_ok e t (log ++ [(t, c)]) (slot_of e t) b →
     represents e t (log ++ [(t, c)]) (set_bucket w (Z.to_nat (slot_of e t)) b)) as Hset.
  { intros b Hb. split; [split; simpl; rewrite ?length_insert; done|]. simpl.
    intros i b' Hi. apply list_lookup_insert_Some in Hi as [(<-&<-&_)|[Hne Hi]].
    - by rewrite Z2Nat.id by lia.
    - apply slot_ok_other; [simpl; lia|]. apply (slot_ok_later _ last); [done|]. by apply Hs. }
  case_match; by apply Hset.
Qed.

Lemma timed_bounds last now log ev :
  timed last now log → ev ∈ log → 0 ≤ ev.2 ∧ last ≤ ev.1 ≤ now.
Proof.
  revert last. induction log as [|ev' log IH]; intros last H Hev;
    [by apply not_elem_of_nil in Hev|]. simpl in H. destruct H as (H1&H2&H3).
  assert (ev'.1 ≤ now).
  { clear -H3. revert H3. generalize (ev'.1). induction log as [|x l IH]; simpl; intros z H; [done|].
    destruct H as (?&?&H). apply IH in H. lia. }
  apply elem_of_cons in Hev as [-> | Hev]; [lia|]. apply (IH _ H3) in Hev. lia.
Qed.

Lemma timed_earlier last last' now log :
  last ≤ last' → timed last' now log → timed last now log.
Proof. destruct log; simpl; [lia|]. intros ? (?&?&?). split_and!; [lia|done..]. Qed.

Lemma timed_later last now now' log : now ≤ now' → timed last now log → timed last now' log.
Proof.
  intros Hn. revert last. induction log as [|ev log IH]; intros last; simpl; [lia|].
  intros (?&?&?). auto.
Qed.

Lemma timed_snoc last now log c :
  0 ≤ c → timed last now log → timed last now (log ++ [(now, c)]).
Proof.
  intros Hc. revert last. induction log as [|ev log IH]; intros last; simpl; [lia|].
  intros (?&?&?). auto.
Qed.

Lemma run_snoc e log t c : run e (log ++ [(t, c)]) = add (run e log) c t.
Proof. unfold run. by rewrite foldl_app. Qed.

Lemma represents_run e log : ∀ last past w now,
  e ≤ last → timed last now log → (∀ ev, ev ∈ past → 0 ≤ ev.2) →
  counted (λ _, true) (past ++ log) ≤ u64_max → represents e last past w →
  ∃ last', e ≤ last' ≤ now ∧
    represents e last' (past ++ log) (foldl (λ w ev, add w ev.2 ev.1) w log).
Proof.
  induction log as [|[t c] log IH]; intros last past w now He Ht Hp Hm Hr; simpl in *.
  - rewrite app_nil_r. eauto.
  - destruct Ht as (H1&H2&H3). rewrite cons_middle, app_assoc in *.
    assert (∀ ev, ev ∈ past ++ [(t, c)] → 0 ≤ ev.2) as Hp'.
    { intros ev [?| ->%list_elem_of_singleton]%elem_of_app; [by apply Hp|done]. }
    eapply (IH t); [lia|done|done|done|].
    eapply represents_add; [exact He|done..| |done].
    etrans; [|exact Hm]. unfold counted. rewrite sum_where_app, sum_where_snoc. simpl.
    enough (0 ≤ sum_where (λ _, true) snd log) by lia.
    apply sum_where_nonneg. intros ev Hev. by apply (timed_bounds t now log).
Qed.

(** What one slot contributes to the total lies between the slot's events of
    the last 59 seconds and those of the last 60. *)
Lemma slot_contribution e now log i b :
  e ≤ now → (∀ ev, ev ∈ log → 0 ≤ ev.2 ∧ e ≤ ev.1 ≤ now) → slot_ok e now log i b →
  let v := if sat_sub (now - e) WINDOW_MS <=? b.1 then b.2 else 0 in
  counted (λ t, (slot_of e t =? i) && (now - (WINDOW_MS - 1000) <=? t)) log ≤ v ∧
  v ≤ counted (λ t, (slot_of e t =? i) && (now - WINDOW_MS <=? t)) log.
Proof.
  intros He Hlog (k&H1&H2&H3). cbv zeta. rewrite H1, H2. unfold WINDOW_MS, sat_sub.
  assert (∀ ev, ev ∈ log → bucket_of e ev.1 = k → 1000 * k ≤ ev.1 - e) as Hk.
  { intros ev Hev <-. apply Z.mul_div_le. lia. }
  assert (∀ ev, ev ∈ log → slot_of e ev.1 = i → now - (60000 - 1000) ≤ ev.1 →
            bucket_of e ev.1 = k ∧ Z.max 0 (now - e - 60000) ≤ 1000 * k) as Hrecent.
  { intros ev Hev Hs Ht. destruct H3 as [H3|(H3&H4&H5)]; [by destruct (H3 ev Hev)|].
    specialize (H5 ev Hev Hs). unfold slot_of in Hs. rewrite <- H3 in Hs.
    destruct (Hlog ev Hev) as (_&Hev1&_).
    assert (0 ≤ bucket_of e ev.1 ∧ 1000 * bucket_of e ev.1 ≤ ev.1 - e
            ∧ ev.1 - e < 1000 * bucket_of e ev.1 + 1000) as (?&?&?)
      by (unfold bucket_of; clear -Hev1; Z.to_euclidean_division_equations; lia).
    clear -Hs H5 H4 H H0 H6 Ht. set (b := bucket_of e ev.1) in *. clearbody b.
    assert (b = k) as ->; [|lia].
    Z.to_euclidean_division_equations. lia. }
  split.
  - case_match.
    + apply sum_where_mono; [intros; by apply Hlog|]. intros ev Hev.
      intros [Hs Ht]%andb_prop. destruct (Hrecent ev Hev) as [-> _]; lia.
    + apply Z.eq_le_incl, sum_where_none. intros ev Hev.
      destruct (Z.eqb_spec (slot_of e ev.1) i); [|done]. simpl.
      destruct (Z.leb_spec (now - (60000 - 1000)) ev.1); [|done].
      destruct (Hrecent ev Hev); lia.
  - case_match; [|apply sum_where_nonneg; intros; by apply Hlog].
    apply sum_where_mono; [intros; by apply Hlog|]. intros ev Hev [Hs Hb]%andb_prop.
    rewrite Hs. simpl. pose proof (Hk ev Hev ltac:(lia)). lia.
Qed.

Lemma total_bounds e now log w :
  represents e now log w → e ≤ now → (∀ ev, ev ∈ log → 0 ≤ ev.2 ∧ e ≤ ev.1 ≤ now) →
  counted (λ _, true) log ≤ u64_max →
  counted (λ t, now - (WINDOW_MS - 1000) <=? t) log ≤ current_total w now ∧
  current_total w now ≤ counted (λ t, now - WINDOW_MS <=? t) log.
Proof.
  intros [[Hms Hcnt Hw Hep Hlen] Hs] He Hlog Hmax.
  set (s := sum_where (λ b : Z * Z, sat_sub (now - e) WINDOW_MS <=? b.1) snd (buckets w)).
  assert (∀ x : Z * Z, x ∈ log → 0 ≤ slot_of e x.1 < Z.of_nat 60) as Hr
    by (intros; apply slot_of_range).
  assert (counted (λ t, now - (WINDOW_MS - 1000) <=? t) log ≤ s ∧
          s ≤ counted (λ t, now - WINDOW_MS <=? t) log) as [Hl Hu].
  { unfold counted. subst s.
    rewrite <- !(sum_where_classes (λ ev : Z * Z, slot_of e ev.1) _ _ log 60) by done.
    rewrite sum_where_index, Hlen. split; apply sumZ_mono; intros i Hi%elem_of_seq.
    all: destruct (lookup_lt_is_Some_2 (buckets w) i) as [b Hb]; [lia|]; rewrite Hb.
    all: by destruct (slot_contribution e now log (Z.of_nat i) b He Hlog (Hs _ _ Hb)). }
  unfold current_total, now_ms. rewrite Hep, Hw, Z.max_r by lia. change 60000 with WINDOW_MS. fold s.
  assert (0 ≤ s ≤ u64_max).
  { split; (etrans; [|exact Hl]) || (etrans; [exact Hu|]).
    - apply sum_where_nonneg. intros. by apply Hlog.
    - etrans; [|exact Hmax]. apply sum_where_mono; [intros; by apply Hlog|done]. }
  unfold wrap64. rewrite Z.mod_small; [done|]. unfold u64_max in *. lia.
Qed.

Lemma run_bounds e now log :
  timed e now log → counted (λ _, true) log ≤ u64_max →
  counted (λ t, now - (WINDOW_MS - 1000) <=? t) log ≤ current_total (run e log) now ∧
  current_total (run e log) now ≤ counted (λ t, now - WINDOW_MS <=? t) log.
Proof.
  intros Ht Hm.
  assert (∀ ev, ev ∈ log → 0 ≤ ev.2 ∧ e ≤ ev.1 ≤ now) as Hlog
    by (intros; by apply (timed_bounds e now log)).
  destruct (represents_run e log e [] (new WINDOW_MS e) now) as (last&Hl&Hsh&Hr);
    [done|done|by intros ? ?%not_elem_of_nil|done|apply represents_new|].
  apply (total_bounds e); [split; [exact Hsh|]|lia|done|done].
  intros i b Hb. apply (slot_ok_later _ last); [lia|]. by apply Hr.
Qed.

End WindowFacts.

(** ** Runs of the limiter without Redis *)

Module LimiterFacts.
Import RateLimiter.

Inductive op :=
  | Record_ (t : Instant) (u : Uuid) (n : Z)
  | Check_ (t : Instant) (u : Uuid) (n : Z)
  | SetTpm (t : Instant) (u : Uuid) (l : Z)
  | SetRpm (t : Instant) (u : Uuid) (l : Z).

Definition op_time (o : op) : Instant :=
  match o with Record_ t _ _ | Check_ t _ _ | SetTpm t _ _ | SetRpm t _ _ => t end.
Definition op_channel (o : op) : Uuid :=
  match o with Record_ _ u _ | Check_ _ u _ | SetTpm _ u _ | SetRpm _ u _ => u end.
Definition op_tokens (o : op) : Z := match o with Record_ _ _ n => n | _ => 0 end.

Definition apply_op (r : RateLimiter) (o : op) : RateLimiter :=
  match o with
  | Record_ t u n => record_memory t r u n
  | Check_ t u n => (check_memory r u n t).1
  | SetTpm t u l => set_channel_tpm_limit r u l t
  | SetRpm t u l => set_channel_rpm_limit r u l t
  end.
Definition run_ops (limit : option Z) (start : Instant) (ops : list op) : RateLimiter :=
  foldl apply_op (new limit start) ops.

(** The history of a channel (or of all of them) as the logs of its windows. *)
Definition records (P : Uuid → bool) (f : Z → Z) (ops : list op) : list (Z * Z) :=
  omap (λ o, match o with
             | Record_ t u n => if P u then Some (t, f n) else None
             | _ => None
             end) ops.
Definition same (u v : Uuid) : bool := bool_decide (u = v).
Definition token_log (u : Uuid) := records (same u) (λ n, n).
Definition request_log (u : Uuid) := records (same u) (λ _, 1).
Definition global_log := records (λ _, true) (λ n, n).

Definition rpm_limit (r : RateLimiter) (u : Uuid) : Z :=
  match channels r !! u with Some s => rpm (limits s) | None => 60 end.

Fixpoint timed (last now : Z) (ops : list op) : Prop :=
  match ops with
  | [] => last ≤ now
  | o :: ops' => last ≤ op_time o ∧ 0 ≤ op_tokens o ∧ timed (op_time o) now ops'
  end.

Lemma ops_timed_snoc last now ops o :
  timed last now (ops ++ [o]) ↔
  timed last (op_time o) ops ∧ op_time o ≤ now ∧ 0 ≤ op_tokens o.
Proof.
  revert last. induction ops as [|o' ops IH]; intros last; simpl; [lia|].
  rewrite IH. tauto.
Qed.

Lemma timed_le last now ops : timed last now ops → last ≤ now.
Proof.
  revert last. induction ops as [|o ops IH]; simpl; [done|].
  intros last (H1&_&H2). apply IH in H2. lia.
Qed.

Lemma records_cons P f o ops :
  records P f (o :: ops) =
  match o with Record_ t u n => if P u then [(t, f n)] else [] | _ => [] end ++ records P f ops.
Proof. unfold records. simpl. destruct o as [t u n| | |]; try done. by destruct (P u). Qed.

Lemma records_snoc P f ops o :
  records P f (ops ++ [o]) =
  records P f ops ++
  match o with Record_ t u n => if P u then [(t, f n)] else [] | _ => [] end.
Proof.
  unfold records. rewrite omap_app. simpl. f_equal. destruct o as [t v n| | |]; try done. by destruct (P v).
Qed.

Lemma records_timed P f last now ops :
  (∀ n, 0 ≤ n → 0 ≤ f n) → timed last now ops → WindowFacts.timed last now (records P f ops).
Proof.
  intros Hf. revert last. induction ops as [|o ops IH]; intros last; simpl; [done|].
  intros (H1&H2&H3). apply IH in H3.
  pose proof (WindowFacts.timed_earlier _ _ _ _ H1 H3) as Hw.
  unfold records. simpl. destruct o as [t u n| | |]; simpl in *; try done.
  destruct (P u); simpl; [|done]. split_and!; [done|auto|done].
Qed.

(** Every window holds its log since its creation. *)
Definition channel_logged (now : Z) (ops : list op) (u : Uuid) (s : PerChannelState) : Prop :=
  ∃ e, WindowFacts.timed e now (token_log u ops) ∧
       WindowFacts.timed e now (request_log u ops) ∧
       tpm_window (windows s) = WindowFacts.run e (token_log u ops) ∧
       rpm_window (windows s) = WindowFacts.run e (request_log u ops).

Definition logged (start now : Z) (ops : list op) (r : RateLimiter) : Prop :=
  global_tpm r = WindowFacts.run start (global_log ops) ∧
  redis r = None ∧
  ∀ u, match channels r !! u with
       | Some s => channel_logged now ops u s
       | None => token_log u ops = [] ∧ request_log u ops = []
       end.

Lemma channel_logged_later now now' ops u s :
  now ≤ now' → channel_logged now ops u s → channel_logged now' ops u s.
Proof.
  intros Hn (e&H1&H2&H3&H4). exists e.
  split_and!; [by eapply WindowFacts.timed_later..|done|done].
Qed.

Lemma logged_later start now now' ops r :
  now ≤ now' → logged start now ops r → logged start now' ops r.
Proof.
  intros Hn (H1&H2&H3). split_and!; [done|done|]. intros u. specialize (H3 u).
  case_match; [by eapply channel_logged_later|done].
Qed.

Lemma logged_create start now ops r u :
  logged start now ops r →
  let '(r', s) := get_or_create_channel r u now in
  logged start now ops r' ∧ channels r' !! u = Some s ∧ channel_logged now ops u s.
Proof.
  intros (H1&H2&H3). unfold get_or_create_channel. pose proof (H3 u) as Hu.
  destruct (channels r !! u) as [s|] eqn:E; [done|]. destruct Hu as [Ht Hr].
  assert (channel_logged now ops u (mkState (new_windows now) default_limits)) as Hc.
  { exists now. rewrite Ht, Hr. simpl. split_and!; [lia|lia|done|done]. }
  split_and!; [|simpl; by rewrite lookup_insert_eq|done].
  split_and!; [done|done|]. simpl. intros v. destruct (decide (u = v)) as [->|].
  - by rewrite lookup_insert_eq.
  - rewrite lookup_insert_ne by done. apply H3.
Qed.

Lemma logged_put start now ops r u s :
  logged start now ops r → channel_logged now ops u s → logged start now ops (put r u s).
Proof.
  intros (H1&H2&H3) Hs. split_and!; [done|done|]. simpl. intros v.
  destruct (decide (u = v)) as [->|]; [by rewrite lookup_insert_eq|].
  rewrite lookup_insert_ne by done. apply H3.
Qed.

(** Operations that record nothing extend the history without a trace. *)
Lemma logged_silent start now ops r o :
  (∀ P f, records P f (ops ++ [o]) = records P f ops) →
  logged start now ops r → logged start now (ops ++ [o]) r.
Proof.
  intros Ho (H1&H2&H3). unfold logged, channel_logged, global_log, token_log, request_log in *.
  split_and!; [by rewrite Ho|done|]. intros u. specialize (H3 u). by rewrite !Ho.
Qed.

Lemma check_memory_limiter r u n t :
  (check_memory r u n t).1 = r ∨ (check_memory r u n t).1 = (get_or_create_channel r u t).1.
Proof.
  unfold check_memory. destruct (get_or_create_channel r u t) as [r' s].
  case_match; [by left|]. right. repeat case_match; done.
Qed.

Lemma logged_record start now ops r u n :
  0 ≤ n → logged start now ops r →
  logged start now (ops ++ [Record_ now u n]) (record_memory now r u n).
Proof.
  intros Hn H. unfold record_memory. pose proof (logged_create _ _ _ _ u H) as Hc.
  destruct (get_or_create_channel r u now) as [r' s].
  destruct Hc as ((Hg&Hr&Hch)&_&(e&H1&H2&H3&H4)).
  assert (same u u = true) as Hsame by by apply bool_decide_true.
  split_and!.
  - simpl. unfold global_log. by rewrite records_snoc, WindowFacts.run_snoc, Hg.
  - done.
  - simpl. intros v. destruct (decide (u = v)) as [<-|Hne].
    + rewrite lookup_insert_eq. exists e. unfold token_log, request_log in *.
      rewrite !records_snoc, Hsame, !WindowFacts.run_snoc. simpl. rewrite H3, H4.
      split_and!; [by apply WindowFacts.timed_snoc|by apply WindowFacts.timed_snoc|done|done].
    + rewrite lookup_insert_ne by done. specialize (Hch v).
      assert (same v u = false) as Hs by by apply bool_decide_false.
      unfold channel_logged, token_log, request_log in *.
      by rewrite !records_snoc, Hs, !app_nil_r.
Qed.

Lemma logged_step start ops r o :
  0 ≤ op_tokens o → logged start (op_time o) ops r →
  logged start (op_time o) (ops ++ [o]) (apply_op r o).
Proof.
  intros Hn H. destruct o as [t u n|t u n|t u l|t u l]; simpl in *; [by apply logged_record|..].
  all: apply logged_silent; [intros; by rewrite records_snoc, app_nil_r|].
  all: pose proof (logged_create _ _ _ _ u H) as Hc.
  - pose proof (check_memory_limiter r u n t) as [-> | ->]; [done|].
    destruct (get_or_create_channel r u t). apply Hc.
  - unfold set_channel_tpm_limit. destruct (get_or_create_channel r u t) as [r' s].
    destruct Hc as (Hc&_&Hs). by apply logged_put.
  - unfold set_channel_rpm_limit. destruct (get_or_create_channel r u t) as [r' s].
    destruct Hc as (Hc&_&Hs). by apply logged_put.
Qed.

Lemma logged_run limit start now ops :
  timed start now ops → logged start now ops (run_ops limit start ops).
Proof.
  revert now. induction ops as [|o ops IH] using rev_ind; intros now H.
  - split_and!; [done|done|]. simpl. intros u. by rewrite lookup_empty.
  - apply ops_timed_snoc in H as (H1&H2&H3). unfold run_ops. rewrite foldl_app. simpl.
    eapply logged_later; [exact H2|]. apply logged_step; [done|]. by apply IH.
Qed.

Lemma global_limit_run limit start ops : global_tpm_limit (run_ops limit start ops) = limit.
Proof.
  induction ops as [|o ops IH] using rev_ind; [done|]. unfold run_ops in *.
  rewrite foldl_app. simpl. etrans; [|exact IH]. clear IH. generalize (foldl apply_op (new limit start) ops).
  intros r. assert (∀ u t, global_tpm_limit (get_or_create_channel r u t).1 = global_tpm_limit r) as Hg.
  { intros. unfold get_or_create_channel. by case_match. }
  destruct o as [t u n|t u n|t u l|t u l]; simpl.
  - specialize (Hg u t). unfold record_memory. destruct (get_or_create_channel r u t); simpl in *; done.
  - by destruct (check_memory_limiter r u n t) as [-> | ->]; rewrite ?Hg.
  - specialize (Hg u t). unfold set_channel_tpm_limit. destruct (get_or_create_channel r u t); simpl in *; done.
  - specialize (Hg u t). unfold set_channel_rpm_limit. destruct (get_or_create_channel r u t); simpl in *; done.
Qed.

(** What a log sums to from [since] on. *)
Definition used (since : Z) (log : list (Z * Z)) : Z := WindowFacts.counted (λ t, since <=? t) log.

Lemma check_memory_spec r u n now :
  check_memory r u n now =
  let g := match global_tpm_limit r with
           | Some l => l <? add_u64 (Window.current_total (global_tpm r) now) n
           | None => false
           end in
  let '(r', s) := get_or_create_channel r u now in
  let q := rpm (limits s) <=? Window.current_total (rpm_window (windows s)) now in
  let k := match tpm (limits s) with
           | Some l => l <? add_u64 (Window.current_total (tpm_window (windows s)) now) n
           | None => false
           end in
  if g then (r, (false, "global_tpm_exceeded"))
  else (r', if q then (false, "channel_rpm_exceeded")
            else if k then (false, "channel_tpm_exceeded") else (true, "ok")).
Proof.
  unfold check_memory, Window.check_and_add. cbv zeta.
  destruct (get_or_create_channel r u now) as [r' s].
  destruct (global_tpm_limit r) as [l|]; simpl; [rewrite Z.leb_antisym, negb_involutive|].
  all: repeat case_match; done.
Qed.

End LimiterFacts.

Module LimiterProps.
Import RateLimiter LimiterFacts.

(** The three conditions of admission, on the history since [since]. *)
Definition within (limit : option Z) (r : RateLimiter) (u : Uuid) (n since : Z)
    (ops : list op) : Prop :=
  (∀ g, limit = Some g → used since (global_log ops) + n ≤ g) ∧
  used since (request_log u ops) < rpm_limit r u ∧
  (∀ l, tpm_limit r u = Some l → used since (token_log u ops) + n ≤ l).

Lemma records_mono P Q f now start ops :
  (∀ n, 0 ≤ n → 0 ≤ f n) → (∀ u, P u = true → Q u = true) → timed start now ops →
  WindowFacts.counted (λ _, true) (records P f ops) ≤
  WindowFacts.counted (λ _, true) (records Q f ops).
Proof.
  intros Hf HPQ. revert start. induction ops as [|o ops IH]; intros start; [done|].
  intros (_&Hn&Ht). apply IH in Ht. rewrite !records_cons.
  destruct o as [t u n| | |]; simpl in *; try done. specialize (HPQ u). specialize (Hf n Hn).
  unfold WindowFacts.counted in *. destruct (P u), (Q u); simpl;
    rewrite ?sum_where_cons; simpl; try lia; by discriminate HPQ.
Qed.

Lemma requests_length u ops :
  WindowFacts.counted (λ _, true) (request_log u ops) ≤ Z.of_nat (length ops).
Proof.
  unfold request_log, WindowFacts.counted. induction ops as [|o ops IH]; [done|].
  rewrite records_cons. cbn [length].
  destruct o as [t v n| | |]; simpl app; try lia. destruct (same u v); simpl app; [|lia].
  rewrite sum_where_cons. cbn [snd]. lia.
Qed.

Lemma limits_create r u now :
  let s := (get_or_create_channel r u now).2 in
  tpm (limits s) = tpm_limit r u ∧ rpm (limits s) = rpm_limit r u.
Proof.
  unfold get_or_create_channel, tpm_limit, rpm_limit. by destruct (channels r !! u).
Qed.

Lemma within_limit (o : option Z) x :
  match o with Some l => l <? x | None => false end = false ↔ ∀ l, o = Some l → x ≤ l.
Proof.
  destruct o as [l|]; [|by split]. rewrite Z.ltb_ge. split; [by intros ? ? [= <-]|eauto].
Qed.

(** The verdict reads the totals of three windows, each between the usage of
    the last 59 and that of the last 60 seconds. *)
Lemma verdict_reading limit start now ops u n :
  timed start now ops → 0 ≤ n →
  WindowFacts.counted (λ _, true) (global_log ops) + n ≤ u64_max →
  Z.of_nat (length ops) ≤ u64_max →
  let r := run_ops limit start ops in
  ∃ g q k,
    (used (now - 59000) (global_log ops) ≤ g ≤ used (now - 60000) (global_log ops)) ∧
    (used (now - 59000) (request_log u ops) ≤ q ≤ used (now - 60000) (request_log u ops)) ∧
    (used (now - 59000) (token_log u ops) ≤ k ≤ used (now - 60000) (token_log u ops)) ∧
    ((check_memory r u n now).2 = (true, "ok") ↔
       (∀ l, limit = Some l → g + n ≤ l) ∧ q < rpm_limit r u ∧
       (∀ l, tpm_limit r u = Some l → k + n ≤ l)).
Proof.
  intros Ht Hn Hmax Hlen r.
  assert (logged start now ops r) as H by by apply logged_run.
  pose proof (records_mono (same u) (λ _, true) (λ n, n) _ _ _ (λ _ h, h) (λ _ _, eq_refl) Ht) as Hm.
  pose proof (requests_length u ops) as Hq.
  destruct (WindowFacts.run_bounds start now (global_log ops)) as [Hg1 Hg2];
    [by apply records_timed|lia|]. rewrite <- (proj1 H) in Hg1, Hg2.
  rewrite check_memory_spec. cbv zeta.
  pose proof (limits_create r u now) as [El Er]. pose proof (logged_create _ _ _ _ u H) as Hc.
  destruct (get_or_create_channel r u now) as [r' s]. simpl in El, Er.
  destruct Hc as (_&_&(e&T1&T2&E3&E4)).
  destruct (WindowFacts.run_bounds e now (request_log u ops)) as [Hq1 Hq2]; [done|lia|].
  destruct (WindowFacts.run_bounds e now (token_log u ops)) as [Hk1 Hk2];
    [done|unfold token_log, global_log in *; lia|].
  rewrite <- E4 in Hq1, Hq2. rewrite <- E3 in Hk1, Hk2.
  eexists _, _, _. split_and!; [exact Hg1|exact Hg2|exact Hq1|exact Hq2|exact Hk1|exact Hk2|].
  rewrite El, Er. subst r. rewrite global_limit_run.
  set (g := Window.current_total (global_tpm _) now) in *.
  set (q := Window.current_total (rpm_window _) now) in *.
  set (k := Window.current_total (tpm_window _) now) in *.
  assert (∀ P, (∀ n, 0 ≤ n → 0 ≤ P n) → ∀ Q since, used since (records Q P ops) ≤
    WindowFacts.counted (λ _, true) (records Q P ops)) as Hall.
  { intros P HP Q since. apply sum_where_mono; [|done]. intros ev Hev.
    by apply (WindowFacts.timed_bounds start now (records Q P ops)); [apply records_timed|]. }
  assert (∀ x, 0 ≤ x → x ≤ WindowFacts.counted (λ _, true) (global_log ops) →
            add_u64 x n = x + n) as Hadd.
  { intros x Hx0 Hx. unfold add_u64, wrap64. apply Z.mod_small. unfold u64_max in *. lia. }
  assert (∀ w, 0 ≤ Window.current_total w now) as Hw
    by (intros; apply Z.mod_pos_bound; done).
  rewrite !Hadd; [|apply Hw| |apply Hw|].
  2:{ etrans; [exact Hk2|]. etrans; [|exact Hm]. by apply Hall. }
  2:{ etrans; [exact Hg2|]. by apply Hall. }
  rewrite <- !within_limit, <- Z.leb_gt.
  destruct (match limit with Some _ => _ | None => _ end); [naive_solver|].
  destruct (rpm_limit _ u <=? q); [naive_solver|].
  destruct (match tpm_limit _ u with Some _ => _ | None => _ end); naive_solver.
Qed.

Lemma within_mono limit r u n since since' start now ops :
  timed start now ops → since ≤ since' →
  within limit r u n since ops → within limit r u n since' ops.
Proof.
  intros Ht Hle (H1&H2&H3).
  assert (∀ P f, (∀ n, 0 ≤ n → 0 ≤ f n) →
            used since' (records P f ops) ≤ used since (records P f ops)) as Hm.
  { intros P f Hf. apply sum_where_mono; [|intros; lia]. intros ev Hev.
    by apply (WindowFacts.timed_bounds start now (records P f ops)); [apply records_timed|]. }
  split_and!.
  - intros g Hg. specialize (H1 g Hg). specialize (Hm (λ _, true) (λ n, n) (λ _ h, h)).
    unfold global_log in *. lia.
  - specialize (Hm (same u) (λ _, 1) (λ _ _, Z.le_0_1)). unfold request_log in *. lia.
  - intros l Hl. specialize (H3 l Hl). specialize (Hm (same u) (λ n, n) (λ _ h, h)).
    unfold token_log in *. lia.
Qed.

(** C7. Admission, on the history of the limiter.  After any operations at
    non-decreasing times on a limiter without Redis, a request of [n] tokens
    that is admitted keeps the usage of the last 59 seconds within the global
    limit, the channel's request limit and its token limit; and a request for
    which the usage of the last 60 seconds is within them is admitted. *)
Theorem limiter_admission show_uuid link db limit start now ops u n :
  timed start now ops → 0 ≤ n →
  WindowFacts.counted (λ _, true) (global_log ops) + n ≤ u64_max →
  Z.of_nat (length ops) ≤ u64_max →
  let r := run_ops limit start ops in
  ((check show_uuid link now r u n db).2 = (true, "ok") →
     within limit r u n (now - 59000) ops) ∧
  (within limit r u n (now - 60000) ops →
     (check show_uuid link now r u n db).2 = (true, "ok")).
Proof.
  intros Ht Hn Hmax Hlen r.
  destruct (verdict_reading limit start now ops u n Ht Hn Hmax Hlen)
    as (g&q&k&[Hg1 Hg2]&[Hq1 Hq2]&[Hk1 Hk2]&Hv). fold r in Hv.
  assert ((check show_uuid link now r u n db).2 = (check_memory r u n now).2) as ->.
  { unfold check. destruct (logged_run limit start now ops Ht) as (_&Hr&_).
    fold r in Hr. rewrite Hr. by destruct (check_memory r u n now). }
  rewrite Hv. unfold within. split.
  - intros (H1&H2&H3). split_and!; [|lia|].
    + intros g' Hg'. specialize (H1 g' Hg'). lia.
    + intros l' Hl'. specialize (H3 l' Hl'). lia.
  - intros (H1&H2&H3). split_and!; [|lia|].
    + intros g' Hg'. specialize (H1 g' Hg'). lia.
    + intros l' Hl'. specialize (H3 l' Hl'). lia.
Qed.

Definition sample_ops : list op :=
  [SetTpm 1000 7%N 100; SetRpm 1000 7%N 3; Record_ 2000 7%N 60; Record_ 3000 8%N 500;
   Check_ 4000 7%N 10; Record_ 5000 7%N 30].

Lemma limiter_admission_witness :
  timed 0 10000 sample_ops ∧
  (check (λ _, "") (λ _, true) 10000 (run_ops (Some 600) 0 sample_ops) 7%N 10 ∅).2
    = (true, "ok") ∧
  within (Some 600) (run_ops (Some 600) 0 sample_ops) 7%N 10 (10000 - 59000) sample_ops.
Proof.
  assert (timed 0 10000 sample_ops) as H by (simpl; lia).
  destruct (limiter_admission (λ _, "") (λ _, true) ∅ (Some 600) 0 10000 sample_ops 7%N 10 H)
    as [Hs Hc]; [lia|vm_compute; discriminate|vm_compute; discriminate|].
  split; [exact H|]. split.
  - apply Hc. unfold within. vm_compute. split; [by intros ? [= <-]|]. split; [done|].
    by intros ? [= <-].
  - apply Hs. vm_compute. reflexivity.
Defined.

Lemma check_memory_create r u n now :
  (check_memory (get_or_create_channel r u now).1 u n now).2 = (check_memory r u n now).2.
Proof.
  rewrite !check_memory_spec. cbv zeta. unfold get_or_create_channel.
  destruct (channels r !! u) as [s|] eqn:E; simpl; [by rewrite E|].
  rewrite lookup_insert_eq. by case_match.
Qed.

(** An outage of Redis fails closed onto the in-memory counters: when no
    call reaches the server, the limiter's verdict is that of the same limiter
    without Redis, whatever the state, and the server's state is untouched. *)
Theorem limiter_outage_fails_over show_uuid link now r u n db :
  (∀ key, link key = false) →
  (check show_uuid link now r u n db).2 = (check_memory r u n now).2 ∧
  (check show_uuid link now r u n db).1.2 = db.
Proof.
  intros Hl. unfold check, check_redis, Redis.check_channel_rpm, Redis.check_channel_tpm,
    Redis.check_global_tpm, Redis.check_and_add. rewrite ?Hl.
  rewrite <- (check_memory_create r u n now).
  destruct (redis r) as [p|]; [|rewrite check_memory_create; by destruct (check_memory r u n now)].
  destruct (global_tpm_limit r), (get_or_create_channel r u now) as [r' st]; simpl;
    rewrite ?Hl; simpl; by destruct (check_memory r' u n now).
Qed.

Lemma limiter_outage_fails_over_witness :
  (check (λ _, "") (λ _, false) 500
     (set_channel_tpm_limit (with_redis None "p" 0) 7%N 10 0) 7%N 11 ∅).2
  = (false, "channel_tpm_exceeded").
Proof.
  destruct (limiter_outage_fails_over (λ _, "") (λ _, false) 500
     (set_channel_tpm_limit (with_redis None "p" 0) 7%N 10 0) 7%N 11 ∅ (λ _, eq_refl))
    as [H _]. rewrite H. vm_compute. reflexivity.
Defined.

(** A token limit of 0 refuses every request in memory, and is no limit for
    the script: the two backends of the same limiter disagree. *)
Lemma zero_limit_unlimited_on_redis show_uuid prefix link now u n db :
  link (prefix +:+ ":" +:+ Redis.channel_key show_uuid u "tpm") = true →
  (Redis.check_channel_tpm show_uuid prefix link now u n (Some 0) db).2 = Some true.
Proof.
  intros Hl. unfold Redis.check_channel_tpm, Redis.check_and_add. rewrite Hl.
  unfold Redis.script. simpl. done.
Qed.

End LimiterProps.

Module TokenBucketFacts.
Import TokenBucket.

Lemma compare_not_lt_le a b :
  a ≠ S754_nan → b ≠ S754_nan → F64.ltb b a = false → F64.leb a b = true.
Proof.
  intros Ha Hb. unfold F64.ltb, F64.leb, SFcompare.
  destruct a as [[]|[]| |[] m e], b as [[]|[]| |[] m' e']; try done;
    rewrite (Z.compare_antisym e e'); destruct (Z.compare e e') eqn:E; simpl; try done;
    change (Pos.compare_cont Eq m m') with (m ?= m')%positive;
    change (Pos.compare_cont Eq m' m) with (m' ?= m)%positive;
    rewrite (Pos.compare_antisym m m'); by destruct (m ?= m')%positive.
Qed.

(** The bucket never holds more than its capacity after a refill. *)
Lemma refill_capacity b now :
  positive_finite (capacity b) = true → F64.leb (refill b now).2 (capacity b) = true.
Proof.
  intros Hc. unfold refill. simpl. generalize (F64.add (tokens b)
    (F64.mul (as_secs_f64 (Z.max 0 (now - last_refill b))) (refill_rate b))). intros t.
  destruct (capacity b) as [| | |[] m e] eqn:E; try done.
  assert (∀ f, f ≠ S754_nan → F64.leb f f = true) as Hrefl.
  { intros f Hf. apply compare_not_lt_le; [done|done|]. unfold F64.ltb, SFcompare.
    destruct f as [[]|[]| |[] m' e']; try done; rewrite Z.compare_refl;
      change (Pos.compare_cont Eq m' m') with (m' ?= m')%positive; by rewrite Pos.compare_refl. }
  unfold F64.min. destruct t as [s|s| |s m' e']; try (by apply Hrefl);
    (case_match; [by apply Hrefl|by apply compare_not_lt_le]).
Qed.

End TokenBucketFacts.
