(* ===== verification/Trackers.v ===== *)
(** What the router observes of a channel (router/cooldown.rs,
    router/latency_tracker.rs, router/active_requests.rs): the failure-rate
    cooldown, the latency window, and the count of requests in flight. *)

From S2P Require Import Prelude F64.

(** ** Failure-rate cooldown *)

Module Cooldown.

(** [0.30] *)
Definition DEFAULT_FAILURE_THRESHOLD : F64.f64 := F64.lit 3 10.
Definition MIN_ATTEMPTS : Z := 5.
Definition DEFAULT_COOLDOWN_SECS : Z := 60.
Definition WINDOW_SIZE : nat := 20.

(** An [AttemptRecord] is its [success] flag. *)
Record CooldownTracker := mkTracker {
  records : gmap Uuid (list bool);
  cooldowns : gmap Uuid Instant;
  threshold : F64.f64;
  min_attempts : Z;
  cooldown_duration : Z;
}.

Definition new : CooldownTracker :=
  mkTracker ∅ ∅ DEFAULT_FAILURE_THRESHOLD MIN_ATTEMPTS (millis_of_secs DEFAULT_COOLDOWN_SECS).

Definition with_records (m : gmap Uuid (list bool)) (c : CooldownTracker) : CooldownTracker :=
  mkTracker m (cooldowns c) (threshold c) (min_attempts c) (cooldown_duration c).
Definition with_cooldowns (m : gmap Uuid Instant) (c : CooldownTracker) : CooldownTracker :=
  mkTracker (records c) m (threshold c) (min_attempts c) (cooldown_duration c).

Definition failures (queue : list bool) : Z := Z.of_nat (length (List.filter negb queue)).

Definition evaluate_cooldown (c : CooldownTracker) (u : Uuid) (now : Instant) : CooldownTracker :=
  match records c !! u with
  | Some queue =>
      let len := Z.of_nat (length queue) in
      if len <? min_attempts c then c else
      let failure_rate := F64.div (F64.of_Z (failures queue)) (F64.of_Z len) in
      if F64.leb (threshold c) failure_rate
      then with_cooldowns (<[u := now + cooldown_duration c]> (cooldowns c)) c
      else c
  | None => c
  end.

Definition record_attempt (c : CooldownTracker) (u : Uuid) (success : bool) (now : Instant)
    : CooldownTracker :=
  let queue := push_bounded WINDOW_SIZE (default [] (records c !! u)) success in
  let c' := with_records (<[u := queue]> (records c)) c in
  if negb success then evaluate_cooldown c' u now
  else with_cooldowns (delete u (cooldowns c')) c'.

Definition is_in_cooldown (c : CooldownTracker) (u : Uuid) (now : Instant) : bool :=
  match cooldowns c !! u with Some until => now <? until | None => false end.

Definition cooldown_remaining_secs (c : CooldownTracker) (u : Uuid) (now : Instant) : Z :=
  match cooldowns c !! u with Some until => sat_sub until now / 1000 | None => 0 end.

Definition remove (c : CooldownTracker) (u : Uuid) : CooldownTracker :=
  with_cooldowns (delete u (cooldowns c)) (with_records (delete u (records c)) c).

End Cooldown.

(** ** Latency window *)

Module Latency.

Definition WINDOW_SIZE : nat := 10.

Abbreviation LatencySample := (Z * option Z)%type (only parsing).
Abbreviation LatencyTracker := (gmap Uuid (list (Z * option Z))) (only parsing).

Definition new : LatencyTracker := ∅.

Definition record_with_tokens (t : LatencyTracker) (u : Uuid) (latency_ms : Z)
    (output_tokens : option Z) : LatencyTracker :=
  <[u := push_bounded WINDOW_SIZE (default [] (t !! u)) (latency_ms, output_tokens)]> t.
Definition record (t : LatencyTracker) (u : Uuid) (latency_ms : Z) : LatencyTracker :=
  record_with_tokens t u latency_ms None.

(** [Iterator::sum::<u64>()] wraps. *)
Definition sum_u64 (l : list Z) : Z := wrap64 (sumZ l).

Definition avg_latency (t : LatencyTracker) (u : Uuid) : Z :=
  match t !! u with
  | Some [] => 0
  | Some samples => sum_u64 samples.*1 / Z.of_nat (length samples)
  | None => 0
  end.

(** The index that overruns would panic. *)
Definition p95_latency (t : LatencyTracker) (u : Uuid) : outcome Z :=
  match t !! u with
  | Some [] => Done 0
  | Some samples =>
      let sorted := stable_sort Z.leb samples.*1 in
      let len := Z.of_nat (length sorted) in
      let idx := F64.ceil_usize (F64.mul (F64.of_Z len) (F64.lit 95 100)) in
      match sorted !! Z.to_nat (Z.min (sat_sub idx 1) (len - 1)) with
      | Some v => Done v
      | None => Panic
      end
  | None => Done 0
  end.

Definition avg_latency_per_token (t : LatencyTracker) (u : Uuid) : option Z :=
  match t !! u with
  | Some samples =>
      let with_tokens := List.filter (λ s : LatencySample, bool_decide (is_Some s.2)) samples in
      match with_tokens with
      | [] => None
      | _ =>
          let total_latency := sum_u64 with_tokens.*1 in
          let total_tokens := sum_u64 (omap snd with_tokens) in
          if total_tokens =? 0 then None else Some (total_latency / total_tokens)
      end
  | None => None
  end.

End Latency.

(** ** Requests in flight *)

Module Active.

Abbreviation ActiveRequests := (gmap Uuid Z) (only parsing).

Definition new : ActiveRequests := ∅.

Definition increment (a : ActiveRequests) (u : Uuid) : ActiveRequests :=
  <[u := add_u32 (default 0 (a !! u)) 1]> a.

Definition decrement (a : ActiveRequests) (u : Uuid) : ActiveRequests :=
  match a !! u with
  | Some count => if 0 <? count then <[u := count - 1]> a else a
  | None => a
  end.

Definition get (a : ActiveRequests) (u : Uuid) : Z := default 0 (a !! u).
Definition snapshot (a : ActiveRequests) : gmap Uuid Z := a.
Definition total (a : ActiveRequests) : Z := wrap64 (sum_values a).

(** The tracker and the channels of the guards alive.  [acquire] makes a
    guard; dropping a guard decrements. *)
Record world := mkWorld { counts : ActiveRequests; guards : list Uuid }.

Inductive step : world → world → Prop :=
  | acquire a gs u :
      Z.of_nat (length gs) < u32_max →
      step (mkWorld a gs) (mkWorld (increment a u) (u :: gs))
  | drop a gs1 u gs2 :
      step (mkWorld a (gs1 ++ u :: gs2)) (mkWorld (decrement a u) (gs1 ++ gs2)).

Definition reachable (w : world) : Prop := rtc step (mkWorld new []) w.

Definition live_guards (gs : list Uuid) (u : Uuid) : Z :=
  sum_where (λ v, bool_decide (u = v)) (λ _, 1) gs.

End Active.

Module TrackerFacts.

(** *** Cooldown *)

Definition rates_agree (n : nat) : bool :=
  forallb (λ f, Bool.eqb
    (F64.leb Cooldown.DEFAULT_FAILURE_THRESHOLD
       (F64.div (F64.of_Z (Z.of_nat f)) (F64.of_Z (Z.of_nat n))))
    (3 * Z.of_nat n <=? 10 * Z.of_nat f)) (seq 0 (S n)).

(** On every count a window can show, the floating-point test is the exact
    comparison of the rate with 3/10. *)
Lemma rate_test n f :
  (1 ≤ n ≤ 20)%nat → (f ≤ n)%nat →
  F64.leb Cooldown.DEFAULT_FAILURE_THRESHOLD
    (F64.div (F64.of_Z (Z.of_nat f)) (F64.of_Z (Z.of_nat n))) =
  (3 * Z.of_nat n <=? 10 * Z.of_nat f).
Proof.
  intros Hn Hf.
  assert (forallb rates_agree (seq 1 20) = true) as H by (vm_compute; reflexivity).
  rewrite forallb_forall in H. specialize (H n). rewrite in_seq in H.
  specialize (H ltac:(lia)). unfold rates_agree in H. rewrite forallb_forall in H.
  specialize (H f). rewrite in_seq in H. specialize (H ltac:(lia)).
  by apply Bool.eqb_prop in H.
Qed.

(** Attempts, in order: the channel, the result, the time. *)
Abbreviation Attempt := (Uuid * bool * Instant)%type (only parsing).
Definition run_attempts (h : list Attempt) : Cooldown.CooldownTracker :=
  foldl (λ c '(u, ok, t), Cooldown.record_attempt c u ok t) Cooldown.new h.
Definition results (u : Uuid) (h : list Attempt) : list bool :=
  omap (λ '(v, ok, _), if bool_decide (u = v) then Some ok else None) h.
Definition recent (u : Uuid) (h : list Attempt) : list bool :=
  lastn Cooldown.WINDOW_SIZE (results u h).

(** The channel's last 20 attempts trip the breaker. *)
Definition trips (w : list bool) : bool :=
  (5 <=? Z.of_nat (length w)) && (3 * Z.of_nat (length w) <=? 10 * Cooldown.failures w).

Lemma results_snoc u v ok t h :
  results u (h ++ [(v, ok, t)]) = results u h ++ (if bool_decide (u = v) then [ok] else []).
Proof. unfold results. rewrite omap_app. f_equal. simpl. by case_bool_decide. Qed.

Lemma failures_le w : (length (List.filter negb w) ≤ length w)%nat.
Proof. apply List.filter_length_le. Qed.

Lemma evaluate_records c u t :
  Cooldown.records (Cooldown.evaluate_cooldown c u t) = Cooldown.records c.
Proof. unfold Cooldown.evaluate_cooldown. by repeat case_match. Qed.

Lemma evaluate_config c u t :
  Cooldown.threshold (Cooldown.evaluate_cooldown c u t) = Cooldown.threshold c ∧
  Cooldown.min_attempts (Cooldown.evaluate_cooldown c u t) = Cooldown.min_attempts c ∧
  Cooldown.cooldown_duration (Cooldown.evaluate_cooldown c u t) = Cooldown.cooldown_duration c.
Proof. unfold Cooldown.evaluate_cooldown. by repeat case_match. Qed.

Record tracks (h : list Attempt) (c : Cooldown.CooldownTracker) : Prop := {
  tracks_window : ∀ u, default [] (Cooldown.records c !! u) = recent u h;
  tracks_threshold : Cooldown.threshold c = Cooldown.DEFAULT_FAILURE_THRESHOLD;
  tracks_min : Cooldown.min_attempts c = 5;
  tracks_duration : Cooldown.cooldown_duration c = 60000;
}.

Lemma tracks_snoc h c u ok t :
  tracks h c → tracks (h ++ [(u, ok, t)]) (Cooldown.record_attempt c u ok t).
Proof.
  intros [Hw Ht Hm Hd].
  set (c' := Cooldown.with_records (<[u := push_bounded Cooldown.WINDOW_SIZE
               (default [] (Cooldown.records c !! u)) ok]> (Cooldown.records c)) c).
  assert (∀ v, default [] (Cooldown.records c' !! v) = recent v (h ++ [(u, ok, t)])) as Hr.
  { intros v. unfold recent. rewrite results_snoc. simpl. case_bool_decide as E.
    - subst v. rewrite lookup_insert_eq. simpl. rewrite Hw. apply push_bounded_lastn.
      vm_compute. lia.
    - rewrite lookup_insert_ne by done. by rewrite app_nil_r, Hw. }
  pose proof (evaluate_config c' u t) as (E1&E2&E3).
  unfold Cooldown.record_attempt. fold c'.
  destruct ok; simpl; split; simpl; try done.
  - intros v. by rewrite evaluate_records.
  - by rewrite E1.
  - by rewrite E2.
  - by rewrite E3.
Qed.

Lemma tracks_run h : tracks h (run_attempts h).
Proof.
  induction h as [|[[u ok] t] h IH] using rev_ind; [by split|].
  unfold run_attempts in *. rewrite foldl_app. by apply tracks_snoc.
Qed.

Lemma evaluate_trips h c u t :
  tracks h c → recent u h ≠ [] →
  Cooldown.cooldowns (Cooldown.evaluate_cooldown c u t) =
  if trips (recent u h) then <[u := t + 60000]> (Cooldown.cooldowns c) else Cooldown.cooldowns c.
Proof.
  intros [Hw Ht Hm Hd] Hne. unfold Cooldown.evaluate_cooldown. specialize (Hw u).
  destruct (Cooldown.records c !! u) as [q|]; simpl in Hw; [|by rewrite <- Hw in Hne].
  rewrite <- Hw in *. rewrite Hm, Ht. unfold trips.
  rewrite Z.ltb_antisym. destruct (Z.leb_spec 5 (Z.of_nat (length q))); [|done]. simpl.
  unfold Cooldown.failures at 1. rewrite rate_test.
  - unfold Cooldown.failures. case_match; [|done]. simpl. by rewrite Hd.
  - split; [lia|]. assert (length q = length (recent u h)) as -> by by rewrite Hw.
    unfold recent. rewrite length_lastn. unfold Cooldown.WINDOW_SIZE. lia.
  - apply failures_le.
Qed.

End TrackerFacts.

Module CooldownProps.
Import TrackerFacts.

(** The cooldown of a channel after any history of attempts: a success ends
    it; a failure starts one of 60 seconds exactly when the channel's last 20
    attempts are at least 5 with at least 3 failures in 10 (the binary64 test
    of the code is exact on these counts), and otherwise leaves it as it was;
    an attempt on another channel never changes it. *)
Theorem cooldown_trips_exactly h v ok t u now :
  Cooldown.is_in_cooldown (run_attempts (h ++ [(v, ok, t)])) u now =
  if negb (bool_decide (u = v)) then Cooldown.is_in_cooldown (run_attempts h) u now
  else if ok then false
  else if trips (recent u (h ++ [(v, ok, t)])) then now <? t + 60000
  else Cooldown.is_in_cooldown (run_attempts h) u now.
Proof.
  pose proof (tracks_run h) as Ht. unfold run_attempts at 1. rewrite foldl_app. simpl.
  change (foldl _ Cooldown.new h) with (run_attempts h).
  pose proof (tracks_snoc h _ v ok t Ht) as Ht'.
  unfold Cooldown.is_in_cooldown. destruct ok; simpl.
  - unfold Cooldown.record_attempt. simpl. case_bool_decide as E.
    + subst. by rewrite lookup_delete_eq.
    + by rewrite lookup_delete_ne.
  - set (c := Cooldown.record_attempt _ v false t) in *.
    set (c' := Cooldown.with_records (<[v := push_bounded Cooldown.WINDOW_SIZE
      (default [] (Cooldown.records (run_attempts h) !! v)) false]>
      (Cooldown.records (run_attempts h))) (run_attempts h)).
    assert (tracks (h ++ [(v, false, t)]) c') as Hc'.
    { destruct Ht' as [Hw _ _ _], Ht as [_ ? ? ?]. split; try done.
      intros w. rewrite <- Hw. subst c. unfold Cooldown.record_attempt. simpl.
      by rewrite evaluate_records. }
    assert (Cooldown.cooldowns c = Cooldown.cooldowns (Cooldown.evaluate_cooldown c' v t)) as ->
      by done.
    rewrite (evaluate_trips _ _ _ _ Hc').
    + case_bool_decide as E; simpl; [subst u|].
      * destruct (trips _); [by rewrite lookup_insert_eq|done].
      * destruct (trips _); [by rewrite lookup_insert_ne|done].
    + unfold recent. rewrite results_snoc, bool_decide_true by done.
      intros Hnil%(f_equal length). rewrite length_lastn, length_app in Hnil.
      unfold Cooldown.WINDOW_SIZE in Hnil. cbn [length] in Hnil. lia.
Qed.

End CooldownProps.

Module LatencyProps.
Import Latency.

Abbreviation Sample := (Uuid * Z * option Z)%type (only parsing).
Definition run_samples (h : list Sample) : LatencyTracker :=
  foldl (λ t '(u, ms, toks), record_with_tokens t u ms toks) new h.
Definition samples_of (u : Uuid) (h : list Sample) : list (Z * option Z) :=
  omap (λ '(v, ms, toks), if bool_decide (u = v) then Some (ms, toks) else None) h.

Lemma samples_of_snoc u v ms toks h :
  samples_of u (h ++ [(v, ms, toks)]) =
  samples_of u h ++ (if bool_decide (u = v) then [(ms, toks)] else []).
Proof. unfold samples_of. rewrite omap_app. f_equal. simpl. by case_bool_decide. Qed.

Lemma run_window h u : default [] (run_samples h !! u) = lastn WINDOW_SIZE (samples_of u h).
Proof.
  induction h as [|[[v ms] toks] h IH] using rev_ind; [done|].
  unfold run_samples at 1. rewrite foldl_app, samples_of_snoc. simpl.
  change (foldl _ new h) with (run_samples h). unfold record_with_tokens. case_bool_decide as E.
  - subst v. rewrite lookup_insert_eq. simpl. rewrite IH.
    apply push_bounded_lastn. vm_compute. lia.
  - by rewrite lookup_insert_ne, app_nil_r by done.
Qed.

(** [ceil(n * 0.95)] is [n] for the lengths a window can have. *)
Lemma p95_index n :
  (1 ≤ n ≤ 10)%nat →
  F64.ceil_usize (F64.mul (F64.of_Z (Z.of_nat n)) (F64.lit 95 100)) = Z.of_nat n.
Proof.
  intros Hn. do 11 (destruct n as [|n]; [first [lia | vm_compute; reflexivity]|]). lia.
Qed.

Lemma last_sorted_max l x :
  StronglySorted (λ a b, (a <=? b) = true) (l ++ [x]) → Forall (λ y, y ≤ x) (l ++ [x]).
Proof.
  induction l as [|y l IH]; simpl; intros H; inversion H as [|? ? H1 H2]; subst.
  - by repeat constructor.
  - constructor; [|by apply IH]. apply Forall_app in H2 as [_ H2].
    inversion H2; subst. lia.
Qed.

(** Whatever samples were recorded, the 95th percentile never indexes out of
    range, and over a window of at most ten samples it is the maximum of the
    channel's last ten latencies (0 when there are none). *)
Theorem p95_is_window_max h u :
  let w := (lastn WINDOW_SIZE (samples_of u h)).*1 in
  ∃ v, p95_latency (run_samples h) u = Done v ∧
       (w = [] → v = 0) ∧ (w ≠ [] → v ∈ w ∧ ∀ y, y ∈ w → y ≤ v).
Proof.
  cbv zeta. unfold p95_latency. pose proof (run_window h u) as Hw.
  assert (length (lastn WINDOW_SIZE (samples_of u h)) ≤ 10)%nat as Hlen
    by (rewrite length_lastn; unfold WINDOW_SIZE; lia).
  destruct (run_samples h !! u) as [q|]; simpl in Hw; rewrite <- Hw in *; [|by exists 0].
  destruct q as [|s q]; [by exists 0|]. set (w := (s :: q).*1).
  assert (length (stable_sort Z.leb w) = S (length q)) as HL
    by (rewrite stable_sort_length; apply (length_fmap fst (s :: q))).
  destruct (stable_sort Z.leb w) as [|x l _] eqn:E using rev_ind; [done|].
  rewrite p95_index by (simpl in *; lia). rewrite length_app in *. simpl length in *.
  replace (Z.to_nat _) with (length l) by (unfold sat_sub; lia).
  rewrite list_lookup_middle by done. exists x. split_and!; [done|done|]. intros _.
  assert (∀ y, y ∈ w ↔ y ∈ l ++ [x]) as Hin
    by (intros; by rewrite <- E, elem_of_stable_sort).
  split; [apply Hin; set_solver|]. intros y Hy%Hin.
  assert (Forall (λ y, y ≤ x) (l ++ [x])) as Hmax.
  { apply last_sorted_max. rewrite <- E. apply stable_sort_sorted; intros; lia. }
  by rewrite Forall_forall in Hmax; apply Hmax.
Qed.

End LatencyProps.

Module ActiveProps.
Import Active.

Definition balanced (w : world) : Prop :=
  Z.of_nat (length (guards w)) ≤ u32_max ∧
  (∀ u, get (counts w) u = live_guards (guards w) u) ∧
  sum_values (counts w) = Z.of_nat (length (guards w)).

Lemma live_guards_cons v gs u :
  live_guards (v :: gs) u = (if bool_decide (u = v) then 1 else 0) + live_guards gs u.
Proof. unfold live_guards. rewrite sum_where_cons. by case_bool_decide. Qed.

Lemma live_guards_le gs u : 0 ≤ live_guards gs u ≤ Z.of_nat (length gs).
Proof.
  induction gs as [|v gs IH]; [done|]. rewrite live_guards_cons. cbn [length].
  case_bool_decide; lia.
Qed.

Lemma live_guards_middle gs1 v gs2 u :
  live_guards (gs1 ++ v :: gs2) u =
  (if bool_decide (u = v) then 1 else 0) + live_guards (gs1 ++ gs2) u.
Proof.
  unfold live_guards. rewrite !sum_where_app, sum_where_cons. case_bool_decide; lia.
Qed.

Lemma step_balanced w w' : step w w' → balanced w → balanced w'.
Proof.
  intros [a gs u Hlt|a gs1 u gs2] (Hlen&Hget&Hsum); unfold balanced, get in *; simpl in *.
  - pose proof (live_guards_le gs u) as Hle. rewrite <- (Hget u) in Hle.
    assert (add_u32 (default 0 (a !! u)) 1 = default 0 (a !! u) + 1) as Ea.
    { unfold add_u32, wrap32. apply Z.mod_small. unfold u32_max in *. lia. }
    unfold increment. rewrite Ea. split_and!; [lia| |].
    + intros v. rewrite live_guards_cons. case_bool_decide as E.
      * subst v. rewrite lookup_insert_eq. simpl. rewrite <- Hget. lia.
      * rewrite lookup_insert_ne by done. apply Hget.
    + rewrite sum_values_insert, Hsum. lia.
  - rewrite !length_app in *. simpl in *.
    assert (0 < default 0 (a !! u)) as Hpos.
    { rewrite Hget, live_guards_middle, bool_decide_true by done.
      pose proof (live_guards_le (gs1 ++ gs2) u). lia. }
    unfold decrement. destruct (a !! u) as [c|] eqn:Eu; simpl in Hpos; [|lia].
    rewrite (proj2 (Z.ltb_lt 0 c)) by done. split_and!; [lia| |].
    + intros v. specialize (Hget v). rewrite live_guards_middle in Hget.
      case_bool_decide as E.
      * subst v. rewrite lookup_insert_eq. rewrite Eu in Hget. simpl in *. lia.
      * rewrite lookup_insert_ne by done. lia.
    + rewrite sum_values_insert, Hsum, Eu. simpl. lia.
Qed.

(** However acquisitions and drops interleave, the count of a channel is the
    number of its guards alive, so a concurrency limit counts exactly the
    requests in flight, a guard dropped is released once, and the total is the
    number of all guards. *)
Theorem active_counts_guards w :
  reachable w →
  (∀ u, get (counts w) u = live_guards (guards w) u) ∧
  total (counts w) = Z.of_nat (length (guards w)).
Proof.
  intros H. assert (balanced w) as (Hl&Hg&Hs).
  { unfold reachable in H. remember (mkWorld new []) as w0 eqn:E0.
    assert (balanced w0) as Hb by (subst; by split_and!).
    clear E0. induction H as [|w0 w1 w2 Hstep _ IH]; [done|].
    apply IH. by eapply step_balanced. }
  split; [done|]. unfold total. rewrite Hs. unfold wrap64. apply Z.mod_small.
  unfold u32_max in Hl. lia.
Qed.

Lemma active_counts_guards_witness :
  reachable (mkWorld (decrement (increment (increment (increment new 1) 2) 1) 1) [2; 1]%N) ∧
  get (decrement (increment (increment (increment new 1) 2) 1) 1) 1 = 1.
Proof.
  assert (reachable (mkWorld (decrement (increment (increment (increment new 1) 2) 1) 1)
                       [2; 1]%N)) as H.
  { eapply rtc_l; [by apply acquire|]. eapply rtc_l; [by apply acquire|].
    eapply rtc_l; [by apply acquire|]. eapply rtc_l; [|apply rtc_refl].
    apply (drop _ [] 1%N [2; 1]%N). }
  split; [exact H|]. destruct (active_counts_guards _ H) as [Hc _]. exact (Hc 1%N).
Defined.

End ActiveProps.
