(* ===== verification/Router.v ===== *)
(** Channel selection (router/weighted.rs, router/strategy.rs, router/mod.rs):
    the weighted draw, the five strategies, and the selection by priority among
    the channels that pass the filters. *)

From S2P Require Import Prelude F64 Channel RateLimiter Trackers.

Module Router.
Import Channel.Channel.

Abbreviation Chan := Channel.Channel.Channel (only parsing).

(** A draw [random_range(lo..=hi)].  Its result is in the range. *)
Abbreviation Rng := (Z → Z → Z) (only parsing).
Definition in_range (rng : Rng) : Prop := ∀ lo hi, lo ≤ hi → lo ≤ rng lo hi ≤ hi.

(** [l[i]] *)
Definition index {A} (l : list A) (i : Z) : outcome A :=
  match l !! Z.to_nat i with Some x => Done x | None => Panic end.

(** ** weighted.rs *)

Fixpoint weighted_pick (candidates : list Chan) (roll : Z) : option Chan :=
  match candidates with
  | [] => None
  | ch :: rest => if roll <=? weight ch then Some ch else weighted_pick rest (roll - weight ch)
  end.

Definition weighted_random (rng : Rng) (candidates : list Chan) : outcome (option Chan) :=
  match candidates with
  | [] => Done None
  | _ =>
      let total_weight := wrap64 (sumZ (weight <$> candidates)) in
      if total_weight =? 0 then
        let! c := index candidates (rng 0 (Z.of_nat (length candidates) - 1)) in Done (Some c)
      else
        match weighted_pick candidates (rng 1 total_weight) with
        | Some c => Done (Some c)
        | None => Done (last candidates)
        end
  end.

(** ** strategy.rs *)

Inductive RoutingStrategyType := WeightedRandom | Latency | LeastBusy | Usage | LowestCost.

Record RoutingContext := mkContext {
  active_requests : Active.ActiveRequests;
  rate_limiter : RateLimiter.RateLimiter;
  latency_tracker : Latency.LatencyTracker;
  cooldown_tracker : Cooldown.CooldownTracker;
}.

(** The first of a scored, sorted list's best [k], drawn uniformly. *)
Definition draw_top {S} (rng : Rng) (k : Z) (scored : list (Chan * S)) : outcome (option Chan) :=
  let top_k := Z.min k (Z.of_nat (length scored)) in
  let top := take (Z.to_nat top_k) scored in
  let! r := index top (rng 0 (Z.of_nat (length top) - 1)) in Done (Some r.1).

Definition top_k : Z := 2.

Definition by_score (a b : Chan * Z) : bool := a.2 <=? b.2.

Definition per_token (t : Latency.LatencyTracker) (candidates : list Chan) : list (Chan * Z) :=
  omap (λ c, (c,.) <$> Latency.avg_latency_per_token t (id c)) candidates.
Definition raw_latency (t : Latency.LatencyTracker) (candidates : list Chan) : list (Chan * Z) :=
  omap (λ c, match Latency.avg_latency_per_token t (id c) with
             | Some _ => None
             | None => let lat := Latency.avg_latency t (id c) in
                       if 0 <? lat then Some (c, lat) else None
             end) candidates.

Definition latency_select (t : Latency.LatencyTracker) (rng : Rng) (candidates : list Chan)
    : outcome (option Chan) :=
  match candidates with
  | [] => Done None
  | _ =>
      match per_token t candidates with
      | [] =>
          match raw_latency t candidates with
          | [] => weighted_random rng candidates
          | with_raw_latency => draw_top rng top_k (stable_sort by_score with_raw_latency)
          end
      | with_per_token => draw_top rng top_k (stable_sort by_score with_per_token)
      end
  end.

(** The loop of [LeastBusyStrategy::select]. *)
Definition least_busy_step (snapshot : gmap Uuid Z) (acc : Z * list Chan) (c : Chan)
    : Z * list Chan :=
  let '(min_count, least_busy) := acc in
  let count := default 0 (snapshot !! id c) in
  if count <? min_count then (count, [c])
  else if count =? min_count then (min_count, least_busy ++ [c])
  else acc.

Definition least_busy_select (a : Active.ActiveRequests) (rng : Rng) (candidates : list Chan)
    : outcome (option Chan) :=
  match candidates with
  | [] => Done None
  | _ =>
      let '(_, least_busy) :=
        foldl (least_busy_step (Active.snapshot a)) (u32_max, []) candidates in
      if (length least_busy =? length candidates)%nat then weighted_random rng candidates
      else
        let! c := index least_busy (rng 0 (Z.of_nat (length least_busy) - 1)) in Done (Some c)
  end.

Definition channel_cost_score (c : Chan) : F64.f64 :=
  match input_cost_per_mtok c, output_cost_per_mtok c with
  | None, None => default F64.max_value (cost_per_token c)
  | i, o => F64.add (default F64.zero i) (default F64.zero o)
  end.

(** [partial_cmp(..).unwrap_or(Equal)] *)
Definition by_ratio (a b : Chan * F64.f64) : bool := F64.not_gt a.2 b.2.

Definition lowest_cost_select (rng : Rng) (candidates : list Chan) : outcome (option Chan) :=
  match candidates with
  | [] => Done None
  | _ =>
      draw_top rng 2
        (stable_sort by_ratio ((λ c, (c, channel_cost_score c)) <$> candidates))
  end.

Definition usage_ratio (r : RateLimiter.RateLimiter) (now : Instant) (c : Chan) : F64.f64 :=
  let current := RateLimiter.current_tpm r (id c) now in
  match RateLimiter.tpm_limit r (id c) with
  | Some lim => if 0 <? lim then F64.div (F64.of_Z current) (F64.of_Z lim) else F64.zero
  | None => F64.zero
  end.

Definition usage_select (r : RateLimiter.RateLimiter) (now : Instant) (rng : Rng)
    (candidates : list Chan) : outcome (option Chan) :=
  match candidates with
  | [] => Done None
  | _ =>
      draw_top rng 2 (stable_sort by_ratio ((λ c, (c, usage_ratio r now c)) <$> candidates))
  end.

Definition select (s : RoutingStrategyType) (ctx : RoutingContext) (now : Instant) (rng : Rng)
    (candidates : list Chan) : outcome (option Chan) :=
  match s with
  | Latency => latency_select (latency_tracker ctx) rng candidates
  | LeastBusy => least_busy_select (active_requests ctx) rng candidates
  | Usage => usage_select (rate_limiter ctx) now rng candidates
  | LowestCost => lowest_cost_select rng candidates
  | WeightedRandom => weighted_random rng candidates
  end.

(** ** mod.rs: [select_channel]

    [channels] are the values of the shared map, in the order its iteration
    yields them. *)

Definition group_allows (c : Chan) (account_group_tag : option string) : bool :=
  match account_group_tag with
  | Some tag =>
      match account_group c with Some g => String.eqb g tag | None => true end
  | None => true
  end.

Definition eligible (ctx : RoutingContext) (requested_model : string)
    (group : option string) (now : Instant) (c : Chan) : bool :=
  if negb (is_available c now) then false
  else if negb (group_allows c group) then false
  else if match max_concurrent c with
          | Some max => max <=? Active.get (active_requests ctx) (id c)
          | None => false
          end then false
  else if negb (bool_decide (model_mapping c = ∅)) &&
          negb (bool_decide (is_Some (model_mapping c !! requested_model))) then false
  else if is_model_excluded c requested_model then false
  else if is_model_in_cooldown c requested_model now then false
  else if Cooldown.is_in_cooldown (cooldown_tracker ctx) (id c) now then false
  else true.

Definition healthy (c : Chan) : bool := bool_decide (status c = Healthy).

(** By priority, then Healthy first. *)
Definition by_priority (a b : Chan) : bool :=
  if priority a =? priority b then implb (healthy b) (healthy a)
  else priority a <? priority b.

Definition flush (sel : list Chan → outcome (option Chan)) (healthy_cs halfopen : list Chan)
    : outcome (option Chan) :=
  let! h := match healthy_cs with [] => Done None | _ => sel healthy_cs end in
  match h with
  | Some c => Done (Some c)
  | None => match halfopen with [] => Done None | _ => sel halfopen end
  end.

Fixpoint scan (sel : list Chan → outcome (option Chan)) (candidates : list Chan)
    (current_priority : Z) (healthy_cs halfopen : list Chan) : outcome (option Chan) :=
  match candidates with
  | [] => flush sel healthy_cs halfopen
  | ch :: rest =>
      let push hs os p :=
        if bool_decide (status ch = HalfOpen) then scan sel rest p hs (os ++ [ch])
        else scan sel rest p (hs ++ [ch]) os in
      if negb (priority ch =? current_priority) then
        let! r := flush sel healthy_cs halfopen in
        match r with
        | Some c => Done (Some c)
        | None => push [] [] (priority ch)
        end
      else push healthy_cs halfopen current_priority
  end.

Definition select_channel (channels : list Chan) (requested_model : string)
    (routing_strategy : RoutingStrategyType) (ctx : RoutingContext)
    (group : option string) (now : Instant) (rng : Rng) : outcome (option Chan) :=
  let candidates := recover_if_expired now <$>
                    List.filter (eligible ctx requested_model group now) channels in
  match candidates with
  | [] => Done None
  | _ => scan (select routing_strategy ctx now rng) (stable_sort by_priority candidates) 0 [] []
  end.

End Router.

Module RouterFacts.
Import Channel.Channel Router.

Lemma index_in {A} (l : list A) i :
  0 ≤ i < Z.of_nat (length l) → ∃ x, index l i = Done x ∧ l !! Z.to_nat i = Some x.
Proof.
  intros Hi. unfold index. destruct (lookup_lt_is_Some_2 l (Z.to_nat i)) as [x Hx]; [lia|].
  rewrite Hx. eauto.
Qed.

Lemma index_draw {A} rng (l : list A) :
  in_range rng → l ≠ [] →
  ∃ x, index l (rng 0 (Z.of_nat (length l) - 1)) = Done x ∧ x ∈ l.
Proof.
  intros Hr Hl. assert (0 < length l)%nat by (destruct l; simpl; [done|lia]).
  destruct (index_in l (rng 0 (Z.of_nat (length l) - 1))) as (x&Hx&Hin).
  { specialize (Hr 0 (Z.of_nat (length l) - 1)). lia. }
  exists x. split; [done|]. by eapply list_elem_of_lookup_2.
Qed.

(** *** The weighted draw *)

Lemma weighted_pick_in cs roll c : weighted_pick cs roll = Some c → c ∈ cs.
Proof.
  revert roll. induction cs as [|x cs IH]; simpl; intros roll; [done|].
  case_match; [intros [= ->]; set_solver|]. intros ?%IH. set_solver.
Qed.

Lemma weighted_pick_spec cs : ∀ roll,
  (∀ c, c ∈ cs → 0 ≤ weight c) → 0 < roll ≤ sumZ (weight <$> cs) →
  ∃ i c, cs !! i = Some c ∧ weighted_pick cs roll = Some c ∧
    sumZ (weight <$> take i cs) < roll ≤ sumZ (weight <$> take i cs) + weight c.
Proof.
  induction cs as [|x cs IH]; intros roll Hw Hr; [unfold sumZ in Hr; simpl in Hr; lia|].
  rewrite fmap_cons, sumZ_cons in Hr. simpl.
  destruct (Z.leb_spec roll (weight x)).
  - exists 0%nat, x. unfold sumZ. simpl. split_and!; [done|done|lia|lia].
  - destruct (IH (roll - weight x)) as (i&c&H1&H2&H3); [set_solver|lia|].
    exists (S i), c. simpl take. rewrite fmap_cons, sumZ_cons. split_and!; [done|done|lia|lia].
Qed.

Lemma weighted_random_some rng cs :
  in_range rng → cs ≠ [] → ∃ c, weighted_random rng cs = Done (Some c) ∧ c ∈ cs.
Proof.
  intros Hr Hne. destruct cs as [|x cs]; [done|]. unfold weighted_random.
  set (l := x :: cs) in *. case_match.
  - destruct (index_draw rng l Hr Hne) as (c&Hc&Hin). rewrite Hc. simpl. eauto.
  - destruct (weighted_pick l _) as [c|] eqn:E; [apply weighted_pick_in in E; eauto|].
    destruct (last l) as [c|] eqn:El; [|by apply last_None in El].
    exists c. split; [done|]. apply last_Some in El as [l' ->]. set_solver.
Qed.

(** *** The strategies *)

Lemma draw_top_some {S} rng k (scored : list (Chan * S)) :
  in_range rng → 0 < k → scored ≠ [] →
  ∃ r, draw_top rng k scored = Done (Some r.1) ∧ r ∈ take (Z.to_nat k) scored.
Proof.
  intros Hr Hk Hne. unfold draw_top.
  set (top := take (Z.to_nat (Z.min k (Z.of_nat (length scored)))) scored).
  assert (top = take (Z.to_nat k) scored) as Et.
  { subst top. destruct (Z.leb_spec k (Z.of_nat (length scored))).
    - by rewrite Z.min_l by lia.
    - rewrite Z.min_r by lia. rewrite !take_ge by lia. done. }
  assert (top ≠ []) as Htop.
  { rewrite Et. intros Hn%(f_equal length). rewrite length_take in Hn.
    destruct scored; simpl in *; [done|lia]. }
  destruct (index_draw rng top Hr Htop) as (r&Hr'&Hin). rewrite Hr'. simpl.
  exists r. split; [done|]. by rewrite <- Et.
Qed.

Lemma draw_sorted_some {S} rng k (le : Chan * S → Chan * S → bool) scored (cs : list Chan) :
  in_range rng → 0 < k → scored ≠ [] → (∀ r, r ∈ scored → r.1 ∈ cs) →
  ∃ c, draw_top rng k (stable_sort le scored) = Done (Some c) ∧ c ∈ cs.
Proof.
  intros Hr Hk Hne Hin.
  destruct (draw_top_some rng k (stable_sort le scored)) as (r&Hd&Hrin); [done|done| |].
  { by rewrite stable_sort_nil. }
  exists r.1. split; [done|]. apply Hin. rewrite <- (elem_of_stable_sort le).
  rewrite <- (take_drop (Z.to_nat k) (stable_sort le scored)). apply elem_of_app. by left.
Qed.

Lemma per_token_in t cs r : r ∈ per_token t cs → r.1 ∈ cs.
Proof.
  unfold per_token. rewrite list_elem_of_omap. intros (c&Hc&E).
  destruct (Latency.avg_latency_per_token t (id c)); simplify_eq/=. done.
Qed.

Lemma raw_latency_in t cs r : r ∈ raw_latency t cs → r.1 ∈ cs.
Proof.
  unfold raw_latency. rewrite list_elem_of_omap. intros (c&Hc&E). by repeat case_match; simplify_eq/=.
Qed.

Lemma latency_select_some t rng cs :
  in_range rng → cs ≠ [] → ∃ c, latency_select t rng cs = Done (Some c) ∧ c ∈ cs.
Proof.
  intros Hr Hne. unfold latency_select. destruct cs as [|x cs]; [done|]. set (l := x :: cs) in *.
  pose proof (per_token_in t l) as Hp. pose proof (raw_latency_in t l) as Hraw.
  destruct (per_token t l) as [|r rs]; [|by apply draw_sorted_some].
  destruct (raw_latency t l) as [|r rs]; [|by apply draw_sorted_some].
  by apply weighted_random_some.
Qed.

(** The loop keeps the channels of minimal count, in order. *)
Definition busy (a : Active.ActiveRequests) (c : Chan) : Z := Active.get a (id c).

Lemma least_busy_spec a cs :
  (∀ c, c ∈ cs → busy a c ≤ u32_max) → cs ≠ [] →
  let '(m, l) := foldl (least_busy_step (Active.snapshot a)) (u32_max, []) cs in
  l ≠ [] ∧ sublist l cs ∧ ∀ c, c ∈ l → ∀ x, x ∈ cs → busy a c ≤ busy a x.
Proof.
  intros Hb Hne.
  assert (let '(m, l) := foldl (least_busy_step (Active.snapshot a)) (u32_max, []) cs in
    (l = [] → cs = [] ∧ m = u32_max) ∧ (∀ x, x ∈ cs → m ≤ busy a x) ∧
    sublist l cs ∧ ∀ c, c ∈ l → busy a c = m) as H.
  { clear Hne. induction cs as [|c cs IH] using rev_ind; [simpl; set_solver|].
    rewrite foldl_app. simpl.
    destruct (foldl _ _ cs) as [m l]. destruct IH as (H2&H3&H4&H5); [set_solver|].
    pose proof (Hb c ltac:(set_solver)) as Hc. unfold least_busy_step.
    change (default 0 (Active.snapshot a !! id c)) with (busy a c).
    assert (∀ m', m' ≤ m → m' ≤ busy a c → ∀ x, x ∈ cs ++ [c] → m' ≤ busy a x) as Hall.
    { intros m' Hm Hm' x [Hx| ->%list_elem_of_singleton]%elem_of_app; [|done].
      specialize (H3 x Hx). lia. }
    destruct (Z.ltb_spec (busy a c) m); [|destruct (Z.eqb_spec (busy a c) m)];
      (split_and!; [|apply Hall; lia| |]).
    - done.
    - by apply sublist_inserts_l.
    - by intros x ->%list_elem_of_singleton.
    - by destruct l.
    - by apply sublist_app.
    - intros x [Hx| ->%list_elem_of_singleton]%elem_of_app; auto.
    - intros [-> ->]%H2. lia.
    - by apply sublist_inserts_r.
    - done. }
  destruct (foldl _ _ cs) as [m l]. destruct H as (H1&H2&H3&H4).
  split_and!; [naive_solver|done|]. by intros c <-%H4.
Qed.

Lemma least_busy_select_some a rng cs :
  in_range rng → (∀ c, c ∈ cs → busy a c ≤ u32_max) → cs ≠ [] →
  ∃ c, least_busy_select a rng cs = Done (Some c) ∧ c ∈ cs ∧
    ∀ x, x ∈ cs → busy a c ≤ busy a x.
Proof.
  intros Hr Hb Hne. unfold least_busy_select. pose proof (least_busy_spec a cs Hb Hne) as Hl.
  destruct cs as [|y cs]; [done|]. set (l := y :: cs) in *.
  destruct (foldl _ _ l) as [m lb]. destruct Hl as (Hlne&Hsub&Hmin). case_match eqn:E.
  - destruct (weighted_random_some rng l Hr Hne) as (c&Hc&Hin). exists c.
    split_and!; [done|done|]. apply Hmin.
    assert (lb = l) as ->; [|done].
    clear -Hsub E. apply Nat.eqb_eq in E. induction Hsub as [|z l1 l2 Hs IH|z l1 l2 Hs IH].
    + done.
    + f_equal. apply IH. by injection E.
    + apply sublist_length in Hs. simpl in E. lia.
  - destruct (index_draw rng lb Hr Hlne) as (c&Hc&Hin). rewrite Hc. exists c.
    split_and!; [done| |by apply Hmin]. by eapply elem_of_sublist.
Qed.





Lemma select_some s ctx now rng cs :
  in_range rng → (∀ c, c ∈ cs → busy (active_requests ctx) c ≤ u32_max) → cs ≠ [] →
  ∃ c, select s ctx now rng cs = Done (Some c) ∧ c ∈ cs.
Proof.
  intros Hr Hb Hne. destruct s; simpl.
  - by apply weighted_random_some.
  - by apply latency_select_some.
  - destruct (least_busy_select_some (active_requests ctx) rng cs) as (c&?&?&_); eauto.
  - unfold usage_select. destruct cs as [|x cs]; [done|]. apply draw_sorted_some; [done..|].
    by intros r (c&->&Hc)%list_elem_of_fmap.
  - unfold lowest_cost_select. destruct cs as [|x cs]; [done|]. apply draw_sorted_some; [done..|].
    by intros r (c&->&Hc)%list_elem_of_fmap.
Qed.

(** *** The scan by priority *)

(** [c] is the best of [all]: of minimal priority, and a probe only when its
    priority has nothing but probes. *)
Definition best (c : Chan) (all : list Chan) : Prop :=
  c ∈ all ∧ ∀ x, x ∈ all → priority c ≤ priority x ∧
    (priority x = priority c → status c = HalfOpen → status x = HalfOpen).

Section scan.
Context (sel : list Chan → outcome (option Chan)).
Context (Pre : Chan → Prop).
Context (sel_some : ∀ cs, Forall Pre cs → cs ≠ [] → ∃ c, sel cs = Done (Some c) ∧ c ∈ cs).

Lemma flush_some hs os :
  Forall Pre hs → Forall Pre os → hs ++ os ≠ [] →
  ∃ c, flush sel hs os = Done (Some c) ∧ (c ∈ hs ∨ hs = [] ∧ c ∈ os).
Proof using sel_some.
  intros Hh Ho Hne. unfold flush. destruct hs as [|h hs]; simpl in *.
  - destruct (sel_some os Ho Hne) as (c&Hc&Hin). destruct os; [done|]. eauto.
  - destruct (sel_some (h :: hs) Hh) as (c&Hc&Hin); [done|]. rewrite Hc. simpl. eauto.
Qed.

Lemma scan_best l : ∀ p hs os,
  Forall Pre l → Forall Pre hs → Forall Pre os →
  StronglySorted (λ a b, by_priority a b = true) l →
  (∀ x, x ∈ l → p ≤ priority x) →
  (∀ x, x ∈ hs ++ os → priority x = p) →
  (∀ x, x ∈ hs → status x ≠ HalfOpen) → (∀ x, x ∈ os → status x = HalfOpen) →
  hs ++ os ++ l ≠ [] →
  ∃ c, scan sel l p hs os = Done (Some c) ∧ best c (hs ++ os ++ l).
Proof using sel_some.
  induction l as [|ch l IH]; intros p hs os Hl Hh Ho Hs Hp Heq Hsh Hso Hne; simpl.
  - rewrite app_nil_r in *. destruct (flush_some hs os) as (c&Hc&Hin); [done..|].
    exists c. split; [done|]. split; [set_solver|]. intros x Hx.
    rewrite (Heq x Hx), (Heq c) by set_solver. split; [done|].
    intros _ Hst. destruct Hin as [Hin|[-> Hin]]; [by apply Hsh in Hin|]. by apply Hso.
  - apply StronglySorted_inv in Hs as [Hs Hch]. inversion Hl as [|? ? Pch Pl]; subst.
    assert (∀ x, x ∈ l → priority ch ≤ priority x) as Hle.
    { intros x Hx. rewrite Forall_forall in Hch. specialize (Hch x Hx).
      unfold by_priority in Hch. case_match; lia. }
    assert (∀ hs' os' p', hs' ++ os' = [] ∧ p' = priority ch ∨
               hs' = hs ∧ os' = os ∧ p' = p ∧ priority ch = p →
      ∃ c, (if bool_decide (status ch = HalfOpen) then scan sel l p' hs' (os' ++ [ch])
            else scan sel l p' (hs' ++ [ch]) os') = Done (Some c) ∧
           best c (hs' ++ os' ++ ch :: l)) as Hpush.
    { intros hs' os' p' Hcase.
      assert (Forall Pre hs' ∧ Forall Pre os' ∧ p' = priority ch ∧
              (∀ x, x ∈ hs' ++ os' → priority x = p') ∧
              (∀ x, x ∈ hs' → status x ≠ HalfOpen) ∧ (∀ x, x ∈ os' → status x = HalfOpen))
        as (A1&A2&->&A4&A5&A6).
      { destruct Hcase as [[[-> ->]%app_nil ->]|(->&->&->&Hpr)]; [|by split_and!].
        split_and!; try done; set_solver. }
      case_bool_decide as Est.
      - destruct (IH (priority ch) hs' (os' ++ [ch])) as (c&Hc&Hb);
          [done|done|by apply Forall_app_2; [|repeat constructor]|done|done|set_solver|done
          |set_solver|by destruct hs', os'|].
        exists c. split; [done|]. by rewrite <- app_assoc in Hb.
      - destruct (IH (priority ch) (hs' ++ [ch]) os') as (c&Hc&[Hb1 Hb2]);
          [done|by apply Forall_app_2; [|repeat constructor]|done|done|done|set_solver
          |set_solver|done|by destruct hs'|].
        exists c. split; [done|]. split; [set_solver|]. intros x Hx. apply Hb2. set_solver. }
    destruct (Z.eqb_spec (priority ch) p) as [E|E]; simpl.
    + apply Hpush. right. by split_and!.
    + destruct (hs ++ os) as [|y ys] eqn:Ehs.
      * apply app_nil in Ehs as [-> ->]. simpl. apply (Hpush [] []). by left.
      * destruct (flush_some hs os) as (c&Hc&Hin); [done|done|by rewrite Ehs|].
        rewrite Hc. simpl. exists c. split; [done|].
        assert (priority c = p) as Hcp by (apply Heq; rewrite <- Ehs; set_solver).
        assert (p < priority ch) by (specialize (Hp ch ltac:(set_solver)); lia).
        split; [set_solver|]. intros x [Hx|[Hx|Hx]%elem_of_app]%elem_of_app.
        -- rewrite (Heq x) by (rewrite <- Ehs; set_solver). split; [lia|]. intros _ Hst.
           destruct Hin as [Hin|[-> _]]; [by apply Hsh in Hin|]. by apply not_elem_of_nil in Hx.
        -- rewrite (Heq x) by (rewrite <- Ehs; set_solver). split; [lia|auto].
        -- assert (priority ch ≤ priority x)
             by (apply elem_of_cons in Hx as [->|Hx]; [lia|auto]).
           split; lia.
Qed.

Lemma scan_done l : ∀ p hs os, Forall Pre l → Forall Pre hs → Forall Pre os →
  ∃ r, scan sel l p hs os = Done r.
Proof using sel_some.
  assert (∀ hs os, Forall Pre hs → Forall Pre os → ∃ r, flush sel hs os = Done r) as Hflush.
  { intros hs os Hh Ho. destruct (hs ++ os) as [|y ys] eqn:E.
    - apply app_nil in E as [-> ->]. by exists None.
    - destruct (flush_some hs os) as (c&Hc&_); [done|done|by rewrite E|eauto]. }
  induction l as [|ch l IH]; intros p hs os Hl Hh Ho; simpl; [by apply Hflush|].
  inversion Hl as [|? ? Pch Pl]; subst. destruct (Hflush hs os Hh Ho) as [[r|] ->].
  all: cbn; repeat case_match; try (by eexists);
    apply IH; try done; try (apply Forall_app_2; [done|by constructor]); by repeat constructor.
Qed.
End scan.

(** The selection never panics. *)
Lemma select_done channels model strat ctx group now rng :
  in_range rng →
  (∀ c, c ∈ channels → 0 ≤ priority c ∧ busy (active_requests ctx) c ≤ u32_max) →
  ∃ r, select_channel channels model strat ctx group now rng = Done r.
Proof.
  intros Hr Hch. unfold select_channel.
  destruct (recover_if_expired now <$> _) as [|c1 cs1] eqn:Ec; [by exists None|]. rewrite <- Ec.
  apply (scan_done (select strat ctx now rng) (λ c, busy (active_requests ctx) c ≤ u32_max));
    [|apply Forall_forall|constructor..].
  - intros cs Hcs Hne. apply select_some; [done| |done]. by rewrite Forall_forall in Hcs.
  - intros x (c0&->&Hc0)%elem_of_stable_sort%list_elem_of_fmap.
    rewrite list_elem_of_In, filter_In, <- list_elem_of_In in Hc0.
    replace (busy (active_requests ctx) (recover_if_expired now c0))
      with (busy (active_requests ctx) c0) by (unfold recover_if_expired; by repeat case_match).
    by apply Hch, Hc0.
Qed.

End RouterFacts.

Module RouterProps.
Import Channel.Channel Router RouterFacts.

Lemma recover_fields now (c : Chan) :
  priority (recover_if_expired now c) = priority c ∧ id (recover_if_expired now c) = id c ∧
  healthy (recover_if_expired now c) = healthy c.
Proof.
  unfold recover_if_expired. case_bool_decide as E; [|done].
  destruct (circuit_open_until c); [|done]. case_match; [|done].
  unfold healthy. simpl. split_and!; [done|done|]. rewrite E. done.
Qed.

Lemma eligible_available ctx model group now c :
  eligible ctx model group now c = true → is_available c now = true.
Proof. unfold eligible. by destruct (is_available c now). Qed.

Lemma recover_available_status now c :
  is_available c now = true →
  status (recover_if_expired now c) = Healthy ∨ status (recover_if_expired now c) = HalfOpen.
Proof.
  unfold is_available, recover_if_expired. destruct (enabled c); simpl; [|done].
  destruct (status c) eqn:E; simpl; rewrite ?E; auto; [|done].
  destruct (circuit_open_until c); [|done]. intros ->. simpl. auto.
Qed.

Lemma priority_sorted (l : list Chan) :
  StronglySorted (λ a b, by_priority a b = true) (stable_sort by_priority l).
Proof.
  apply stable_sort_sorted; unfold by_priority; intros a b; [|intros d];
    repeat case_match; destruct (healthy a), (healthy b); simpl; try lia;
    try (destruct (healthy d)); simpl; try lia; auto.
Qed.

(** C8. The selection of a channel, for every strategy, every draw and every
    iteration order of the channel map: it never panics, finds a channel
    exactly when some channel passes the filters, and the one it returns (with
    its expired circuit recovered) passed them, has the smallest priority
    number among those that did, and is a Healthy one unless no channel of that
    priority is. *)
Theorem select_channel_best channels model strat ctx group now rng :
  in_range rng →
  (∀ c, c ∈ channels → 0 ≤ priority c ∧ busy (active_requests ctx) c ≤ u32_max) →
  let candidates := List.filter (eligible ctx model group now) channels in
  ∃ r, select_channel channels model strat ctx group now rng = Done r ∧
  match r with
  | None => candidates = []
  | Some c => ∃ c0, c0 ∈ candidates ∧ c = recover_if_expired now c0 ∧
      ∀ x, x ∈ candidates → priority c0 ≤ priority x ∧
        (priority x = priority c0 → healthy x = true → healthy c0 = true)
  end.
Proof.
  intros Hr Hch cands. unfold select_channel. fold cands.
  destruct cands as [|c1 cs1] eqn:Ec; [by exists None|]. rewrite <- Ec.
  set (l := recover_if_expired now <$> cands).
  assert (∀ x, x ∈ cands → x ∈ channels ∧ is_available x now = true) as Hcands.
  { intros x. subst cands. rewrite list_elem_of_In, filter_In, <- list_elem_of_In.
    intros [Hx He]. split; [done|]. by eapply eligible_available. }
  assert (∀ x, x ∈ l → ∃ x0, x = recover_if_expired now x0 ∧ x0 ∈ cands) as Hl.
  { intros x Hx. by apply list_elem_of_fmap in Hx. }
  set (sel := select strat ctx now rng).
  destruct (scan_best sel (λ c, busy (active_requests ctx) c ≤ u32_max)) with
    (l := stable_sort by_priority l) (p := 0) (hs := @nil Chan) (os := @nil Chan)
    as (c&Hc&[Hin Hbest]).
  - intros cs Hcs Hne. apply select_some; [done| |done].
    by rewrite Forall_forall in Hcs.
  - apply Forall_forall. intros x (x0&->&Hx0)%elem_of_stable_sort%Hl.
    unfold busy. rewrite (proj1 (proj2 (recover_fields now x0))).
    by apply Hch, Hcands.
  - done.
  - done.
  - apply priority_sorted.
  - intros x (x0&->&Hx0)%elem_of_stable_sort%Hl.
    rewrite (proj1 (recover_fields now x0)). by apply Hch, Hcands.
  - set_solver.
  - set_solver.
  - set_solver.
  - simpl. rewrite stable_sort_nil. subst l. by rewrite Ec.
  - simpl in *. exists (Some c). split.
    { subst l. rewrite Ec in *. exact Hc. }
    apply elem_of_stable_sort in Hin. destruct (Hl c Hin) as (c0&->&Hc0).
    exists c0. split_and!; [done|done|]. intros x Hx.
    destruct (Hbest (recover_if_expired now x)) as [H1 H2].
    { apply elem_of_stable_sort, list_elem_of_fmap. eauto. }
    destruct (recover_fields now x) as (Px&_&Hhx), (recover_fields now c0) as (Pc&_&Hhc).
    rewrite Px, Pc in *. split; [done|]. intros Heq Hx'. rewrite <- Hhc.
    destruct (recover_available_status now c0 (proj2 (Hcands _ Hc0))) as [Es|Es].
    + unfold healthy. by rewrite Es.
    + specialize (H2 Heq Es). rewrite <- Hhx in Hx'. unfold healthy in Hx'. by rewrite H2 in Hx'.
Qed.

Definition low : Rng := λ lo _, lo.
Lemma low_in_range : in_range low.
Proof. unfold in_range, low. lia. Qed.

Definition sample_channels : list Chan :=
  [sample_channel "1" "a" 2 10; sample_channel "2" "b" 1 0;
   mark_circuit_open 5 0 (sample_channel "3" "c" 1 30); sample_channel "4" "d" 1 70].
Definition sample_context : RoutingContext :=
  mkContext (Active.increment Active.new 2%N) (RateLimiter.new None 0) Latency.new Cooldown.new.

Lemma select_channel_best_witness :
  ∃ c, select_channel sample_channels "gpt" WeightedRandom sample_context None 1000 low
       = Done (Some c) ∧ priority c = 1.
Proof.
  destruct (select_channel_best sample_channels "gpt" WeightedRandom sample_context None 1000 low
              low_in_range) as ([c|]&Hs&Hb).
  - intros c Hc. unfold sample_channels in Hc.
    repeat (apply elem_of_cons in Hc as [->|Hc]; [split; vm_compute; discriminate|]).
    by apply not_elem_of_nil in Hc.
  - exists c. split; [exact Hs|]. vm_compute in Hs. injection Hs as <-. reflexivity.
  - discriminate Hb.
Defined.

(** The weighted draw is proportional.  The channel at position [i] is
    selected exactly by the rolls between the sum of the weights before it and
    that sum plus its own weight: [weight] rolls out of the total, so none when
    its weight is 0.  The fallback to the last channel is never used. *)
Theorem weighted_random_proportional rng candidates :
  in_range rng → candidates ≠ [] →
  (∀ c, c ∈ candidates → in_u32 (weight c)) →
  Z.of_nat (length candidates) ≤ u32_max →
  let total := sumZ (weight <$> candidates) in
  0 < total →
  ∃ i c, candidates !! i = Some c ∧ weighted_random rng candidates = Done (Some c) ∧
    let before := sumZ (weight <$> take i candidates) in
    before < rng 1 total ≤ before + weight c ∧
    ∀ j d, candidates !! j = Some d →
      sumZ (weight <$> take j candidates) < rng 1 total
        ≤ sumZ (weight <$> take j candidates) + weight d → j = i.
Proof.
  intros Hr Hne Hw Hlen total Ht.
  assert (total ≤ u32_max * Z.of_nat (length candidates)) as Hmax.
  { subst total. clear -Hw. induction candidates as [|c l IH]; [done|].
    rewrite fmap_cons, sumZ_cons. cbn [length]. pose proof (Hw c ltac:(set_solver)) as [_ H].
    specialize (IH ltac:(set_solver)). lia. }
  assert (wrap64 total = total) as Ew.
  { unfold wrap64. apply Z.mod_small. unfold u32_max in *. lia. }
  assert (∀ c, c ∈ candidates → 0 ≤ weight c) as Hpos by (intros c Hc; by apply Hw).
  specialize (Hr 1 total ltac:(lia)).
  destruct (weighted_pick_spec candidates (rng 1 total)) as (i&c&Hi&Hp&Hb); [done|lia|].
  exists i, c. cbv zeta. split; [done|]. split; [|split; [lia|]].
  - unfold weighted_random. destruct candidates as [|x l]; [done|]. fold total. rewrite Ew.
    rewrite (proj2 (Z.eqb_neq total 0)) by lia. by rewrite Hp.
  - assert (∀ a b d e, (a < b)%nat → candidates !! a = Some d → candidates !! b = Some e →
       sumZ (weight <$> take a candidates) + weight d ≤ sumZ (weight <$> take b candidates))
      as Hmono.
    { clear -Hpos. induction candidates as [|x l IH]; intros a b d e Hab Ha Hb; [done|].
      destruct b as [|b]; [lia|]. simpl take. rewrite fmap_cons, sumZ_cons.
      assert (∀ n, 0 ≤ sumZ (weight <$> take n l)) as Hnn.
      { intros n. assert (∀ y, y ∈ take n l → 0 ≤ weight y) as Hy.
        { intros y Hy. apply Hpos. rewrite <- (take_drop n l). set_solver. }
        induction (take n l) as [|y k IHk]; [done|]. rewrite fmap_cons, sumZ_cons.
        specialize (IHk ltac:(set_solver)). specialize (Hy y ltac:(set_solver)). lia. }
      destruct a as [|a]; simpl in Ha.
      - simplify_eq. unfold sumZ at 1. simpl. specialize (Hnn b). lia.
      - simpl take. rewrite fmap_cons, sumZ_cons.
        specialize (IH ltac:(set_solver) a b d e ltac:(lia) Ha Hb). lia. }
    intros j d Hj Hd. destruct (Nat.lt_trichotomy i j) as [Hij|[->|Hij]]; [|done|].
    + specialize (Hmono i j c d Hij Hi Hj). lia.
    + specialize (Hmono j i d c Hij Hj Hi). lia.
Qed.

Lemma weighted_random_proportional_witness :
  ∃ i c, [sample_channel "1" "a" 1 0; sample_channel "2" "b" 1 3] !! i = Some c ∧ i = 1%nat.
Proof.
  destruct (weighted_random_proportional low
              [sample_channel "1" "a" 1 0; sample_channel "2" "b" 1 3] low_in_range)
    as (i&c&Hi&_&_&Hu).
  - discriminate.
  - intros c Hc. repeat (apply elem_of_cons in Hc as [->|Hc]; [split; vm_compute; discriminate|]).
    by apply not_elem_of_nil in Hc.
  - vm_compute. discriminate.
  - vm_compute. reflexivity.
  - exists i, c. split; [exact Hi|]. symmetry. eapply (Hu 1%nat); [reflexivity|].
    vm_compute. split; [reflexivity|discriminate].
Defined.

(** The least-busy strategy returns a candidate with the fewest requests in
    flight, also when it falls back to the weighted draw. *)
Theorem least_busy_minimal a rng candidates :
  in_range rng → candidates ≠ [] →
  (∀ c, c ∈ candidates → Active.get a (id c) ≤ u32_max) →
  ∃ c, least_busy_select a rng candidates = Done (Some c) ∧ c ∈ candidates ∧
    ∀ x, x ∈ candidates → Active.get a (id c) ≤ Active.get a (id x).
Proof. intros Hr Hne Hb. by apply least_busy_select_some. Qed.

Lemma least_busy_minimal_witness :
  ∃ c, least_busy_select (Active.increment Active.new 1%N) low sample_channels = Done (Some c) ∧
    Active.get (Active.increment Active.new 1%N) (id c) ≤ 0.
Proof.
  destruct (least_busy_minimal (Active.increment Active.new 1%N) low sample_channels low_in_range)
    as (c&Hc&_&Hm).
  - discriminate.
  - intros c Hc. unfold sample_channels in Hc.
    repeat (apply elem_of_cons in Hc as [->|Hc]; [vm_compute; discriminate|]).
    by apply not_elem_of_nil in Hc.
  - exists c. split; [exact Hc|]. etrans; [apply (Hm (sample_channel "4" "d" 1 70))|].
    + unfold sample_channels. set_solver.
    + vm_compute. discriminate.
Defined.

Lemma draw_top2_rank {A} (scored : list (A * Z)) (r : A * Z) :
  let le := λ a b : A * Z, a.2 <=? b.2 in
  r ∈ take 2 (stable_sort le scored) →
  r ∈ scored ∧ Z.of_nat (length (List.filter (λ x, x.2 <? r.2) scored)) ≤ 1.
Proof.
  intros le Hr. assert (r ∈ scored) as Hin.
  { rewrite <- (elem_of_stable_sort le), <- (take_drop 2 (stable_sort le scored)). set_solver. }
  split; [done|].
  assert (List.filter (λ x, x.2 <? r.2) scored ≡ₚ
          List.filter (λ x, x.2 <? r.2) (stable_sort le scored)) as ->.
  { clear. induction (stable_sort_perm le scored); simpl; repeat case_match; eauto using Permutation. }
  assert (StronglySorted (λ a b, le a b = true) (stable_sort le scored)) as Hs.
  { apply stable_sort_sorted; subst le; simpl; intros; lia. }
  destruct (stable_sort le scored) as [|a [|b l]]; [by apply not_elem_of_nil in Hr|..].
  - simpl in *. apply list_elem_of_singleton in Hr as ->. by rewrite Z.ltb_irrefl.
  - apply StronglySorted_inv in Hs as [Hs Ha]. apply StronglySorted_inv in Hs as [Hs Hb].
    rewrite Forall_forall in Ha, Hb.
    assert (r.2 ≤ b.2) as Hrb.
    { specialize (Ha b ltac:(set_solver)). subst le. simpl in *.
      apply elem_of_cons in Hr as [->|Hr]; [lia|].
      apply list_elem_of_singleton in Hr as ->. lia. }
    assert (List.filter (λ x, x.2 <? r.2) (b :: l) = []) as Hn.
    { apply length_zero_iff_nil. destruct (length _) eqn:E in |- *; [done|exfalso].
      destruct (List.filter (λ x, x.2 <? r.2) (b :: l)) as [|x k] eqn:Ef; [done|].
      assert (In x (List.filter (λ x, x.2 <? r.2) (b :: l))) as Hx by (rewrite Ef; by left).
      apply filter_In in Hx as [Hx Hlt]. apply list_elem_of_In in Hx.
      apply elem_of_cons in Hx as [->|Hx]; [lia|]. specialize (Hb x Hx). subst le. simpl in *. lia. }
    change (a :: b :: l) with ([a] ++ b :: l). rewrite List.filter_app, Hn, app_nil_r.
    simpl. case_match; simpl; lia.
Qed.

(** The latency strategy draws from the two fastest channels of the best data
    there is: when some candidate has a latency per token, at most one of those
    that have one is strictly faster than the channel returned; otherwise the
    same holds of the average latencies. *)
Theorem latency_draws_top2 t rng candidates :
  in_range rng → candidates ≠ [] →
  let data := match per_token t candidates with [] => raw_latency t candidates | d => d end in
  ∃ c, latency_select t rng candidates = Done (Some c) ∧ c ∈ candidates ∧
    (data ≠ [] → ∃ ms, (c, ms) ∈ data ∧
       Z.of_nat (length (List.filter (λ d, d.2 <? ms) data)) ≤ 1).
Proof.
  intros Hr Hne data.
  assert (∀ d, d = data → d ≠ [] → ∃ c,
            draw_top rng top_k (stable_sort by_score d) = Done (Some c) ∧
            ∃ ms, (c, ms) ∈ data ∧ Z.of_nat (length (List.filter (λ d, d.2 <? ms) data)) ≤ 1) as Hd.
  { intros d -> Hd. destruct (draw_top_some rng top_k (stable_sort by_score data))
      as (r&Hr1&Hr2); [done|done|by rewrite stable_sort_nil|].
    exists r.1. split; [done|]. apply draw_top2_rank in Hr2 as [Hin Hlen].
    exists r.2. by destruct r. }
  destruct (latency_select_some t rng candidates Hr Hne) as (c&Hc&Hin).
  exists c. split_and!; [done|done|]. intros Hdata.
  specialize (Hd data eq_refl Hdata) as (c'&Hc'&Hms).
  assert (latency_select t rng candidates = Done (Some c')) as E; [|rewrite E in Hc; injection Hc as ->; exact Hms].
  unfold latency_select. subst data. destruct candidates as [|x l]; [done|].
  destruct (per_token t (x :: l)) as [|p ps]; [|exact Hc'].
  by destruct (raw_latency t (x :: l)).
Qed.

Lemma latency_draws_top2_witness :
  ∃ c, latency_select (Latency.record (Latency.record Latency.new 1%N 300) 2%N 20) low
         sample_channels = Done (Some c) ∧ c ∈ sample_channels.
Proof.
  destruct (latency_draws_top2 (Latency.record (Latency.record Latency.new 1%N 300) 2%N 20) low
              sample_channels low_in_range) as (c&Hc&Hin&_); [discriminate|].
  exists c. split; [exact Hc|exact Hin].
Defined.


End RouterProps.
