(* ===== verification/Affinity.v ===== *)
(** Session affinity (router/affinity.rs): the bounded map from sessions to
    channels, with its expiry and its least-recently-used eviction, and the
    session identifier of a request. *)

From S2P Require Import Prelude Json.

Module Affinity.

Definition MAX_ENTRIES : nat := Z.to_nat 10000.
Definition CLEANUP_INTERVAL : Z := 64.

Abbreviation Entry := (Uuid * Instant)%type (only parsing).

Record AffinityState := mkState {
  map : gmap string Entry;
  ttl : Z;
  max_entries : nat;
  set_counter : Z;
}.

Definition new_with_capacity (ttl_secs : Z) (max_entries : nat) : AffinityState :=
  mkState ∅ (millis_of_secs ttl_secs) max_entries 0.
Definition new (ttl_secs : Z) : AffinityState := new_with_capacity ttl_secs MAX_ENTRIES.
Definition default_state : AffinityState := new 1800.

Definition with_map (m : gmap string Entry) (s : AffinityState) : AffinityState :=
  mkState m (ttl s) (max_entries s) (set_counter s).

(** [last.elapsed() >= self.ttl]; [elapsed] is zero for a later instant. *)
Definition expired (s : AffinityState) (last now : Instant) : bool :=
  ttl s <=? sat_sub now last.

Definition get (s : AffinityState) (session_id : string) (now : Instant)
    : AffinityState * option Uuid :=
  let is_expired :=
    match map s !! session_id with Some (_, last) => expired s last now | None => true end in
  if is_expired then (with_map (delete session_id (map s)) s, None)
  else
    match map s !! session_id with
    | Some (ch_id, _) => (with_map (<[session_id := (ch_id, now)]> (map s)) s, Some ch_id)
    | None => (s, None)
    end.

Definition cleanup_expired (s : AffinityState) (now : Instant) : AffinityState :=
  with_map (filter (λ kv, expired s kv.2.2 now = false) (map s)) s.

Section eviction.
(** The order in which the hash map is iterated. *)
Context (iter : gmap string Entry → list (string * Entry)).

Definition evict_lru (s : AffinityState) : AffinityState :=
  if (size (map s) <=? max_entries s)%nat then s
  else
    let entries := (λ kv : string * Entry, (kv.1, kv.2.2)) <$> iter (map s) in
    let sorted := stable_sort (λ a b : string * Instant, a.2 <=? b.2) entries in
    let excess := (size (map s) - max_entries s)%nat in
    with_map (foldl (λ m kv, delete kv.1 m) (map s) (take excess sorted)) s.

Definition set (s : AffinityState) (session_id : string) (channel_id : Uuid) (now : Instant)
    : AffinityState :=
  let s1 := mkState (<[session_id := (channel_id, now)]> (map s)) (ttl s) (max_entries s)
              (add_u32 (set_counter s) 1) in
  let s2 := if set_counter s1 mod CLEANUP_INTERVAL =? 0 then cleanup_expired s1 now else s1 in
  evict_lru s2.
End eviction.

(** [SessionAffinity]: the operations under the lock. *)
Definition get_channel := get.
Definition set_channel := set.
Definition cleanup := cleanup_expired.
Definition len (s : AffinityState) : nat := size (map s).

(** ** The session identifier

    [header] gives a header's value when it is present and readable as a
    string; [to_string] is [serde_json::to_string] of an array, [sha256] the
    digest as bytes. *)

Definition hex_digit (n : Z) : ascii :=
  if n <? 10 then ascii_of_N (Z.to_N (48 + n)) else ascii_of_N (Z.to_N (87 + n)).
Definition hex_byte (b : Z) : string :=
  String (hex_digit (b / 16)) (String (hex_digit (b mod 16)) EmptyString).

Section session_id.
Context (header : string → option string).
Context (to_string : list Json.value → string) (sha256 : string → list Z).

Definition sha256_short (input : string) : string :=
  foldr (λ b acc, hex_byte b +:+ acc) "" (take 8 (sha256 input)).

Definition nonempty (prefix : string) (o : option string) : option string :=
  match o with
  | Some v => if String.eqb v "" then None else Some (prefix +:+ v)
  | None => None
  end.

Fixpoint first_header (names : list string) : option string :=
  match names with
  | [] => None
  | n :: ns =>
      match nonempty "hdr:" (header n) with Some s => Some s | None => first_header ns end
  end.

Definition extract_session_id (body : Json.value) : option string :=
  match nonempty "uid:" (Json.get body "metadata" ≫= λ m, Json.get m "user_id" ≫= Json.as_str) with
  | Some s => Some s
  | None =>
      match first_header ["x-session-id"; "session_id"; "x-amp-thread-id";
                          "x-client-request-id"] with
      | Some s => Some s
      | None =>
          match nonempty "cid:" (Json.get body "conversation_id" ≫= Json.as_str) with
          | Some s => Some s
          | None =>
              match Json.get body "messages" ≫= Json.as_array with
              | Some messages =>
                  match take 2 messages with
                  | [] => None
                  | prefix => Some ("msg:" +:+ sha256_short (to_string prefix))
                  end
              | None => None
              end
          end
      end
  end.
End session_id.

End Affinity.

Module AffinityFacts.
Import Affinity.

Section facts.
Context (iter : gmap string (Uuid * Instant) → list (string * (Uuid * Instant))).
Context (iter_perm : ∀ m, iter m ≡ₚ map_to_list m).

Lemma foldl_delete {A} (ks : list (string * A)) (m : gmap string (Uuid * Instant)) k :
  foldl (λ m kv, delete kv.1 m) m ks !! k =
  if bool_decide (k ∈ ks.*1) then None else m !! k.
Proof.
  revert m. induction ks as [|[k' a] ks IH]; intros m; simpl; [done|]. rewrite IH.
  repeat case_bool_decide; try done.
  - set_solver.
  - assert (k = k') as -> by set_solver. apply lookup_delete_eq.
  - rewrite lookup_delete_ne; [done|set_solver].
Qed.

Lemma foldl_delete_size {A} (ks : list (string * A)) (m : gmap string (Uuid * Instant)) :
  NoDup ks.*1 → (∀ k, k ∈ ks.*1 → is_Some (m !! k)) →
  (size (foldl (λ m kv, delete kv.1 m) m ks) + length ks = size m)%nat.
Proof.
  revert m. induction ks as [|[k a] ks IH]; intros m Hnd Hin; simpl; [lia|].
  apply NoDup_cons in Hnd as [Hk Hnd]. destruct (Hin k) as [e He]; [set_solver|].
  assert (size m = S (size (delete k m))) as Hs.
  { rewrite <- (insert_delete_id m k e He) at 1. apply map_size_insert_None, lookup_delete_eq. }
  assert (∀ k', k' ∈ ks.*1 → is_Some (delete k m !! k')) as Hin'.
  { intros k' Hk'. rewrite lookup_delete_ne; [apply Hin|]; set_solver. }
  specialize (IH (delete k m) Hnd Hin'). lia.
Qed.

(** The keys chosen for eviction. *)
Definition victims (s : AffinityState) : list (string * Instant) :=
  take (size (map s) - max_entries s)
    (stable_sort (λ a b : string * Instant, a.2 <=? b.2)
       ((λ kv : string * (Uuid * Instant), (kv.1, kv.2.2)) <$> iter (map s))).

Lemma entries_keys m :
  ((λ kv : string * (Uuid * Instant), (kv.1, kv.2.2)) <$> iter m).*1 = (iter m).*1.
Proof using. rewrite <- list_fmap_compose. done. Qed.

Lemma sorted_keys m :
  (stable_sort (λ a b : string * Instant, a.2 <=? b.2)
     ((λ kv : string * (Uuid * Instant), (kv.1, kv.2.2)) <$> iter m)).*1 ≡ₚ (map_to_list m).*1.
Proof using iter_perm. by rewrite stable_sort_perm, entries_keys, iter_perm. Qed.

Lemma victims_spec s :
  NoDup (victims s).*1 ∧
  (∀ k, k ∈ (victims s).*1 → is_Some (map s !! k)) ∧
  length (victims s) = (size (map s) - max_entries s)%nat ∧
  (∀ k1 k2 e1 e2, k1 ∈ (victims s).*1 → map s !! k1 = Some e1 →
     k2 ∉ (victims s).*1 → map s !! k2 = Some e2 → e1.2 ≤ e2.2).
Proof using iter_perm.
  unfold victims. set (le := λ a b : string * Instant, a.2 <=? b.2).
  set (entries := (λ kv : string * (Uuid * Instant), (kv.1, kv.2.2)) <$> iter (map s)).
  set (n := (size (map s) - max_entries s)%nat). set (l := stable_sort le entries).
  pose proof (sorted_keys (map s)) as Hk. fold le entries l in Hk.
  assert (NoDup l.*1) as Hnd by (rewrite Hk; apply NoDup_fst_map_to_list).
  assert (∀ k t, (k, t) ∈ l ↔ ∃ e, map s !! k = Some e ∧ t = e.2) as Hl.
  { intros k t. subst l. rewrite elem_of_stable_sort. subst entries. rewrite list_elem_of_fmap.
    split.
    - intros ([k' e]&[= -> ->]&Hin). rewrite iter_perm, elem_of_map_to_list in Hin. eauto.
    - intros (e&He&->). exists (k, e). rewrite iter_perm, elem_of_map_to_list. done. }
  assert (take n l ++ drop n l = l) as Htd by apply take_drop.
  assert (∀ k t, (k, t) ∈ take n l → (k, t) ∈ l) as Htake.
  { intros k t Hin. rewrite <- Htd. set_solver. }
  assert (∀ k, k ∈ (take n l).*1 → ∃ t, (k, t) ∈ take n l) as Hfst.
  { intros k ([k' t]&->&Hin)%list_elem_of_fmap. eauto. }
  split_and!.
  - rewrite <- Htd, fmap_app in Hnd. by apply NoDup_app in Hnd as [? _].
  - intros k (t&Hin%Htake%Hl)%Hfst. destruct Hin as (e&He&_). eauto.
  - rewrite length_take. assert (length l = size (map s)) as ->; [|lia].
    transitivity (length l.*1); [symmetry; apply length_fmap|].
    by rewrite Hk, length_fmap, length_map_to_list.
  - intros k1 k2 e1 e2 (t1&Hin1)%Hfst He1 Hk2 He2.
    pose proof (Htake _ _ Hin1) as (e1'&He1'&->)%Hl.
    rewrite He1 in He1'. injection He1' as <-.
    assert ((k2, e2.2) ∈ drop n l) as Hin2.
    { assert ((k2, e2.2) ∈ l) as Hin2 by (apply Hl; eauto). rewrite <- Htd in Hin2.
      apply elem_of_app in Hin2 as [Hin2|]; [|done].
      destruct Hk2. apply list_elem_of_fmap. by exists (k2, e2.2). }
    pose proof (stable_sort_take_le le) as Hle.
    specialize (Hle ltac:(intros; subst le; simpl in *; lia)
                    ltac:(intros; subst le; simpl in *; lia) n entries _ _ Hin1 Hin2).
    subst le. simpl in Hle. lia.
Qed.

Lemma evict_lru_spec s :
  let s' := evict_lru iter s in
  (size (map s') ≤ max_entries s)%nat ∧
  (∀ k e, map s' !! k = Some e → map s !! k = Some e) ∧
  (∀ k1 k2 e1 e2, map s !! k1 = Some e1 → map s' !! k1 = None →
     map s' !! k2 = Some e2 → e1.2 ≤ e2.2) ∧
  ((size (map s) ≤ max_entries s)%nat → s' = s).
Proof using iter_perm.
  cbv zeta. unfold evict_lru. case_match eqn:E; [apply Nat.leb_le in E|apply Nat.leb_gt in E].
  { split_and!; [done|done|naive_solver|done]. }
  pose proof (victims_spec s) as (H1&H2&H3&H4). unfold victims in *.
  set (v := take _ _) in *. simpl.
  pose proof (foldl_delete_size v (map s) H1 H2) as Hsz.
  split_and!; [lia| | |lia].
  - intros k e. rewrite foldl_delete. by case_bool_decide.
  - intros k1 k2 e1 e2 He1. rewrite !foldl_delete. case_bool_decide as Ev1; [|congruence].
    case_bool_decide as Ev2; [done|]. intros _ He2. by eapply H4.
Qed.
End facts.

End AffinityFacts.

Module AffinityProps.
Import Affinity AffinityFacts.

(** Setting a session keeps the map within its capacity, whatever order the
    hash map is iterated in; it invents no entry; an unexpired entry that
    disappears is at least as old as every entry that stays; and while the map
    is within capacity no unexpired entry disappears. *)
Theorem affinity_lru iter s k ch now :
  (∀ m, iter m ≡ₚ map_to_list m) →
  let before := <[k := (ch, now)]> (map s) in
  let after := map (set iter s k ch now) in
  (size after ≤ max_entries s)%nat ∧
  (∀ k' e, after !! k' = Some e → before !! k' = Some e) ∧
  (∀ k1 e1, before !! k1 = Some e1 → expired s e1.2 now = false → after !! k1 = None →
     (max_entries s < size before)%nat ∧
     ∀ k2 e2, after !! k2 = Some e2 → e1.2 ≤ e2.2).
Proof.
  intros Hiter before after. subst after. unfold set.
  fold before. cbv zeta.
  match goal with |- context [evict_lru iter ?x] => set (s2 := x) end.
  assert (max_entries s2 = max_entries s ∧ (size (map s2) ≤ size before)%nat ∧
          (∀ k' e, map s2 !! k' = Some e → before !! k' = Some e) ∧
          (∀ k' e, before !! k' = Some e → expired s e.2 now = false → map s2 !! k' = Some e))
    as (Hmax&Hsz&Hsub&Hkeep).
  { subst s2. case_match; simpl.
    - split_and!; [done|apply map_size_filter| |].
      + intros k' e He. by apply map_lookup_filter_Some in He as [? _].
      + intros k' e He Hexp. by apply map_lookup_filter_Some.
    - by split_and!. }
  pose proof (evict_lru_spec iter Hiter s2) as (H1&H2&H3&H4). rewrite Hmax in *.
  split_and!; [done|by intros k' e He%H2%Hsub|].
  intros k1 e1 He1 Hexp Hnone. pose proof (Hkeep _ _ He1 Hexp) as Hs2. split.
  - destruct (decide (size (map s2) ≤ max_entries s)%nat) as [Hle|]; [|lia].
    rewrite (H4 Hle) in Hnone. congruence.
  - intros k2 e2 He2. exact (H3 _ _ _ _ Hs2 Hnone He2).
Qed.

Lemma affinity_lru_witness :
  let s := set map_to_list (set map_to_list (new_with_capacity 60 2) "a" 1%N 10) "b" 2%N 20 in
  map (set map_to_list s "c" 3%N 30) !! "a" = None ∧
  (size (map (set map_to_list s "c" 3%N 30)) ≤ 2)%nat.
Proof.
  cbv zeta.
  set (s := set map_to_list (set map_to_list (new_with_capacity 60 2) "a" 1%N 10) "b" 2%N 20).
  destruct (affinity_lru map_to_list s "c" 3%N 30 (λ m, reflexivity _)) as [H _].
  split; [vm_compute; reflexivity|exact H].
Defined.

(** Affinity holds for the time to live since the last use: a lookup returns
    the channel exactly when the session was used less than the time to live
    ago, and the use extends it by as much again; other sessions keep their
    entries, and an expired one is dropped. *)
Theorem affinity_sliding_expiry s k now later :
  now ≤ later → 0 < ttl s →
  let '(s', r) := get s k now in
  (match map s !! k with
   | Some (ch, last) =>
       if sat_sub now last <? ttl s
       then r = Some ch ∧ ((get s' k later).2 = Some ch ↔ later - now < ttl s)
       else r = None ∧ (get s' k later).2 = None
   | None => r = None ∧ (get s' k later).2 = None
   end) ∧
  ∀ k', k' ≠ k → map s' !! k' = map s !! k'.
Proof.
  intros Hle Httl. unfold get at 1. destruct (map s !! k) as [[ch last]|] eqn:E; simpl.
  - unfold expired. rewrite Z.leb_antisym. destruct (sat_sub now last <? ttl s) eqn:El; simpl.
    + split; [|intros; by rewrite lookup_insert_ne]. split; [done|].
      unfold get. simpl. rewrite lookup_insert_eq. unfold expired. simpl.
      unfold sat_sub in *. case_match; simpl; split; intros; try done; try lia.
    + split; [|intros; by rewrite lookup_delete_ne]. split; [done|].
      unfold get. simpl. by rewrite lookup_delete_eq.
  - split; [|intros; by rewrite lookup_delete_ne]. split; [done|].
    unfold get. simpl. by rewrite lookup_delete_eq.
Qed.

Lemma affinity_sliding_expiry_witness :
  let s := set map_to_list (new 60) "a" 1%N 0 in
  (get s "a" 59999).2 = Some 1%N ∧ (get (get s "a" 59999).1 "a" 119998).2 = Some 1%N.
Proof.
  cbv zeta. pose proof (affinity_sliding_expiry (set map_to_list (new 60) "a" 1%N 0) "a" 59999 119998
    ltac:(lia) ltac:(vm_compute; reflexivity)) as H.
  vm_compute in H. split; [vm_compute; reflexivity|].
  vm_compute. destruct H as [[_ H] _]. apply H. reflexivity.
Defined.

End AffinityProps.
