(* ===== verification/Fallback.v ===== *)
(** Model fallback (router/fallback.rs) and the retry settings of a fallback
    chain (proxy/dispatch.rs). *)

From S2P Require Import Prelude.

Module Fallback.

(** [s.ends_with('*')] with the part before the star. *)
Fixpoint before_star (s : string) : option string :=
  match s with
  | EmptyString => None
  | String c EmptyString => if ascii_dec c "*"%char then Some EmptyString else None
  | String c s' => String c <$> before_star s'
  end.

(** [s.rfind(c)]: the parts before and after the last [c]. *)
Fixpoint rsplit_once (c : ascii) (s : string) : option (string * string) :=
  match s with
  | EmptyString => None
  | String a s' =>
      match rsplit_once c s' with
      | Some (u, v) => Some (String a u, v)
      | None => if ascii_dec a c then Some (EmptyString, s') else None
      end
  end.

Fixpoint all_digits (s : string) : bool :=
  match s with EmptyString => true | String c s' => is_ascii_digit c && all_digits s' end.

Definition strip_date_suffix (model : string) : option string :=
  match rsplit_once "-" model with
  | None => None
  | Some (stripped, suffix) =>
      if (4 <=? String.length suffix)%nat && (String.length suffix <=? 8)%nat &&
         all_digits suffix
      then if negb (String.eqb stripped "") && negb (String.eqb stripped model)
           then Some stripped else None
      else None
  end.

(** A pattern is ["*"], or ends with a star and is longer than it. *)
Definition is_wildcard (key : string) : bool :=
  String.eqb key "*" ||
  (bool_decide (is_Some (before_star key)) && (1 <? String.length key)%nat).

Definition wildcard_matches (model key : string) : bool :=
  String.eqb key "*" || starts_with model (default "" (before_star key)).

Abbreviation Fallbacks := (gmap string (list string)) (only parsing).

Section chains.
(** The order in which a hash map is iterated. *)
Context (iter : ∀ {A}, gmap string A → list (string * A)).

Definition match_wildcards (model : string) (fallbacks : Fallbacks)
    : list (string * list string) :=
  stable_sort (λ a b : string * list string,
                 (String.length b.1 - 1 <=? String.length a.1 - 1)%nat)
    (List.filter (λ kv, wildcard_matches model kv.1)
       (List.filter (λ kv, is_wildcard kv.1) (iter _ fallbacks))).

(** The first occurrence of every list, a list being known by its key. *)
Fixpoint unseen (seen : list string) (l : list (string * list string)) : list (list string) :=
  match l with
  | [] => []
  | (k, fb) :: l' =>
      if bool_decide (k ∈ seen) then unseen seen l' else fb :: unseen (k :: seen) l'
  end.

Definition push_new (chain : list string) (fb : string) : list string :=
  if bool_decide (fb ∈ chain) then chain else chain ++ [fb].

Definition option_list {A} (o : option A) : list A :=
  match o with Some x => [x] | None => [] end.

Definition fallback_lists (model : string) (fallbacks : Fallbacks) : list (list string) :=
  let stripped := strip_date_suffix model in
  option_list (fallbacks !! model) ++
  option_list (stripped ≫= λ s, fallbacks !! s) ++
  unseen [] (match_wildcards model fallbacks ++
             match stripped with Some s => match_wildcards s fallbacks | None => [] end).

Definition resolve_fallback_chain (model : string) (fallbacks : Fallbacks) : list string :=
  foldl (foldl push_new) [model] (fallback_lists model fallbacks).

(** ** proxy/dispatch.rs *)

Definition build_fallback_chain (original_model : string) (is_group_request : bool)
    (model_groups model_fallbacks context_window_fallbacks : Fallbacks) : list string :=
  let chain :=
    if is_group_request then default [original_model] (model_groups !! original_model)
    else resolve_fallback_chain original_model model_fallbacks in
  match context_window_fallbacks !! original_model with
  | Some ctx_fallbacks => foldl push_new chain ctx_fallbacks
  | None => chain
  end.

Record ModelRetryConfig := mkRetry {
  max_retries : option Z;
  retry_base_ms : option Z;
  retry_max_ms : option Z;
}.
Definition default_retry : ModelRetryConfig := mkRetry None None None.

Definition better (model : string) (best_match : option (string * ModelRetryConfig))
    (kv : string * ModelRetryConfig) : option (string * ModelRetryConfig) :=
  let '(key, cfg) := kv in
  if bool_decide (is_Some (before_star key)) && (1 <? String.length key)%nat then
    if starts_with model (default "" (before_star key)) &&
       match best_match with
       | None => true
       | Some (k, _) => (String.length k <? String.length key)%nat
       end
    then Some (key, cfg) else best_match
  else if String.eqb key "*" then
    match best_match with None => Some (key, cfg) | Some _ => best_match end
  else best_match.

Definition resolve_model_retry_config (model : string)
    (overrides : gmap string ModelRetryConfig) : ModelRetryConfig :=
  match overrides !! model with
  | Some cfg => cfg
  | None =>
      match strip_date_suffix model ≫= λ s, overrides !! s with
      | Some cfg => cfg
      | None =>
          match foldl (better model) None (iter _ overrides) with
          | Some (_, cfg) => cfg
          | None => default_retry
          end
      end
  end.

Definition resolve_model_retry_counts (fallback_chain : list string)
    (overrides : gmap string ModelRetryConfig) (default_max_retries : Z) : list Z :=
  (λ m, default default_max_retries (max_retries (resolve_model_retry_config m overrides)))
    <$> fallback_chain.
End chains.

End Fallback.

Module FallbackFacts.
Import Fallback.

Abbreviation Iter := (∀ A, gmap string A → list (string * A)) (only parsing).
Definition enumerates (iter : Iter) : Prop := ∀ A (m : gmap string A), iter A m ≡ₚ map_to_list m.

Lemma prefix_unique s : ∀ p q,
  String.prefix p s = true → String.prefix q s = true → String.length p = String.length q → p = q.
Proof.
  induction s as [|c s IH]; intros [|a p] [|b q]; simpl; try done.
  destruct (ascii_dec a c), (ascii_dec b c); try done. subst. intros Hp Hq [= Hl].
  f_equal. by apply IH.
Qed.

Lemma before_star_Some k p : before_star k = Some p ↔ k = p +:+ "*".
Proof.
  revert p. induction k as [|c k IH]; intros p; [by destruct p|].
  destruct k as [|d k].
  - simpl. destruct (ascii_dec c "*") as [->|Hc]; destruct p as [|a p]; simpl.
    + done.
    + split; [done|]. intros [= _ Hp]. by destruct p.
    + split; [done|]. intros [= ->]. done.
    + split; [done|]. intros [= _ Hp]. by destruct p.
  - change (before_star (String c (String d k))) with (String c <$> before_star (String d k)).
    split.
    + destruct (before_star (String d k)) as [q|]; simpl; [|done].
      intros [= <-]. by rewrite (proj1 (IH q) eq_refl).
    + destruct p as [|a p]; [done|]. intros [= -> Hk].
      by rewrite (proj2 (IH p) Hk).
Qed.

Lemma length_star p : String.length (p +:+ "*") = S (String.length p).
Proof. induction p; simpl; auto. Qed.

(** A key that is a wildcard for a model. *)
Definition wild (model key : string) : Prop :=
  ∃ p, key = p +:+ "*" ∧ starts_with model p = true.

Lemma wild_unique model k k' :
  wild model k → wild model k' → String.length k = String.length k' → k = k'.
Proof.
  intros (p&->&Hp) (q&->&Hq) Hl. rewrite !length_star in Hl. f_equal.
  eapply prefix_unique; [exact Hp|exact Hq|lia].
Qed.

Lemma wild_filter model k :
  is_wildcard k && wildcard_matches model k = true ↔ wild model k.
Proof.
  unfold is_wildcard, wildcard_matches, wild.
  destruct (String.eqb_spec k "*") as [->|Hne]; simpl.
  - split; [|done]. exists "". split; [done|]. by destruct model.
  - destruct (before_star k) as [p|] eqn:E; simpl.
    + apply before_star_Some in E as ->. rewrite length_star.
      assert (p ≠ "") as Hp by (by intros ->). destruct p as [|a p]; [done|].
      split; [eauto|]. intros (q&Hq&Hm). assert (q = String a p) as ->; [|done].
      apply before_star_Some in Hq. rewrite (proj2 (before_star_Some _ (String a p)) eq_refl) in Hq.
      by simplify_eq.
    + split; [done|].
      intros (p&->&_). by rewrite (proj2 (before_star_Some _ p) eq_refl) in E.
Qed.

Section iter.
Context (iter : Iter) (iter_ok : enumerates iter).

Lemma elem_of_match_wildcards model m k fb :
  (k, fb) ∈ match_wildcards iter model m ↔ m !! k = Some fb ∧ wild model k.
Proof using iter_ok.
  unfold match_wildcards.
  rewrite elem_of_stable_sort, !list_elem_of_In, !filter_In, <- list_elem_of_In.
  pose proof (iter_ok _ m) as Hp. rewrite Hp, elem_of_map_to_list, <- wild_filter, andb_true_iff. simpl. tauto.
Qed.
End iter.

(** Longest prefix first is a total order on the wildcards of a model, so the
    order of iteration does not show. *)
Lemma match_wildcards_order iter iter' model m :
  enumerates iter → enumerates iter' →
  match_wildcards iter model m = match_wildcards iter' model m.
Proof.
  intros H H'. pose proof (elem_of_match_wildcards iter H model m) as He.
  pose proof (elem_of_match_wildcards iter' H' model m) as He'.
  set (le := λ a b : string * list string,
               (String.length b.1 - 1 <=? String.length a.1 - 1)%nat).
  eapply (StronglySorted_unique_strong (λ a b, le a b = true)).
  - intros [k fb] [k' fb'] [Hk Hw]%He [Hk' Hw']%He' H1 H2. subst le. simpl in *.
    assert (k = k') as ->; [|by simplify_eq].
    apply (wild_unique model); [done|done|]. destruct Hw as (p&->&_), Hw' as (q&->&_).
    rewrite !length_star in *. lia.
  - apply stable_sort_sorted; subst le; simpl; intros; lia.
  - apply stable_sort_sorted; subst le; simpl; intros; lia.
  - unfold match_wildcards. rewrite !stable_sort_perm.
    assert (∀ P (l l' : list (string * list string)), l ≡ₚ l' → List.filter P l ≡ₚ List.filter P l')
      as Hf.
    { intros P l l'. induction 1; simpl; repeat case_match; eauto using Permutation. }
    apply Hf, Hf. etrans; [apply H|]. symmetry. apply H'.
Qed.

Lemma elem_of_unseen l : ∀ seen fb,
  (∀ k x y, (k, x) ∈ l → (k, y) ∈ l → x = y) →
  fb ∈ unseen seen l ↔ ∃ k, (k, fb) ∈ l ∧ k ∉ seen.
Proof.
  induction l as [|[k x] l IH]; intros seen fb Hf; simpl.
  - split; [by intros ?%not_elem_of_nil|]. by intros (k&?%not_elem_of_nil&_).
  - assert (∀ k' y z, (k', y) ∈ l → (k', z) ∈ l → y = z) as Hf'
      by (intros k' y z Hy Hz; apply (Hf k'); set_solver).
    case_bool_decide as E.
    + rewrite IH by done. split; intros (k'&Hin&Hn); exists k'; split; try done; [set_solver|].
      apply elem_of_cons in Hin as [[= -> ->]|]; done.
    + rewrite elem_of_cons, IH by done. split.
      * intros [->|(k'&Hin&Hn)]; [exists k; set_solver|exists k'; set_solver].
      * intros (k'&Hin&Hn). destruct (decide (k' = k)) as [->|Hne].
        -- left. by apply (Hf k); [|left].
        -- right. exists k'. set_solver.
Qed.

Lemma push_all_spec l : ∀ chain,
  let r := foldl push_new chain l in
  (∀ x, x ∈ r ↔ x ∈ chain ∨ x ∈ l) ∧ (NoDup chain → NoDup r) ∧ chain `prefix_of` r.
Proof.
  induction l as [|y l IH]; intros chain; simpl.
  - split_and!; [|done|done]. intros x. rewrite elem_of_nil. tauto.
  - destruct (IH (push_new chain y)) as (H1&H2&H3). unfold push_new in *.
    case_bool_decide as E.
    + split_and!; [|done|done]. intros x. rewrite H1, elem_of_cons. naive_solver.
    + split_and!.
      * intros x. rewrite H1, elem_of_app, list_elem_of_singleton, elem_of_cons. tauto.
      * intros Hnd. apply H2, NoDup_app. split_and!; [done| |by apply NoDup_singleton].
        by intros x Hx ->%list_elem_of_singleton.
      * etrans; [|exact H3]. by apply prefix_app_r.
Qed.

Lemma push_lists_spec ls : ∀ chain,
  let r := foldl (foldl push_new) chain ls in
  (∀ x, x ∈ r ↔ x ∈ chain ∨ ∃ l, l ∈ ls ∧ x ∈ l) ∧ (NoDup chain → NoDup r) ∧
  chain `prefix_of` r.
Proof.
  induction ls as [|l ls IH]; intros chain; simpl.
  - split_and!; [|done|done]. intros x. split; [by left|].
    by intros [|(l&?%not_elem_of_nil&_)].
  - destruct (push_all_spec l chain) as (A1&A2&A3).
    destruct (IH (foldl push_new chain l)) as (H1&H2&H3). split_and!; [|auto|by etrans].
    intros x. rewrite H1, A1. setoid_rewrite elem_of_cons. naive_solver.
Qed.

(** The keys of the fallback table that apply to a model. *)
Definition applies (model key : string) : Prop :=
  key = model ∨ strip_date_suffix model = Some key ∨ wild model key ∨
  ∃ s, strip_date_suffix model = Some s ∧ wild s key.

Lemma elem_of_fallback_lists iter model m l :
  enumerates iter →
  l ∈ fallback_lists iter model m ↔ ∃ key, m !! key = Some l ∧ applies model key.
Proof.
  intros H. unfold fallback_lists. rewrite !elem_of_app, elem_of_unseen.
  2:{ intros k x y Hx Hy.
      assert (∀ z, (k, z) ∈ match_wildcards iter model m ++
                match strip_date_suffix model with Some s => match_wildcards iter s m | None => [] end
              → m !! k = Some z) as Hz.
      { intros z [Hz|Hz]%elem_of_app; [by apply elem_of_match_wildcards in Hz as [? _]|].
        destruct (strip_date_suffix model); [|by apply not_elem_of_nil in Hz].
        by apply elem_of_match_wildcards in Hz as [? _]. }
      apply Hz in Hx, Hy. congruence. }
  setoid_rewrite elem_of_app. setoid_rewrite elem_of_match_wildcards; [|done].
  assert (∀ A (o : option A) x, x ∈ option_list o ↔ o = Some x) as Ho.
  { intros A [y|] x; simpl; [rewrite list_elem_of_singleton; naive_solver|].
    rewrite elem_of_nil. naive_solver. }
  rewrite !Ho. unfold applies. destruct (strip_date_suffix model) as [s|]; simpl.
  - setoid_rewrite elem_of_match_wildcards; [|done]. split.
    + intros [?|[?|(k&[[? ?]|[? ?]]&_)]].
      * exists model. auto.
      * exists s. auto.
      * exists k. auto.
      * exists k. split; [done|]. right; right; right. exists s. auto.
    + intros (k&Hk&[->|[[= ->]|[Hw|(s'&[= <-]&Hw)]]]); [by left|by right; left|..].
      * right; right; exists k; (split; [|apply not_elem_of_nil]); auto.
      * right; right; exists k; (split; [|apply not_elem_of_nil]); auto.
  - split.
    + intros [?|[?|(k&[[? ?]|?%not_elem_of_nil]&_)]]; [exists model|done|exists k|done]; auto.
    + intros (k&Hk&[->|[?|[Hw|(s'&?&_)]]]); [by left|done| |done].
      right; right. exists k. split; [eauto|apply not_elem_of_nil].
Qed.

End FallbackFacts.

Module FallbackProps.
Import Fallback FallbackFacts.

(** C17. The fallback chain of a model does not depend on the order in which the
    table (a hash map) is iterated; it starts with the model, has no duplicate,
    and holds exactly the model and the members of the lists whose key applies:
    the model, the model without its date suffix, or a wildcard of either. *)
Theorem fallback_chain_spec iter iter' model fallbacks :
  enumerates iter → enumerates iter' →
  let chain := resolve_fallback_chain iter model fallbacks in
  chain = resolve_fallback_chain iter' model fallbacks ∧
  (∃ rest, chain = model :: rest) ∧ NoDup chain ∧
  ∀ m, m ∈ chain ↔
    m = model ∨ ∃ key l, fallbacks !! key = Some l ∧ m ∈ l ∧ applies model key.
Proof.
  intros H H' chain. destruct (push_lists_spec (fallback_lists iter model fallbacks) [model])
    as (H1&H2&H3). change (foldl _ _ _) with chain in H1, H2, H3.
  split_and!.
  - subst chain. unfold resolve_fallback_chain, fallback_lists.
    rewrite (match_wildcards_order iter iter') by done.
    destruct (strip_date_suffix model); [|done]. by rewrite (match_wildcards_order iter iter') by done.
  - destruct H3 as [rest ->]. by exists rest.
  - apply H2, NoDup_singleton.
  - intros m. rewrite H1, list_elem_of_singleton. setoid_rewrite elem_of_fallback_lists; [|done].
    split.
    + intros [?|(l&(key&?&?)&?)]; [by left|right]. exists key, l. auto.
    + intros [?|(key&l&?&?&?)]; [by left|right]. exists l. eauto.
Qed.

Definition sample_fallbacks : gmap string (list string) :=
  {["gpt-4*" := ["gpt-4"; "o1"]; "*" := ["gpt-3"; "o1"]; "gpt-4-turbo" := ["gpt-4"]]}.

Lemma enumerates_map_to_list : enumerates (λ _ m, map_to_list m).
Proof. by intros A m. Qed.

Lemma fallback_chain_spec_witness :
  resolve_fallback_chain (λ _ m, map_to_list m) "gpt-4-turbo-20240409" sample_fallbacks
  = resolve_fallback_chain (λ _ m, rev (map_to_list m)) "gpt-4-turbo-20240409" sample_fallbacks.
Proof.
  refine (proj1 (fallback_chain_spec (λ _ m, map_to_list m) (λ _ m, rev (map_to_list m))
    "gpt-4-turbo-20240409" sample_fallbacks enumerates_map_to_list _)).
  intros A m. symmetry. apply Permutation_rev.
Defined.

Example sample_chain :
  resolve_fallback_chain (λ _ m, map_to_list m) "gpt-4-turbo-20240409" sample_fallbacks
  = ["gpt-4-turbo-20240409"; "gpt-4"; "o1"; "gpt-3"].
Proof. vm_compute. reflexivity. Qed.

Definition longer (best : option (string * ModelRetryConfig)) (key : string) : Prop :=
  match best with None => True | Some (k, _) => (String.length k < String.length key)%nat end.

Lemma better_spec model best key cfg :
  match best with Some (k, _) => wild model k | None => True end →
  (wild model key ∧ longer best key ∧ better model best (key, cfg) = Some (key, cfg)) ∨
  (¬ (wild model key ∧ longer best key) ∧ better model best (key, cfg) = best).
Proof.
  intros Hb. unfold better.
  destruct (before_star key) as [p|] eqn:E; simpl.
  - apply before_star_Some in E as ->. rewrite length_star.
    assert (wild model (p +:+ "*") ↔ starts_with model p = true) as Hw.
    { split; [|intros; by exists p]. intros (q&Hq&Hs). apply before_star_Some in Hq.
      rewrite (proj2 (before_star_Some _ p) eq_refl) in Hq. by simplify_eq. }
    rewrite Hw. destruct p as [|a p]; simpl.
    + destruct best as [[k c]|]; simpl; [right|left].
      * split; [|done]. destruct Hb as (q&->&_). rewrite length_star. lia.
      * split_and!; [by destruct model|done|done].
    + destruct (starts_with model (String a p)); simpl; [|right; split; [by intros [? _]|done]].
      destruct best as [[k c]|]; simpl; [|by left].
      rewrite length_star. destruct (Nat.ltb_spec (String.length k) (S (S (String.length p))));
        [left|right]; (split_and!; [..|done]); try done; lia.
  - destruct (String.eqb_spec key "*") as [->|]; [done|]. right. split; [|done].
    intros [(p&->&_) _]. by rewrite (proj2 (before_star_Some _ p) eq_refl) in E.
Qed.

Lemma best_wildcard_spec model l :
  match foldl (better model) None l with
  | None => ∀ k c, (k, c) ∈ l → ¬ wild model k
  | Some (k, c) => (k, c) ∈ l ∧ wild model k ∧
      ∀ k' c', (k', c') ∈ l → wild model k' → (String.length k' ≤ String.length k)%nat
  end.
Proof.
  induction l as [|[key cfg] l IH] using rev_ind; [by intros ? ? ?%not_elem_of_nil|].
  rewrite foldl_app. cbn [foldl]. set (best := foldl _ None l) in *.
  destruct (better_spec model best key cfg) as [(Hw&Hl&->)|(Hn&->)].
  - destruct best as [[k c]|]; [by apply IH|done].
  - split_and!; [set_solver|done|]. intros k' c' [Hin|Hin]%elem_of_app Hw'.
    + destruct best as [[k c]|]; [|by apply IH in Hin].
      destruct IH as (_&_&Hm). specialize (Hm _ _ Hin Hw'). simpl in Hl. lia.
    + apply list_elem_of_singleton in Hin. by simplify_eq.
  - destruct best as [[k c]|]; simpl in Hn.
    + destruct IH as (H1&H2&H3). split_and!; [set_solver|done|].
      intros k' c' [Hin|Hin]%elem_of_app Hw'; [by eapply H3|].
      apply list_elem_of_singleton in Hin. simplify_eq.
      destruct (decide (String.length k < String.length key)%nat); [by destruct Hn|lia].
    + intros k' c' [Hin|Hin]%elem_of_app; [by eapply IH|].
      apply list_elem_of_singleton in Hin. simplify_eq. tauto.
Qed.

(** The retry settings of a model are those of the most specific key, for
    every iteration order of the table: the model itself, else the model
    without its date suffix, else the longest wildcard that matches the model;
    and the defaults when nothing matches. *)
Theorem retry_config_most_specific iter model overrides :
  enumerates iter →
  let cfg := resolve_model_retry_config iter model overrides in
  match overrides !! model, strip_date_suffix model ≫= λ s, overrides !! s with
  | Some c, _ => cfg = c
  | None, Some c => cfg = c
  | None, None =>
      (∃ key, overrides !! key = Some cfg ∧ wild model key ∧
         ∀ k, is_Some (overrides !! k) → wild model k → k ≠ key →
           (String.length k < String.length key)%nat) ∨
      (cfg = default_retry ∧ ∀ k, is_Some (overrides !! k) → ¬ wild model k)
  end.
Proof.
  intros H cfg. subst cfg. unfold resolve_model_retry_config.
  destruct (overrides !! model); [done|].
  destruct (strip_date_suffix model ≫= _); [done|].
  pose proof (best_wildcard_spec model (iter _ overrides)) as Hb.
  assert (∀ k c, (k, c) ∈ iter _ overrides ↔ overrides !! k = Some c) as Hin.
  { intros k c. pose proof (H _ overrides) as Hp. by rewrite Hp, elem_of_map_to_list. }
  destruct (foldl _ None _) as [[k c]|]; [left|right].
  - destruct Hb as (Hk&Hw&Hm). apply Hin in Hk. exists k. split_and!; [done|done|].
    intros k' [c' Hc'%Hin] Hw' Hne. specialize (Hm _ _ Hc' Hw').
    assert (String.length k' ≠ String.length k); [|lia].
    intros Hl. apply Hne. by eapply wild_unique.
  - split; [done|]. intros k [c Hc%Hin]. by eapply Hb.
Qed.

Definition sample_overrides : gmap string ModelRetryConfig :=
  {["gpt*" := mkRetry (Some 2) None None; "gpt-4*" := mkRetry (Some 5) None None;
    "*" := mkRetry (Some 1) None None]}.

Lemma retry_config_most_specific_witness :
  ∃ key, sample_overrides !! key = Some (mkRetry (Some 5) None None) ∧ wild "gpt-4o" key.
Proof.
  pose proof (retry_config_most_specific (λ _ m, map_to_list m) "gpt-4o" sample_overrides
                enumerates_map_to_list) as H.
  cbv zeta in H.
  replace (resolve_model_retry_config _ _ _) with (mkRetry (Some 5) None None) in H
    by (vm_compute; reflexivity).
  replace (sample_overrides !! "gpt-4o") with (@None ModelRetryConfig) in H
    by (vm_compute; reflexivity).
  change (strip_date_suffix "gpt-4o" ≫= _) with (@None ModelRetryConfig) in H.
  destruct H as [(key&Hk&Hw&_)|[Hd _]]; [|discriminate Hd].
  exists key. split; [exact Hk|exact Hw].
Defined.

(** The chain with its group expansion and context fallbacks: nothing is tried
    twice unless a group lists it twice. *)
Lemma build_fallback_chain_nodup iter model is_group groups fallbacks ctx :
  (∀ l, groups !! model = Some l → NoDup l) →
  NoDup (build_fallback_chain iter model is_group groups fallbacks ctx).
Proof.
  intros Hg. unfold build_fallback_chain.
  assert (NoDup (if is_group then default [model] (groups !! model)
                 else resolve_fallback_chain iter model fallbacks)) as Hnd.
  { destruct is_group.
    - destruct (groups !! model) as [l|]; [by apply Hg|apply NoDup_singleton].
    - apply push_lists_spec, NoDup_singleton. }
  destruct (ctx !! model); [|done]. by apply push_all_spec.
Qed.

End FallbackProps.
