(* ===== verification/PersistedStore.v ===== *)
(** The persisted key-value store (persisted_store.rs): a map in memory saved
    as a JSON file with a schema version, written through a temporary file, and
    poisoned when the file cannot be parsed.  serde_json is a parser and a
    printer given as arguments; a file system is a map from paths to contents. *)

From S2P Require Import Prelude Json.

Module Persisted.

Abbreviation Fs := (gmap string string) (only parsing).

Section store.
Context {K V : Type} `{Countable K}.
(** [serde_json::from_str::<Value>], [to_string] of a [Value], and the derived
    serialization of the map to and from a [Value]. *)
Context (parse : string → option Json.value) (print : Json.value → string).
Context (to_value : gmap K V → Json.value) (from_value : Json.value → option (gmap K V)).
(** [Path::with_extension] for the temporary file and for the backup at a time. *)
Context (tmp_path : string → string) (backup_path : string → DateTime → string).

Record PersistedStore := mkStore {
  data : gmap K V;
  store_path : string;
  poisoned : bool;
}.

Definition new (path : string) : PersistedStore := mkStore ∅ path false.

Definition set_data (m : gmap K V) (s : PersistedStore) : PersistedStore :=
  mkStore m (store_path s) (poisoned s).

Definition DATA_SCHEMA_VERSION : Z := 1.

Definition strip_schema_version (json : string) : string :=
  match parse json with
  | Some (Json.Object o) =>
      if bool_decide (is_Some (o !! "schema_version"))
      then print (Json.Object (delete "schema_version" o)) else json
  | _ => json
  end.

Definition inject_schema_version (json : string) : string :=
  match parse json with
  | Some (Json.Object o) =>
      print (Json.Object (<["schema_version" := Json.num DATA_SCHEMA_VERSION]> o))
  | _ => json
  end.

Definition to_json (m : gmap K V) : string := print (to_value m).
Definition from_json (s : string) : option (gmap K V) := parse s ≫= from_value.

(** The system calls of [persist], in order, and which of them fail. *)
Inductive stage := Mkdir | Open | Write | Sync | Rename.

(** The states the file system goes through when [persist] writes [json]: the
    last is the state it leaves, and a crash leaves any of them.  A failing
    write has written [partial]. *)
Definition persist_states (ok : stage → bool) (partial json path : string) (fs : Fs)
    : list Fs :=
  let tmp := tmp_path path in
  let opened := <[tmp := ""]> fs in
  let written := <[tmp := json]> fs in
  if negb (ok Mkdir) then [fs]
  else if negb (ok Open) then [fs]
  else if negb (ok Write) then [fs; opened; <[tmp := partial]> fs; delete tmp fs]
  else if negb (ok Sync) then [fs; opened; <[tmp := partial]> fs; written; delete tmp fs]
  else if negb (ok Rename) then [fs; opened; <[tmp := partial]> fs; written; delete tmp fs]
  else [fs; opened; <[tmp := partial]> fs; written; <[path := json]> (delete tmp fs)].

Definition persist (ok : stage → bool) (partial : string) (s : PersistedStore) (fs : Fs) : Fs :=
  if poisoned s then fs
  else default fs (last (persist_states ok partial
                           (inject_schema_version (to_json (data s))) (store_path s) fs)).

(** [persist_sync], which tries ten times to see the data, and goes on if the directory
    cannot be made. *)
Definition without_mkdir (ok : stage → bool) (st : stage) : bool := match st with Mkdir => true | _ => ok st end.
Definition persist_sync (tries : nat → bool) (ok : stage → bool) (partial : string) (s : PersistedStore) (fs : Fs) : Fs :=
  if existsb tries (seq 0 10) then persist (without_mkdir ok) partial s fs else fs.

(** [read_ok]: the file, if it exists, can be read. *)
Definition load (read_ok rename_ok : bool) (now : DateTime) (s : PersistedStore) (fs : Fs)
    : PersistedStore * Fs :=
  match fs !! store_path s with
  | None => (s, fs)
  | Some json =>
      if negb read_ok then (s, fs) else
      match from_json (strip_schema_version json) with
      | None =>
          (mkStore (data s) (store_path s) true,
           if rename_ok
           then <[backup_path (store_path s) now := json]> (delete (store_path s) fs) else fs)
      | Some loaded => (set_data (data s ∪ loaded) s, fs)
      end
  end.

(** *** Laws of the serializer the store relies on

    The documents of a map are JSON objects without a "schema_version" key;
    they, and the same with a version added, are read back as printed. *)
Record serde_laws : Prop := {
  to_object : ∀ m, ∃ o, to_value m = Json.Object o ∧ o !! "schema_version" = None ∧
    parse (print (Json.Object o)) = Some (Json.Object o) ∧
    let o' := <["schema_version" := Json.num DATA_SCHEMA_VERSION]> o in
    parse (print (Json.Object o')) = Some (Json.Object o');
  from_to : ∀ m, from_value (to_value m) = Some m;
}.
End store.

Arguments PersistedStore K V {_ _}.
Arguments mkStore {K V _ _} _ _ _.

End Persisted.

Module PersistedProps.
Import Persisted.

Section props.
Context {K V : Type} `{Countable K}.
Context (parse : string → option Json.value) (print : Json.value → string).
Context (to_value : gmap K V → Json.value) (from_value : Json.value → option (gmap K V)).
Context (tmp_path : string → string) (backup_path : string → DateTime → string).

Lemma persist_states_done ok partial json path fs :
  tmp_path path ≠ path → (∀ s, ok s = true) →
  ∃ st, last (persist_states tmp_path ok partial json path fs) = Some st ∧
    st !! path = Some json ∧ st !! tmp_path path = None.
Proof.
  intros Hne Hok. unfold persist_states. rewrite !Hok. simpl. eexists. split; [done|].
  rewrite lookup_insert_eq, lookup_insert_ne, lookup_delete_eq by done. done.
Qed.

(** C28. A crash or a failing system call at any point of [persist] leaves in
    the store's file either the previous contents or the complete new ones;
    when every call succeeds the new ones are there and no temporary file is. *)
Theorem persist_atomic ok partial json path fs :
  tmp_path path ≠ path →
  (∀ st, st ∈ persist_states tmp_path ok partial json path fs →
     st !! path = fs !! path ∨ st !! path = Some json) ∧
  ((∀ s, ok s = true) →
   ∃ st, last (persist_states tmp_path ok partial json path fs) = Some st ∧
     st !! path = Some json ∧ st !! tmp_path path = None).
Proof.
  intros Hne. split; [|by apply persist_states_done].
  intros st Hst. unfold persist_states in Hst.
    repeat case_match; repeat (apply elem_of_cons in Hst as [->|Hst]);
      try (by apply not_elem_of_nil in Hst);
      rewrite ?lookup_insert_ne, ?lookup_delete_ne, ?lookup_insert_eq by done; auto.
Qed.

(** A store that is saved at the end, while it may be in use, leaves what it held before
    in the file or all of what it holds; the latter if nobody held it for a tenth of a
    second and every call succeeded. *)
Theorem persist_sync_atomic tries ok partial (s : PersistedStore K V) fs :
  tmp_path (store_path s) ≠ store_path s →
  let fs' := persist_sync parse print to_value tmp_path tries ok partial s fs in
  let json := inject_schema_version parse print (to_json print to_value (data s)) in
  (fs' !! store_path s = fs !! store_path s ∨ fs' !! store_path s = Some json) ∧
  (poisoned s = false → (∃ n, (n < 10)%nat ∧ tries n = true) → (∀ st, st ≠ Mkdir → ok st = true) → fs' !! store_path s = Some json) ∧
  (poisoned s = true ∨ (∀ n, (n < 10)%nat → tries n = false) → fs' = fs).
Proof.
  intros Hne. cbn zeta. unfold persist_sync, persist. set (json := inject_schema_version _ _ _).
  assert (∀ ok, let fs' := default fs (last (persist_states tmp_path ok partial json (store_path s) fs)) in
    fs' !! store_path s = fs !! store_path s ∨ fs' !! store_path s = Some json) as Ha.
  { intros ok'. cbn zeta. destruct (last _) as [st|] eqn:El; [|by left]. apply last_Some_elem_of in El. cbn.
    unfold persist_states in El. repeat case_match; repeat (apply elem_of_cons in El as [->|El]); try (by apply not_elem_of_nil in El);
      rewrite ?lookup_insert_ne, ?lookup_delete_ne, ?lookup_insert_eq by done; auto. }
  split_and!.
  - destruct (existsb _ _), (poisoned s); auto.
  - intros -> (n&Hn&Ht) Hok. assert (existsb tries (seq 0 10) = true) as ->.
    { apply existsb_exists. exists n. split; [apply in_seq; lia|done]. }
    destruct (persist_states_done (without_mkdir ok) partial json (store_path s) fs Hne) as (st&->&Hs&_); [|done].
    intros []; unfold without_mkdir; auto.
  - intros [->|Ht]; [by destruct (existsb _ _)|]. assert (existsb tries (seq 0 10) = false) as ->; [|done].
    apply not_true_is_false. intros (n&Hn&He)%existsb_exists. apply in_seq in Hn. rewrite Ht in He by lia. done.
Qed.

Lemma strip_inject (Hl : serde_laws parse print to_value from_value) m :
  from_json parse from_value
    (strip_schema_version parse print (inject_schema_version parse print
       (to_json print to_value m))) = Some m.
Proof.
  destruct Hl as [Hob Hft]. destruct (Hob m) as (o&Ho&Hv&Hp&Hp').
  unfold from_json, strip_schema_version, inject_schema_version, to_json.
  rewrite Ho, Hp, Hp'. rewrite lookup_insert_eq, bool_decide_true by eauto.
  rewrite delete_insert_id by done. rewrite Hp. simpl. by rewrite <- Ho.
Qed.

(** What a store persists, a new store on the same path loads: all of its
    data, despite the schema version added to and removed from the file, and
    a store that already has data keeps its own entries on a conflict. *)
Theorem persist_load_roundtrip s s' fs now :
  serde_laws parse print to_value from_value →
  tmp_path (store_path s) ≠ store_path s →
  poisoned s = false → store_path s' = store_path s →
  let fs' := persist parse print to_value tmp_path (λ _, true) "" s fs in
  let '(r, fs'') := load parse print from_value backup_path true true now s' fs' in
  data r = data s' ∪ data s ∧ poisoned r = poisoned s' ∧ fs'' = fs'.
Proof.
  intros Hl Hne Hp Hpath fs'.
  assert (fs' !! store_path s =
            Some (inject_schema_version parse print (to_json print to_value (data s)))) as Hf.
  { subst fs'. unfold persist. rewrite Hp.
    destruct (persist_states_done (λ _, true) "" (inject_schema_version parse print
      (to_json print to_value (data s))) (store_path s) fs Hne) as (st&Hlast&Hsome&_); [done|].
    by rewrite Hlast. }
  unfold load. rewrite Hpath, Hf. simpl. by rewrite strip_inject.
Qed.

(** A store that could not parse its file never overwrites it: loading
    poisons the store, keeps the corrupt contents under the backup name, and
    every later [persist] leaves the file system alone. *)
Theorem poisoned_store_never_writes s fs now json ok partial :
  fs !! store_path s = Some json →
  from_json parse from_value (strip_schema_version parse print json) = None →
  let '(s', fs') := load parse print from_value backup_path true true now s fs in
  fs' !! backup_path (store_path s) now = Some json ∧ data s' = data s ∧
  persist parse print to_value tmp_path ok partial s' fs' = fs'.
Proof.
  intros Hf Hbad. unfold load. rewrite Hf. simpl. rewrite Hbad. simpl.
  split_and!; [apply lookup_insert_eq|done|done].
Qed.
End props.

(** *** A serializer for the witnesses: maps with at most one entry, a flag *)

Definition flag_to_value (m : gmap unit bool) : Json.value :=
  Json.Object (match m !! tt with Some b => {["k" := Json.Bool b]} | None => ∅ end).
Definition flag_from_value (v : Json.value) : option (gmap unit bool) :=
  match v with
  | Json.Object o =>
      match o !! "k" with
      | Some (Json.Bool b) => Some {[tt := b]}
      | Some _ => None
      | None => Some ∅
      end
  | _ => None
  end.
Definition flag_print (v : Json.value) : string :=
  let versioned := bool_decide (is_Some (Json.get v "schema_version")) in
  String (if versioned then "v" else "-")%char
    (match Json.get v "k" with
     | Some (Json.Bool true) => "t"
     | Some (Json.Bool false) => "f"
     | _ => ""
     end).
Definition flag_parse (s : string) : option Json.value :=
  match s with
  | String c rest =>
      let o := if String.eqb rest "t" then {["k" := Json.Bool true]}
               else if String.eqb rest "f" then {["k" := Json.Bool false]} else ∅ in
      if ascii_dec c "v"%char then Some (Json.Object (<["schema_version" := Json.num 1]> o))
      else if ascii_dec c "-"%char then Some (Json.Object o) else None
  | EmptyString => None
  end.
Definition tmp_of (p : string) : string := p +:+ ".tmp".
Definition backup_of (p : string) (_ : DateTime) : string := p +:+ ".corrupt".

Lemma flag_laws : serde_laws flag_parse flag_print flag_to_value flag_from_value.
Proof.
  split.
  - intros m. eexists. split; [reflexivity|].
    destruct (m !! tt) as [[]|]; split_and!; vm_compute; reflexivity.
  - intros m. unfold flag_to_value. destruct (m !! tt) as [b|] eqn:E; simpl;
      f_equal; apply map_eq; intros []; by rewrite E.
Qed.

Lemma persist_atomic_witness :
  tmp_of "s" ≠ "s" ∧
  ∃ st, last (persist_states tmp_of (λ _, true) "" "new" "s" {["s" := "old"]}) = Some st ∧
    st !! "s" = Some "new".
Proof.
  assert (tmp_of "s" ≠ "s") as Hne by discriminate. split; [exact Hne|].
  destruct (persist_atomic tmp_of (λ _, true) "" "new" "s" {["s" := "old"]} Hne) as [_ H].
  destruct (H (λ _, eq_refl)) as (st&Hl&Hs&_). exists st. split; [exact Hl|exact Hs].
Defined.

Lemma persist_load_roundtrip_witness :
  let s := mkStore {[tt := true]} "s" false in
  let '(r, _) := load flag_parse flag_print flag_from_value backup_of true true 0 (new "s")
                   (persist flag_parse flag_print flag_to_value tmp_of (λ _, true) "" s ∅) in
  data r = {[tt := true]}.
Proof.
  pose proof (persist_load_roundtrip flag_parse flag_print flag_to_value flag_from_value
    tmp_of backup_of (mkStore {[tt := true]} "s" false) (new "s") ∅ 0 flag_laws
    ltac:(discriminate) eq_refl eq_refl) as H.
  cbv zeta in *. destruct (load _ _ _ _ _ _ _ _ _) as [r fs]. destruct H as [H _].
  rewrite H. vm_compute. reflexivity.
Defined.

Definition garbage_fs : gmap string string := {["s" := "garbage"]}.

Lemma poisoned_store_never_writes_witness :
  let '(s', fs') := load flag_parse flag_print flag_from_value backup_of true true 0
                      (new "s") garbage_fs in
  persist flag_parse flag_print flag_to_value tmp_of (λ _, true) "" s' fs' = fs'.
Proof.
  pose proof (poisoned_store_never_writes flag_parse flag_print flag_to_value flag_from_value
    tmp_of backup_of (new "s") garbage_fs 0 "garbage" (λ _, true) ""
    ltac:(vm_compute; reflexivity) ltac:(vm_compute; reflexivity)) as H.
  destruct (load _ _ _ _ _ _ _ _ _) as [s' fs']. destruct H as (_&_&H). exact H.
Defined.

End PersistedProps.
