(* ===== verification/VirtualKey.v ===== *)
(** Virtual API keys (virtual_key/key.rs, store.rs, spend.rs): the key's budget,
    model and address checks, the store with its prefix index, and the
    reservation of spend. *)

From S2P Require Import Prelude Glob Json PersistedStore Affinity.

Module VirtualKey.

(** ** key.rs *)

Record DailySpend := mkDaily { date : string; d_cents : Z }.
Record MonthlySpend := mkMonthly { month : string; m_cents : Z }.
Record VirtualKeySpend := mkSpend {
  today : DailySpend;
  this_month : MonthlySpend;
  total_cents : Z;
}.
Definition default_spend : VirtualKeySpend := mkSpend (mkDaily "" 0) (mkMonthly "" 0) 0.

Record VirtualKey := mkKey {
  id : Uuid;
  key_hash : string;
  key_prefix : string;
  name : string;
  daily_budget_cents : option Z;
  monthly_budget_cents : option Z;
  enabled : bool;
  created_at : DateTime;
  spend : VirtualKeySpend;
  allowed_models : option (list string);
  denied_models : list string;
  allowed_ips : list string;
  rpm_limit : option Z;
  tpm_limit : option Z;
  expires_at : option DateTime;
  group : option string;
}.

Definition set_spend (s : VirtualKeySpend) (k : VirtualKey) : VirtualKey :=
  mkKey (id k) (key_hash k) (key_prefix k) (name k) (daily_budget_cents k)
    (monthly_budget_cents k) (enabled k) (created_at k) s (allowed_models k) (denied_models k)
    (allowed_ips k) (rpm_limit k) (tpm_limit k) (expires_at k) (group k).

(** The local date and month, as the code formats them. *)
Record LocalDate := mkDate { d_today : string; d_month : string }.

Definition current_daily (k : VirtualKey) (d : LocalDate) : Z :=
  if String.eqb (date (today (spend k))) (d_today d) then d_cents (today (spend k)) else 0.
Definition current_monthly (k : VirtualKey) (d : LocalDate) : Z :=
  if String.eqb (month (this_month (spend k))) (d_month d)
  then m_cents (this_month (spend k)) else 0.

Definition is_budget_exceeded (k : VirtualKey) (d : LocalDate) : bool :=
  let daily_spend := current_daily k d in
  let monthly_spend := current_monthly k d in
  if match daily_budget_cents k with Some l => l <=? daily_spend | None => false end then true
  else match monthly_budget_cents k with Some l => l <=? monthly_spend | None => false end.

Definition is_model_allowed (k : VirtualKey) (model : string) : bool :=
  match allowed_models k with
  | None => true
  | Some allowed =>
      existsb (λ pattern, starts_with model pattern || Glob.matches_glob pattern model) allowed
  end.

Definition is_model_denied (k : VirtualKey) (model : string) : bool :=
  existsb (λ pattern, Glob.matches_glob pattern model) (denied_models k).

(** [result << 8 | v], four times. *)
Fixpoint parse_octets (octets : list string) (result : Z) : option Z :=
  match octets with
  | [] => Some result
  | oct :: rest =>
      match parse_uint u32_max oct with
      | None => None
      | Some v =>
          if 255 <? v then None
          else parse_octets rest (Z.lor (wrap32 (Z.shiftl result 8)) v)
      end
  end.

Definition parse_ipv4 (s : string) : option Z :=
  let octets := split_on "." s in
  if negb (length octets =? 4)%nat then None else parse_octets octets 0.

Definition ip_in_cidr (ip cidr : string) : bool :=
  match split_once "/" cidr with
  | None => false
  | Some (network, bits) =>
      match parse_uint u8_max bits with
      | None => false
      | Some bits =>
          if negb (bits <=? 32) then false else
          match parse_ipv4 ip with
          | None => false
          | Some ip_u32 =>
              match parse_ipv4 network with
              | None => false
              | Some net_u32 =>
                  if bits =? 0 then true
                  else
                    let mask := wrap32 (Z.shiftl u32_max (32 - bits)) in
                    Z.land ip_u32 mask =? Z.land net_u32 mask
              end
          end
      end
  end.

Fixpoint contains_char (c : ascii) (s : string) : bool :=
  match s with
  | EmptyString => false
  | String a s' => if ascii_dec a c then true else contains_char c s'
  end.

Fixpoint ip_listed (ip : string) (allowed : list string) : bool :=
  match allowed with
  | [] => false
  | a :: rest =>
      if String.eqb a ip then true
      else if contains_char "/" a && ip_in_cidr ip a then true
      else ip_listed ip rest
  end.

Definition check_ip_allowed (k : VirtualKey) (ip : string) : bool :=
  match allowed_ips k with [] => true | l => ip_listed ip l end.

Definition is_expired (k : VirtualKey) (now : DateTime) : bool :=
  match expires_at k with Some exp => exp <? now | None => false end.

(** ** spend.rs *)

Inductive ReserveResult :=
  | NoBudget
  | Reserved (n : Z)
  | Exceeded.

(** The spend with stale periods reset. *)
Definition roll (d : LocalDate) (s : VirtualKeySpend) : VirtualKeySpend :=
  mkSpend (if String.eqb (date (today s)) (d_today d) then today s else mkDaily (d_today d) 0)
    (if String.eqb (month (this_month s)) (d_month d) then this_month s
     else mkMonthly (d_month d) 0)
    (total_cents s).

Definition over (limit : option Z) (v : Z) : bool :=
  match limit with Some l => l <? v | None => false end.

(** What [reserve_spend] does to the key it finds. *)
Definition reserve_key (d : LocalDate) (estimated_cost_cents : Z) (k : VirtualKey)
    : VirtualKey * ReserveResult :=
  if negb (enabled k) then (k, NoBudget) else
  let has_budget := bool_decide (is_Some (daily_budget_cents k)) ||
                    bool_decide (is_Some (monthly_budget_cents k)) in
  if negb has_budget then (k, NoBudget) else
  let s := roll d (spend k) in
  let k' := set_spend s k in
  let new_daily := sat_add64 (d_cents (today s)) estimated_cost_cents in
  let new_monthly := sat_add64 (m_cents (this_month s)) estimated_cost_cents in
  if over (daily_budget_cents k) new_daily then (k', Exceeded)
  else if over (monthly_budget_cents k) new_monthly then (k', Exceeded)
  else
    (set_spend (mkSpend (mkDaily (date (today s)) new_daily)
                  (mkMonthly (month (this_month s)) new_monthly)
                  (sat_add64 (total_cents s) estimated_cost_cents)) k,
     Reserved estimated_cost_cents).

Definition map_cents (f : Z → Z) (s : VirtualKeySpend) : VirtualKeySpend :=
  mkSpend (mkDaily (date (today s)) (f (d_cents (today s))))
    (mkMonthly (month (this_month s)) (f (m_cents (this_month s)))) (f (total_cents s)).

(** What [reconcile_spend] does to the key it finds. *)
Definition reconcile_key (reserved_cents actual_cents : Z) (k : VirtualKey) : VirtualKey :=
  let delta := as_i64 (as_i64 actual_cents - as_i64 reserved_cents) in
  if delta <? 0 then
    let refund := wrap64 (- delta) in
    set_spend (map_cents (λ c, sat_sub c refund) (spend k)) k
  else
    let extra := wrap64 delta in
    set_spend (map_cents (λ c, add_u64 c extra) (spend k)) k.

Definition accumulate_key (d : LocalDate) (cents : Z) (k : VirtualKey) : VirtualKey :=
  set_spend (map_cents (λ c, add_u64 c cents) (roll d (spend k))) k.

(** ** store.rs *)

Record VirtualKeyStore := mkStore {
  store : Persisted.PersistedStore Uuid VirtualKey;
  prefix_index : gmap string Uuid;
}.

Definition keys (s : VirtualKeyStore) : gmap Uuid VirtualKey := Persisted.data (store s).
Definition set_keys (m : gmap Uuid VirtualKey) (s : VirtualKeyStore) : VirtualKeyStore :=
  mkStore (Persisted.set_data m (store s)) (prefix_index s).

Definition with_store_path (path : string) : VirtualKeyStore := mkStore (Persisted.new path) ∅.

(** [plaintext.get(..16)]: nothing when the string is shorter or byte 16 is
    inside a character. *)
Definition is_continuation (c : ascii) : bool :=
  (128 <=? Z.of_N (N_of_ascii c)) && (Z.of_N (N_of_ascii c) <? 192).
Definition get_16 (s : string) : option string :=
  if (String.length s <? 16)%nat then None
  else match String.get 16 s with
       | Some c => if is_continuation c then None else Some (String.substring 0 16 s)
       | None => Some s
       end.
Definition prefix_of_key (plaintext : string) : string := default plaintext (get_16 plaintext).

Definition alter_key (f : VirtualKey → VirtualKey) (u : Uuid) (s : VirtualKeyStore)
    : VirtualKeyStore := set_keys (alter f u (keys s)) s.

Definition reserve_spend (s : VirtualKeyStore) (u : Uuid) (estimated_cost_cents : Z)
    (d : LocalDate) : VirtualKeyStore * ReserveResult :=
  match keys s !! u with
  | None => (s, NoBudget)
  | Some k =>
      let '(k', r) := reserve_key d estimated_cost_cents k in
      (set_keys (<[u := k']> (keys s)) s, r)
  end.

Definition reconcile_spend (s : VirtualKeyStore) (u : Uuid) (reserved_cents actual_cents : Z)
    : VirtualKeyStore :=
  if reserved_cents =? actual_cents then s
  else alter_key (reconcile_key reserved_cents actual_cents) u s.

Definition accumulate_spend (s : VirtualKeyStore) (u : Uuid) (cents : Z) (d : LocalDate)
    : VirtualKeyStore := alter_key (accumulate_key d cents) u s.

(** The fields an [update] replaces. *)
Record Update := mkUpdate {
  u_name : option string;
  u_daily_budget_cents : option (option Z);
  u_monthly_budget_cents : option (option Z);
  u_enabled : option bool;
  u_allowed_models : option (option (list string));
  u_denied_models : option (list string);
  u_allowed_ips : option (list string);
  u_rpm_limit : option (option Z);
  u_tpm_limit : option (option Z);
  u_expires_at : option (option DateTime);
  u_group : option (option string);
}.

Definition apply_update (u : Update) (k : VirtualKey) : VirtualKey :=
  mkKey (id k) (key_hash k) (key_prefix k) (default (name k) (u_name u))
    (default (daily_budget_cents k) (u_daily_budget_cents u))
    (default (monthly_budget_cents k) (u_monthly_budget_cents u))
    (default (enabled k) (u_enabled u)) (created_at k) (spend k)
    (default (allowed_models k) (u_allowed_models u))
    (default (denied_models k) (u_denied_models u)) (default (allowed_ips k) (u_allowed_ips u))
    (default (rpm_limit k) (u_rpm_limit u)) (default (tpm_limit k) (u_tpm_limit u))
    (default (expires_at k) (u_expires_at u)) (default (group k) (u_group u)).

Definition update (s : VirtualKeyStore) (i : Uuid) (u : Update)
    : VirtualKeyStore * option VirtualKey :=
  match keys s !! i with
  | None => (s, None)
  | Some k => (set_keys (<[i := apply_update u k]> (keys s)) s, Some (apply_update u k))
  end.

Definition get (s : VirtualKeyStore) (i : Uuid) : option VirtualKey := keys s !! i.
Definition has_keys (s : VirtualKeyStore) : bool := negb (bool_decide (keys s = ∅)).
Definition list_keys (s : VirtualKeyStore) : list VirtualKey := map_values (keys s).

Definition delete_key (s : VirtualKeyStore) (i : Uuid) : VirtualKeyStore * bool :=
  match keys s !! i with
  | None => (s, false)
  | Some k =>
      let s' := set_keys (delete i (keys s)) s in
      (mkStore (store s') (delete (key_prefix k) (prefix_index s')), true)
  end.

Definition find_by_prefix (s : VirtualKeyStore) (key : string) : option Uuid :=
  prefix_index s !! prefix_of_key key.

(** The settings given to [create]. *)
Record NewKey := mkNewKey {
  n_name : string;
  n_daily_budget_cents : option Z;
  n_monthly_budget_cents : option Z;
  n_allowed_models : option (list string);
  n_denied_models : list string;
  n_allowed_ips : list string;
  n_rpm_limit : option Z;
  n_tpm_limit : option Z;
  n_expires_at : option DateTime;
  n_group : option string;
}.

Section hashing.
(** [sha256] gives the digest's bytes, [simple] a [Uuid]'s 32 hex digits. *)
Context (sha256 : string → list Z) (simple : Uuid → string).

Definition sha256_hex (input : string) : string :=
  foldr (λ b acc, Affinity.hex_byte b +:+ acc) "" (sha256 input).

Definition matching_key (s : VirtualKeyStore) (plaintext : string) : option VirtualKey :=
  match prefix_index s !! prefix_of_key plaintext with
  | None => None
  | Some i =>
      match keys s !! i with
      | None => None
      | Some vk => if String.eqb (key_hash vk) (sha256_hex plaintext) then Some vk else None
      end
  end.

Definition validate (s : VirtualKeyStore) (plaintext : string) (d : LocalDate)
    (now : DateTime) : option VirtualKey :=
  match matching_key s plaintext with
  | None => None
  | Some vk =>
      if negb (enabled vk) then None
      else if is_expired vk now then None
      else if is_budget_exceeded vk d then None
      else Some vk
  end.

Definition validate_any (s : VirtualKeyStore) (plaintext : string) : option VirtualKey :=
  matching_key s plaintext.

(** [secret] and [new_id] are the two random [Uuid]s drawn.  The slice
    [plaintext[..16]] panics when the plaintext is too short. *)
Definition create (s : VirtualKeyStore) (n : NewKey) (secret new_id : Uuid) (now : DateTime)
    : outcome (VirtualKeyStore * VirtualKey * string) :=
  let plaintext := "ms-vk-" +:+ simple secret in
  match get_16 plaintext with
  | None => Panic
  | Some prefix =>
      let vk := mkKey new_id (sha256_hex plaintext) prefix (n_name n) (n_daily_budget_cents n)
                  (n_monthly_budget_cents n) true now default_spend (n_allowed_models n)
                  (n_denied_models n) (n_allowed_ips n) (n_rpm_limit n) (n_tpm_limit n)
                  (n_expires_at n) (n_group n) in
      let s' := set_keys (<[new_id := vk]> (keys s)) s in
      Done (mkStore (store s') (<[prefix := new_id]> (prefix_index s')), vk, plaintext)
  end.
End hashing.

(** [load], after the persisted store has merged its file into the data: the
    index is rebuilt, in the order [values] of the map's iteration. *)
Definition rebuild_index (values : list VirtualKey) (s : VirtualKeyStore) : VirtualKeyStore :=
  mkStore (store s) (foldl (λ m vk, <[key_prefix vk := id vk]> m) ∅ values).

End VirtualKey.

Module KeyFacts.
Import VirtualKey.

(** *** Addresses *)

Lemma shift_or_octet r v :
  0 ≤ r < 2 ^ 24 → 0 ≤ v ≤ 255 → Z.lor (wrap32 (Z.shiftl r 8)) v = 256 * r + v.
Proof.
  intros Hr Hv. rewrite Z.shiftl_mul_pow2 by lia. unfold wrap32.
  rewrite Z.mod_small by lia. change (2 ^ 8) with 256.
  pose proof (Z.add_lor_land (r * 256) v) as Hadd.
  assert (Z.land (r * 256) v = 0) as Hland; [|lia].
  apply Z.bits_inj'. intros i Hi. rewrite Z.land_spec, Z.bits_0.
  change 256 with (2 ^ 8). destruct (Z.ltb_spec i 8).
  - rewrite Z.mul_pow2_bits_low by lia. done.
  - assert (Z.testbit v i = false) as ->; [|apply andb_false_r].
    destruct (Z.eq_dec v 0) as [->|]; [apply Z.bits_0|]. apply Z.bits_above_log2; [lia|].
    apply Z.log2_lt_pow2; [lia|]. assert (2 ^ 8 ≤ 2 ^ i) by (apply Z.pow_le_mono_r; lia). lia.
Qed.

Lemma parse_octets_cons o os r v :
  parse_octets (o :: os) r = Some v →
  ∃ n, parse_uint u32_max o = Some n ∧ 0 ≤ n ≤ 255 ∧
       parse_octets os (Z.lor (wrap32 (Z.shiftl r 8)) n) = Some v.
Proof.
  simpl. destruct (parse_uint u32_max o) as [n|] eqn:E; [|done].
  apply parse_uint_range in E as Hr; [|done]. case_match eqn:H255; [done|].
  intros. exists n. split_and!; [done|lia|lia|done].
Qed.

(** A parsed address is the number its four octets spell. *)
Lemma parse_ipv4_value s v :
  parse_ipv4 s = Some v →
  ∃ o1 o2 o3 o4 a b c d, split_on "." s = [o1; o2; o3; o4] ∧
    (λ o, parse_uint u32_max o) <$> [o1; o2; o3; o4] = [Some a; Some b; Some c; Some d] ∧
    Forall (λ x, 0 ≤ x ≤ 255) [a; b; c; d] ∧
    v = 256 * (256 * (256 * a + b) + c) + d.
Proof.
  unfold parse_ipv4. case_match eqn:El; [done|].
  destruct (split_on "." s) as [|o1 [|o2 [|o3 [|o4 [|]]]]] eqn:Es; try done.
  intros (a&Ha&Ra&H1)%parse_octets_cons. apply parse_octets_cons in H1 as (b&Hb&Rb&H2).
  apply parse_octets_cons in H2 as (c&Hc&Rc&H3).
  apply parse_octets_cons in H3 as (d&Hd&Rd&[= <-]).
  exists o1, o2, o3, o4, a, b, c, d. split_and!; [done|simpl; congruence| |].
  - by repeat apply Forall_cons_2.
  - rewrite (shift_or_octet 0 a) by lia.
    rewrite (shift_or_octet _ b) by lia. rewrite (shift_or_octet _ c) by lia.
    rewrite (shift_or_octet _ d) by lia. lia.
Qed.

Lemma parse_ipv4_range s v : parse_ipv4 s = Some v → 0 ≤ v < 2 ^ 32.
Proof.
  intros (?&?&?&?&a&b&c&d&_&_&Hf&->)%parse_ipv4_value.
  repeat (apply Forall_cons in Hf as [? Hf]). lia.
Qed.

Lemma mask_prefix x b :
  0 ≤ x < 2 ^ 32 → 1 ≤ b ≤ 32 →
  Z.land x (wrap32 (Z.shiftl u32_max (32 - b))) = x / 2 ^ (32 - b) * 2 ^ (32 - b).
Proof.
  intros Hx Hb. set (k := 32 - b). rewrite <- Z.shiftr_div_pow2, <- Z.shiftl_mul_pow2 by lia.
  apply Z.bits_inj'. intros i Hi.
  rewrite Z.land_spec, Z.shiftl_spec by lia. unfold wrap32. rewrite Z.testbit_mod_pow2 by lia.
  rewrite Z.shiftl_spec by lia. change u32_max with (Z.ones 32).
  rewrite Z.testbit_ones by lia.
  destruct (Z.leb_spec 0 (i - k)); simpl.
  - rewrite Z.shiftr_spec by lia. replace (i - k + k) with i by lia.
    destruct (Z.ltb_spec i 32); simpl.
    + replace (i - k <? 32) with true by lia. by rewrite andb_true_r.
    + rewrite andb_false_r. symmetry. destruct (Z.eq_dec x 0) as [->|]; [apply Z.bits_0|].
      apply Z.bits_above_log2; [lia|]. apply Z.log2_lt_pow2; [lia|].
      assert (2 ^ 32 ≤ 2 ^ i) by (apply Z.pow_le_mono_r; lia). lia.
  - by rewrite !andb_false_r, Z.testbit_neg_r by lia.
Qed.

Lemma mask_eq x y b :
  0 ≤ x < 2 ^ 32 → 0 ≤ y < 2 ^ 32 → 1 ≤ b ≤ 32 →
  (Z.land x (wrap32 (Z.shiftl u32_max (32 - b))) =?
   Z.land y (wrap32 (Z.shiftl u32_max (32 - b)))) = (x / 2 ^ (32 - b) =? y / 2 ^ (32 - b)).
Proof.
  intros Hx Hy Hb. rewrite !mask_prefix by done.
  assert (0 < 2 ^ (32 - b)) by (apply Z.pow_pos_nonneg; lia).
  destruct (Z.eqb_spec (x / 2 ^ (32 - b)) (y / 2 ^ (32 - b))) as [->|Hne];
    [apply Z.eqb_refl|]. apply Z.eqb_neq. intros E. apply Z.mul_reg_r in E; lia.
Qed.

End KeyFacts.

Module KeyProps.
Import VirtualKey KeyFacts.

(** An address matches a CIDR block exactly when both parse and agree on
    their first [bits] bits, as the quotient by the size of the block; any
    malformed part, a prefix above 32 included, makes it fail closed. *)
Theorem cidr_is_prefix_match ip cidr :
  ip_in_cidr ip cidr = true ↔
  ∃ network bits b x n,
    split_once "/" cidr = Some (network, bits) ∧ parse_uint u8_max bits = Some b ∧ b ≤ 32 ∧
    parse_ipv4 ip = Some x ∧ parse_ipv4 network = Some n ∧
    x / 2 ^ (32 - b) = n / 2 ^ (32 - b).
Proof.
  unfold ip_in_cidr. destruct (split_once "/" cidr) as [[network bits]|]; [|naive_solver].
  destruct (parse_uint u8_max bits) as [b|] eqn:Eb; [|naive_solver].
  apply parse_uint_range in Eb as Hb; [|done].
  destruct (Z.leb_spec b 32); simpl; [|naive_solver lia].
  destruct (parse_ipv4 ip) as [x|] eqn:Ex; [|naive_solver].
  destruct (parse_ipv4 network) as [n|] eqn:En; [|naive_solver].
  pose proof (parse_ipv4_range _ _ Ex). pose proof (parse_ipv4_range _ _ En).
  destruct (Z.eqb_spec b 0) as [->|Hb0].
  - split; [|done]. intros _. exists network, bits, 0, x, n. split_and!; try done.
    change (2 ^ (32 - 0)) with (2 ^ 32). by rewrite !Z.div_small.
  - rewrite mask_eq by lia. rewrite Z.eqb_eq. split.
    + intros E. exists network, bits, b, x, n. by split_and!.
    + intros (?&?&?&?&?&[= <- <-]&Hb'&_&[= <-]&Hn&E). congruence.
Qed.

End KeyProps.

(** ** Reservations in flight *)

Lemma keys_set m s : VirtualKey.keys (VirtualKey.set_keys m s) = m.
Proof. done. Qed.

Module Ledger.
Import VirtualKey.

(** The store, the reservations not settled yet, what was settled, and by how much
    that was more than had been reserved. *)
Record world := mkWorld {
  w_store : VirtualKeyStore;
  outstanding : list (Uuid * Z);
  settled : list (Uuid * Z);
  overrun : list (Uuid * Z);
}.

(** On one local date: a request reserves, and later settles what it cost: nothing
    when it fails, and also more than it reserved; one whose reservation is of nothing is
    charged what it cost. *)
Inductive step (d : LocalDate) : world → world → Prop :=
  | reserve s out done_ more u est s' n :
      0 ≤ est → reserve_spend s u est d = (s', Reserved n) →
      step d (mkWorld s out done_ more) (mkWorld s' ((u, n) :: out) done_ more)
  | refuse s out done_ more u est s' r :
      0 ≤ est → reserve_spend s u est d = (s', r) → (r = NoBudget ∨ r = Exceeded) →
      step d (mkWorld s out done_ more) (mkWorld s' out done_ more)
  | settle s out1 out2 done_ more u n actual :
      0 ≤ actual →
      step d (mkWorld s (out1 ++ (u, n) :: out2) done_ more)
             (mkWorld (reconcile_spend s u n actual) (out1 ++ out2) ((u, actual) :: done_)
                ((u, Z.max 0 (actual - n)) :: more))
  | charge s out done_ more u actual :
      0 ≤ actual →
      step d (mkWorld s out done_ more)
             (mkWorld (accumulate_spend s u actual d) out ((u, actual) :: done_) ((u, actual) :: more)).


#[local] Arguments roll : simpl never.






















End Ledger.

Module LedgerProps.
Import VirtualKey Ledger.


Definition sample_key (limit : option Z) : VirtualKey :=
  mkKey 1%N "hash" "ms-vk-0000000000" "k" limit None true 0 default_spend None [] [] None None
    None None.
Definition sample_store (limit : option Z) : VirtualKeyStore :=
  set_keys {[1%N := sample_key limit]} (with_store_path "keys.json").
Definition day1 : LocalDate := mkDate "2026-01-01" "2026-01".
Definition day2 : LocalDate := mkDate "2026-01-02" "2026-01".


(** A settlement does not look at the date.  A request reserved on one day
    and refunded on the next gives its refund to the new day: spend of the new
    day is erased, and the key may then spend its limit over again. *)
Theorem refund_crosses_midnight :
  let s1 := (reserve_spend (sample_store (Some 100)) 1%N 80 day1).1 in
  let s2 := (reserve_spend s1 1%N 70 day2).1 in
  let s3 := reconcile_spend s2 1%N 80 0 in
  (reserve_spend s2 1%N 100 day2).2 = Exceeded ∧
  ((λ k, current_daily k day2) <$> keys s3 !! 1%N) = Some 0 ∧
  (reserve_spend s3 1%N 100 day2).2 = Reserved 100.
Proof. vm_compute. by split_and!. Qed.

End LedgerProps.

(** ** The store and its index *)

Module StoreFacts.
Import VirtualKey.

(** The index holds prefixes of keys, and all but those that have clashed. *)
Record index_ok (clashed : string → Prop) (s : VirtualKeyStore) : Prop := {
  ids : ∀ i k, keys s !! i = Some k → id k = i;
  indexed : ∀ i k, keys s !! i = Some k → ¬ clashed (key_prefix k) → prefix_index s !! key_prefix k = Some i;
  sound : ∀ p i, prefix_index s !! p = Some i → ∃ k, keys s !! i = Some k ∧ key_prefix k = p;
}.

(** An operation on one key that keeps its id and prefix keeps the index. *)
Lemma index_ok_change C s m :
  index_ok C s →
  (∀ j, m !! j = keys s !! j ∨
     ∃ k k', keys s !! j = Some k ∧ m !! j = Some k' ∧ id k' = id k ∧
       key_prefix k' = key_prefix k) →
  index_ok C (set_keys m s).
Proof.
  intros [H1 H2 H3] Hm. split.
  - intros j k' Hj. rewrite keys_set in Hj. destruct (Hm j) as [E|(k&k2&E1&E2&E3&E4)]; [rewrite E in Hj; auto|].
    rewrite E2 in Hj. simplify_eq. rewrite E3. auto.
  - intros j k' Hj. rewrite keys_set in Hj.
    destruct (Hm j) as [E|(k&k2&E1&E2&E3&E4)]; [rewrite E in Hj; by apply H2|].
    rewrite E2 in Hj. simplify_eq. rewrite E4. by apply (H2 j).
  - intros p j Hj. rewrite keys_set. destruct (H3 p j Hj) as (k&Hk&Hp).
    destruct (Hm j) as [E|(k1&k2&E1&E2&E3&E4)]; [exists k; by rewrite E|].
    exists k2. split; [done|]. rewrite E1 in Hk. by simplify_eq.
Qed.

Lemma change_insert C s i k k' :
  keys s !! i = Some k → id k' = id k → key_prefix k' = key_prefix k →
  index_ok C s → index_ok C (set_keys (<[i := k']> (keys s)) s).
Proof.
  intros Hk Hid Hp Hok. apply index_ok_change; [done|]. intros j.
  destruct (decide (i = j)) as [<-|]; [|left; by rewrite lookup_insert_ne].
  right. exists k, k'. by rewrite lookup_insert_eq.
Qed.

Lemma change_alter C s i f :
  (∀ k, id (f k) = id k ∧ key_prefix (f k) = key_prefix k) →
  index_ok C s → index_ok C (alter_key f i s).
Proof.
  intros Hf Hok. apply index_ok_change; [done|]. intros j.
  destruct (decide (i = j)) as [<-|]; [|left; by rewrite lookup_alter_ne].
  rewrite lookup_alter_eq. destruct (keys s !! i) as [k|] eqn:E; [right|by left].
  exists k, (f k). split_and!; try done; apply Hf.
Qed.

Lemma reserve_key_identity d est k :
  id (reserve_key d est k).1 = id k ∧ key_prefix (reserve_key d est k).1 = key_prefix k.
Proof. unfold reserve_key. by repeat case_match. Qed.

Lemma rebuild_sound values p i :
  foldl (λ m vk, <[key_prefix vk := id vk]> m) (∅ : gmap string Uuid) values !! p = Some i →
  ∃ k, k ∈ values ∧ key_prefix k = p ∧ id k = i.
Proof.
  induction values as [|v values IH] using rev_ind; [done|]. rewrite foldl_app. simpl.
  destruct (decide (key_prefix v = p)) as [<-|Hne].
  - rewrite lookup_insert_eq. intros [= <-]. exists v. set_solver.
  - rewrite lookup_insert_ne by done. intros (k&?&?&?)%IH. exists k. set_solver.
Qed.
Lemma rebuild_complete values k :
  k ∈ values → (∀ k', k' ∈ values → key_prefix k' = key_prefix k → id k' = id k) →
  foldl (λ m vk, <[key_prefix vk := id vk]> m) (∅ : gmap string Uuid) values !! key_prefix k = Some (id k).
Proof.
  induction values as [|v values IH] using rev_ind; intros Hk Hd; [by apply not_elem_of_nil in Hk|].
  rewrite foldl_app. simpl. destruct (decide (key_prefix v = key_prefix k)) as [E|Hne].
  - rewrite E, lookup_insert_eq. f_equal. apply Hd; [set_solver|done].
  - rewrite lookup_insert_ne by done. apply IH; [set_solver|]. intros; apply Hd; set_solver.
Qed.

Section hashing.
Context (sha256 : string → list Z) (simple : Uuid → string).

(** What the store goes through, with the prefixes that have clashed: those that a new
    key shared with one that was stored, and that two keys of a load shared.  New keys
    get fresh identifiers, and a file holds keys under their own. *)
Definition clash (C : string → Prop) (D : string → Prop) (p : string) : Prop := C p ∨ D p.
Definition taken (m : gmap Uuid VirtualKey) (p : string) : Prop := ∃ i k, m !! i = Some k ∧ key_prefix k = p.
Definition shared (m : gmap Uuid VirtualKey) (p : string) : Prop :=
  ∃ i j k k', i ≠ j ∧ m !! i = Some k ∧ m !! j = Some k' ∧ key_prefix k = p ∧ key_prefix k' = p.
Inductive step : VirtualKeyStore * (string → Prop) → VirtualKeyStore * (string → Prop) → Prop :=
  | s_create s C n secret new_id now s' vk plaintext :
      create sha256 simple s n secret new_id now = Done (s', vk, plaintext) →
      keys s !! new_id = None →
      step (s, C) (s', clash C (λ p, p = key_prefix vk ∧ taken (keys s) p))
  | s_delete s C i : step (s, C) ((delete_key s i).1, C)
  | s_update s C i u : step (s, C) ((update s i u).1, C)
  | s_reserve s C i est d : step (s, C) ((reserve_spend s i est d).1, C)
  | s_reconcile s C i r a : step (s, C) (reconcile_spend s i r a, C)
  | s_accumulate s C i c d : step (s, C) (accumulate_spend s i c d, C)
  | s_load s C loaded values :
      let m := keys s ∪ loaded in
      (∀ i k, loaded !! i = Some k → id k = i) →
      values ≡ₚ map_values m →
      step (s, C) (rebuild_index values (set_keys m s), clash C (shared m)).

Definition reachable (path : string) : VirtualKeyStore * (string → Prop) → Prop :=
  rtc step (with_store_path path, λ _, False).

Lemma load_index C s loaded values :
  let m := keys s ∪ loaded in
  (∀ i k, loaded !! i = Some k → id k = i) → values ≡ₚ map_values m →
  index_ok C s → index_ok (clash C (shared m)) (rebuild_index values (set_keys m s)).
Proof.
  intros m Hl Hv [H1 _ _].
  assert (∀ i k, m !! i = Some k → id k = i) as Hids.
  { intros i k [Hk|[_ Hk]]%lookup_union_Some_raw; [by apply H1|by apply Hl]. }
  assert (∀ k, k ∈ values ↔ m !! id k = Some k) as Hval.
  { intros k. rewrite Hv. unfold map_values. rewrite list_elem_of_fmap. split.
    - intros ([i k']&->&Hin%elem_of_map_to_list). simpl. by rewrite (Hids i k').
    - intros Hk. exists (id k, k). by rewrite elem_of_map_to_list. }
  split; unfold rebuild_index, keys; simpl.
  - exact Hids.
  - intros i k Hk Hc. rewrite <- (Hids i k Hk) at 1. apply rebuild_complete.
    + apply Hval. by rewrite (Hids i k Hk).
    + intros k' Hk'%Hval Hp. destruct (decide (id k' = id k)) as [|Hne]; [done|]. exfalso. apply Hc. right.
      exists (id k'), i, k', k. rewrite (Hids i k Hk) in Hne. by split_and!.
  - intros p i Hpi. apply rebuild_sound in Hpi as (k&Hk%Hval&Hp&<-). eauto.
Qed.

Lemma step_index w w' : step w w' → index_ok w.2 w.1 → index_ok w'.2 w'.1.
Proof using sha256 simple.
  intros Hstep Hok. pose proof Hok as [H1 H2 H3].
  destruct Hstep as [s C n secret new_id now s' vk pt Hc Hid|s C i|s C i u|s C i est d|s C i r a
                    |s C i c d|s C loaded values m Hl Hv]; cbn [fst snd] in *.
  - unfold create in Hc. destruct (get_16 _) as [prefix|]; [|done]. simplify_eq. simpl.
    split; unfold keys in *; simpl in *.
    + intros j k. destruct (decide (new_id = j)) as [<-|]; [|rewrite lookup_insert_ne; auto].
      rewrite lookup_insert_eq. by intros [= <-].
    + intros j k. destruct (decide (new_id = j)) as [<-|].
      * rewrite lookup_insert_eq. intros [= <-] _. simpl. by rewrite lookup_insert_eq.
      * rewrite lookup_insert_ne by done. intros Hj Hcl. unfold clash in Hcl.
        rewrite lookup_insert_ne; [apply H2; naive_solver|]. intros Hx. apply Hcl. right. split; [by rewrite Hx|]. by exists j, k.
    + intros p j. destruct (decide (prefix = p)) as [<-|].
      * rewrite lookup_insert_eq. intros [= <-]. eexists. by rewrite lookup_insert_eq.
      * rewrite lookup_insert_ne by done. intros (k&Hk&?)%H3. exists k.
        rewrite lookup_insert_ne; [done|congruence].
  - unfold delete_key. destruct (keys s !! i) as [k|] eqn:E; simpl; [|done].
    split; unfold keys in *; simpl in *.
    + intros j k' [_ Hj]%lookup_delete_Some. auto.
    + intros j k' [Hne Hj]%lookup_delete_Some Hc. rewrite lookup_delete_ne; [auto|].
      intros Hpp. pose proof (H2 _ _ Hj Hc) as Hx. rewrite <- Hpp in Hx, Hc. pose proof (H2 _ _ E Hc). congruence.
    + intros p j [Hne Hj]%lookup_delete_Some. apply H3 in Hj as (k'&Hk'&Hp').
      exists k'. rewrite lookup_delete_ne; [done|]. intros <-. congruence.
  - unfold update. destruct (keys s !! i) as [k|] eqn:E; simpl; [|done].
    by apply (change_insert _ s i k).
  - unfold reserve_spend. destruct (keys s !! i) as [k|] eqn:E; simpl; [|done].
    pose proof (reserve_key_identity d est k) as [? ?].
    destruct (reserve_key d est k) as [k' r]. by apply (change_insert _ s i k).
  - unfold reconcile_spend. case_match; [done|]. apply change_alter; [|done].
    intros k. unfold reconcile_key. by case_match.
  - by apply change_alter.
  - by apply load_index.
Qed.

Lemma reachable_index path w : reachable path w → index_ok w.2 w.1.
Proof using sha256 simple.
  unfold reachable. intros H. remember (with_store_path path, λ _ : string, False) as s0 eqn:E.
  assert (index_ok s0.2 s0.1) as Hok.
  { subst. split; unfold keys; simpl; intros *; by rewrite lookup_empty. }
  clear E. induction H as [|s0 s1 s2 Hstep _ IH]; [done|].
  apply IH. by eapply step_index.
Qed.
End hashing.

End StoreFacts.

Module StoreProps.
Import VirtualKey StoreFacts.

(** C13. In every reachable store a plaintext is accepted only for a stored key that
    has its hash and its prefix and is enabled, not expired and within its budgets;
    and such a key is accepted, unless its prefix has clashed with that of another
    key: then the index may have lost it. *)
Theorem validate_reachable sha256 simple path s clashed plaintext d now vk :
  reachable sha256 simple path (s, clashed) →
  let valid := (∃ i, keys s !! i = Some vk) ∧ key_hash vk = sha256_hex sha256 plaintext ∧
    key_prefix vk = prefix_of_key plaintext ∧
    enabled vk = true ∧ is_expired vk now = false ∧ is_budget_exceeded vk d = false in
  (validate sha256 s plaintext d now = Some vk → valid) ∧
  (valid → ¬ clashed (prefix_of_key plaintext) → validate sha256 s plaintext d now = Some vk).
Proof.
  intros [H1 H2 H3]%reachable_index. cbn [fst snd] in *. cbn zeta. unfold validate, matching_key. split.
  - destruct (prefix_index s !! _) as [i|] eqn:Ei; [|done].
    destruct (keys s !! i) as [k|] eqn:Ek; [|done].
    destruct (String.eqb _ _) eqn:Eh; [|done].
    apply String.eqb_eq in Eh. destruct (enabled k) eqn:Een; [|done]. simpl.
    destruct (is_expired k now) eqn:Eex; [done|].
    destruct (is_budget_exceeded k d) eqn:Eb; [done|]. intros [= <-].
    destruct (H3 _ _ Ei) as (k'&Hk'&Hp'). rewrite Ek in Hk'. simplify_eq. by split_and!; eauto.
  - intros ((i&Hi)&Hh&Hp&He&Hx&Hb) Hc. rewrite <- Hp in Hc. pose proof (H2 _ _ Hi Hc) as Hidx. rewrite Hp in Hidx.
    rewrite Hidx, Hi, Hh, String.eqb_refl, He. simpl. by rewrite Hx, Hb.
Qed.

Definition no_budget (limit : option Z) : bool :=
  match limit with Some l => l <=? 0 | None => false end.

(** Creating a key hands out its only plaintext: the new key validates with
    it (unless it is born expired or with a zero budget), what is stored is the
    hash and the first 16 characters, and every plaintext with another prefix
    authenticates as before. *)
Theorem created_key_validates sha256 simple s n secret new_id now0 s' vk plaintext d now :
  create sha256 simple s n secret new_id now0 = Done (s', vk, plaintext) →
  index_ok (λ _, True) s → keys s !! new_id = None → d_today d ≠ "" → d_month d ≠ "" →
  validate sha256 s' plaintext d now =
    (if is_expired vk now || no_budget (n_daily_budget_cents n) ||
        no_budget (n_monthly_budget_cents n)
     then None else Some vk) ∧
  key_hash vk = sha256_hex sha256 plaintext ∧ key_prefix vk = prefix_of_key plaintext ∧
  ∀ other, prefix_of_key other ≠ prefix_of_key plaintext →
    matching_key sha256 s' other = matching_key sha256 s other.
Proof.
  intros Hc [H1 H2 H3] Hid Ht Hm. unfold create in Hc.
  destruct (get_16 _) as [prefix|] eqn:Eg; [|done].
  simplify_eq. set (pt := "ms-vk-" +:+ simple secret) in *.
  assert (prefix_of_key pt = prefix) as Epre by (unfold prefix_of_key; by rewrite Eg).
  split_and!; [|done|by rewrite Epre|].
  - unfold validate, matching_key, keys. simpl. rewrite Epre, !lookup_insert_eq. simpl.
    rewrite String.eqb_refl. simpl.
    set (vk := mkKey new_id _ _ _ _ _ _ _ _ _ _ _ _ _ _ _).
    assert (is_budget_exceeded vk d = no_budget (n_daily_budget_cents n) ||
              no_budget (n_monthly_budget_cents n)) as ->.
    { unfold is_budget_exceeded, current_daily, current_monthly. simpl.
      by destruct d as [[|c t] [|c' t']]. }
    by destruct (is_expired vk now).
  - intros other Hne. unfold matching_key, keys. simpl.
    rewrite lookup_insert_ne by congruence.
    destruct (prefix_index s !! prefix_of_key other) as [i|] eqn:Ei; [|done].
    rewrite lookup_insert_ne; [done|]. intros <-. destruct (H3 _ _ Ei) as (k&Hk&_).
    unfold keys in *. congruence.
Qed.

(** A hash and a printer for the witnesses: the digest of a string is its
    bytes, an identifier prints as 32 copies of its last digit. *)
Definition sample_sha256 (s : string) : list Z :=
  Z.of_N ∘ N_of_ascii <$> String.list_ascii_of_string s.
Definition sample_simple (u : Uuid) : string :=
  String.string_of_list_ascii
    (replicate 32 (Affinity.hex_digit (Z.of_N u mod 16))).
Definition sample_new : NewKey :=
  mkNewKey "team" (Some 500) None None [] [] None None None None.

Lemma created_key_validates_witness :
  ∃ s' vk plaintext,
    create sample_sha256 sample_simple (with_store_path "f") sample_new 7%N 1%N 0
      = Done (s', vk, plaintext) ∧
    validate sample_sha256 s' plaintext (mkDate "2026-01-01" "2026-01") 5 = Some vk.
Proof.
  destruct (create sample_sha256 sample_simple (with_store_path "f") sample_new 7%N 1%N 0)
    as [[[s' vk] plaintext]|] eqn:E; [|vm_compute in E; discriminate].
  exists s', vk, plaintext. split; [reflexivity|].
  destruct (created_key_validates sample_sha256 sample_simple (with_store_path "f") sample_new
    7%N 1%N 0 s' vk plaintext (mkDate "2026-01-01" "2026-01") 5 E) as [H _].
  - split; unfold keys; cbn; intros ? ?; by rewrite lookup_empty.
  - reflexivity.
  - discriminate.
  - discriminate.
  - rewrite H. assert (is_expired vk 5 = false) as ->; [|reflexivity].
    vm_compute in E. injection E as _ <- _. reflexivity.
Defined.

(** The first key of a store is accepted. *)
Lemma validate_reachable_witness :
  ∃ s C vk plaintext, reachable sample_sha256 sample_simple "f" (s, C) ∧ ¬ C (prefix_of_key plaintext) ∧
    validate sample_sha256 s plaintext (mkDate "2026-01-01" "2026-01") 5 = Some vk.
Proof.
  destruct (create sample_sha256 sample_simple (with_store_path "f") sample_new 7%N 1%N 0)
    as [[[s' vk] plaintext]|] eqn:E; [|vm_compute in E; discriminate].
  assert (Hr : reachable sample_sha256 sample_simple "f"
                 (s', clash (λ _, False) (λ p, p = key_prefix vk ∧ taken (keys (with_store_path "f")) p))).
  { eapply rtc_l; [|apply rtc_refl]. eapply (s_create _ _ _ _ _ _ _ _ _ _ _ E). reflexivity. }
  assert (∀ p, ¬ clash (λ _, False) (λ p, p = key_prefix vk ∧ taken (keys (with_store_path "f")) p) p) as Hc.
  { intros p [[]|(_&i&k&Hk&_)]. cbn in Hk. by rewrite lookup_empty in Hk. }
  eexists s', _, vk, plaintext. split; [exact Hr|]. split; [apply Hc|].
  apply (validate_reachable sample_sha256 sample_simple "f" _ _ _ _ _ _ Hr); [|apply Hc].
  vm_compute in E. injection E as <- <- <-. split_and!; try reflexivity. by exists 1%N.
Defined.

(** Two keys with the same 16-character prefix: deleting the second locks the
    first one out, although it is still stored and enabled. *)
Example colliding_prefix_locks_out :
  let s0 := with_store_path "f" in
  match create sample_sha256 sample_simple s0 sample_new 7%N 1%N 0 with
  | Done (s1, vk1, pt1) =>
      match create sample_sha256 sample_simple s1 sample_new 23%N 2%N 0 with
      | Done (s2, vk2, _) =>
          let s3 := (delete_key s2 2%N).1 in
          get s3 1%N = Some vk1 ∧ validate_any sample_sha256 s3 pt1 = None
      | Panic => False
      end
  | Panic => False
  end.
Proof. vm_compute. by split. Qed.

End StoreProps.
