(* ===== verification/Ndjson.v ===== *)
(** Append-only files of JSON lines with numbered backups, as the dispatch log
    (log.rs) and the audit log (admin/audit.rs) keep them. *)

From S2P Require Import Prelude.

Module Ndjson.

(** The active file is number 0, its backups are 1, 2, ... *)
Abbreviation Files := (gmap nat string) (only parsing).

(** [fs::rename] replaces the target; its failure when there is no source is
    ignored by both callers. *)
Definition rename (src dst : nat) (fs : Files) : Files :=
  match fs !! src with Some c => <[dst := c]> (delete src fs) | None => fs end.

Definition newline : ascii := "010"%char.
Definition append (line : string) (fs : Files) : Files :=
  <[0%nat := default "" (fs !! 0%nat) +:+ line +:+ String newline EmptyString]> fs.
(** A write that stops after [n] bytes of the line and its end. *)
Definition append_part (n : nat) (line : string) (fs : Files) : Files :=
  match n with
  | O => fs
  | _ => <[0%nat := default "" (fs !! 0%nat)
                    +:+ String.substring 0 n (line +:+ String newline EmptyString)]> fs
  end.

Section entries.
Context {E : Type} (parse : string → option E).

(** The lines that parse; blank and malformed ones are skipped. *)
Definition parse_line (line : string) : option E :=
  let trimmed := trim line in if String.eqb trimmed "" then None else parse trimmed.
Definition parse_lines (content : string) : list E := omap parse_line (split_on newline content).

(** The entries of the files [numbers], of those that exist. *)
Definition read_files (numbers : list nat) (fs : Files) : list E :=
  numbers ≫= λ i, match fs !! i with Some content => parse_lines content | None => [] end.
End entries.
End Ndjson.

Module NdjsonFacts.
Import Ndjson.

(** A text without the separator. *)
Fixpoint one_line (s : string) : Prop :=
  match s with EmptyString => True | String c s' => c ≠ newline ∧ one_line s' end.
Lemma split_one s : one_line s → split_on newline s = [s].
Proof.
  induction s as [|c s IH]; cbn; [done|]. intros [Hc Hs]. rewrite IH by done.
  by destruct (ascii_dec c newline).
Qed.

(** A file of whole lines. *)
Definition whole (content : string) : Prop := content = "" ∨ ∃ c, content = c +:+ String newline "".

Section entries.
Context {E : Type} (parse : string → option E).

Lemma parse_whole a b :
  parse_lines parse (a +:+ String newline b) = parse_lines parse a ++ parse_lines parse b.
Proof. unfold parse_lines. by rewrite split_on_app, omap_app. Qed.

Lemma parse_append content line :
  whole content → one_line line →
  parse_lines parse (content +:+ line +:+ String newline "") =
  parse_lines parse content ++ option_list (parse_line parse line).
Proof.
  assert (parse_lines parse "" = []) as Hnil by done.
  assert (∀ l, one_line l → parse_lines parse (l +:+ String newline "") = option_list (parse_line parse l))
    as Hline.
  { intros l Hl. rewrite parse_whole, Hnil, app_nil_r. unfold parse_lines. rewrite split_one by done.
    cbn. by destruct (parse_line parse l). }
  intros [->|[c ->]] Hl.
  - change ("" +:+ line +:+ String newline "") with (line +:+ String newline ""). by apply Hline.
  - replace ((c +:+ String newline "") +:+ line +:+ String newline "")
      with (c +:+ String newline (line +:+ String newline "")).
    + by rewrite (parse_whole c (line +:+ _)), (parse_whole c ""), Hnil, app_nil_r, Hline.
    + induction c as [|x c IH]; [done|]. exact (f_equal (String x) IH).
Qed.

Lemma append_whole line fs : ∃ content, append line fs !! 0%nat = Some content ∧ whole content.
Proof.
  unfold append. rewrite lookup_insert_eq. eexists. split; [done|]. right.
  exists (default "" (fs !! 0%nat) +:+ line). generalize (default "" (fs !! 0%nat)). intros s.
  induction s as [|x s IH]; [done|]. exact (f_equal (String x) IH).
Qed.

(** A line appended is read back after all others. *)
Lemma read_append numbers line fs e :
  whole (default "" (fs !! 0%nat)) → one_line line → parse_line parse line = Some e →
  0%nat ∉ numbers →
  read_files parse (numbers ++ [0%nat]) (append line fs) =
  read_files parse (numbers ++ [0%nat]) fs ++ [e].
Proof.
  intros Hw Hl He Hn. unfold read_files. rewrite !bind_app. cbn. unfold append at 2.
  rewrite lookup_insert_eq, !app_nil_r, parse_append, He by done. cbn.
  assert ((numbers ≫= λ i, match append line fs !! i with Some c => parse_lines parse c | None => [] end) =
          (numbers ≫= λ i, match fs !! i with Some c => parse_lines parse c | None => [] end)) as ->.
  { induction numbers as [|i numbers IH]; [done|]. apply not_elem_of_cons in Hn as [Hi Hn].
    rewrite !bind_cons, IH by done. unfold append. by rewrite lookup_insert_ne. }
  rewrite <- app_assoc. f_equal. by destruct (fs !! 0%nat).
Qed.

Lemma read_others numbers fs fs' :
  (∀ i, i ∈ numbers → fs' !! i = (fs : gmap nat string) !! i) →
  read_files parse numbers fs' = read_files parse numbers fs.
Proof.
  intros H. unfold read_files. induction numbers as [|i numbers IH]; [done|].
  rewrite !bind_cons, IH by (intros; apply H; set_solver). by rewrite H by set_solver.
Qed.
Lemma read_app a b fs : read_files parse (a ++ b) fs = read_files parse a fs ++ read_files parse b fs.
Proof. apply bind_app. Qed.

Lemma rename_gone i j fs : i ≠ j → rename i j fs !! i = None.
Proof.
  intros Hne. unfold rename. destruct (fs !! i) eqn:Hi; [|done].
  by rewrite lookup_insert_ne, lookup_delete_eq.
Qed.

(** Moving a file to the place before it in the order of reading loses what was
    there and nothing else. *)
Lemma read_rename a b i j fs :
  i ≠ j → i ∉ a → j ∉ a → i ∉ b → j ∉ b →
  read_files parse (a ++ [j; i] ++ b) (rename i j fs) =
  read_files parse a fs ++
  (if bool_decide (is_Some (fs !! i)) then [] else read_files parse [j] fs) ++
  read_files parse (i :: b) fs.
Proof.
  intros Hne Ha1 Ha2 Hb1 Hb2. rewrite !read_app.
  assert (∀ k, k ≠ i → k ≠ j → rename i j fs !! k = fs !! k) as Hoth.
  { intros k H1 H2. unfold rename. destruct (fs !! i); [|done]. by rewrite lookup_insert_ne, lookup_delete_ne. }
  rewrite (read_others a fs) by (intros k Hk; apply Hoth; intros ->; done).
  rewrite (read_others b fs) by (intros k Hk; apply Hoth; intros ->; done).
  f_equal. change (i :: b) with ([i] ++ b). rewrite read_app, app_assoc. f_equal.
  change [j; i] with ([j] ++ [i]). rewrite read_app. unfold read_files, rename at 1 2. cbn.
  destruct (fs !! i) as [c|] eqn:Hi.
  - rewrite bool_decide_eq_true_2 by by eexists.
    rewrite lookup_insert_eq, (lookup_insert_ne _ _ i), lookup_delete_eq by done. by rewrite !app_nil_r.
  - rewrite bool_decide_eq_false_2 by (by intros []). by rewrite Hi, !app_nil_r.
Qed.
End entries.
End NdjsonFacts.
