(* ===== verification/Migration.v ===== *)
(** The migration of data files at start-up (migration.rs): documents and files
    of lines brought to the current schema version, with a backup, before the
    stores of [PersistedStore] load them. *)

From S2P Require Import Prelude Json Ndjson PersistedStore.

Module Migration.
Import Json Ndjson.Ndjson.

Definition CURRENT_SCHEMA_VERSION : Z := 1.

Inductive MigrationError := Read (path : string) | Parse (path : string) | Write (path : string) | Backup (path : string).

(** *** Versions *)

Definition get_schema_version (data : value) : Z :=
  default 0 ((λ n, n mod 2 ^ 32) <$> (get data "schema_version" ≫= as_u64)).
Definition set_schema_version (data : value) (version : Z) : value :=
  match data with
  | Object o => Object (<["schema_version" := num version]> o)
  | _ => data
  end.

(** *** From version 0 to 1 *)

Definition looks_like_uuid (s : string) : bool := contains s "-" && (32 <=? String.length s)%nat.
Definition REQUIRED_FIELDS : list string := ["rpm_limit"; "tpm_limit"; "expires_at"; "group"].
(** [if !entry.contains_key(field) { entry.insert(field, null) }] *)
Definition ensure (entry : gmap string value) (field : string) : gmap string value :=
  match entry !! field with Some _ => entry | None => <[field := Null]> entry end.
Definition with_fields (v : value) : value :=
  match v with
  | Object entry => Object (foldl ensure entry REQUIRED_FIELDS)
  | _ => v
  end.
Definition migrate_v0_to_v1_store (o : gmap string value) : gmap string value :=
  map_imap (λ k v, Some (if String.eqb k "schema_version" then v else with_fields v)) o.
Definition migrate_v0_to_v1_entry (o : gmap string value) : gmap string value := ensure o "prev_hash".
(** The keys of a document of [serde_json] come in order. *)
Definition keys_in_order (o : gmap string value) : list string :=
  stable_sort String.leb (map_to_list o).*1.
Definition is_store_file (o : gmap string value) : bool :=
  (1 <? size o)%nat &&
  forallb looks_like_uuid (take 2 (List.filter (λ k, negb (String.eqb k "schema_version")) (keys_in_order o))).
Definition migrate_v0_to_v1 (data : value) : value :=
  match data with
  | Object o => Object (if is_store_file o then migrate_v0_to_v1_store o else migrate_v0_to_v1_entry o)
  | _ => data
  end.

(** [while version < CURRENT_SCHEMA_VERSION], which has [fuel] rounds to go. *)
Fixpoint run_migrations (fuel : nat) (version : Z) (data : value) : value :=
  match fuel with
  | O => data
  | S fuel =>
      if version <? CURRENT_SCHEMA_VERSION then
        if version =? 0 then run_migrations fuel (version + 1) (migrate_v0_to_v1 data) else data
      else data
  end.
Definition upgraded (data : value) : value :=
  let version := get_schema_version data in
  set_schema_version (run_migrations (Z.to_nat (CURRENT_SCHEMA_VERSION - version)) version data)
    CURRENT_SCHEMA_VERSION.

(** *** Files *)

Section files.
(** [serde_json]: reading, and the compact and the indented printing. *)
Context (parse : string → option value) (to_string to_string_pretty : value → string).

(** [str::lines]: the ends are [\n] or [\r\n], and the last one may be missing. *)
Fixpoint strip_cr (s : string) : string :=
  match s with
  | EmptyString => ""
  | String c EmptyString => if ascii_dec c "013" then "" else s
  | String c s' => String c (strip_cr s')
  end.
Fixpoint ended (parts : list string) : list string :=
  match parts with
  | [] | [EmptyString] => []
  | [last] => [last]
  | line :: rest => strip_cr line :: ended rest
  end.
Definition lines (content : string) : list string := ended (split_on newline content).

(** A line, and whether it was changed. *)
Definition migrate_line (line : string) : string * bool :=
  let trimmed := trim line in
  if String.eqb trimmed "" then ("", false)
  else match parse trimmed with
  | None => (line, false)
  | Some entry =>
      if get_schema_version entry <? CURRENT_SCHEMA_VERSION
      then (to_string (upgraded entry), true) else (to_string entry, false)
  end.
Definition migrated_content (content : string) : option string :=
  let migrated := migrate_line <$> lines content in
  if existsb snd migrated then Some (String.concat (String newline "") migrated.*1 +:+ String newline "") else None.

(** Which system calls succeed; a copy or a write that fails may leave a part. *)
Record Calls := mkCalls {
  read_ok : bool;
  copy_ok : bool;
  copied : option string;
  write_ok : bool;
  written : option string;
}.

Definition broken (path : string) (part : option string) (fs : Persisted.Fs) : Persisted.Fs :=
  match part with Some text => <[path := text]> fs | None => fs end.

(** Copying to the backup and writing the new contents. *)
Definition replace_file (c : Calls) (path content : string) (fs : Persisted.Fs) (old : string)
    : Persisted.Fs * option MigrationError :=
  let backup_path := path +:+ ".bak" in
  if copy_ok c then
    let fs := <[backup_path := old]> fs in
    if write_ok c then (<[path := content]> fs, None)
    else (broken path (written c) fs, Some (Write path))
  else (broken backup_path (copied c) fs, Some (Backup backup_path)).

Definition migrate_json_file (c : Calls) (path content : string) (fs : Persisted.Fs)
    : Persisted.Fs * option MigrationError :=
  match parse content with
  | None => (fs, Some (Parse path))
  | Some data =>
      if CURRENT_SCHEMA_VERSION <=? get_schema_version data then (fs, None)
      else replace_file c path (to_string_pretty (upgraded data)) fs content
  end.
Definition migrate_ndjson_file (c : Calls) (path content : string) (fs : Persisted.Fs)
    : Persisted.Fs * option MigrationError :=
  match migrated_content content with
  | None => (fs, None)
  | Some new_content => replace_file c path new_content fs content
  end.

(** [Path::extension], compared. *)
Definition is_ndjson (path : string) : bool :=
  let name := List.last (split_on "/" path) "" in
  match rev (split_on "." name) with
  | ext :: stem => String.eqb ext "ndjson" && negb (String.eqb (String.concat "." (rev stem)) "")
  | [] => false
  end.

Definition migrate_data_file (c : Calls) (path : string) (fs : Persisted.Fs) : Persisted.Fs * option MigrationError :=
  match fs !! path with
  | None => (fs, None)
  | Some content =>
      if negb (read_ok c) then (fs, Some (Read path))
      else if is_ndjson path then migrate_ndjson_file c path content fs
      else migrate_json_file c path content fs
  end.
End files.
End Migration.

Module MigrationFacts.
Import Json Ndjson.Ndjson NdjsonFacts Migration.

(** *** What a document keeps *)

(** The same value, or an object with all its fields and more. *)
Definition extends (v v' : value) : Prop :=
  match v, v' with Object e, Object e' => e ⊆ e' | _, _ => v' = v end.

Lemma extends_refl v : extends v v.
Proof. destruct v; cbn; reflexivity. Qed.
Lemma ensure_keeps e f : e ⊆ ensure e f.
Proof. unfold ensure. destruct (e !! f) eqn:E; [done|]. by apply insert_subseteq. Qed.
Lemma ensure_all e fs : e ⊆ foldl ensure e fs.
Proof. revert e. induction fs as [|f fs IH]; intros e; [done|]. cbn. etrans; [apply ensure_keeps|apply IH]. Qed.
Lemma ensure_has e fs f : is_Some (foldl ensure e fs !! f) ↔ is_Some (e !! f) ∨ f ∈ fs.
Proof.
  revert e. induction fs as [|g fs IH]; intros e; cbn; [rewrite elem_of_nil; naive_solver|].
  rewrite IH, elem_of_cons. unfold ensure. destruct (e !! g) eqn:E.
  - split; [naive_solver|]. intros [?|[->|?]]; eauto.
  - destruct (decide (f = g)) as [->|Hne]; [rewrite lookup_insert_eq|rewrite lookup_insert_ne by done]; naive_solver.
Qed.
Lemma with_fields_extends v : extends v (with_fields v).
Proof. destruct v; cbn; try done. apply (ensure_all m REQUIRED_FIELDS). Qed.

Lemma upgraded_object o :
  get_schema_version (Object o) < CURRENT_SCHEMA_VERSION →
  upgraded (Object o) = Object (<["schema_version" := num CURRENT_SCHEMA_VERSION]>
    (if is_store_file o then migrate_v0_to_v1_store o else migrate_v0_to_v1_entry o)).
Proof.
  intros Hv. unfold upgraded. assert (0 ≤ get_schema_version (Object o)) as Hp.
  { unfold get_schema_version. destruct (_ ≫= _); cbn; [by apply Z.mod_pos_bound|done]. }
  unfold CURRENT_SCHEMA_VERSION in *. assert (get_schema_version (Object o) = 0) as -> by lia. done.
Qed.
Lemma run_object fuel version o : ∃ o', run_migrations fuel version (Object o) = Object o'.
Proof.
  revert version o. induction fuel as [|fuel IH]; intros version o; cbn; [by eexists|].
  destruct (_ <? _); [|by eexists]. destruct (_ =? _); [apply IH|by eexists].
Qed.
Lemma upgraded_version o : get_schema_version (upgraded (Object o)) = CURRENT_SCHEMA_VERSION.
Proof.
  unfold upgraded. destruct (run_object (Z.to_nat (CURRENT_SCHEMA_VERSION - get_schema_version (Object o)))
    (get_schema_version (Object o)) o) as [o' ->].
  unfold get_schema_version. cbn [set_schema_version get]. by rewrite lookup_insert_eq.
Qed.

(** *** Lines *)

Lemma trim_end_space s c : is_space c = true → trim_end (s +:+ String c "") = trim_end s.
Proof.
  intros Hc. induction s as [|a s IH].
  - change ("" +:+ String c "") with (String c ""). cbn. by rewrite Hc.
  - change (String a s +:+ String c "") with (String a (s +:+ String c "")). cbn. by rewrite IH.
Qed.
Lemma trim_space s c : is_space c = true → trim (s +:+ String c "") = trim s.
Proof.
  intros Hc. unfold trim. induction s as [|a s IH].
  - change ("" +:+ String c "") with (String c ""). cbn. by rewrite Hc.
  - change (String a s +:+ String c "") with (String a (s +:+ String c "")). cbn [trim_start].
    destruct (is_space a); [done|].
    change (String a (s +:+ String c "")) with (String a s +:+ String c ""). by apply trim_end_space.
Qed.
Lemma strip_cr_spec s : strip_cr s = s ∨ s = strip_cr s +:+ String "013" "".
Proof.
  induction s as [|c s IH]; [by left|]. cbn [strip_cr]. destruct s as [|d s].
  - destruct (ascii_dec c "013") as [->|]; [by right|by left].
  - destruct IH as [IH|IH]; [left; by rewrite IH|right]. by rewrite IH at 1.
Qed.
Lemma trim_strip s : trim (strip_cr s) = trim s.
Proof. destruct (strip_cr_spec s) as [->|E]; [done|]. rewrite E at 2. by rewrite trim_space. Qed.

Lemma ended_whole ls : ended (ls ++ [""]) = strip_cr <$> ls.
Proof.
  induction ls as [|l ls IH]; [done|]. cbn [app fmap list_fmap]. destruct (ls ++ [""]) eqn:E; [by destruct ls|].
  rewrite <- E in *. cbn [ended]. destruct l; by rewrite IH, E.
Qed.
Lemma split_lines l ls :
  Forall one_line (l :: ls) →
  split_on newline (String.concat (String newline "") (l :: ls) +:+ String newline "") = (l :: ls) ++ [""].
Proof.
  revert l. induction ls as [|l' ls IH]; intros l [Hl Hls]%Forall_cons.
  - cbn [String.concat]. by rewrite split_on_app, split_one.
  - change (String.concat (String newline "") (l :: l' :: ls))
      with (l +:+ String newline (String.concat (String newline "") (l' :: ls))).
    rewrite app_assoc_string.
    change (String newline ?x +:+ ?y) with (String newline (x +:+ y)).
    by rewrite split_on_app, split_one, IH.
Qed.

Lemma strip_cr_one_line s : one_line s → one_line (strip_cr s).
Proof.
  induction s as [|c s IH]; [done|]. cbn [strip_cr one_line]. intros [Hc Hs].
  destruct s as [|d s]; [by destruct (ascii_dec c "013")|]. split; [done|by apply IH].
Qed.
Lemma pieces_one_line s : Forall one_line (split_on newline s).
Proof.
  induction s as [|c s IH]; [by repeat constructor|]. cbn [split_on]. destruct (ascii_dec c newline) as [|Hc].
  - by constructor.
  - destruct (split_on newline s) as [|w ws]; [by repeat constructor|]. apply Forall_cons in IH as [Hw Hws].
    by repeat constructor.
Qed.
Lemma lines_one_line s : Forall one_line (lines s).
Proof.
  unfold lines. pose proof (pieces_one_line s) as H. induction H as [|l ls Hl Hls IH]; [constructor|].
  cbn [ended]. destruct ls as [|l' ls]; [destruct l; [constructor|by constructor]|].
  destruct l; constructor; try exact IH; [done|]. by apply strip_cr_one_line.
Qed.
End MigrationFacts.

Module MigrationProps.
Import Json Ndjson.Ndjson NdjsonFacts Migration MigrationFacts.

(** The migration only adds. A document of an old version that is an object becomes
    one of the current version in which every field is as before or, in a file of
    entries, an entry with all its fields; what is new is the version, and the link
    of a single entry or the four fields of an entry of a file. *)
Theorem migration_only_adds o :
  get_schema_version (Object o) < CURRENT_SCHEMA_VERSION →
  ∃ o', upgraded (Object o) = Object o' ∧ get_schema_version (Object o') = CURRENT_SCHEMA_VERSION ∧
    (∀ k v, o !! k = Some v → k ≠ "schema_version" → ∃ v', o' !! k = Some v' ∧ extends v v') ∧
    (∀ k, is_Some (o' !! k) → is_Some (o !! k) ∨ k = "schema_version" ∨ (is_store_file o = false ∧ k = "prev_hash")) ∧
    (is_store_file o = true → ∀ k e f, o !! k = Some (Object e) → k ≠ "schema_version" → f ∈ REQUIRED_FIELDS →
       is_Some (get2 (Object o') k f)).
Proof.
  intros Hv. pose proof (upgraded_version o) as Hn. rewrite upgraded_object in * by done. eexists. split; [done|].
  split; [done|]. clear Hn. destruct (is_store_file o).
  - split_and!.
    + intros k v Hk Hne. rewrite lookup_insert_ne by done. unfold migrate_v0_to_v1_store.
      rewrite map_lookup_imap, Hk. cbn. destruct (String.eqb_spec k "schema_version"); [done|].
      eexists. split; [done|apply with_fields_extends].
    + intros k. destruct (decide (k = "schema_version")) as [->|Hne]; [by auto|]. rewrite lookup_insert_ne by done.
      unfold migrate_v0_to_v1_store. rewrite map_lookup_imap. destruct (o !! k); [by left; eexists|by intros []].
    + intros _ k e f Hk Hne Hf. unfold get2. cbn [get]. rewrite lookup_insert_ne by done.
      unfold migrate_v0_to_v1_store. rewrite map_lookup_imap, Hk. cbn [mbind option_bind].
      destruct (String.eqb_spec k "schema_version"); [done|]. apply ensure_has. by right.
  - split_and!; [| |done].
    + intros k v Hk Hne. rewrite lookup_insert_ne by done. exists v. split; [|apply extends_refl].
      eapply lookup_weaken; [exact Hk|apply ensure_keeps].
    + intros k. destruct (decide (k = "schema_version")) as [->|Hne]; [by auto|]. rewrite lookup_insert_ne by done.
      intros [H|H]%(ensure_has o ["prev_hash"]); [by left|right; right]. by apply list_elem_of_singleton in H as ->.
Qed.

Definition old_key : gmap string value := {["name" := Str "k"]}.
Definition key1 : string := "00000000-0000-0000-0000-000000000001".
Definition key2 : string := "00000000-0000-0000-0000-000000000002".
Definition sample_store : gmap string value := list_to_map [(key1, Object old_key); (key2, Object old_key)].
Lemma migration_only_adds_witness :
  is_store_file sample_store = true ∧
  ∃ o', upgraded (Object sample_store) = Object o' ∧ is_Some (get2 (Object o') key2 "group").
Proof.
  split; [vm_compute; reflexivity|].
  destruct (migration_only_adds sample_store) as (o'&H1&_&_&_&H); [vm_compute; reflexivity|].
  exists o'. split; [exact H1|]. eapply H; [vm_compute; reflexivity|vm_compute; reflexivity|discriminate|].
  right. right. right. left.
Defined.

Section files.
Context (parse : string → option value) (to_string to_string_pretty : value → string).
Abbreviation migrate := (migrate_data_file parse to_string to_string_pretty).

Definition all_ok (c : Calls) : Prop := read_ok c = true ∧ copy_ok c = true ∧ write_ok c = true.

(** What a printer promises of a document: it is read back, and in a file of lines
    it is one line, neither blank nor with blanks around it. *)
Definition reads_back (print : value → string) (v : value) : Prop := parse (print v) = Some v.
Definition a_line (s : string) : Prop := one_line s ∧ trim s = s ∧ s ≠ "".

(** The documents of a file are objects. *)
Definition documents (path content : string) : Prop :=
  if is_ndjson path then
    ∀ l v, l ∈ lines content → trim l ≠ "" → parse (trim l) = Some v →
      ∃ o, v = Object o ∧ ∀ w, w = v ∨ w = upgraded v → reads_back to_string w ∧ a_line (to_string w)
  else
    ∀ v, parse content = Some v → ∃ o, v = Object o ∧ reads_back to_string_pretty (upgraded v).

(** A line that the migration has left is current. *)
Lemma migrated_line l :
  (trim l ≠ "" → ∀ v, parse (trim l) = Some v →
     ∃ o, v = Object o ∧ ∀ w, w = v ∨ w = upgraded v → reads_back to_string w ∧ a_line (to_string w)) →
  one_line l →
  one_line (migrate_line parse to_string l).1 ∧
  (migrate_line parse to_string (strip_cr (migrate_line parse to_string l).1)).2 = false.
Proof.
  intros Hd Hl.
  assert (∀ w, reads_back to_string w → a_line (to_string w) → CURRENT_SCHEMA_VERSION ≤ get_schema_version w →
    one_line (to_string w) ∧ (migrate_line parse to_string (strip_cr (to_string w))).2 = false) as Hw.
  { intros w Hr (H1&H2&H3) Hv. split; [done|]. unfold migrate_line. rewrite trim_strip, H2.
    destruct (String.eqb_spec (to_string w) ""); [done|]. rewrite Hr. by destruct (Z.ltb_spec (get_schema_version w) CURRENT_SCHEMA_VERSION); [lia|]. }
  unfold migrate_line at 1 3. destruct (String.eqb_spec (trim l) "") as [E|E]; [done|].
  destruct (parse (trim l)) as [v|] eqn:Ep.
  - destruct (Hd E v eq_refl) as (o&->&H). destruct (Z.ltb_spec (get_schema_version (Object o)) CURRENT_SCHEMA_VERSION).
    + apply Hw; [by apply H; right..|]. by rewrite upgraded_version.
    + apply Hw; [by apply H; left..|done].
  - cbn [fst]. split; [done|]. unfold migrate_line. rewrite trim_strip, Ep. by destruct (String.eqb _ _).
Qed.

Lemma migrated_again path content content' :
  is_ndjson path = true → documents path content → migrated_content parse to_string content = Some content' →
  migrated_content parse to_string content' = None.
Proof.
  unfold documents. intros Hp. rewrite Hp. intros Hd. unfold migrated_content.
  destruct (existsb snd (migrate_line parse to_string <$> lines content)) eqn:Ee; [|done]. intros [= <-].
  assert (Forall (λ l, one_line (migrate_line parse to_string l).1 ∧
    (migrate_line parse to_string (strip_cr (migrate_line parse to_string l).1)).2 = false) (lines content)) as Hm.
  { apply Forall_forall. intros l Hl. apply migrated_line; [by intros Ht v Hv; eapply Hd|].
    pose proof (lines_one_line content) as H. rewrite Forall_forall in H. by apply H. }
  assert (lines (String.concat (String newline "") (migrate_line parse to_string <$> lines content).*1 +:+ String newline "") =
    (λ l, strip_cr (migrate_line parse to_string l).1) <$> lines content) as ->.
  { destruct (lines content) as [|l ls]; [done|]. unfold lines. cbn [fmap list_fmap]. rewrite split_lines.
    - rewrite ended_whole. cbn [fmap list_fmap]. f_equal. rewrite <- !list_fmap_compose. by apply list_fmap_ext.
    - rewrite <- list_fmap_compose. apply Forall_cons in Hm as [[H _] Hm]. constructor; [done|].
      apply Forall_fmap. eapply Forall_impl; [exact Hm|]. by intros x [? _]. }
  assert (existsb snd (migrate_line parse to_string <$>
    ((λ l, strip_cr (migrate_line parse to_string l).1) <$> lines content)) = false) as ->; [|done].
  clear Hd Ee. induction Hm as [|l ls [_ H] _ IH]; [done|]. cbn [fmap list_fmap existsb] in *. by rewrite H, IH.
Qed.

(** Migrating twice is migrating once: when a migration has gone through, the next
    start finds every document current and leaves the file, and the backup of the
    old contents, alone. It takes that the documents are objects: any other has no
    place for a version and is migrated, and its backup replaced, at every start. *)
Theorem migration_idempotent c c' path fs content :
  fs !! path = Some content → documents path content → all_ok c → all_ok c' →
  let '(fs1, e1) := migrate c path fs in
  e1 = None → migrate c' path fs1 = (fs1, None) ∧
    (fs1 = fs ∨ fs1 !! (path +:+ ".bak") = Some content).
Proof.
  intros Hf Hd (R1&C1&W1) (R2&C2&W2). unfold migrate_data_file at 1. rewrite Hf, R1. cbn [negb].
  assert (path ≠ path +:+ ".bak") as Hne.
  { intros E. apply (f_equal String.length) in E. rewrite length_app_str in E. cbn in E. lia. }
  assert (∀ new, replace_file c path new fs content =
    (<[path := new]> (<[path +:+ ".bak" := content]> fs), None)) as Hrep.
  { intros new. unfold replace_file. by rewrite C1, W1. }
  assert (∀ new : string, <[path := new]> (<[path +:+ ".bak" := content]> fs) !! (path +:+ ".bak") = Some content) as Hb.
  { intros new. by rewrite lookup_insert_ne, lookup_insert_eq. }
  destruct (is_ndjson path) eqn:En.
  - unfold migrate_ndjson_file. destruct (migrated_content parse to_string content) as [new|] eqn:Em.
    + rewrite Hrep. intros _. split; [|by right]. unfold migrate_data_file. rewrite lookup_insert_eq, R2, En. cbn [negb].
      unfold migrate_ndjson_file. by rewrite (migrated_again path content new).
    + intros _. split; [|by left]. unfold migrate_data_file. rewrite Hf, R2, En. cbn [negb].
      unfold migrate_ndjson_file. by rewrite Em.
  - unfold migrate_json_file. destruct (parse content) as [v|] eqn:Ep; [|done].
    destruct (Z.leb_spec CURRENT_SCHEMA_VERSION (get_schema_version v)).
    + intros _. split; [|by left]. unfold migrate_data_file. rewrite Hf, R2, En. cbn [negb].
      unfold migrate_json_file. rewrite Ep. by destruct (Z.leb_spec CURRENT_SCHEMA_VERSION (get_schema_version v)); [|lia].
    + rewrite Hrep. intros _. split; [|by right]. unfold migrate_data_file. rewrite lookup_insert_eq, R2, En. cbn [negb].
      unfold documents in Hd. rewrite En in Hd. destruct (Hd v Ep) as (o&->&Hr). unfold migrate_json_file.
      by rewrite Hr, upgraded_version.
Qed.
End files.

(** *** The store that loads the file *)

Lemma small_file o : (size o ≤ 1)%nat → is_store_file o = false.
Proof. intros H. unfold is_store_file. by destruct (Nat.ltb_spec 1 (size o)); [lia|]. Qed.

(** A store with a single entry does not survive the migration. A file of the old
    version with one entry (or none) is taken for a line of the audit log and given
    the field [prev_hash] at its top; a reader of tables whose keys are identifiers
    then refuses it: the store comes up empty and poisoned, so it never saves again,
    and its file is moved away. *)
Theorem small_store_unloadable {K V : Type} `{Countable K} parse to_string pretty
    (from_value : value → option (gmap K V)) backup_path c path fs content o now :
  (∀ o, is_Some (o !! "prev_hash") → from_value (Object o) = None) →
  fs !! path = Some content → is_ndjson path = false → parse content = Some (Object o) →
  get_schema_version (Object o) < CURRENT_SCHEMA_VERSION → (size o ≤ 1)%nat → all_ok c →
  reads_back parse pretty (upgraded (Object o)) →
  reads_back parse to_string (Object (delete "schema_version" (migrate_v0_to_v1_entry o))) →
  let '(fs1, e) := migrate_data_file parse to_string pretty c path fs in
  let '(s, fs2) := Persisted.load parse to_string from_value backup_path true true now (Persisted.new path) fs1 in
  e = None ∧ Persisted.data s = ∅ ∧ Persisted.poisoned s = true ∧
  (backup_path path now ≠ path → fs2 !! path = None).
Proof.
  intros Hfrom Hf Hn Hp Hv Hsz (R&C&W) Hr1 Hr2. unfold migrate_data_file. rewrite Hf, R, Hn. cbn [negb].
  unfold migrate_json_file. rewrite Hp. destruct (Z.leb_spec CURRENT_SCHEMA_VERSION (get_schema_version (Object o))); [lia|].
  unfold replace_file. rewrite C, W. unfold Persisted.load. cbn [Persisted.store_path Persisted.new].
  rewrite lookup_insert_eq. cbn [negb]. rewrite upgraded_object, small_file in * by done.
  unfold Persisted.from_json, Persisted.strip_schema_version. rewrite Hr1, lookup_insert_eq.
  rewrite bool_decide_eq_true_2 by done. rewrite delete_insert_eq, Hr2. cbn [mbind option_bind].
  rewrite Hfrom; cbn.
  - split_and!; try done. intros Hne. rewrite lookup_insert_ne by done. apply lookup_delete_eq.
  - rewrite lookup_delete_ne by done. apply (ensure_has o ["prev_hash"]). by right; left.
Qed.

Definition one_key : gmap string value := {[key1 := Object old_key]}.
Definition stored (o : gmap string value) : option value := Some (Object o).
Definition sample_parse (s : string) : option value :=
  if String.eqb s "old" then stored one_key
  else if String.eqb s "new" then Some (upgraded (Object one_key))
  else if String.eqb s "bare" then stored (delete "schema_version" (migrate_v0_to_v1_entry one_key)) else None.
Definition sample_keys (v : value) : option (gmap string bool) :=
  match v with
  | Object o => if bool_decide (is_Some (o !! "prev_hash")) then None else Some ((λ _, true) <$> o)
  | _ => None
  end.
Definition fine : Calls := mkCalls true true None true None.
Lemma small_store_unloadable_witness :
  let '(fs1, e) := migrate_data_file sample_parse (λ _, "bare") (λ _, "new") fine "keys.json" {["keys.json" := "old"]} in
  let '(s, fs2) := Persisted.load sample_parse (λ _, "bare") sample_keys (λ p _, p +:+ ".corrupt") true true 0
                     (Persisted.new "keys.json") fs1 in
  e = None ∧ Persisted.data s = ∅ ∧ Persisted.poisoned s = true ∧ fs2 !! "keys.json" = None.
Proof.
  pose proof (small_store_unloadable sample_parse (λ _, "bare") (λ _, "new") sample_keys (λ p _, p +:+ ".corrupt")
    fine "keys.json" {["keys.json" := "old"]} "old" one_key 0) as H.
  destruct (migrate_data_file _ _ _ _ _ _) as [fs1 e].
  destruct (Persisted.load _ _ _ _ _ _ _ _ _) as [s fs2].
  destruct H as (H1&H2&H3&H4); try (vm_compute; reflexivity); try (vm_compute; lia).
  - intros o Ho. cbn. by rewrite bool_decide_eq_true_2.
  - split_and!; [done..|]. apply H4. discriminate.
Defined.

Lemma migration_idempotent_witness :
  let '(fs1, e) := migrate_data_file sample_parse (λ _, "bare") (λ _, "new") fine "keys.json" {["keys.json" := "old"]} in
  e = None ∧ fs1 ≠ {["keys.json" := "old"]} ∧
  migrate_data_file sample_parse (λ _, "bare") (λ _, "new") fine "keys.json" fs1 = (fs1, None).
Proof.
  assert (migrate_data_file sample_parse (λ _, "bare") (λ _, "new") fine "keys.json" {["keys.json" := "old"]} =
    (<["keys.json" := "new"]> {["keys.json" := "old"; "keys.json.bak" := "old"]}, None)) as E
    by (vm_compute; reflexivity).
  pose proof (migration_idempotent sample_parse (λ _, "bare") (λ _, "new") fine fine "keys.json"
    {["keys.json" := "old"]} "old") as H.
  rewrite E in H |- *. split_and!; [done|intros Hm; vm_compute in Hm; discriminate|].
  apply H; [reflexivity| |by split_and!|by split_and!|reflexivity].
  intros v Hv. vm_compute in Hv. injection Hv as <-. exists one_key. split; vm_compute; reflexivity.
Defined.
End MigrationProps.
