(* ===== verification/AuditTrail.v ===== *)
(** The audit log of the administration (admin/audit.rs): a ring of entries
    linked by hashes, and its file with backups. *)

From S2P Require Import Prelude Json Affinity VirtualKey Ndjson.

Module Audit.
Import Json Ndjson.

Definition DEFAULT_MAX_ENTRIES : nat := Z.to_nat 1000.
Definition AUDIT_LOG_MAX_SIZE : Z := 10 * 1024 * 1024.
Definition AUDIT_LOG_MAX_BACKUPS : nat := 5.

Record AuditEntry := mkEntry {
  timestamp : DateTime;
  action : string;
  actor : string;
  target : string;
  details : value;
  prev_hash : option string;
}.

(** [entries] is the ring, oldest first; [persisted] tells whether there is a
    file. *)
Record AuditLog := mkLog {
  entries : list AuditEntry;
  max_entries : nat;
  persisted : bool;
  last_hash : option string;
}.
Definition new (max : nat) : AuditLog := mkLog [] max false None.
Definition with_persistence (max : nat) : AuditLog := mkLog [] max true None.

Section audit.
(** [to_rfc3339], [serde_json::to_string] of the details and of an entry, the
    reading of an entry, and SHA-256. *)
Context (rfc3339 : DateTime → string) (to_string : value → string).
Context (print_entry : AuditEntry → string) (parse_entry : string → option AuditEntry).
Context (sha256 : string → list Z).

(** What is hashed. *)
Definition hash_input (e : AuditEntry) : string :=
  rfc3339 (timestamp e) +:+ "|" +:+ action e +:+ "|" +:+ target e +:+ "|" +:+
  to_string (details e) +:+ "|" +:+ default "" (prev_hash e).
Definition compute_entry_hash (e : AuditEntry) : string :=
  VirtualKey.VirtualKey.sha256_hex sha256 (hash_input e).

(** *** Recording, lock by lock

    The tip is read, then set, then the entry is pushed; each is a step of its
    own.  The line for the file is left to a background task. *)
Definition read_tip (l : AuditLog) : option string := last_hash l.
Definition set_tip (h : string) (l : AuditLog) : AuditLog :=
  mkLog (entries l) (max_entries l) (persisted l) (Some h).
Definition push (e : AuditEntry) (l : AuditLog) : AuditLog :=
  let es := if (max_entries l <=? length (entries l))%nat then tail (entries l) else entries l in
  mkLog (es ++ [e]) (max_entries l) (persisted l) (last_hash l).
Definition linked (now : DateTime) (action actor target : string) (details : value)
    (tip : option string) : AuditEntry := mkEntry now action actor target details tip.

Definition record (now : DateTime) (action actor target : string) (details : value) (l : AuditLog)
    : AuditLog :=
  let e := linked now action actor target details (read_tip l) in
  push e (set_tip (compute_entry_hash e) l).

(** *** The file *)

Definition rotate_if_needed (fs : Files) : Files :=
  match fs !! 0%nat with
  | None => fs
  | Some content =>
      if Z.of_nat (String.length content) <? AUDIT_LOG_MAX_SIZE then fs
      else foldl (λ fs i, rename (i - 1) i fs) fs (rev (seq 1 AUDIT_LOG_MAX_BACKUPS))
  end.

(** An attempt to write a line, whose system calls succeed or stop after some
    bytes of it; all bytes may be there when only the last call, [sync_all], fails. *)
Inductive Attempt := Written | Stopped (bytes : nat).
Definition append_line (line : string) (a : Attempt) (fs : Files) : Files * bool :=
  let fs := rotate_if_needed fs in
  match a with
  | Written => (append line fs, true)
  | Stopped n => (append_part n line fs, false)
  end.

(** The background task: three attempts. *)
Fixpoint append_task (line : string) (attempts : list Attempt) (fs : Files) : Files * bool :=
  match attempts with
  | [] => (fs, false)
  | a :: rest =>
      match append_line line a fs with
      | (fs, true) => (fs, true)
      | (fs, false) => append_task line rest fs
      end
  end.

Definition load_from_file (content : option string) (l : AuditLog) : AuditLog :=
  if negb (persisted l) then l
  else match content with
  | None => l
  | Some content =>
      let loaded := parse_lines parse_entry content in
      let es := take (max_entries l) (drop (length loaded - max_entries l) loaded) in
      mkLog es (max_entries l) (persisted l) (compute_entry_hash <$> last es)
  end.

Definition list_entries (limit : option nat) (l : AuditLog) : list AuditEntry :=
  match limit with Some n => take n (rev (entries l)) | None => rev (entries l) end.
Definition total (l : AuditLog) : nat := length (entries l).
Definition clear (l : AuditLog) : AuditLog := mkLog [] (max_entries l) (persisted l) None.

Fixpoint verify_from (prev : string) (es : list AuditEntry) : bool :=
  match es with
  | [] => true
  | e :: rest =>
      match prev_hash e with
      | Some p => String.eqb p prev && verify_from (compute_entry_hash e) rest
      | None => false
      end
  end.
Definition verify_chain (l : AuditLog) : bool :=
  match entries l with
  | [] => true
  | e :: rest => verify_from (compute_entry_hash e) rest
  end.

(** *** Pages, newest first *)

(** The files from the oldest backup to the active one. *)
Definition file_numbers : list nat := rev (seq 1 AUDIT_LOG_MAX_BACKUPS) ++ [0%nat].

Definition page {A} (limit offset : nat) (es : list A) : list A := take limit (drop offset (rev es)).
Definition query_from_file (fs : Files) (limit offset : nat) : list AuditEntry :=
  page limit offset (read_files parse_entry file_numbers fs).
Definition query_entries (fs : Files) (l : AuditLog) (limit offset : nat) : list AuditEntry :=
  if (offset + limit <=? length (entries l))%nat then page limit offset (entries l)
  else if persisted l then query_from_file fs limit offset
  else page limit offset (entries l).

Definition get_audit_log (fs : Files) (l : AuditLog) (limit offset : option nat) : list AuditEntry :=
  query_entries fs l (default 100%nat limit) (default 0%nat offset).
End audit.
End Audit.

Module AuditFacts.
Import Json Ndjson NdjsonFacts Audit.

(** *** Pages *)

Lemma page_suffix {A} limit offset (l1 l2 : list A) :
  (offset + limit ≤ length l2)%nat → page limit offset (l1 ++ l2) = page limit offset l2.
Proof.
  intros H. unfold page. rewrite rev_app_distr, drop_app_le by (rewrite length_rev; lia).
  rewrite take_app_le; [done|]. rewrite length_drop, length_rev. lia.
Qed.

(** *** Rotation *)

(** A rotation moves the files up by one: their entries stay in order, and at
    most those of the oldest backup are lost. *)
Lemma rotation_history (parse : string → option AuditEntry) fs :
  ∃ lost, read_files parse file_numbers fs = lost ++ read_files parse file_numbers (rotate_if_needed fs) ∧
    (lost = [] ∨ lost = read_files parse [5%nat] fs).
Proof.
  unfold rotate_if_needed. destruct (fs !! 0%nat) as [content|]; [|by exists []; auto].
  destruct (_ <? _); [by exists []; auto|].
  change (foldl _ fs _) with (rename 0 1 (rename 1 2 (rename 2 3 (rename 3 4 (rename 4 5 fs))))).
  set (f1 := rename 4 5 fs). set (f2 := rename 3 4 f1). set (f3 := rename 2 3 f2). set (f4 := rename 1 2 f3).
  assert (∀ a b i j g, i ≠ j → i ∉ a → j ∉ a → i ∉ b → j ∉ b → g !! j = None →
    read_files parse (a ++ [j; i] ++ b) (rename i j g) = read_files parse (a ++ [j; i] ++ b) g) as Hstep.
  { intros a b i j g H1 H2 H3 H4 H5 Hg. rewrite read_rename, !read_app by done. f_equal.
    change (i :: b) with ([i] ++ b). change [j; i] with ([j] ++ [i]). rewrite !read_app, app_assoc.
    f_equal. unfold read_files at 1 3. cbn. rewrite Hg. by case_bool_decide. }
  change file_numbers with ([5; 4; 3; 2] ++ [1; 0] ++ [])%nat at 2.
  rewrite Hstep by (done || set_solver || by apply rename_gone).
  change ([5; 4; 3; 2] ++ [1; 0] ++ [])%nat with ([5; 4; 3] ++ [2; 1] ++ [0])%nat.
  unfold f4. rewrite Hstep by (done || set_solver || by apply rename_gone).
  change ([5; 4; 3] ++ [2; 1] ++ [0])%nat with ([5; 4] ++ [3; 2] ++ [1; 0])%nat.
  unfold f3. rewrite Hstep by (done || set_solver || by apply rename_gone).
  change ([5; 4] ++ [3; 2] ++ [1; 0])%nat with ([5] ++ [4; 3] ++ [2; 1; 0])%nat.
  unfold f2. rewrite Hstep by (done || set_solver || by apply rename_gone).
  change ([5] ++ [4; 3] ++ [2; 1; 0])%nat with ([] ++ [5; 4] ++ [3; 2; 1; 0])%nat.
  unfold f1. rewrite read_rename by (done || set_solver).
  change file_numbers with ([5] ++ [4; 3; 2; 1; 0])%nat. rewrite read_app.
  case_bool_decide; [by exists (read_files parse [5%nat] fs); auto|by exists []; auto].
Qed.

(** *** Chains *)

Section chain.
Context (rfc3339 : DateTime → string) (to_string : value → string) (sha256 : string → list Z).
#[local] Abbreviation hash := (compute_entry_hash rfc3339 to_string sha256).

(** Neighbours are linked. *)
Definition links (a b : AuditEntry) : Prop := prev_hash b = Some (hash a).
Fixpoint chained (es : list AuditEntry) : Prop :=
  match es with
  | a :: rest => match rest with b :: _ => links a b | [] => True end ∧ chained rest
  | [] => True
  end.

Lemma verify_from_spec a es : verify_from rfc3339 to_string sha256 (hash a) es = true ↔ chained (a :: es).
Proof.
  revert a. induction es as [|b es IH]; intros a; [done|]. cbn [verify_from].
  change (chained (a :: b :: es)) with (links a b ∧ chained (b :: es)). rewrite <- IH. unfold links.
  destruct (prev_hash b) as [p|]; [|split; [done|by intros []]].
  rewrite andb_true_iff, String.eqb_eq. split; intros [H1 H2]; (split; [congruence|done]).
Qed.
Lemma verify_spec l : verify_chain rfc3339 to_string sha256 l = true ↔ chained (entries l).
Proof. unfold verify_chain. destruct (entries l) as [|e es]; [done|]. apply verify_from_spec. Qed.

Lemma chained_app l1 l2 :
  chained (l1 ++ l2) ↔ chained l1 ∧ chained l2 ∧
    ∀ a b, last l1 = Some a → head l2 = Some b → links a b.
Proof.
  induction l1 as [|a l1 IH]; [cbn; naive_solver|]. destruct l1 as [|b l1].
  - cbn [app]. change (chained (a :: l2)) with
      ((match l2 with b :: _ => links a b | [] => True end) ∧ chained l2).
    destruct l2 as [|b l2]; cbn; naive_solver.
  - change (chained ((a :: b :: l1) ++ l2)) with (links a b ∧ chained ((b :: l1) ++ l2)).
    change (chained (a :: b :: l1)) with (links a b ∧ chained (b :: l1)). rewrite IH.
    change (last (a :: b :: l1)) with (last (b :: l1)). tauto.
Qed.

(** The tip is the hash of the newest entry. *)
Record sound (l : AuditLog) : Prop := {
  sound_chain : chained (entries l);
  sound_tip : ∀ e, last (entries l) = Some e → last_hash l = Some (hash e);
}.

Lemma chained_suffix l1 l2 : chained (l1 ++ l2) → chained l2.
Proof. intros (_&H&_)%chained_app. exact H. Qed.

Lemma sound_push e l :
  sound l → prev_hash e = last_hash l → sound (push e (set_tip (hash e) l)).
Proof.
  intros [H1 H2] Hp. unfold push, set_tip. cbn [entries max_entries last_hash persisted].
  set (es := if (max_entries l <=? length (entries l))%nat then tail (entries l) else entries l).
  assert (∃ gone, entries l = gone ++ es ∧ (es ≠ [] → last es = last (entries l))) as (gone&Hg&Hlast).
  { unfold es. destruct (max_entries l <=? length (entries l))%nat; [|by exists []]. destruct (entries l) as [|x r]; [by exists []|].
    exists [x]. split; [done|]. by destruct r. }
  split; cbn [entries last_hash].
  - rewrite Hg in H1. apply chained_suffix in H1. apply chained_app. split_and!; [done|done|].
    intros a b Ha [= <-]. unfold links. rewrite Hp. apply H2.
    rewrite <- Ha. symmetry. apply Hlast. by intros ->.
  - intros e'. rewrite last_snoc. by intros [= <-].
Qed.

Lemma sound_record now act who tgt det l :
  sound l → sound (record rfc3339 to_string sha256 now act who tgt det l).
Proof. intros H. by apply sound_push. Qed.

Lemma sound_load parse content l :
  (∀ c, content = Some c → chained (parse_lines parse c)) → sound l →
  sound (load_from_file rfc3339 to_string parse sha256 content l).
Proof.
  intros Hc Hl. unfold load_from_file. destruct (persisted l); [|done]. cbn [negb].
  destruct content as [c|]; [|done]. specialize (Hc c eq_refl). split; cbn [entries last_hash].
  - rewrite take_ge by (rewrite length_drop; lia).
    apply (chained_suffix (take (length (parse_lines parse c) - max_entries l) (parse_lines parse c))).
    by rewrite take_drop.
  - intros e ->. done.
Qed.
End chain.
End AuditFacts.

Module AuditProps.
Import Json Ndjson NdjsonFacts Audit AuditFacts.

Section audit.
Context (rfc3339 : DateTime → string) (to_string : value → string) (sha256 : string → list Z).

Inductive op :=
  | Record_ (now : DateTime) (action actor target : string) (details : value)
  | Clear.
Definition apply_op (l : AuditLog) (o : op) : AuditLog :=
  match o with
  | Record_ now act who tgt det => record rfc3339 to_string sha256 now act who tgt det l
  | Clear => clear l
  end.
End audit.

(** C21. A log starts empty, or with the entries of a file that are linked.  Whatever is
    then recorded, one entry after the other, whatever the size of the ring and whenever
    the log is cleared, the chain of the ring verifies.  (The file keeps what was recorded
    before a clearing, and is not linked to what comes after: [cleared_file_unlinked].) *)
Theorem audit_chain_verifies rfc3339 to_string sha256 parse content max ops :
  (∀ c, content = Some c → chained rfc3339 to_string sha256 (parse_lines parse c)) →
  verify_chain rfc3339 to_string sha256
    (foldl (apply_op rfc3339 to_string sha256)
       (load_from_file rfc3339 to_string parse sha256 content (with_persistence max)) ops) = true.
Proof.
  intros Hc. apply verify_spec, (sound_chain rfc3339 to_string sha256).
  assert (sound rfc3339 to_string sha256
    (load_from_file rfc3339 to_string parse sha256 content (with_persistence max))) as H
    by (by apply sound_load).
  revert H. generalize (load_from_file rfc3339 to_string parse sha256 content (with_persistence max)).
  induction ops as [|o ops IH]; intros l Hl; [done|]. cbn. apply IH.
  destruct o; [by apply sound_record|by split].
Qed.

(** What the verification detects.  In a chain that verifies, an entry that is
    followed by another one can be exchanged unnoticed only for one with the same
    hash and the same link (the link of the oldest entry is free); the newest
    entry can be exchanged for anything with its link. *)
Theorem audit_tampering rfc3339 to_string sha256 l1 e e' l2 max p tip :
  let hash := compute_entry_hash rfc3339 to_string sha256 in
  let verifies es := verify_chain rfc3339 to_string sha256 (mkLog es max p tip) = true in
  verifies (l1 ++ e :: l2) →
  verifies (l1 ++ e' :: l2) ↔
    (l2 ≠ [] → hash e' = hash e) ∧ (l1 ≠ [] → prev_hash e' = prev_hash e).
Proof.
  intros hash verifies. unfold verifies. rewrite !verify_spec. cbn [entries].
  assert (∀ x, chained rfc3339 to_string sha256 (l1 ++ x :: l2) ↔
    chained rfc3339 to_string sha256 l1 ∧ chained rfc3339 to_string sha256 l2 ∧
    (∀ a, last l1 = Some a → prev_hash x = Some (hash a)) ∧
    (∀ b, head l2 = Some b → prev_hash b = Some (hash x))) as Hsplit.
  { intros x. change (x :: l2) with ([x] ++ l2). rewrite !chained_app. unfold links. cbn.
    unfold links. naive_solver. }
  rewrite !Hsplit. intros (H1&H2&H3&H4). split.
  - intros (_&_&H5&H6). split.
    + intros Hne. destruct l2 as [|b l2]; [done|]. specialize (H4 b eq_refl). specialize (H6 b eq_refl).
      congruence.
    + intros Hne. destruct (last l1) as [a|] eqn:E; [|by apply last_None in E].
      specialize (H3 a eq_refl). specialize (H5 a eq_refl). congruence.
  - intros [H5 H6]. split_and!; [done|done| |].
    + intros a Ha. rewrite H6; [by apply H3|]. by intros ->.
    + intros b Hb. rewrite H5; [by apply H4|]. by intros ->.
Qed.

(** Pages do not depend on where they are read: as long as the files hold what
    was recorded before the entries in memory and these, a page is that slice
    of the whole history, newest first. *)
Theorem audit_pages_transparent parse fs l old limit offset :
  persisted l = true → read_files parse file_numbers fs = old ++ entries l →
  query_entries parse fs l limit offset = page limit offset (old ++ entries l).
Proof.
  intros Hp Hf. unfold query_entries, query_from_file. rewrite Hp, Hf.
  destruct (Nat.leb_spec (offset + limit) (length (entries l))); [|done].
  symmetry. by apply page_suffix.
Qed.

(** A line that reaches the file is read back after all others; a rotation on the
    way loses at most the entries of the oldest backup. *)
Theorem audit_file_history (parse : string → option AuditEntry) line fs e :
  whole (default "" (fs !! 0%nat)) → one_line line → parse_line parse line = Some e →
  ∃ lost kept, read_files parse file_numbers fs = lost ++ kept ∧
    read_files parse file_numbers (append_line line Written fs).1 = kept ++ [e] ∧
    (lost = [] ∨ lost = read_files parse [5%nat] fs).
Proof.
  intros Hw Hl He. destruct (rotation_history parse fs) as (lost&Hlost&Hcase).
  exists lost, (read_files parse file_numbers (rotate_if_needed fs)). split_and!; [done| |done].
  unfold append_line. cbn [fst]. apply (read_append parse (rev (seq 1 5))); [|done|done|cbn; set_solver].
  unfold rotate_if_needed. destruct (fs !! 0%nat) as [c|] eqn:E; [|by rewrite E].
  destruct (_ <? _); [by rewrite E|]. left.
  change (foldl _ fs _) with (rename 0 1 (rename 1 2 (rename 2 3 (rename 3 4 (rename 4 5 fs))))).
  by rewrite rename_gone.
Qed.

(** *** Concrete logs: digests that are the text itself *)

Definition text_bytes (s : string) : list Z := (λ c, Z.of_N (N_of_ascii c)) <$> String.list_ascii_of_string s.
Definition day (_ : DateTime) : string := "t".
Definition no_json (_ : value) : string := "{}".
Definition rec := record day no_json text_bytes.
Definition verified := verify_chain day no_json text_bytes.
Definition sample_entry : AuditEntry := mkEntry 0 "channel.create" "admin" "c1" Null None.
Definition sample_reader (s : string) : option AuditEntry := if String.eqb s "e" then Some sample_entry else None.

Lemma audit_chain_verifies_witness :
  verified (foldl (apply_op day no_json text_bytes)
    (load_from_file day no_json sample_reader text_bytes (Some "e") (with_persistence 2))
    [Record_ 1 "channel.update" "admin" "c1" Null; Record_ 2 "channel.delete" "admin" "c1" Null]) = true.
Proof.
  apply (audit_chain_verifies day no_json text_bytes sample_reader (Some "e")).
  intros c [= <-]. done.
Defined.

Lemma audit_tampering_witness :
  let l := rec 1 "b" "admin" "y" Null (rec 0 "a" "admin" "x" Null (new 5)) in
  verified l = true ∧
  verified (mkLog [mkEntry 0 "hidden" "admin" "x" Null None;
                   mkEntry 1 "b" "admin" "y" Null (last_hash (rec 0 "a" "admin" "x" Null (new 5)))]
              5 false (last_hash l)) ≠ true.
Proof.
  split; [by vm_compute|]. intros H.
  pose proof (audit_tampering day no_json text_bytes [] (mkEntry 0 "a" "admin" "x" Null None)
    (mkEntry 0 "hidden" "admin" "x" Null None)
    [mkEntry 1 "b" "admin" "y" Null (last_hash (rec 0 "a" "admin" "x" Null (new 5)))] 5 false
    (last_hash (rec 1 "b" "admin" "y" Null (rec 0 "a" "admin" "x" Null (new 5))))) as Ht.
  assert (verify_chain day no_json text_bytes
    (mkLog ([] ++ mkEntry 0 "a" "admin" "x" Null None ::
       [mkEntry 1 "b" "admin" "y" Null (last_hash (rec 0 "a" "admin" "x" Null (new 5)))]) 5 false
       (last_hash (rec 1 "b" "admin" "y" Null (rec 0 "a" "admin" "x" Null (new 5))))) = true) as Hv
    by (by vm_compute).
  destruct (proj1 (Ht Hv) H) as [Hh _]. specialize (Hh ltac:(discriminate)). vm_compute in Hh. discriminate.
Defined.

Lemma audit_pages_transparent_witness :
  let l := load_from_file day no_json sample_reader text_bytes (Some "e") (with_persistence 2) in
  query_entries sample_reader {[0%nat := "e"]} l 5 0 = [sample_entry].
Proof.
  cbv zeta.
  rewrite (audit_pages_transparent sample_reader {[0%nat := "e"]} _ [] 5 0); [done|done|].
  vm_compute. reflexivity.
Defined.

Lemma audit_file_history_witness :
  ∃ lost kept, ([] : list AuditEntry) = lost ++ kept ∧
    read_files sample_reader file_numbers (append_line "e" Written ∅).1 = kept ++ [sample_entry].
Proof.
  destruct (audit_file_history sample_reader "e" ∅ sample_entry ltac:(left; vm_compute; reflexivity)
    ltac:(split; [discriminate|done]) eq_refl) as (lost&kept&H1&H2&_).
  exists lost, kept. split; [exact H1|exact H2].
Defined.

(** Two records that both read the tip before either sets it: the chain forks,
    and the log no longer verifies. *)
Example concurrent_records_fork :
  let l := rec 0 "a" "admin" "x" Null (new 5) in
  let e1 := linked 1 "b" "one" "y" Null (read_tip l) in
  let e2 := linked 1 "c" "two" "z" Null (read_tip l) in
  let tip e := set_tip (compute_entry_hash day no_json text_bytes e) in
  verified (push e2 (push e1 (tip e2 (tip e1 l)))) = false.
Proof. by vm_compute. Qed.

(** A clearing leaves the file alone, and the next entry begins a new chain: a start that
    loads both finds a log that does not verify. *)
Example cleared_file_unlinked :
  let l := rec 0 "a" "admin" "x" Null (new 5) in
  let l' := rec 1 "b" "admin" "y" Null (clear l) in
  let reader s := if String.eqb s "1" then last (entries l) else if String.eqb s "2" then last (entries l') else None in
  verified l = true ∧ verified l' = true ∧
  verified (load_from_file day no_json reader text_bytes (Some ("1" +:+ String newline "2")) (with_persistence 5)) = false.
Proof. vm_compute. split_and!; reflexivity. Qed.

(** The hash does not cover the actor, and does not delimit its parts: a record
    of deleting "b|c" by action "a" has the hash of one of deleting "c" by "a|b". *)
Example hash_is_ambiguous :
  let h := compute_entry_hash day no_json text_bytes in
  h (mkEntry 0 "a" "admin" "b|c" Null None) = h (mkEntry 0 "a|b" "other" "c" Null None).
Proof. by vm_compute. Qed.

(** A write that fails half-way is retried at the end of the half line: the line
    made of both is skipped when it is read, and the task reports success. When only
    the synchronisation failed, the entry is there twice. *)
Example retries_lose_or_repeat :
  let fs0 := {[0%nat := "e" +:+ String newline ""]} in
  let history attempts :=
    (λ r : Files * bool, (length (read_files sample_reader file_numbers r.1), r.2))
      (append_task "e" attempts fs0) in
  history [Written] = (2%nat, true) ∧
  history [Stopped 1; Written] = (1%nat, true) ∧
  history [Stopped 2; Written] = (3%nat, true).
Proof. vm_compute. done. Qed.
End AuditProps.
