(* ===== verification/Logs.v ===== *)
(** The dispatch log (log.rs) and the usage reports made of it
    (admin/reports.rs): a ring of entries, their file with backups, and sums by
    hour, channel, model, priority and day. *)

From S2P Require Import Prelude F64 Ndjson.

Module Logs.
Import Ndjson.

Definition MAX_FILE_SIZE_BYTES : Z := 10 * 1024 * 1024.
Definition ROTATION_CHECK_INTERVAL : Z := 100.

Record DispatchLog := mkDispatchLog {
  id : Uuid;
  timestamp : DateTime;
  request_model : string;
  channel_id : Uuid;
  channel_name : string;
  channel_priority : Z;
  retry_count : Z;
  trigger_reason : option string;
  latency_ms : Z;
  success : bool;
  estimated_cost : option F64.f64;
  input_tokens : option Z;
  output_tokens : option Z;
  cache_hit_tokens : option Z;
  cache_miss_tokens : option Z;
  request_id : option string;
  virtual_key_id : option string;
}.

Record DispatchLogger := mkLogger {
  logs : list DispatchLog;
  max_entries : nat;
  persisted : bool;
  max_file_size_bytes : Z;
  max_file_count : nat;
  write_counter : Z;
}.

Definition new (max : nat) : DispatchLogger := mkLogger [] max false MAX_FILE_SIZE_BYTES 1 0.
Definition with_persistence (max : nat) (max_file_size_mb : Z) (file_count : nat) : DispatchLogger :=
  mkLogger [] max true (sat_mul64 max_file_size_mb (1024 * 1024)) (Nat.max file_count 1) 0.

Definition with_logs (ls : list DispatchLog) (l : DispatchLogger) : DispatchLogger :=
  mkLogger ls (max_entries l) (persisted l) (max_file_size_bytes l) (max_file_count l) (write_counter l).

Section files.
Context (print_entry : DispatchLog → string) (parse_entry : string → option DispatchLog).

(** [max_count] is at least one. *)
Definition rotate_if_needed (max_bytes : Z) (max_count : nat) (fs : Files) : Files :=
  match fs !! 0%nat with
  | None => fs
  | Some content =>
      if Z.of_nat (String.length content) <=? max_bytes then fs
      else rename 0 1 (foldl (λ fs i, rename i (S i) fs) (delete max_count fs)
                         (rev (seq 1 (max_count - 1))))
  end.

(** *** Logging: the line is left to a background task *)

Record Line := mkLine { text : string; check_rotation : bool }.

Definition log (entry : DispatchLog) (l : DispatchLogger) : DispatchLogger * option Line :=
  let '(l, line) :=
    if persisted l && negb (String.eqb (print_entry entry) "")
    then (mkLogger (logs l) (max_entries l) (persisted l) (max_file_size_bytes l) (max_file_count l)
            (wrap64 (write_counter l + 1)),
          Some (mkLine (print_entry entry)
                  (Z.modulo (write_counter l) ROTATION_CHECK_INTERVAL =? 0)))
    else (l, None) in
  let ls := if (max_entries l <=? length (logs l))%nat then tail (logs l) else logs l in
  (with_logs (ls ++ [entry]) l, line).

Definition write_line (l : DispatchLogger) (line : Line) (fs : Files) : Files :=
  append (text line)
    (if check_rotation line then rotate_if_needed (max_file_size_bytes l) (max_file_count l) fs else fs).

(** The content is read after the rotation. *)
Definition load_from_file (fs : Files) (l : DispatchLogger) : DispatchLogger * Files :=
  if negb (persisted l) then (l, fs) else
  let fs := rotate_if_needed (max_file_size_bytes l) (max_file_count l) fs in
  match fs !! 0%nat with
  | None => (l, fs)
  | Some content =>
      let es := parse_lines parse_entry content in
      (with_logs (logs l ++ take (max_entries l - length (logs l)) (drop (length es - max_entries l) es)) l,
       fs)
  end.
End files.

(** *** Updating and reading *)

(** The newest entry of an identifier, changed. *)
Fixpoint update_first (u : Uuid) (f : DispatchLog → DispatchLog) (ls : list DispatchLog)
    : list DispatchLog :=
  match ls with
  | [] => []
  | x :: rest => if N.eqb (id x) u then f x :: rest else x :: update_first u f rest
  end.
Definition newer {A} (v old : option A) : option A := match v with Some _ => v | None => old end.
Definition with_tokens (input output : Z) (hit miss : option Z) (cost : option F64.f64)
    (x : DispatchLog) : DispatchLog :=
  mkDispatchLog (id x) (timestamp x) (request_model x) (channel_id x) (channel_name x)
    (channel_priority x) (retry_count x) (trigger_reason x) (latency_ms x) (success x)
    (newer cost (estimated_cost x)) (Some input) (Some output) (newer hit (cache_hit_tokens x))
    (newer miss (cache_miss_tokens x)) (request_id x) (virtual_key_id x).
Definition update_log_tokens (u : Uuid) (input output : Z) (hit miss : option Z)
    (cost : option F64.f64) (l : DispatchLogger) : DispatchLogger :=
  with_logs (rev (update_first u (with_tokens input output hit miss cost) (rev (logs l)))) l.

Definition of_key (key : string) (x : DispatchLog) : bool :=
  match virtual_key_id x with Some k => String.eqb k key | None => false end.
Definition list_logs (offset limit : nat) (l : DispatchLogger) : list DispatchLog :=
  take limit (drop offset (rev (logs l))).
Definition list_by_key (key : string) (offset limit : nat) (l : DispatchLogger) : list DispatchLog :=
  take limit (drop offset (List.filter (of_key key) (rev (logs l)))).
Definition total (l : DispatchLogger) : nat := length (logs l).
Definition total_by_key (key : string) (l : DispatchLogger) : nat :=
  length (List.filter (of_key key) (logs l)).

Record DispatchStats := mkStats {
  total_requests : Z;
  successes : Z;
  failures : Z;
  avg_latency_ms : Z;
}.
Definition stats (l : DispatchLogger) : DispatchStats :=
  let n := Z.of_nat (length (logs l)) in
  let ok := Z.of_nat (length (List.filter success (logs l))) in
  mkStats n ok (n - ok)
    (if 0 <? n then wrap64 (sumZ (latency_ms <$> logs l)) / n else 0).

(** *** Sums by hour, channel and model *)

Record UsageBucket := mkBucket {
  b_timestamp : DateTime;
  b_channel_id : Uuid;
  b_channel_name : string;
  b_model : string;
  b_input : Z;
  b_output : Z;
  b_hit : Z;
  b_miss : Z;
  b_count : Z;
  b_cost : F64.f64;
}.
Record UsageHistory := mkHistory {
  buckets : list UsageBucket;
  total_input_tokens : Z;
  total_output_tokens : Z;
  history_requests : Z;
  total_cost : F64.f64;
}.

Definition hour_of (t : DateTime) : DateTime := t / 3600000 * 3600000.
Definition bucket_key (x : DispatchLog) : DateTime * Uuid * string :=
  (hour_of (timestamp x), channel_id x, request_model x).
Definition new_bucket (x : DispatchLog) : UsageBucket :=
  mkBucket (hour_of (timestamp x)) (channel_id x) (channel_name x) (request_model x) 0 0 0 0 0 F64.zero.
Definition count_in (x : DispatchLog) (b : UsageBucket) : UsageBucket :=
  mkBucket (b_timestamp b) (b_channel_id b) (b_channel_name b) (b_model b)
    (add_u64 (b_input b) (default 0 (input_tokens x))) (add_u64 (b_output b) (default 0 (output_tokens x)))
    (add_u64 (b_hit b) (default 0 (cache_hit_tokens x)))
    (add_u64 (b_miss b) (default 0 (cache_miss_tokens x))) (add_u32 (b_count b) 1)
    (F64.add (b_cost b) (default F64.zero (estimated_cost x))).

(** The order of the keys: time, identifier, bytes of the name. *)
Definition key_le (a b : DateTime * Uuid * string) : bool :=
  if a.1.1 =? b.1.1 then
    if N.eqb a.1.2 b.1.2 then bool_decide (String.le a.2 b.2) else N.ltb a.1.2 b.1.2
  else a.1.1 <? b.1.1.
Definition counted (cutoff : DateTime) (x : DispatchLog) : bool :=
  success x && (cutoff <=? timestamp x)
  && (bool_decide (is_Some (input_tokens x)) || bool_decide (is_Some (output_tokens x))).
Definition into_bucket (m : gmap (DateTime * Uuid * string) UsageBucket) (x : DispatchLog)
    : gmap (DateTime * Uuid * string) UsageBucket :=
  <[bucket_key x := count_in x (default (new_bucket x) (m !! bucket_key x))]> m.

(** [hours_ago] is the subtraction of chrono, none when it panics. *)
Definition usage_history (hours_ago : Z → option DateTime) (hours : Z) (l : DispatchLogger)
    : outcome UsageHistory :=
  match hours_ago hours with
  | None => Panic
  | Some cutoff =>
      let bs := in_order key_le (foldl into_bucket ∅ (List.filter (counted cutoff) (logs l))) in
      Done (mkHistory bs (wrap64 (sumZ (b_input <$> bs))) (wrap64 (sumZ (b_output <$> bs)))
              (wrap32 (sumZ (b_count <$> bs))) (foldl F64.add F64.zero (b_cost <$> bs)))
  end.

Record PriorityStats := mkPriority { priority : Z; p_requests : Z; p_cost : F64.f64 }.
Record CostStats := mkCostStats {
  c_total_requests : Z;
  c_total_cost : F64.f64;
  priority_breakdown : list PriorityStats;
  model_counts : gmap string Z;
  c_input_tokens : Z;
  c_output_tokens : Z;
}.
Definition by_priority (m : gmap Z PriorityStats) (x : DispatchLog) : gmap Z PriorityStats :=
  let e := default (mkPriority (channel_priority x) 0 F64.zero) (m !! channel_priority x) in
  <[channel_priority x :=
      mkPriority (priority e) (p_requests e + 1)
        (match estimated_cost x with Some c => F64.add (p_cost e) c | None => p_cost e end)]> m.
Definition by_model (m : gmap string Z) (x : DispatchLog) : gmap string Z :=
  <[request_model x := default 0 (m !! request_model x) + 1]> m.
Definition cost_stats (l : DispatchLogger) : CostStats :=
  let ok := List.filter success (logs l) in
  mkCostStats (Z.of_nat (length ok)) (foldl F64.add F64.zero (omap estimated_cost ok))
    (in_order Z.leb (foldl by_priority ∅ ok)) (foldl by_model ∅ ok)
    (wrap64 (sumZ (omap input_tokens ok))) (wrap64 (sumZ (omap output_tokens ok))).
End Logs.

(** ** admin/reports.rs *)

Module Reports.
Import Logs.

Record DailyUsage := mkDaily {
  day : Z;
  d_requests : Z;
  d_cost_cents : Z;
  d_input : Z;
  d_output : Z;
}.
Record UsageReport := mkReport { daily : list DailyUsage; summary : DailyUsage }.

(** [f.round() as u64] of a finite number that is not negative, half away from
    zero; zero for the others. *)
Definition cents (cost : F64.f64) : Z :=
  match F64.mul cost (F64.of_Z 100) with
  | S754_finite false m e =>
      Z.min u64_max (if 0 <=? e then Zpos m * 2 ^ e else (Zpos m + 2 ^ (- e - 1)) / 2 ^ (- e))
  | _ => 0
  end.
Definition cost_of (x : DispatchLog) : Z := cents (default F64.zero (estimated_cost x)).

(** The days since the epoch stand for their dates. *)
Definition day_of (x : DispatchLog) : Z := timestamp x / 86400000.
Definition in_range (from to : option Z) (x : DispatchLog) : bool :=
  negb (match from with Some f => day_of x <? f | None => false end)
  && negb (match to with Some t => t <? day_of x | None => false end).

Definition add_log (x : DispatchLog) (d : DailyUsage) : DailyUsage :=
  mkDaily (day d) (d_requests d + 1) (sat_add64 (d_cost_cents d) (cost_of x))
    (add_u64 (d_input d) (default 0 (input_tokens x))) (add_u64 (d_output d) (default 0 (output_tokens x))).
Definition empty_day (d : Z) : DailyUsage := mkDaily d 0 0 0 0.

Definition into_day (from to : option Z) (s : gmap Z DailyUsage * DailyUsage) (x : DispatchLog)
    : gmap Z DailyUsage * DailyUsage :=
  if in_range from to x
  then (<[day_of x := add_log x (default (empty_day (day_of x)) (s.1 !! day_of x))]> s.1, add_log x s.2)
  else s.
Definition aggregate_daily (ls : list DispatchLog) (from to : option Z) : UsageReport :=
  let '(m, total) := foldl (into_day from to) (∅, empty_day 0) ls in
  mkReport (in_order Z.leb m) total.

(** [parse] reads a date; a blank parameter is none. *)
Definition parse_date (parse : string → option Z) (s : option string) : option Z + unit :=
  match s with
  | Some raw =>
      if String.eqb (trim raw) "" then inl None
      else match parse (trim raw) with Some d => inl (Some d) | None => inr () end
  | None => inl None
  end.

(** [group_ids] are the identifiers, as text, of the keys of a group. *)
Definition get_usage_report (parse : string → option Z) (group_ids : string → list string)
    (key_id group from to : option string) (l : DispatchLogger) : UsageReport + unit :=
  match parse_date parse from, parse_date parse to with
  | inl from, inl to =>
      let ls := match key_id with
                | Some k => list_by_key k 0 (total_by_key k l) l
                | None => list_logs 0 (total l) l
                end in
      let ls := match group with
                | Some g => List.filter (λ x, match virtual_key_id x with
                                              | Some k => bool_decide (k ∈ group_ids g)
                                              | None => false
                                              end) ls
                | None => ls
                end in
      inl (aggregate_daily ls from to)
  | _, _ => inr ()
  end.

(** The CSV rendering; [show] prints a number and [date] a day. *)
Definition csv_row (show : Z → string) (name : string) (d : DailyUsage) : string :=
  name +:+ "," +:+ show (d_requests d) +:+ "," +:+ show (d_cost_cents d) +:+ "," +:+
  show (d_input d) +:+ "," +:+ show (d_output d) +:+ String "010"%char "".
Definition report_csv (show date : Z → string) (r : UsageReport) : string :=
  "date,total_requests,total_cost_cents,total_input_tokens,total_output_tokens" +:+
  String "010"%char "" +:+
  foldr (λ d acc, csv_row show (date (day d)) d +:+ acc) "" (daily r) +:+
  csv_row show "#summary" (summary r).
End Reports.

Module LogFacts.
Import Ndjson NdjsonFacts Logs.

(** *** The ring *)

Lemma log_logs print entry l :
  logs (log print entry l).1 =
  (if (max_entries l <=? length (logs l))%nat then tail (logs l) else logs l) ++ [entry].
Proof. unfold log. by destruct (persisted l && _). Qed.
Lemma log_settings print entry l :
  max_entries (log print entry l).1 = max_entries l ∧ persisted (log print entry l).1 = persisted l.
Proof. unfold log. by destruct (persisted l && _). Qed.
Lemma log_ring print entry es l :
  logs l = lastn (Nat.max 1 (max_entries l)) es →
  logs (log print entry l).1 = lastn (Nat.max 1 (max_entries l)) (es ++ [entry]).
Proof.
  intros H. rewrite log_logs, <- push_bounded_lastn, <- H by lia. unfold push_bounded.
  rewrite length_app. cbn [length]. assert (length (logs l) ≤ Nat.max 1 (max_entries l))%nat.
  { rewrite H, length_lastn. lia. }
  destruct (Nat.leb_spec (max_entries l) (length (logs l))) as [Hle|Hlt]; case_match; try lia.
  - by destruct (logs l); cbn in *; [lia|].
  - destruct (logs l) as [|x ls] eqn:El; [|cbn in *; lia]. done.
  - done.
Qed.
End LogFacts.

Module LogProps.
Import Ndjson Logs Reports LogFacts.

(** What a row of the report must say of the entries it is about. *)
Definition row (d : Z) (ls : list DispatchLog) : DailyUsage :=
  mkDaily d (Z.of_nat (length ls)) (Z.min u64_max (sumZ (cost_of <$> ls)))
    (wrap64 (sumZ ((default 0 ∘ input_tokens) <$> ls)))
    (wrap64 (sumZ ((default 0 ∘ output_tokens) <$> ls))).

Lemma cost_of_nonneg x : 0 ≤ cost_of x.
Proof.
  unfold cost_of, cents. destruct (F64.mul _ _) as [| | |[] m e]; try lia. apply Z.min_glb; [done|].
  destruct (Z.leb_spec 0 e); [apply Z.mul_nonneg_nonneg; lia|]. apply Z.div_pos; lia.
Qed.
Lemma costs_nonneg ls : 0 ≤ sumZ (cost_of <$> ls).
Proof.
  induction ls as [|x ls IH]; [done|]. rewrite fmap_cons, sumZ_cons. pose proof (cost_of_nonneg x). lia.
Qed.
Lemma wrap64_add a b : add_u64 (wrap64 a) b = wrap64 (a + b).
Proof. unfold add_u64, wrap64. by rewrite Zplus_mod_idemp_l. Qed.

Lemma row_step d x ls : add_log x (row d ls) = row d (ls ++ [x]).
Proof.
  unfold add_log, row. cbn [day d_requests d_cost_cents d_input d_output].
  rewrite length_app, !fmap_app, !sumZ_app, !wrap64_add. cbn [length fmap list_fmap].
  rewrite !sumZ_cons. cbn [sumZ foldr compose]. rewrite !Z.add_0_r. f_equal; [lia|].
  unfold sat_add64. pose proof (cost_of_nonneg x). lia.
Qed.
Lemma row_fold d ls ls' : foldl (λ r x, add_log x r) (row d ls') ls = row d (ls' ++ ls).
Proof.
  revert ls'. induction ls as [|x ls IH]; intros ls'; cbn; [by rewrite app_nil_r|].
  by rewrite row_step, IH, <- app_assoc.
Qed.
Lemma empty_row d : empty_day d = row d [].
Proof. done. Qed.

Abbreviation by_day := (into day_of (λ x, empty_day (day_of x)) add_log).

Lemma into_day_fold from to ls s :
  foldl (into_day from to) s ls =
  (foldl by_day s.1 (List.filter (in_range from to) ls),
   foldl (λ r x, add_log x r) s.2 (List.filter (in_range from to) ls)).
Proof.
  revert s. induction ls as [|x ls IH]; intros [m t]; [done|]. cbn. rewrite IH. unfold into_day. cbn.
  by destruct (in_range from to x).
Qed.

Lemma by_day_lookup ls d :
  foldl by_day ∅ ls !! d =
  let of_day := List.filter (λ x, bool_decide (day_of x = d)) ls in
  if decide (of_day = []) then None else Some (row d of_day).
Proof.
  rewrite group_lookup. cbn zeta. destruct (List.filter _ ls) as [|x rest] eqn:E; [done|].
  assert (day_of x = d) as <-.
  { apply (bool_decide_eq_true_1 (day_of x = d)).
    apply (proj1 (filter_In (λ x, bool_decide (day_of x = d)) x ls)). rewrite E. by left. }
  destruct (decide _); [done|]. f_equal. rewrite empty_row, row_step. apply row_fold.
Qed.

(** C22. The usage report is exact. Of the entries between the two dates, both
    included, the summary gives the number, the sum of the costs in cents up to
    the largest counter and the sums of the tokens modulo the width of the
    counters. There is one row for each day that has such an entry and no other, in
    increasing order of the days, and a row gives the same numbers for the entries of its
    day. *)
Theorem usage_report_exact ls from to :
  let kept := List.filter (in_range from to) ls in
  summary (aggregate_daily ls from to) = row 0 kept ∧
  StronglySorted Z.lt (day <$> daily (aggregate_daily ls from to)) ∧
  ∀ r, r ∈ daily (aggregate_daily ls from to) ↔
    ∃ d of_day, of_day = List.filter (λ x, bool_decide (day_of x = d)) kept ∧ of_day ≠ [] ∧ r = row d of_day.
Proof.
  cbn zeta. set (kept := List.filter (in_range from to) ls).
  unfold aggregate_daily. rewrite into_day_fold. cbn [fst snd daily summary]. fold kept.
  pose proof (by_day_lookup kept) as Hl. cbn zeta in Hl.
  split_and!; [by rewrite empty_row, row_fold| |].
  - apply in_order_sorted. intros d r. rewrite Hl. case_decide; [done|]. by intros [= <-].
  - intros r. rewrite in_order_perm. rewrite list_elem_of_fmap. split.
    + intros ([d r']&->&Hr%elem_of_map_to_list). rewrite Hl in Hr. case_decide; [done|].
      exists d. eexists. split_and!; [done..|]. by injection Hr.
    + intros (d&of_day&->&Hne&->). exists (d, row d (List.filter (λ x, bool_decide (day_of x = d)) kept)).
      split; [done|]. rewrite elem_of_map_to_list, Hl. by rewrite decide_False.
Qed.

(** The history of the usage counts every entry that it should and no other. For a
    number of hours that the clock can be set back by, the token totals of the
    answer are the sums over the successful entries since then that know their
    tokens, modulo the width of the counters, and its number of requests is
    their number; a number of hours that is too large makes the handler panic. *)
Theorem usage_history_totals hours_ago hours l :
  match hours_ago hours with
  | None => usage_history hours_ago hours l = Panic
  | Some cutoff =>
      let kept := List.filter (counted cutoff) (logs l) in
      ∃ h, usage_history hours_ago hours l = Done h ∧
        total_input_tokens h = wrap64 (sumZ ((default 0 ∘ input_tokens) <$> kept)) ∧
        total_output_tokens h = wrap64 (sumZ ((default 0 ∘ output_tokens) <$> kept)) ∧
        history_requests h = wrap32 (Z.of_nat (length kept))
  end.
Proof.
  unfold usage_history. destruct (hours_ago hours) as [cutoff|]; [|done]. cbn zeta.
  eexists. split; [done|]. cbn [total_input_tokens total_output_tokens history_requests].
  rewrite !in_order_perm. set (kept := List.filter _ _).
  assert (sumZ ((λ _, 1) <$> kept) = Z.of_nat (length kept)) as <-.
  { induction kept as [|x k IH]; [done|]. rewrite fmap_cons, sumZ_cons, IH. cbn [length]. lia. }
  split_and!; apply (group_total bucket_key new_bucket count_in); try done; intros x b; cbn;
    unfold add_u64, add_u32, wrap64, wrap32; by rewrite Zmod_mod.
Qed.

(** *** The ring is the end of an unbounded log *)

Inductive Event :=
  | Logged (entry : DispatchLog)
  | Measured (u : Uuid) (input output : Z) (hit miss : option Z) (cost : option F64.f64).

Definition happen (print : DispatchLog → string) (l : DispatchLogger) (e : Event) : DispatchLogger :=
  match e with
  | Logged entry => (log print entry l).1
  | Measured u i o h m c => update_log_tokens u i o h m c l
  end.
(** Everything that was ever logged; a measure is of the newest entry of its
    identifier. *)
Definition record (ls : list DispatchLog) (e : Event) : list DispatchLog :=
  match e with
  | Logged entry => ls ++ [entry]
  | Measured u i o h m c => rev (update_first u (with_tokens i o h m c) (rev ls))
  end.

Lemma update_first_take u f n ls : update_first u f (take n ls) = take n (update_first u f ls).
Proof.
  revert n. induction ls as [|x ls IH]; intros [|n]; cbn; [done..|].
  destruct (N.eqb (id x) u); cbn; [done|]. by rewrite IH.
Qed.
Lemma update_first_length u f ls : length (update_first u f ls) = length ls.
Proof. induction ls as [|x ls IH]; [done|]. cbn. case_match; cbn; by rewrite ?IH. Qed.
Lemma rev_lastn {A} n (ls : list A) : rev (lastn n ls) = take n (rev ls).
Proof. unfold lastn. by rewrite firstn_rev. Qed.
Lemma lastn_update u f n ls :
  rev (update_first u f (rev (lastn n ls))) = lastn n (rev (update_first u f (rev ls))).
Proof.
  rewrite <- (rev_involutive (lastn n (rev _))). by rewrite !rev_lastn, rev_involutive, update_first_take.
Qed.

(** C23. The log in memory refines an unbounded one. After any sequence of logged
    requests and of token counts that arrive later, the ring is the last entries
    of the log that keeps everything, [max_entries] of them (one when that is
    zero), so a count that arrives for an entry that the ring has dropped changes
    nothing; the listing pages through them from the newest. *)
Theorem ring_refines_log print max es :
  let l := foldl (happen print) (new max) es in
  let all := foldl record [] es in
  logs l = lastn (Nat.max 1 max) all ∧
  ∀ offset limit, list_logs offset limit l = take limit (drop offset (take (Nat.max 1 max) (rev all))).
Proof.
  cbn zeta. set (l := foldl _ _ _). assert (max_entries l = max ∧ logs l = lastn (Nat.max 1 max) (foldl record [] es))
    as [_ Hl].
  { subst l. induction es as [|e es [IHm IH]] using rev_ind; [done|]. rewrite !foldl_app. cbn [foldl].
    destruct e; cbn [happen record].
    - set (l := foldl _ _ es) in *. rewrite (proj1 (log_settings _ _ _)). split; [done|].
      rewrite <- IHm. apply log_ring. by rewrite IHm.
    - cbn. split; [done|]. by rewrite IH, lastn_update. }
  split; [done|]. intros. unfold list_logs. by rewrite Hl, rev_lastn.
Qed.

(** *** What is lost *)

Definition entry : DispatchLog :=
  mkDispatchLog 7%N 0 "m" 1%N "c" 0 0 None 5 true (Some (F64.lit 4 1000)) None None None None None None.

(** The counts of a streamed request reach the ring and not the file: after a
    restart the request has none, and the history of the usage leaves it out. *)
Example tokens_lost_on_restart :
  let print (_ : DispatchLog) := "{}" in
  let '(l, line) := log print entry (with_persistence 10 1 1) in
  let fs := match line with Some x => write_line l x ∅ | None => ∅ end in
  let l := update_log_tokens 7%N 10 20 None None None l in
  let restarted := (load_from_file (λ _, Some entry) fs (with_persistence 10 1 1)).1 in
  (input_tokens <$> logs l) = [Some 10] ∧ (input_tokens <$> logs restarted) = [None].
Proof. vm_compute. done. Qed.

(** The report rounds the cost of each request to a whole cent. *)
Example sub_cent_requests_reported_free :
  d_cost_cents (summary (aggregate_daily (repeat entry 1000) None None)) = 0.
Proof. vm_compute. done. Qed.

(** A capacity of zero keeps an entry. *)
Example ring_of_none_keeps_one :
  logs (log (λ _, "") entry (new 0)).1 = [entry].
Proof. done. Qed.
End LogProps.
