(* ===== verification/Cache.v ===== *)
(** The request cache (proxy/cache.rs): its modes, the bounded map with its
    eviction order, the key material of a request, and the coalescing of
    identical requests in flight. *)

From S2P Require Import Prelude Json.

Module Cache.

Inductive CacheMode := On | Off | ReadOnly | WriteOnly.

Definition can_read (m : CacheMode) : bool := match m with On | ReadOnly => true | _ => false end.
Definition can_write (m : CacheMode) : bool := match m with On | WriteOnly => true | _ => false end.

Definition parse_mode (s : string) : CacheMode :=
  let l := to_lowercase s in
  if String.eqb l "off" || String.eqb l "disabled" || String.eqb l "false" then Off
  else if String.eqb l "readonly" || String.eqb l "read-only" || String.eqb l "ro" then ReadOnly
  else if String.eqb l "writeonly" || String.eqb l "write-only" || String.eqb l "wo" then WriteOnly
  else On.

Record CacheEntry := mkEntry {
  response_body : string;
  cached_at : Instant;
  key_material : string;
}.

(** A cache key is a u128. *)
Record RequestCache := mkCache {
  entries : gmap N CacheEntry;
  order : list N;
  ttl : Z;
  max_entries : nat;
  mode : CacheMode;
}.

Definition new (ttl : Z) (max_entries : nat) (mode : CacheMode) : RequestCache :=
  mkCache ∅ [] ttl max_entries mode.
Definition default_cache : RequestCache := new (millis_of_secs 300) (Z.to_nat 1000) On.

Definition with_state (e : gmap N CacheEntry) (o : list N) (c : RequestCache) : RequestCache :=
  mkCache e o (ttl c) (max_entries c) (mode c).

(** [cached_at.elapsed() >= ttl] *)
Definition expired (c : RequestCache) (now : Instant) (e : CacheEntry) : bool :=
  ttl c <=? sat_sub now (cached_at e).

Definition get (c : RequestCache) (key : N) (material : string) (now : Instant) : option string :=
  if negb (can_read (mode c)) then None
  else match entries c !! key with
       | None => None
       | Some e =>
           if expired c now e then None
           else if String.eqb (key_material e) material then Some (response_body e) else None
       end.

(** The number of evicted entries is returned. *)
Definition sweep_expired (c : RequestCache) (now : Instant) : RequestCache * nat :=
  let gone := (List.filter (λ kv, expired c now kv.2) (map_to_list (entries c))).*1 in
  let '(e, o) := foldl (λ '(e, o) k, (delete k e, List.filter (λ ok, negb (N.eqb ok k)) o))
                   (entries c, order c) gone in
  (with_state e o c, (size (entries c) - size e)%nat).

Fixpoint evict (max : nat) (e : gmap N CacheEntry) (o : list N) : gmap N CacheEntry * list N :=
  if (size e <=? max)%nat then (e, o)
  else match o with
       | old_key :: o' => evict max (delete old_key e) o'
       | [] => (e, [])
       end.

Definition insert (c : RequestCache) (key : N) (material body : string) (now : Instant)
    : RequestCache :=
  if negb (can_write (mode c)) then c else
  let o := if bool_decide (is_Some (entries c !! key))
           then List.filter (λ k, negb (N.eqb k key)) (order c) else order c in
  let e := <[key := mkEntry body now material]> (entries c) in
  let '(e', o') := evict (max_entries c) e (o ++ [key]) in
  with_state e' o' c.

Definition len (c : RequestCache) : nat := size (entries c).
Definition flush (c : RequestCache) : RequestCache := with_state ∅ [] c.
Definition set_mode (c : RequestCache) (m : CacheMode) : RequestCache :=
  mkCache (entries c) (order c) (ttl c) (max_entries c) m.

(** ** Keys

    [to_string] is [serde_json::to_string] of a value, [quote] that of a
    string; a [serde_json::Map] iterates in the order of its keys. *)

Section keys.
Context (to_string : Json.value → string) (quote : string → string).
(** The digest's 32 bytes. *)
Context (blake3 : string → list Z).

Definition fields_in_order (o : gmap string Json.value) : list (string * Json.value) :=
  stable_sort (λ a b, bool_decide (String.le a.1 b.1)) (map_to_list o).

Definition nul : string := String (ascii_of_N 0) EmptyString.

Definition field_text (kv : string * Json.value) : string := quote kv.1 +:+ ":" +:+ to_string kv.2.

(** The commas go between the fields that are kept. *)
Fixpoint join_fields (first : bool) (l : list (string * Json.value)) : string :=
  match l with
  | [] => ""
  | kv :: rest =>
      if String.eqb kv.1 "stream" || String.eqb kv.1 "stream_options" then join_fields first rest
      else (if first then "" else ",") +:+ field_text kv +:+ join_fields false rest
  end.

Definition canonical_key_material (model : string) (body : Json.value) : string :=
  model +:+ nul +:+
  match body with
  | Json.Object o => "{" +:+ join_fields true (fields_in_order o) +:+ "}"
  | _ => to_string body
  end.

Definition u128_of_be_bytes (l : list Z) : N := foldl (λ acc b, 256 * acc + Z.to_N b)%N 0%N l.

Definition compute_key (model : string) (body : Json.value) : N * string :=
  let material := canonical_key_material model body in
  (u128_of_be_bytes (take 16 (blake3 material)), material).
Definition cache_key (model : string) (body : Json.value) : N := (compute_key model body).1.
End keys.

End Cache.

(** ** Requests in flight

    A [Notify] is a fresh number.  Its [notify_waiters] wakes the futures that
    [notified] has created so far, and is not remembered for later ones. *)

Module InFlight.

(** What a request does about its key. *)
Inductive task :=
  | Leads (key : N)                  (** [register] returned true *)
  | Follows (key : N)                (** [register] returned false *)
  | Holds (notify : N)               (** [wait] has cloned the [Notify] *)
  | Waits (notify : N)               (** its future has been created *)
  | Proceeds.

Record state := mkState {
  inflight : gmap N N;
  fresh : N;
  tasks : list task;
}.

Definition start : state := mkState ∅ 0%N [].

Definition register (s : state) (key : N) : state * bool :=
  match inflight s !! key with
  | Some _ => (s, false)
  | None => (mkState (<[key := fresh s]> (inflight s)) (fresh s + 1) (tasks s), true)
  end.

Definition wake (n : N) (t : task) : task :=
  match t with Waits m => if N.eqb n m then Proceeds else t | _ => t end.

Definition complete (s : state) (key : N) : state :=
  match inflight s !! key with
  | Some n => mkState (delete key (inflight s)) (fresh s) (wake n <$> tasks s)
  | None => s
  end.

Definition set_task (i : nat) (t : task) (s : state) : state :=
  mkState (inflight s) (fresh s) (<[i := t]> (tasks s)).
Definition add_task (t : task) (s : state) : state :=
  mkState (inflight s) (fresh s) (tasks s ++ [t]).

Inductive step : state → state → Prop :=
  | arrive s key s' b :
      register s key = (s', b) → step s (add_task (if b then Leads key else Follows key) s')
  | wait_lock s i key :
      tasks s !! i = Some (Follows key) →
      step s (set_task i (match inflight s !! key with Some n => Holds n | None => Proceeds end) s)
  | wait_future s i n :
      tasks s !! i = Some (Holds n) → step s (set_task i (Waits n) s)
  | finish s i key :
      tasks s !! i = Some (Leads key) → step s (complete (set_task i Proceeds s) key).

End InFlight.

Module InFlightProps.
Import InFlight.

Definition stuck (s : state) (i : nat) (n : N) : Prop :=
  tasks s !! i = Some (Waits n) ∧ (n < fresh s)%N ∧ ∀ key, inflight s !! key ≠ Some n.

Lemma stuck_step s s' i n : step s s' → stuck s i n → stuck s' i n.
Proof.
  intros Hstep (Ht&Hn&Hf).
  assert (∀ j t, j ≠ i → stuck (set_task j t s) i n) as Hset.
  { intros j t Hj. split_and!; [simpl; by rewrite list_lookup_insert_ne|done|done]. }
  destruct Hstep as [s key s' b Hr|s j key Hj|s j m Hj|s j key Hj].
  - unfold register in Hr. destruct (inflight s !! key) eqn:E; simplify_eq.
    + split_and!; [simpl; by apply lookup_app_l_Some|done|done].
    + split_and!; simpl; [by apply lookup_app_l_Some|lia|].
      intros key'. destruct (decide (key = key')) as [<-|].
      * rewrite lookup_insert_eq. intros [= E']. lia.
      * by rewrite lookup_insert_ne.
  - apply Hset. congruence.
  - apply Hset. congruence.
  - assert (j ≠ i) as Hji by congruence. destruct (Hset j Proceeds Hji) as (H1&H2&H3).
    unfold complete. simpl in *. destruct (inflight s !! key) as [m|] eqn:E; [|done].
    split_and!; simpl; [|done|].
    + rewrite list_lookup_fmap, H1. simpl. destruct (N.eqb_spec m n) as [->|]; [|done].
      by destruct (Hf key).
    + intros key'. destruct (decide (key = key')) as [<-|].
      * by rewrite lookup_delete_eq.
      * by rewrite lookup_delete_ne.
Qed.

(** Coalescing can lose a wake-up.  A follower clones the [Notify] under the
    lock and creates its future after releasing it; when the leader completes
    in between, the follower then waits for a notification that no later event
    can send: it waits in every state reachable from there. *)
Theorem coalesced_wakeup_lost :
  ∃ s i n, rtc step start s ∧ tasks s !! i = Some (Waits n) ∧
    ∀ s', rtc step s s' → tasks s' !! i = Some (Waits n).
Proof.
  set (s2 := mkState {[7%N := 0%N]} 1 [Leads 7; Follows 7]).
  set (s3 := mkState ∅ 1 [Proceeds; Holds 0%N]).
  exists (mkState ∅ 1 [Proceeds; Waits 0%N]), 1%nat, 0%N. split_and!.
  - eapply rtc_l; [apply (arrive start 7 (mkState {[7%N := 0%N]} 1 []) true); reflexivity|].
    eapply rtc_l; [apply (arrive (mkState {[7%N := 0%N]} 1 [Leads 7]) 7
                            (mkState {[7%N := 0%N]} 1 [Leads 7]) false); reflexivity|].
    eapply rtc_l; [apply (wait_lock s2 1 7); reflexivity|].
    eapply rtc_l; [apply (finish (mkState {[7%N := 0%N]} 1 [Leads 7; Holds 0%N]) 0 7);
                   reflexivity|].
    eapply rtc_l; [apply (wait_future s3 1 0); reflexivity|]. apply rtc_refl.
  - done.
  - intros s' Hrun.
    assert (stuck s' 1 0) as [H _]; [|done].
    remember (mkState ∅ 1 [Proceeds; Waits 0%N]) as s eqn:E.
    assert (stuck s 1 0) as Hs by (subst; split_and!; [done|simpl; lia|done]).
    clear E. induction Hrun as [|s0 s1 sn Hstep _ IH]; [done|].
    apply IH. by eapply stuck_step.
Qed.

End InFlightProps.

Module CacheFacts.
Import Cache.

(** The order lists exactly the keys of the entries. *)
Record cache_ok (c : RequestCache) : Prop := {
  ok_nodup : NoDup (order c);
  ok_dom : ∀ k, k ∈ order c ↔ is_Some (entries c !! k);
  ok_size : (size (entries c) ≤ max_entries c)%nat;
}.

Lemma elem_of_filter_ne k x (l : list N) :
  x ∈ List.filter (λ y, negb (N.eqb y k)) l ↔ x ∈ l ∧ x ≠ k.
Proof. rewrite !list_elem_of_In, filter_In. destruct (N.eqb_spec x k); simpl; naive_solver. Qed.

Lemma NoDup_list_filter (P : N → bool) l : NoDup l → NoDup (List.filter P l).
Proof.
  induction 1 as [|x l Hx Hl IH]; simpl; [constructor|]. case_match; [|done].
  constructor; [|done]. rewrite list_elem_of_In, filter_In, <- list_elem_of_In. tauto.
Qed.

(** What eviction keeps: a suffix of the order, within the capacity, and all of
    it when there is room. *)
Lemma evict_loop_spec max o : ∀ e,
  NoDup o → (∀ k, k ∈ o ↔ is_Some (e !! k)) →
  let '(e', o') := evict max e o in
  (∃ gone, o = gone ++ o' ∧ ∀ k, e' !! k = if bool_decide (k ∈ gone) then None else e !! k) ∧
  (size e' ≤ max)%nat ∧ ((size e ≤ max)%nat → e' = e) ∧
  ((max ≤ size e)%nat → size e' = max).
Proof.
  induction o as [|k o IH]; intros e Hnd Hdom; simpl.
  - assert (e = ∅) as ->.
    { apply map_eq. intros k. rewrite lookup_empty. destruct (e !! k) eqn:E; [|done].
      exfalso. apply (not_elem_of_nil k), Hdom. eauto. }
    rewrite map_size_empty. simpl. rewrite map_size_empty. split_and!; [|lia|done|lia].
    by exists [].
  - destruct (size e <=? max)%nat eqn:El; [apply Nat.leb_le in El|apply Nat.leb_gt in El].
    + split_and!; [by exists []|done|done|lia].
    + apply NoDup_cons in Hnd as [Hk Hnd].
      destruct (proj1 (Hdom k)) as [x Hx]; [set_solver|].
      assert (size e = S (size (delete k e))) as Hsz.
      { rewrite <- (insert_delete_id e k x Hx) at 1. apply map_size_insert_None, lookup_delete_eq. }
      specialize (IH (delete k e) Hnd). destruct (evict max (delete k e) o) as [e' o'].
      destruct IH as ((gone&->&Hg)&H2&H3&H4).
      { intros k'. destruct (decide (k = k')) as [<-|Hne].
        - rewrite lookup_delete_eq. split; [done|by intros []].
        - rewrite lookup_delete_ne by done. rewrite <- Hdom. set_solver. }
      split_and!; [|done|lia|intros; apply H4; lia].
      exists (k :: gone). split; [done|]. intros k'. rewrite Hg.
      destruct (decide (k = k')) as [<-|Hne].
      * rewrite lookup_delete_eq, (bool_decide_true (k ∈ k :: gone)) by set_solver.
        by case_bool_decide.
      * rewrite lookup_delete_ne by done. repeat case_bool_decide; set_solver.
Qed.

Lemma insert_order c key material body now :
  cache_ok c → can_write (mode c) = true →
  let o := (if bool_decide (is_Some (entries c !! key))
            then List.filter (λ k, negb (N.eqb k key)) (order c) else order c) ++ [key] in
  let e := <[key := mkEntry body now material]> (entries c) in
  NoDup o ∧ (∀ k, k ∈ o ↔ is_Some (e !! k)).
Proof.
  intros [Hnd Hdom _] _. cbv zeta. split.
  - apply NoDup_app. split_and!; [case_bool_decide; [by apply NoDup_list_filter|done]| |].
    + intros x Hx ->%list_elem_of_singleton. case_bool_decide as E.
      * by apply elem_of_filter_ne in Hx as [_ ?].
      * by apply E, Hdom.
    + apply NoDup_singleton.
  - intros k. rewrite elem_of_app, list_elem_of_singleton.
    destruct (decide (key = k)) as [<-|Hne].
    + rewrite lookup_insert_eq. split; [eauto|by right].
    + rewrite lookup_insert_ne by done. case_bool_decide; rewrite ?elem_of_filter_ne, Hdom;
        intuition congruence.
Qed.

Lemma insert_spec c key material body now :
  cache_ok c → can_write (mode c) = true →
  let c' := insert c key material body now in
  cache_ok c' ∧
  (∀ k, entries c' !! k = None ∨
        entries c' !! k = <[key := mkEntry body now material]> (entries c) !! k) ∧
  ((0 < max_entries c)%nat → entries c' !! key = Some (mkEntry body now material)) ∧
  ((size (entries c) < max_entries c)%nat →
     entries c' = <[key := mkEntry body now material]> (entries c)).
Proof.
  intros Hok Hw. unfold insert. rewrite Hw. simpl.
  pose proof (insert_order c key material body now Hok Hw) as [Hnd Hdom].
  set (o := _ ++ [key]) in *. set (e := <[key := _]> (entries c)) in *.
  pose proof (evict_loop_spec (max_entries c) o e Hnd Hdom) as Hev.
  destruct (evict (max_entries c) e o) as [e' o']. destruct Hev as ((gone&Ho&Hg)&H2&H3&H4).
  simpl. assert (∀ k, k ∈ o' ↔ is_Some (e' !! k)) as Hdom'.
  { intros k. rewrite Hg. rewrite Ho in Hnd. apply NoDup_app in Hnd as (Hnd1&Hdj&Hnd2).
    specialize (Hdom k). rewrite Ho, elem_of_app in Hdom. case_bool_decide as Ek.
    - split; [intros Hk; by destruct (Hdj k)|by intros []].
    - tauto. }
  split_and!.
  - split; simpl; [|done|done]. rewrite Ho in Hnd. by apply NoDup_app in Hnd as (_&_&?).
  - intros k. rewrite Hg. case_bool_decide; auto.
  - intros Hmax. rewrite Hg. case_bool_decide as Ek; [|by apply lookup_insert_eq].
    exfalso. assert (size e ≠ 0)%nat as Hsz.
    { intros Hz%map_size_empty_inv. apply (f_equal (.!! key)) in Hz.
      subst e. by rewrite lookup_insert_eq, lookup_empty in Hz. }
    destruct o' as [|x o1 _] using rev_ind.
    + assert (e' = ∅) as ->.
      { apply map_eq. intros k. rewrite lookup_empty. destruct (e' !! k) eqn:E; [|done].
        exfalso. apply (not_elem_of_nil k), Hdom'. eauto. }
      rewrite map_size_empty in *. destruct (decide (size e ≤ max_entries c)%nat) as [Hle|].
      * rewrite <- (H3 Hle), map_size_empty in Hsz. done.
      * specialize (H4 ltac:(lia)). lia.
    + assert (x = key) as ->.
      { subst o. rewrite app_assoc in Ho. by apply app_inj_tail in Ho as [_ <-]. }
      rewrite Ho in Hnd. apply NoDup_app in Hnd as (_&Hdj&_). apply (Hdj key Ek). set_solver.
  - intros Hlt. apply H3. subst e. rewrite map_size_insert. case_match; simpl; lia.
Qed.

Lemma sweep_spec c now :
  cache_ok c →
  let c' := (sweep_expired c now).1 in
  cache_ok c' ∧
  ∀ k, entries c' !! k = match entries c !! k with
                         | Some e => if expired c now e then None else Some e
                         | None => None
                         end.
Proof.
  intros [Hnd Hdom Hsz]. unfold sweep_expired.
  set (gone := (List.filter _ _).*1).
  assert (∀ k, k ∈ gone ↔ ∃ e, entries c !! k = Some e ∧ expired c now e = true) as Hgone.
  { intros k. subst gone. rewrite list_elem_of_fmap. split.
    - intros ([k' e]&->&Hin). rewrite list_elem_of_In, filter_In, <- list_elem_of_In in Hin.
      destruct Hin as [Hin%elem_of_map_to_list ?]. eauto.
    - intros (e&He&Hx). exists (k, e). split; [done|].
      rewrite list_elem_of_In, filter_In, <- list_elem_of_In. by rewrite elem_of_map_to_list. }
  assert (∀ l e o, let '(e', o') := foldl (λ '(e, o) k,
              (delete k e, List.filter (λ ok, negb (N.eqb ok k)) o)) (e, o) l in
            (∀ k, e' !! k = if bool_decide (k ∈ l) then None else (e : gmap N CacheEntry) !! k) ∧
            (∀ k, k ∈ o' ↔ k ∈ o ∧ k ∉ l) ∧ (NoDup o → NoDup o') ∧ (size e' ≤ size e)%nat) as Hfold.
  { induction l as [|k l IH]; intros e o; simpl; [set_solver|].
    specialize (IH (delete k e) (List.filter (λ ok, negb (N.eqb ok k)) o)).
    destruct (foldl _ _ l) as [e' o']. destruct IH as (I1&I2&I3&I4). split_and!.
    - intros k'. rewrite I1. destruct (decide (k = k')) as [<-|].
      + rewrite lookup_delete_eq. repeat case_bool_decide; set_solver.
      + rewrite lookup_delete_ne by done. repeat case_bool_decide; set_solver.
    - intros k'. rewrite I2, elem_of_filter_ne, not_elem_of_cons. tauto.
    - intros Ho. by apply I3, NoDup_list_filter.
    - etrans; [exact I4|]. apply map_subseteq_size, delete_subseteq. }
  specialize (Hfold gone (entries c) (order c)). destruct (foldl _ _ gone) as [e' o'].
  destruct Hfold as (F1&F2&F3&F4). simpl.
  assert (∀ k, e' !! k = match entries c !! k with
                         | Some e => if expired c now e then None else Some e
                         | None => None end) as He'.
  { intros k. rewrite F1. specialize (Hgone k). destruct (entries c !! k) as [x|]; case_bool_decide as Ek.
    - apply Hgone in Ek as (y&[= <-]&->). done.
    - destruct (expired c now x) eqn:Ex; [|done]. destruct Ek. apply Hgone. eauto.
    - done.
    - done. }
  split; [|exact He']. split; simpl; [auto| |lia].
  intros k. rewrite F2, Hdom, He', Hgone. destruct (entries c !! k) as [x|].
  - destruct (expired c now x) eqn:Ex; split.
    + intros [_ Hn]. destruct Hn. eauto.
    + by intros [].
    + eauto.
    + intros _. split; [eauto|]. intros (y&[= <-]&?). congruence.
  - split; [by intros [[] _]|by intros []].
Qed.

End CacheFacts.

Module CacheProps.
Import Cache CacheFacts.

Inductive event :=
  | Insert (key : N) (material body : string) (t : Instant)
  | Sweep (t : Instant)
  | Flush
  | SetMode (m : CacheMode).

Definition apply_event (c : RequestCache) (ev : event) : RequestCache :=
  match ev with
  | Insert key material body t => insert c key material body t
  | Sweep t => (sweep_expired c t).1
  | Flush => flush c
  | SetMode m => set_mode c m
  end.
Definition run (c : RequestCache) (evs : list event) : RequestCache := foldl apply_event c evs.

Definition supported (ttl_ms : Z) (max : nat) (evs : list event) (c : RequestCache) : Prop :=
  cache_ok c ∧ ttl c = ttl_ms ∧ max_entries c = max ∧
  ∀ k e, entries c !! k = Some e →
    Insert k (key_material e) (response_body e) (cached_at e) ∈ evs.

Lemma run_supported ttl_ms max m evs :
  supported ttl_ms max evs (run (new ttl_ms max m) evs).
Proof.
  induction evs as [|ev evs IH] using rev_ind.
  - split_and!; [split; simpl|done|done|].
    + constructor.
    + intros k. rewrite lookup_empty. split; [by intros ?%not_elem_of_nil|by intros []].
    + rewrite map_size_empty. lia.
    + intros k e. simpl. by rewrite lookup_empty.
  - unfold run in *. rewrite foldl_app. simpl. set (c := foldl _ _ evs) in *.
    destruct IH as (Hok&Httl&Hmax&Hsup).
    assert (∀ k e, entries c !! k = Some e →
      Insert k (key_material e) (response_body e) (cached_at e) ∈ evs ++ [ev]) as Hsup'
      by (intros; apply elem_of_app; left; by apply Hsup).
    unfold supported. destruct ev as [key material body t|t| |m']; simpl.
    + destruct (can_write (mode c)) eqn:Ew.
      2:{ unfold insert. rewrite Ew. by split_and!. }
      pose proof (insert_spec c key material body t Hok Ew) as (H1&H2&_&_).
      assert (ttl (insert c key material body t) = ttl c ∧
              max_entries (insert c key material body t) = max_entries c) as [-> ->].
      { unfold insert. rewrite Ew. simpl. by destruct (evict _ _ _). }
      split_and!; [done|done|done|]. intros k e He. destruct (H2 k) as [E|E]; [congruence|].
      rewrite E in He. apply lookup_insert_Some in He as [[<- <-]|[_ He]]; [|by apply Hsup'].
      simpl. set_solver.
    + pose proof (sweep_spec c t Hok) as [H1 H2].
      assert (ttl (sweep_expired c t).1 = ttl c ∧
              max_entries (sweep_expired c t).1 = max_entries c) as [-> ->].
      { unfold sweep_expired. generalize (foldl (λ '(e, o) k,
          (delete k e, List.filter (λ ok, negb (N.eqb ok k)) o)) (entries c, order c)). 
        intros f. match goal with |- context [f ?l] => by destruct (f l) end. }
      split_and!; [done|done|done|]. intros k e. rewrite H2.
      destruct (entries c !! k) as [x|] eqn:E; [|done]. case_match; [done|].
      intros [= <-]. by apply Hsup'.
    + split_and!; [split; simpl|done|done|].
      * constructor.
      * intros k. rewrite lookup_empty. split; [by intros ?%not_elem_of_nil|by intros []].
      * rewrite map_size_empty. lia.
      * intros k e. simpl. by rewrite lookup_empty.
    + destruct Hok as [O1 O2 O3]. by split_and!.
Qed.

(** C9. After any operations the cache is within its capacity, and a hit returns
    a response that was inserted for exactly this key material, less than the
    time to live ago: a collision of the 128-bit hash is never served. *)
Theorem cache_hit_sound ttl_ms max m evs key material now :
  let c := run (new ttl_ms max m) evs in
  (len c ≤ max)%nat ∧
  match get c key material now with
  | Some body => can_read (mode c) = true ∧
      ∃ t, Insert key material body t ∈ evs ∧ sat_sub now t < ttl_ms
  | None => True
  end.
Proof.
  intros c. destruct (run_supported ttl_ms max m evs) as ([_ _ Hsz]&Httl&Hmax&Hsup).
  fold c in Hsz, Httl, Hmax, Hsup. split; [unfold len; by rewrite <- Hmax|].
  unfold get. destruct (can_read (mode c)) eqn:Er; simpl; [|done].
  destruct (entries c !! key) as [e|] eqn:E; [|done].
  destruct (expired c now e) eqn:Ex; [done|].
  destruct (String.eqb_spec (key_material e) material) as [<-|]; [|done].
  split; [done|]. exists (cached_at e). split; [by apply Hsup|].
  unfold expired in Ex. rewrite Httl in Ex. lia.
Qed.

(** An insertion is visible at once and until it expires, also when it
    evicts; and while there is room it evicts nothing. *)
Theorem cache_insert_then_get ttl_ms max m evs key material body now later :
  let c := run (new ttl_ms max m) evs in
  mode c = On → (0 < max)%nat →
  let c' := insert c key material body now in
  get c' key material later = (if sat_sub later now <? ttl_ms then Some body else None) ∧
  ((len c < max)%nat → ∀ k mat t, k ≠ key → get c' k mat t = get c k mat t).
Proof.
  intros c Hm Hpos c'. destruct (run_supported ttl_ms max m evs) as (Hok&Httl&Hmax&_).
  fold c in Hok, Httl, Hmax.
  pose proof (insert_spec c key material body now Hok) as (_&_&H3&H4); [by rewrite Hm|].
  fold c' in H3, H4. rewrite Hmax in *.
  assert (mode c' = On ∧ ttl c' = ttl_ms) as [Hm' Httl'].
  { subst c'. unfold insert. rewrite Hm. simpl. by destruct (evict _ _ _). }
  split.
  - unfold get. rewrite Hm', (H3 Hpos). simpl. unfold expired. simpl.
    rewrite Httl', String.eqb_refl, Z.leb_antisym. by destruct (sat_sub later now <? ttl_ms).
  - intros Hlt k mat t Hk. unfold get, expired. rewrite Hm', Hm, Httl', Httl, (H4 Hlt).
    by rewrite lookup_insert_ne.
Qed.

Lemma cache_insert_then_get_witness :
  get (insert (run (new 60000 1 On) [Insert 1 "a" "x" 0]) 2 "b" "y" 10) 2 "b" 500 = Some "y".
Proof.
  destruct (cache_insert_then_get 60000 1 On [Insert 1 "a" "x" 0] 2 "b" "y" 10 500)
    as [H _]; [vm_compute; reflexivity|lia|].
  rewrite H. vm_compute. reflexivity.
Defined.

Section keys.
Context (to_string : Json.value → string) (quote : string → string).
Context (blake3 : string → list Z).

Definition kept (kv : string * Json.value) : bool :=
  negb (String.eqb kv.1 "stream" || String.eqb kv.1 "stream_options").

Lemma join_fields_kept b l :
  join_fields to_string quote b l = join_fields to_string quote b (List.filter kept l).
Proof using.
  revert b. induction l as [|kv l IH]; intros b; [done|]. simpl.
  destruct (kept kv) eqn:Ek; unfold kept in Ek;
    [apply negb_true_iff in Ek|apply negb_false_iff in Ek]; rewrite Ek.
  - simpl. rewrite Ek. by rewrite IH.
  - apply IH.
Qed.

Lemma StronglySorted_filter {A} (R : A → A → Prop) (P : A → bool) l :
  StronglySorted R l → StronglySorted R (List.filter P l).
Proof using.
  induction 1 as [|x l Hl IH Hx]; simpl; [constructor|]. case_match; [|done].
  constructor; [done|]. rewrite Forall_forall in *. intros y Hy. apply Hx.
  rewrite list_elem_of_In, filter_In, <- list_elem_of_In in Hy. tauto.
Qed.

(** The kept fields in order do not depend on the value of "stream". *)
Lemma kept_fields o v v' :
  List.filter kept (fields_in_order (<["stream" := v]> o)) =
  List.filter kept (fields_in_order (<["stream" := v']> o)).
Proof using.
  set (le := λ a b : string * Json.value, bool_decide (String.le a.1 b.1)).
  assert (∀ w, List.filter kept (fields_in_order (<["stream" := w]> o)) ≡ₚ
               List.filter kept (map_to_list (delete "stream" o))) as Hp.
  { intros w. assert (∀ l l', l ≡ₚ l' → List.filter kept l ≡ₚ List.filter kept l') as Hf.
    { intros l l'. induction 1; simpl; repeat case_match; eauto using Permutation. }
    etrans; [apply Hf, stable_sort_perm|]. rewrite <- insert_delete_eq.
    etrans; [apply Hf, map_to_list_insert, lookup_delete_eq|]. done. }
  assert (∀ w, StronglySorted (λ a b, le a b = true)
                 (List.filter kept (fields_in_order (<["stream" := w]> o)))) as Hs.
  { intros w. apply StronglySorted_filter, stable_sort_sorted; subst le; simpl.
    - intros a b. rewrite !bool_decide_eq_true. apply String.le_total.
    - intros a b d. rewrite !bool_decide_eq_true. intros. by etrans. }
  apply (StronglySorted_unique_strong (λ a b, le a b = true)); [|done|done|by rewrite !Hp].
  intros [k x] [k' x'] Hx Hx' H1 H2. rewrite Hp in Hx, Hx'.
  rewrite list_elem_of_In, filter_In, <- list_elem_of_In, elem_of_map_to_list in Hx, Hx'.
  subst le. simpl in *. rewrite bool_decide_eq_true in H1, H2.
  assert (k = k') as -> by (by apply (anti_symm String.le)).
  destruct Hx as [Hx _], Hx' as [Hx' _]. congruence.
Qed.

Lemma same_key model o v v' :
  compute_key to_string quote blake3 model (Json.Object (<["stream" := v]> o)) =
  compute_key to_string quote blake3 model (Json.Object (<["stream" := v']> o)).
Proof using.
  unfold compute_key, canonical_key_material.
  by rewrite (join_fields_kept true (fields_in_order (<["stream" := v]> o))), (kept_fields o v v'),
    <- join_fields_kept.
Qed.
End keys.

(** A streaming and a non-streaming request share a cache entry.  Bodies that
    differ in their "stream" field have the same key and the same material, so
    what was stored for one (the SSE text of a stream, or a JSON document) is
    what the other is served. *)
Theorem stream_and_json_share_entry to_string quote blake3 model o v v' c body now later :
  cache_ok c → mode c = On → (0 < max_entries c)%nat → sat_sub later now < ttl c →
  let '(k, mat) := compute_key to_string quote blake3 model
                     (Json.Object (<["stream" := v]> o)) in
  let '(k', mat') := compute_key to_string quote blake3 model
                       (Json.Object (<["stream" := v']> o)) in
  get (insert c k mat body now) k' mat' later = Some body.
Proof.
  intros Hok Hm Hpos Hfresh. rewrite (same_key _ _ _ _ _ v v').
  destruct (compute_key _ _ _ _ _) as [k mat].
  pose proof (insert_spec c k mat body now Hok) as (_&_&H3&_); [by rewrite Hm|].
  assert (mode (insert c k mat body now) = On ∧ ttl (insert c k mat body now) = ttl c)
    as [Hm' Httl'].
  { unfold insert. rewrite Hm. simpl. by destruct (evict _ _ _). }
  unfold get. rewrite Hm', (H3 Hpos). simpl. unfold expired. rewrite Httl'. simpl.
  rewrite String.eqb_refl. by rewrite (proj2 (Z.leb_gt _ _) Hfresh).
Qed.

Lemma stream_and_json_share_entry_witness :
  let key b := compute_key (λ _, "v") (λ s, s) (λ _, [1; 2]) "gpt-4"
                 (Json.Object (<["stream" := Json.Bool b]> {["model" := Json.Str "gpt-4"]})) in
  get (insert (new 60000 10 On) (key true).1 (key true).2 "data: {}" 0)
    (key false).1 (key false).2 5 = Some "data: {}".
Proof.
  cbv zeta.
  pose proof (stream_and_json_share_entry (λ _, "v") (λ s, s) (λ _, [1; 2]) "gpt-4"
    {["model" := Json.Str "gpt-4"]} (Json.Bool true) (Json.Bool false) (new 60000 10 On)
    "data: {}" 0 5) as H.
  apply H.
  - apply (run_supported 60000 10 On []).
  - reflexivity.
  - simpl. lia.
  - vm_compute. reflexivity.
Defined.

End CacheProps.
