(* ===== verification/Access.v ===== *)
(** Access control (middleware/auth.rs, middleware/rbac.rs and
    middleware/virtual_key.rs): the lock-out of addresses that fail to
    authenticate, the bearer tokens and roles of the administration interface,
    and the gate that authenticates proxy requests by virtual key.

    A middleware is the function of what it reads of the request to its
    verdict: to run the next handler, or the status it answers with.  A lock
    is never poisoned: nothing panics while holding one. *)

From S2P Require Import Prelude Channel Trackers RedisRateLimit RateLimiter Affinity VirtualKey.

Module Lockout.

Definition MAX_ATTEMPTS : Z := 3.
Definition WINDOW_SECS : Z := 10.
Definition BLOCK_SECS : Z := 60.
Definition CLEANUP_SECS : Z := 120.

Record AuthAttemptInfo := mkInfo {
  fail_count : Z;
  first_fail : Instant;
  blocked_until : option Instant;
}.

Abbreviation Attempts := (gmap string AuthAttemptInfo) (only parsing).

(** [now.duration_since(then).as_secs()]: no earlier than 0, in whole seconds. *)
Definition secs_since (earlier now : Instant) : Z := sat_sub now earlier / 1000.

Definition blocked (info : option AuthAttemptInfo) (now : Instant) : bool :=
  match info with
  | Some i => match blocked_until i with Some until => now <? until | None => false end
  | None => false
  end.

Definition is_rate_limited (map : Attempts) (ip : string) (now : Instant) : bool :=
  blocked (map !! ip) now.

(** One more failure for the entry found, or a new one. *)
Definition fail_info (found : option AuthAttemptInfo) (now : Instant) : AuthAttemptInfo :=
  let info := default (mkInfo 0 now None) found in
  let info := if WINDOW_SECS <=? secs_since (first_fail info) now
              then mkInfo 0 now None else info in
  let count := add_u32 (fail_count info) 1 in
  mkInfo count (first_fail info)
    (if MAX_ATTEMPTS <=? count then Some (now + millis_of_secs BLOCK_SECS)
     else blocked_until info).

Definition purge (map : Attempts) (now : Instant) : Attempts :=
  filter (λ e, secs_since (first_fail e.2) now < CLEANUP_SECS) map.

Definition record_auth_failure (map : Attempts) (ip : string) (now : Instant) : Attempts :=
  let map := purge map now in
  <[ip := fail_info (map !! ip) now]> map.

Definition record_auth_success (map : Attempts) (ip : string) : Attempts := delete ip map.

End Lockout.

Module Rbac.

Inductive Role := SuperAdmin | KeyManager | Auditor.

#[global] Instance Role_eq_dec : EqDecision Role.
Proof. solve_decision. Defined.

Definition parse_role (s : string) : option Role :=
  let s := to_lowercase s in
  if bool_decide (s ∈ ["super_admin"; "superadmin"; "admin"]) then Some SuperAdmin
  else if bool_decide (s ∈ ["key_manager"; "keymanager"]) then Some KeyManager
  else if bool_decide (s ∈ ["auditor"; "audit"]) then Some Auditor
  else None.

Definition VK_PREFIXES : list string := ["/api/virtual-keys"; "/v1/api/virtual-keys"].

Definition is_virtual_keys_path (path : string) : bool :=
  existsb (λ prefix, String.eqb path prefix || starts_with path (prefix +:+ "/")) VK_PREFIXES.

(** [http::Method::is_safe] *)
Definition is_safe (method : string) : bool :=
  bool_decide (method ∈ ["GET"; "HEAD"; "OPTIONS"; "TRACE"]).

Definition is_permitted (method path : string) (role : Role) : bool :=
  match role with
  | SuperAdmin => true
  | KeyManager => if is_safe method then true else is_virtual_keys_path path
  | Auditor => is_safe method
  end.

(** [rbac_middleware]: whether the next handler runs (403 otherwise). *)
Definition rbac_middleware (role : option Role) (method path : string) : bool :=
  match role with None => true | Some r => is_permitted method path r end.

End Rbac.

Module Gate.
Import Lockout.

(** What the middlewares read of a request: the address of the TCP peer, and
    the headers whose values are printable. *)
Record Request := mkRequest {
  peer : option string;
  header : string → option string;
}.

Definition nonempty (s : string) : option string := if String.eqb s "" then None else Some s.

Definition extract_client_ip (req : Request) (trust_forwarded : bool) : string :=
  match peer req with
  | Some ip => ip
  | None =>
      if trust_forwarded then
        match header req "x-real-ip" ≫= λ v, nonempty (trim v) with
        | Some ip => ip
        | None =>
            match header req "x-forwarded-for" ≫= λ v,
                    head (split_on "," v) ≫= λ first, nonempty (trim first) with
            | Some ip => ip
            | None => "unknown"
            end
        end
      else "unknown"
  end.

Definition verify_bearer_token (header_value expected : string) : bool :=
  match strip_prefix "Bearer " header_value with
  | Some token => String.eqb token expected
  | None => false
  end.

Record Security := mkSecurity {
  admin_token : option string;
  admin_roles : list (string * Rbac.Role);
  trust_forwarded_headers : bool;
}.

Inductive Verdict :=
  | Next (role : option Rbac.Role)
  | TooManyRequests
  | Unauthorized.

Definition role_of (sec : Security) (h : string) : option Rbac.Role :=
  if match admin_token sec with Some t => verify_bearer_token h t | None => false end
  then Some Rbac.SuperAdmin
  else snd <$> List.find (λ e, verify_bearer_token h e.1) (admin_roles sec).

Definition admin_auth_middleware (sec : Security) (map : gmap string AuthAttemptInfo)
    (req : Request) (now : Instant) : gmap string AuthAttemptInfo * Verdict :=
  if bool_decide (admin_token sec = None) && bool_decide (admin_roles sec = [])
  then (map, Next None)
  else
    let ip := extract_client_ip req (trust_forwarded_headers sec) in
    if is_rate_limited map ip now then (map, TooManyRequests)
    else
      match header req "Authorization" with
      | Some h =>
          match role_of sec h with
          | Some role => (record_auth_success map ip, Next (Some role))
          | None => (record_auth_failure map ip now, Unauthorized)
          end
      | None => (record_auth_failure map ip now, Unauthorized)
      end.

(** What an answer of a log-in route with this status, given at [later], records. *)
Definition record_answer (map : gmap string AuthAttemptInfo) (ip : string) (status : Z) (later : Instant)
    : gmap string AuthAttemptInfo :=
  if status =? 401 then record_auth_failure map ip later
  else if (200 <=? status) && (status <? 300) then record_auth_success map ip
  else map.

(** [auth_rate_limit_middleware]: [run] is the status of the handler, which
    answers at [later]. *)
Definition auth_rate_limit_middleware (sec : Security) (map : gmap string AuthAttemptInfo)
    (req : Request) (run : Z) (now later : Instant)
    : gmap string AuthAttemptInfo * Z :=
  let ip := extract_client_ip req (trust_forwarded_headers sec) in
  if is_rate_limited map ip now then (map, 429) else (record_answer map ip run later, run).

(** [virtual_key_middleware].  [Forward v] runs the next handler with the
    header [x-virtual-key-id] holding [v] (removed when [None]). *)
Inductive KeyVerdict :=
  | Forward (vk_id : option Uuid)
  | Reject (status : Z).

Section virtual_key.
Context (sha256 : string → list Z) (show_uuid : Uuid → string) (link : string → bool).

Definition virtual_key_middleware (store : VirtualKey.VirtualKeyStore)
    (limiter : KeyRateLimiter.KeyRateLimiter) (db : Redis.Db) (trust_forwarded : bool)
    (req : Request) (d : VirtualKey.LocalDate) (date : DateTime) (now : Instant)
    : KeyRateLimiter.KeyRateLimiter * Redis.Db * KeyVerdict :=
  if negb (VirtualKey.has_keys store) then (limiter, db, Forward None)
  else
    match header req "Authorization" ≫= strip_prefix "Bearer " with
    | None => (limiter, db, Reject 401)
    | Some token =>
        match VirtualKey.validate sha256 store token d date with
        | None => (limiter, db, Reject 401)
        | Some vk =>
            if negb (bool_decide (VirtualKey.allowed_ips vk = [])) &&
               negb (VirtualKey.check_ip_allowed vk (extract_client_ip req trust_forwarded))
            then (limiter, db, Reject 403)
            else
              let u := VirtualKey.id vk in
              let '(limiter, db, rpm_ok) :=
                match VirtualKey.rpm_limit vk with
                | Some l => KeyRateLimiter.check show_uuid link now limiter u l db
                | None => (limiter, db, true)
                end in
              if negb rpm_ok then (limiter, db, Reject 429)
              else
                let '(limiter, db, tpm_ok) :=
                  match VirtualKey.tpm_limit vk with
                  | Some l => KeyRateLimiter.check_tpm show_uuid link now limiter u l db
                  | None => (limiter, db, true)
                  end in
                if negb tpm_ok then (limiter, db, Reject 429)
                else
                  let '(limiter, db) := KeyRateLimiter.record show_uuid link now limiter u db in
                  (limiter, db, Forward (Some u))
        end
    end.
End virtual_key.

End Gate.

(** ** The lock-out of an address is its own affair *)

Module LockoutFacts.
Import Lockout.

Inductive event :=
  | Fail (ip : string) (t : Instant)
  | Success (ip : string).

Definition apply_event (m : gmap string AuthAttemptInfo) (ev : event)
    : gmap string AuthAttemptInfo :=
  match ev with
  | Fail ip t => record_auth_failure m ip t
  | Success ip => record_auth_success m ip
  end.
Definition run (h : list event) : gmap string AuthAttemptInfo := foldl apply_event ∅ h.

(** The entry of one address when no other address exists and nothing is
    ever purged. *)
Definition own_event (ip : string) (o : option AuthAttemptInfo) (ev : event)
    : option AuthAttemptInfo :=
  match ev with
  | Fail ip' t => if String.eqb ip' ip then Some (fail_info o t) else o
  | Success ip' => if String.eqb ip' ip then None else o
  end.
Definition own (ip : string) (h : list event) : option AuthAttemptInfo :=
  foldl (own_event ip) None h.

(** The failures come at non-decreasing times up to [now]. *)
Fixpoint timed (last now : Z) (h : list event) : Prop :=
  match h with
  | [] => last ≤ now
  | Fail _ t :: h' => last ≤ t ∧ timed t now h'
  | Success _ :: h' => timed last now h'
  end.

(** An entry [i] at time [last]: its block ends soon after its window. *)
Definition sound (last : Instant) (o : option AuthAttemptInfo) : Prop :=
  match o with
  | Some i => first_fail i ≤ last ∧
      match blocked_until i with Some u => u ≤ first_fail i + 70000 | None => True end
  | None => True
  end.

(** The stored entry is the own one, unless it is old enough to be purged. *)
Definition synced (last : Instant) (stored o : option AuthAttemptInfo) : Prop :=
  stored = o ∨
  stored = None ∧ ∃ i, o = Some i ∧ CLEANUP_SECS ≤ secs_since (first_fail i) last.

Lemma secs_since_ge i now n : 0 < n → n ≤ secs_since i now ↔ 1000 * n ≤ now - i.
Proof.
  unfold secs_since, sat_sub. intros Hn. split; intros H.
  - pose proof (Z.mul_div_le (Z.max 0 (now - i)) 1000). lia.
  - apply Z.div_le_lower_bound; lia.
Qed.

Lemma sound_later last now o : last ≤ now → sound last o → sound now o.
Proof. intros Hl. destruct o as [i|]; [|done]. intros [H1 H2]. split; [lia|done]. Qed.

Lemma synced_later last now stored o : last ≤ now → synced last stored o → synced now stored o.
Proof.
  intros Hl [->|(->&i&->&Hi)]; [by left|]. right. split; [done|]. exists i. split; [done|].
  revert Hi. unfold CLEANUP_SECS. rewrite !secs_since_ge by lia. lia.
Qed.

Lemma synced_purge last now (m : gmap string AuthAttemptInfo) ip o :
  last ≤ now → synced last (m !! ip) o → synced now (purge m now !! ip) o.
Proof.
  intros Hl Hs. apply (synced_later _ now) in Hs as [Hs|(Hn&i&->&Hi)]; [|right|done].
  - unfold purge. destruct (m !! ip) as [i|] eqn:E; subst o.
    + destruct (decide (secs_since (first_fail i) now < CLEANUP_SECS)) as [Hd|Hd].
      * left. by apply map_lookup_filter_Some_2.
      * right. split; [|exists i; split; [done|lia]].
        apply map_lookup_filter_None_2. right. intros x Hx. by simplify_eq.
    + left. by apply map_lookup_filter_None_2; left.
  - split; [|by exists i]. by apply map_lookup_filter_None_2; left.
Qed.

Lemma synced_fail now stored o : synced now stored o → fail_info stored now = fail_info o now.
Proof.
  intros [->|(->&i&->&Hi)]; [done|]. unfold fail_info. cbn [from_option id].
  assert ((WINDOW_SECS <=? secs_since (first_fail i) now) = true) as ->
    by (unfold WINDOW_SECS, CLEANUP_SECS in *; lia).
  cbn [first_fail]. by destruct (_ <=? secs_since now now).
Qed.

Lemma synced_blocked now stored o :
  sound now o → synced now stored o → blocked stored now = blocked o now.
Proof.
  intros Ho [->|(->&i&->&Hi)]; [done|]. destruct Ho as [_ Hb]. unfold blocked.
  unfold CLEANUP_SECS in Hi. apply secs_since_ge in Hi; [|lia].
  destruct (blocked_until i); [lia|done].
Qed.

Lemma sound_fail now o : sound now o → sound now (Some (fail_info o now)).
Proof.
  intros Ho. unfold fail_info, BLOCK_SECS, millis_of_secs.
  set (i := default (mkInfo 0 now None) o).
  assert (Hi : sound now (Some i)) by (subst i; destruct o; simpl; [done|split; [lia|done]]).
  clearbody i. clear o Ho. destruct Hi as [H1 H2].
  destruct (Z.leb_spec WINDOW_SECS (secs_since (first_fail i) now)) as [Hw|Hw];
    cbn [first_fail fail_count blocked_until].
  - split; cbn [first_fail blocked_until]; [lia|]. destruct (MAX_ATTEMPTS <=? _); [lia|done].
  - assert (now - first_fail i < 10000).
    { apply Z.nle_gt. intros Hc. enough (WINDOW_SECS ≤ secs_since (first_fail i) now) by lia.
      unfold WINDOW_SECS. apply secs_since_ge; lia. }
    split; cbn [first_fail blocked_until]; [done|]. destruct (MAX_ATTEMPTS <=? _); [lia|done].
Qed.

Lemma synced_record last now (m : gmap string AuthAttemptInfo) ip ip' o :
  last ≤ now → synced last (m !! ip) o →
  synced now (record_auth_failure m ip' now !! ip)
    (if String.eqb ip' ip then Some (fail_info o now) else o).
Proof.
  intros Hl Hs. pose proof (synced_purge _ _ _ _ _ Hl Hs) as Hp. unfold record_auth_failure.
  destruct (String.eqb_spec ip' ip) as [->|Hne].
  - left. rewrite lookup_insert_eq. by rewrite (synced_fail _ _ _ Hp).
  - by rewrite lookup_insert_ne.
Qed.

Lemma synced_success last (m : gmap string AuthAttemptInfo) ip ip' o :
  synced last (m !! ip) o →
  synced last (record_auth_success m ip' !! ip) (if String.eqb ip' ip then None else o).
Proof.
  intros Hs. unfold record_auth_success. destruct (String.eqb_spec ip' ip) as [->|Hne].
  - left. apply lookup_delete_eq.
  - by rewrite lookup_delete_ne.
Qed.

Lemma run_synced ip now h : ∀ last m o,
  timed last now h → sound last o → synced last (m !! ip) o →
  sound now (foldl (own_event ip) o h) ∧
  synced now (foldl apply_event m h !! ip) (foldl (own_event ip) o h).
Proof.
  induction h as [|[ip' t|ip'] h IH]; intros last m o Ht Ho Hs; simpl.
  - split; [by eapply sound_later|by eapply synced_later].
  - destruct Ht as [Hl Ht]. apply (IH t); [done| |by eapply synced_record].
    case_match; [apply sound_fail|]; by eapply sound_later.
  - apply (IH last); [done| |by apply synced_success]. by case_match.
Qed.

End LockoutFacts.

Module LockoutProps.
Import Lockout LockoutFacts.

(** Whether an address is locked out depends on its own attempts alone:
    whatever other addresses do, and although old entries of all addresses
    are purged along the way, the verdict is that of a limiter that has only
    ever seen this address and never forgets. *)
Theorem lockout_per_ip h ip now :
  timed 0 now h →
  is_rate_limited (run h) ip now = blocked (own ip h) now.
Proof.
  intros Ht. unfold is_rate_limited.
  destruct (run_synced ip now h 0 ∅ None Ht I) as [Ho Hs]; [by left|].
  by apply synced_blocked.
Qed.

Definition sample_attempts : list event :=
  [Fail "10.0.0.1" 0; Fail "10.0.0.2" 500; Fail "10.0.0.1" 1000; Fail "10.0.0.1" 2000;
   Fail "10.0.0.2" 40000].

Lemma lockout_per_ip_witness :
  timed 0 50000 sample_attempts ∧
  is_rate_limited (run sample_attempts) "10.0.0.1" 50000 = true ∧
  is_rate_limited (run sample_attempts) "10.0.0.1" 50000 =
    blocked (own "10.0.0.1" sample_attempts) 50000.
Proof.
  assert (H : timed 0 50000 sample_attempts) by (simpl; lia).
  split; [done|]. split; [by vm_compute|]. by apply lockout_per_ip.
Defined.

End LockoutProps.

(** ** How fast an address may guess *)

Module PacingFacts.
Import Lockout Gate LockoutFacts.

(** What touches the entries: a request for the administrator's routes, and the answer
    to a request for a log-in route that was let in at some time before. *)
Inductive call :=
  | Ask (req : Request) (t : Instant)
  | Answered (req : Request) (status : Z) (t : Instant).
Definition time (c : call) : Instant := match c with Ask _ t | Answered _ _ t => t end.
Fixpoint ordered (last : Z) (cs : list call) : Prop :=
  match cs with [] => True | c :: rest => last ≤ time c ∧ ordered (time c) rest end.

Section calls.
Context (sec : Security).

Definition address (req : Request) : string := extract_client_ip req (trust_forwarded_headers sec).
Definition after (m : gmap string AuthAttemptInfo) (c : call) : gmap string AuthAttemptInfo :=
  match c with
  | Ask req t => (admin_auth_middleware sec m req t).1
  | Answered req status t => record_answer m (address req) status t
  end.

(** The time at which the call has its credentials refused, if it comes from [ip]. *)
Definition guess (ip : string) (m : gmap string AuthAttemptInfo) (c : call) : list Instant :=
  match c with
  | Ask req t =>
      match (admin_auth_middleware sec m req t).2 with
      | Unauthorized => if String.eqb (address req) ip then [t] else []
      | _ => []
      end
  | Answered _ _ _ => []
  end.
Fixpoint guesses (ip : string) (m : gmap string AuthAttemptInfo) (cs : list call) : list Instant :=
  match cs with [] => [] | c :: rest => guess ip m c ++ guesses ip (after m c) rest end.

(** The address shows a valid token, or a log-in route answers it with a success, which
    removes its entry. *)
Definition clears (ip : string) (c : call) : bool :=
  match c with
  | Ask req _ => String.eqb (address req) ip && bool_decide (is_Some (header req "Authorization" ≫= role_of sec))
  | Answered req status _ => String.eqb (address req) ip && ((200 <=? status) && (status <? 300))
  end.

(** What the own entry knows of the refusals [E] since it was last removed, the latest
    first: those of its window, [W], and those of earlier ones, [P]. *)
Definition paced (last : Instant) (E : list Instant) (o : option AuthAttemptInfo) : Prop :=
  match o with
  | None => E = []
  | Some (mkInfo c f b) => ∃ W P,
      E = W ++ P ∧ f ≤ last ∧
      Forall (λ x, f ≤ x < f + 10000) W ∧ Forall (λ x, x ≤ f) P ∧
      (length W ≤ 3)%nat ∧ (length W = 3%nat → W !! 2%nat = Some f) ∧
      (∀ n x, (2 ≤ n)%nat → P !! n = Some x → x + 10000 ≤ f) ∧
      match b with
      | Some u => f + 60000 ≤ u
      | None => 1 ≤ c ≤ 2 ∧ Z.of_nat (length W) ≤ c ∧
          (Z.of_nat (length W) = c → W !! pred (length W) = Some f ∧
             ∀ n x, (1 ≤ n)%nat → P !! n = Some x → x + 10000 ≤ f)
      end
  end.

Lemma paced_later last now E o : last ≤ now → paced last E o → paced now E o.
Proof.
  intros Hl. destruct o as [[c f b]|]; [|done]. intros (W&P&H1&H2&H3). exists W, P. split; [done|]. split; [lia|done].
Qed.

(** Every refusal comes at least ten seconds after the fourth before it. *)
Definition distant (E : list Instant) (t : Instant) : Prop := ∀ x, E !! 3%nat = Some x → x + 10000 ≤ t.

(** Where the refusals of an entry are when its window is over. *)
Lemma window_over W P f t :
  Forall (λ x, f ≤ x < f + 10000) W → Forall (λ x, x ≤ f) P → (length W ≤ 3)%nat → (length W = 3%nat → W !! 2%nat = Some f) →
  f + 10000 ≤ t → ∀ n x, (2 ≤ n)%nat → (W ++ P) !! n = Some x → x + 10000 ≤ t.
Proof.
  intros HW HP Hl H3 Ht n x Hn Hx. apply lookup_app_Some in Hx as [Hx|[Hge Hx]].
  - assert (n = 2%nat) as -> by (apply lookup_lt_Some in Hx; lia). apply lookup_lt_Some in Hx as Hlt.
    rewrite H3 in Hx by lia. injection Hx as <-. lia.
  - rewrite Forall_lookup in HP. specialize (HP _ _ Hx). lia.
Qed.

Lemma fail_info_new o t : (∀ c f b, o = Some (mkInfo c f b) → f + 10000 ≤ t) → fail_info o t = mkInfo 1 t None.
Proof.
  intros H. unfold fail_info. destruct o as [[c f b]|]; cbn [from_option id first_fail].
  - specialize (H c f b eq_refl). destruct (Z.leb_spec WINDOW_SECS (secs_since f t)) as [_|Hw]; [done|].
    exfalso. enough (WINDOW_SECS ≤ secs_since f t) by lia. unfold WINDOW_SECS. apply secs_since_ge; lia.
  - by destruct (WINDOW_SECS <=? secs_since t t).
Qed.
Lemma fail_info_more c f b t :
  f ≤ t < f + 10000 →
  fail_info (Some (mkInfo c f b)) t =
    mkInfo (add_u32 c 1) f (if 3 <=? add_u32 c 1 then Some (t + 60000) else b).
Proof.
  intros H. unfold fail_info. cbn [from_option id first_fail]. destruct (Z.leb_spec WINDOW_SECS (secs_since f t)) as [Hw|_]; [|done].
  unfold WINDOW_SECS in Hw. apply secs_since_ge in Hw; lia.
Qed.
Lemma add_u32_small c : 0 ≤ c ≤ 2 → add_u32 c 1 = c + 1.
Proof. intros H. unfold add_u32, wrap32. rewrite Z.mod_small; lia. Qed.

(** A failed log-in may come while the address is blocked, and starts a new window when
    the old one is over. *)
Lemma paced_answer t E o : paced t E o → paced t E (Some (fail_info o t)).
Proof.
  destruct o as [[c f b]|].
  2: { intros ->. rewrite fail_info_new by done. exists [], []. by split_and!; try (cbn; lia). }
  intros (W&P&->&Hf&HW&HP&Hl&H3&HA&Hb). destruct (Z.le_gt_cases (f + 10000) t) as [Hn|Hn].
  - rewrite fail_info_new by (intros; simplify_eq; lia). exists [], (W ++ P).
    split_and!; try done; try (cbn; lia).
    + rewrite Forall_app. split; [apply (Forall_impl _ _ _ HW)|apply (Forall_impl _ _ _ HP)]; cbn; lia.
    + by apply (window_over W P f t).
  - rewrite fail_info_more by lia. exists W, P. split_and!; try done.
    destruct b as [u|].
    + destruct (3 <=? _); lia.
    + destruct Hb as (Hc&Hw&HB). rewrite add_u32_small by lia. destruct (Z.leb_spec 3 (c + 1)); [lia|].
      split; [lia|]. split; [lia|]. intros. lia.
Qed.

(** A refusal comes when it is not. *)
Lemma paced_fail t E o :
  paced t E o → blocked o t = false → paced t (t :: E) (Some (fail_info o t)) ∧ distant E t.
Proof.
  destruct o as [[c f b]|].
  2: { intros -> _. rewrite fail_info_new by done. split; [|done]. exists [t], [].
       split_and!; try done; try (cbn; lia); [|by constructor; lia..]. repeat constructor; lia. }
  intros (W&P&->&Hf&HW&HP&Hl&H3&HA&Hb) Hblk. destruct (Z.le_gt_cases (f + 10000) t) as [Hn|Hn].
  - rewrite fail_info_new by (intros; simplify_eq; lia).
    pose proof (window_over W P f t HW HP Hl H3 Hn) as Hover.
    split; [|intros x Hx; by apply (Hover 3%nat x); [lia|]]. exists [t], (W ++ P).
    split_and!; try done; try (cbn; lia).
    + repeat constructor; lia.
    + rewrite Forall_app. split; [apply (Forall_impl _ _ _ HW)|apply (Forall_impl _ _ _ HP)]; cbn; lia.
    + intros _. split; [done|]. intros n x Hn1 Hx. destruct (decide (2 ≤ n)%nat) as [|Hn2]; [by apply (Hover n)|].
      assert (n = 1%nat) as -> by lia. clear Hn1 Hn2. apply lookup_app_Some in Hx as [Hx|[Hge Hx]].
      * destruct b as [u|].
        -- cbn in Hblk. rewrite Forall_lookup in HW. specialize (HW _ _ Hx). lia.
        -- destruct Hb as (Hc&Hw&HB). apply lookup_lt_Some in Hx as Hlt. assert (length W = 2%nat) as E2 by lia.
           destruct HB as [HB _]; [lia|]. rewrite E2 in HB. cbn in HB. rewrite HB in Hx. injection Hx as <-. lia.
      * rewrite Forall_lookup in HP. specialize (HP _ _ Hx). lia.
  - destruct b as [u|]; [cbn in Hblk; lia|]. destruct Hb as (Hc&Hw&HB).
    rewrite fail_info_more, add_u32_small by lia. split.
    + exists (t :: W), P. split_and!; try done.
      * constructor; [lia|done].
      * cbn. lia.
      * cbn [length]. intros HW2. assert (length W = 2%nat) as E2 by lia. destruct HB as [HB _]; [lia|].
        rewrite E2 in HB. exact HB.
      * destruct (Z.leb_spec 3 (c + 1)); [lia|]. cbn [length]. split; [lia|]. split; [lia|].
        intros Hlen. destruct HB as [HB1 HB2]; [lia|]. split; [|done]. destruct W; [cbn in Hlen; lia|]. exact HB1.
    + intros x Hx. rewrite lookup_app_r in Hx by lia. destruct (decide (length W = 2%nat)) as [E2|E2].
      * destruct HB as [_ HB]; [lia|]. specialize (HB (3 - length W)%nat x ltac:(lia) Hx). lia.
      * specialize (HA (3 - length W)%nat x ltac:(lia) Hx). lia.
Qed.

(** The cases of the administrator's middleware. *)
Lemma admin_cases m req t :
  (∃ v, admin_auth_middleware sec m req t = (m, v) ∧ v ≠ Unauthorized) ∨
  (∃ v, admin_auth_middleware sec m req t = (record_auth_success m (address req), v) ∧ v ≠ Unauthorized ∧
     is_Some (header req "Authorization" ≫= role_of sec)) ∨
  (is_rate_limited m (address req) t = false ∧
   admin_auth_middleware sec m req t = (record_auth_failure m (address req) t, Unauthorized)).
Proof.
  unfold admin_auth_middleware. fold (address req). destruct (_ && _); [left; by eexists|].
  destruct (is_rate_limited _ _ _); [left; by eexists|]. destruct (header req "Authorization") as [h|]; cbn; [|by auto].
  destruct (role_of sec h) as [role|] eqn:Er; [|by auto]. right. left. eexists. by split_and!.
Qed.

(** What is known of an address: its own entry, what it stores and what it tells. *)
Definition known (ip : string) (last : Instant) (E : list Instant) (m : gmap string AuthAttemptInfo) : Prop :=
  ∃ o, sound last o ∧ synced last (m !! ip) o ∧ paced last E o.

Lemma known_later ip last now E m : last ≤ now → known ip last E m → known ip now E m.
Proof.
  intros Hl (o&H1&H2&H3). exists o.
  split_and!; [by eapply sound_later|by eapply synced_later|by eapply paced_later].
Qed.
Lemma known_success ip a t E m :
  known ip t E m → known ip t (if String.eqb a ip then [] else E) (record_auth_success m a).
Proof.
  intros (o&H1&H2&H3). exists (if String.eqb a ip then None else o). split_and!.
  - by destruct (String.eqb a ip).
  - by apply synced_success.
  - by destruct (String.eqb a ip).
Qed.
Lemma known_answer ip a t E m : known ip t E m → known ip t E (record_auth_failure m a t).
Proof.
  intros (o&H1&H2&H3). exists (if String.eqb a ip then Some (fail_info o t) else o). split_and!.
  - destruct (String.eqb a ip); [by apply sound_fail|done].
  - by eapply synced_record.
  - destruct (String.eqb a ip); [by apply paced_answer|done].
Qed.
Lemma known_refusal ip a t E m :
  known ip t E m → is_rate_limited m a t = false →
  known ip t (if String.eqb a ip then t :: E else E) (record_auth_failure m a t) ∧ (a = ip → distant E t).
Proof.
  intros (o&H1&H2&H3) Hb. destruct (String.eqb_spec a ip) as [->|Hne].
  - destruct (paced_fail t E o H3) as [H4 H5].
    { rewrite <- (synced_blocked _ _ _ H1 H2). exact Hb. }
    split; [|done]. exists (Some (fail_info o t)). split_and!; [by apply sound_fail| |done].
    pose proof (synced_record t t m ip ip o ltac:(lia) H2) as H6. by rewrite String.eqb_refl in H6.
  - split; [|done]. exists o. split_and!; [done| |done].
    pose proof (synced_record t t m ip a o ltac:(lia) H2) as H6.
    by rewrite (proj2 (String.eqb_neq a ip) Hne) in H6.
Qed.

(** One call, and any number of them. *)
Lemma known_after ip last E m c :
  last ≤ time c → known ip last E m → ∃ E', known ip (time c) E' (after m c).
Proof.
  intros Hl Hk%(known_later _ _ _ _ _ Hl). destruct c as [req t|req status t]; cbn [time after] in *.
  - destruct (admin_cases m req t) as [(v&->&_)|[(v&->&_)|[Hb ->]]]; cbn [fst].
    + by exists E.
    + eexists. by apply known_success.
    + eexists. by apply (known_refusal ip _ t E m Hk Hb).
  - unfold record_answer. repeat case_match; [eexists; by apply known_answer|eexists; by apply known_success|by exists E].
Qed.
Lemma known_call ip last E m c :
  last ≤ time c → clears ip c = false → known ip last E m →
  known ip (time c) (guess ip m c ++ E) (after m c) ∧ ∀ t, t ∈ guess ip m c → guess ip m c = [t] ∧ distant E t.
Proof.
  intros Hl Hc Hk%(known_later _ _ _ _ _ Hl). destruct c as [req t|req status t]; cbn [time clears after guess] in *.
  - destruct (admin_cases m req t) as [(v&->&Hv)|[(v&->&Hv&Ht)|[Hb ->]]]; cbn [fst snd].
    + destruct v; try done; by split; [|intros ? ?%elem_of_nil].
    + rewrite bool_decide_true, andb_true_r in Hc by done.
      pose proof (known_success ip (address req) t E m Hk) as Hs. rewrite Hc in Hs.
      destruct v; try done; by split; [|intros ? ?%elem_of_nil].
    + destruct (known_refusal ip (address req) t E m Hk Hb) as [Hr Hd].
      destruct (String.eqb_spec (address req) ip) as [He|He]; cbn [app].
      * split; [done|]. intros x ->%list_elem_of_singleton. by auto.
      * by split; [|intros ? ?%elem_of_nil].
  - split; [|by intros ? ?%elem_of_nil]. unfold record_answer. destruct (Z.eqb_spec status 401) as [->|_]; [by apply known_answer|].
    destruct ((200 <=? status) && (status <? 300)); [|done].
    pose proof (known_success ip (address req) t E m Hk) as Hs. by rewrite andb_true_r in Hc; rewrite Hc in Hs.
Qed.

Definition run (cs : list call) : gmap string AuthAttemptInfo := foldl after ∅ cs.
Lemma known_run ip before last m E rest :
  ordered last (before ++ rest) → known ip last E m →
  ∃ last' E', ordered last' rest ∧ known ip last' E' (foldl after m before).
Proof.
  revert last m E. induction before as [|c before IH]; intros last m E Ho Hk; [by exists last, E|].
  destruct Ho as [Hl Ho]. destruct (known_after ip last E m c Hl Hk) as [E' Hk']. by apply (IH (time c) _ E').
Qed.

(** At every distance of four, ten seconds: the latest first. *)
Definition spaced (E : list Instant) : Prop := ∀ i x y, E !! i = Some y → E !! (i + 4)%nat = Some x → x + 10000 ≤ y.
Lemma spaced_cons t E : spaced E → distant E t → spaced (t :: E).
Proof. intros HE Ht [|i] x y Hy Hx; simpl in *; simplify_eq; eauto. Qed.

(** Of the refusals [F ++ E] those before the calls, [E], need not be spaced. *)
Lemma guesses_spaced ip cs : ∀ last E F m,
  ordered last cs → (∀ c, c ∈ cs → clears ip c = false) → known ip last (F ++ E) m → spaced F →
  spaced (reverse (guesses ip m cs) ++ F).
Proof.
  induction cs as [|c cs IH]; intros last E F m Ho Hc Hk HF; [done|]. destruct Ho as [Hl Ho]. cbn [guesses].
  destruct (known_call ip last (F ++ E) m c Hl (Hc c ltac:(by left)) Hk) as [Hk' Hg].
  assert (guess ip m c = [] ∨ ∃ t, guess ip m c = [t] ∧ distant (F ++ E) t) as [Hn|(t&Ht&Hd)].
  { destruct (guess ip m c) as [|t l]; [by left|]. right. exists t. apply Hg. by left. }
  - rewrite Hn in *. by apply (IH (time c) E F); [|intros; apply Hc; right| |].
  - rewrite Ht in *. cbn [app]. rewrite reverse_cons, <- (assoc_L (++)). cbn [app].
    apply (IH (time c) E (t :: F)); [done|intros; apply Hc; by right|done|]. apply spaced_cons; [done|].
    intros x Hx. apply Hd. by apply lookup_app_l_Some.
Qed.
End calls.
End PacingFacts.

Module PacingProps.
Import Lockout Gate LockoutFacts PacingFacts.

(** C35. Guessing the administrator's token is slow.  Requests to the administrator's
    routes and answers to log-ins come one after another, in any order and from any
    addresses.  Of any five refusals in a row that an address receives for its token,
    while it shows no valid one and no log-in route answers it with a success, the last
    comes at least ten seconds after the first, whatever has happened before, other
    addresses do, and log-ins of this address fail meanwhile.  (A request to the
    administration is one step here; guesses that run at the same time may all be let
    in before the first is recorded, as the map is not locked in between.) *)
Theorem failed_logins_paced sec ip before cs i t1 t5 :
  ordered 0 (before ++ cs) →
  (∀ c, c ∈ cs → clears sec ip c = false) →
  guesses sec ip (run sec before) cs !! i = Some t1 →
  guesses sec ip (run sec before) cs !! (i + 4)%nat = Some t5 →
  t1 + 10000 ≤ t5.
Proof.
  intros Hord Hc H1 H5.
  destruct (known_run sec ip before 0 ∅ [] cs Hord) as (last&E&Ho&Hk); [exists None; by split_and!; [|left|]|].
  pose proof (guesses_spaced sec ip cs last E [] _ Ho Hc Hk) as Hg. fold (run sec before) in Hg.
  rewrite app_nil_r in Hg. set (l := guesses _ _ _ _) in *. clearbody l.
  pose proof (lookup_lt_Some _ _ _ H5) as Hlt.
  eapply (Hg ltac:(done) (length l - S (i + 4))%nat).
  - rewrite reverse_lookup by lia. by replace (length l - _)%nat with (i + 4)%nat by lia.
  - rewrite reverse_lookup by lia. by replace (length l - _)%nat with i by lia.
Qed.

Definition sample_security : Security := mkSecurity (Some "secret") [("ops", Rbac.Auditor)] false.
Definition wrong_request (ip : string) : Request :=
  mkRequest (Some ip) (λ n, if String.eqb n "Authorization" then Some "Bearer guess" else None).
Definition sample_calls : list call :=
  (λ t, Ask (wrong_request "10.0.0.1") t) <$> [9800; 10000; 10100; 10200; 10300; 70199; 70200; 70201].

Lemma failed_logins_paced_witness :
  let m := run sample_security [Answered (wrong_request "10.0.0.1") 401 0] in
  guesses sample_security "10.0.0.1" m sample_calls = [9800; 10000; 10100; 10200; 70200; 70201]
  ∧ 9800 + 10000 ≤ 70200.
Proof.
  split; [by vm_compute|].
  apply (failed_logins_paced sample_security "10.0.0.1" [Answered (wrong_request "10.0.0.1") 401 0] sample_calls 0).
  - vm_compute. intuition congruence.
  - intros c Hin. apply list_elem_of_fmap in Hin as (u&->&_). by vm_compute.
  - by vm_compute.
  - by vm_compute.
Defined.

(** With a request for the address of the identity provider after every second one,
    which succeeds for everybody, an address is never kept waiting. *)
Definition reset_calls : list call :=
  (Z.of_nat <$> seq 0 100) ≫= λ t,
    [Ask (wrong_request "10.0.0.1") t; Ask (wrong_request "10.0.0.1") t; Answered (wrong_request "10.0.0.1") 200 t].
Example login_route_resets : length (guesses sample_security "10.0.0.1" ∅ reset_calls) = 200%nat.
Proof. vm_compute. reflexivity. Qed.

End PacingProps.

(** ** Roles and virtual keys *)

Module GateProps.
Import Gate.

(** What a role may do: everything; reads, and writes to the paths of the
    virtual keys; reads. *)
Lemma permissions method path role :
  Rbac.is_permitted method path role = true ↔
  match role with
  | Rbac.SuperAdmin => True
  | Rbac.KeyManager => Rbac.is_safe method = true ∨
      ∃ p, p ∈ Rbac.VK_PREFIXES ∧ (path = p ∨ String.prefix (p +:+ "/") path = true)
  | Rbac.Auditor => Rbac.is_safe method = true
  end.
Proof.
  destruct role; simpl; [done| |done].
  destruct (Rbac.is_safe method); [naive_solver|]. unfold Rbac.is_virtual_keys_path.
  rewrite existsb_exists. split.
  - intros (p&Hp&Hor). right. exists p. split; [by apply list_elem_of_In|].
    apply orb_true_iff in Hor as [E|E]; [left; by apply String.eqb_eq|by right].
  - intros [?|(p&Hp&Hor)]; [done|]. exists p. split; [by apply list_elem_of_In|].
    apply orb_true_iff. destruct Hor as [->|E]; [left; by apply String.eqb_eq|by right].
Qed.

(** What a verdict of the gate means. *)
Lemma gate_identity sha256 show_uuid link store limiter db trust req d date now limiter' db' v :
  virtual_key_middleware sha256 show_uuid link store limiter db trust req d date now
    = (limiter', db', v) →
  (v = Forward None ↔ VirtualKey.keys store = ∅) ∧
  ∀ u, v = Forward (Some u) →
    ∃ token vk, header req "Authorization" = Some ("Bearer " +:+ token) ∧
      VirtualKey.validate sha256 store token d date = Some vk ∧ VirtualKey.id vk = u ∧
      (VirtualKey.allowed_ips vk = [] ∨
       VirtualKey.check_ip_allowed vk (extract_client_ip req trust) = true).
Proof.
  unfold virtual_key_middleware, VirtualKey.has_keys. rewrite negb_involutive.
  intros H. case_bool_decide as Hk; [simplify_eq; naive_solver|].
  assert (Hno : v ≠ Forward None → (v = Forward None ↔ VirtualKey.keys store = ∅)) by naive_solver.
  assert (Hrej : ∀ n, v = Reject n → (v = Forward None ↔ VirtualKey.keys store = ∅) ∧
    ∀ u, v = Forward (Some u) → ∃ token vk, header req "Authorization" = Some ("Bearer " +:+ token) ∧
      VirtualKey.validate sha256 store token d date = Some vk ∧ VirtualKey.id vk = u ∧
      (VirtualKey.allowed_ips vk = [] ∨
       VirtualKey.check_ip_allowed vk (extract_client_ip req trust) = true)).
  { intros n ->. split; [by apply Hno|]. intros u [=]. }
  destruct (header req "Authorization") as [h|] eqn:Eh; cbn [mbind option_bind] in H;
    [|eapply (Hrej 401); by simplify_eq].
  destruct (strip_prefix "Bearer " h) as [token|] eqn:Et; [|eapply (Hrej 401); by simplify_eq].
  apply strip_prefix_Some in Et. subst h.
  destruct (VirtualKey.validate sha256 store token d date) as [vk|] eqn:Ev;
    [|eapply (Hrej 401); by simplify_eq].
  destruct (negb _ && negb _) eqn:Eip; [eapply (Hrej 403); by simplify_eq|].
  clear Hrej.
  assert (Hip : VirtualKey.allowed_ips vk = [] ∨
            VirtualKey.check_ip_allowed vk (extract_client_ip req trust) = true).
  { apply andb_false_iff in Eip as [Eip|Eip]; apply negb_false_iff in Eip; [|by right].
    left. by apply bool_decide_eq_true in Eip. }
  split; [apply Hno; intros ->; by repeat case_match; simplify_eq|].
  intros u ->. exists token, vk. split; [done|]. split; [done|]. split; [|done].
  by repeat case_match; simplify_eq.
Qed.

(** C14. A request only gets through the gate with the identity of a key it holds.
    When no key exists every request passes, without an identity; otherwise
    the identity passed on is that of the key whose plaintext the request
    presents, and that key validates and allows the client's address, whatever
    the request itself claims to be. *)
Theorem virtual_key_gate sha256 show_uuid link store limiter db trust req d date now limiter' db' v :
  virtual_key_middleware sha256 show_uuid link store limiter db trust req d date now
    = (limiter', db', v) →
  (v = Forward None ↔ VirtualKey.keys store = ∅) ∧
  ∀ u, v = Forward (Some u) →
    ∃ token vk, header req "Authorization" = Some ("Bearer " +:+ token) ∧
      VirtualKey.validate sha256 store token d date = Some vk ∧ VirtualKey.id vk = u ∧
      (VirtualKey.allowed_ips vk = [] ∨
       VirtualKey.check_ip_allowed vk (extract_client_ip req trust) = true).
Proof. apply gate_identity. Qed.

Definition sample_day : VirtualKey.LocalDate := VirtualKey.mkDate "2026-01-01" "2026-01".
Definition sample_created : VirtualKey.VirtualKeyStore * string :=
  match VirtualKey.create StoreProps.sample_sha256 StoreProps.sample_simple
          (VirtualKey.with_store_path "f") StoreProps.sample_new 7%N 1%N 0 with
  | Done (s, _, plaintext) => (s, plaintext)
  | Panic => (VirtualKey.with_store_path "f", "")
  end.
Definition spoofing_request (token : string) : Request :=
  mkRequest (Some "10.0.0.1")
    (λ n, if String.eqb n "Authorization" then Some ("Bearer " +:+ token)
          else if String.eqb n "x-virtual-key-id" then Some "2" else None).

Lemma virtual_key_gate_witness :
  let '(_, _, v) := virtual_key_middleware StoreProps.sample_sha256 (λ _, "") (λ _, true)
    sample_created.1 KeyRateLimiter.new ∅ false (spoofing_request sample_created.2)
    sample_day 5 0 in
  v = Forward (Some 1%N) ∧
  ∃ token vk, header (spoofing_request sample_created.2) "Authorization"
                = Some ("Bearer " +:+ token) ∧
    VirtualKey.validate StoreProps.sample_sha256 sample_created.1 token sample_day 5 = Some vk ∧
    VirtualKey.id vk = 1%N.
Proof.
  destruct (virtual_key_middleware _ _ _ _ _ _ _ _ _ _ _) as [[l db] v] eqn:E.
  assert (v = Forward (Some 1%N)) as Hv by (vm_compute in E; by simplify_eq).
  split; [done|]. apply virtual_key_gate in E as [_ H].
  destruct (H 1%N Hv) as (token&vk&H1&H2&H3&_). by exists token, vk.
Defined.

End GateProps.
