(* ===== verification/Guardrails.v ===== *)
(** Content guardrails (guardrails.rs): the screening of requests and of
    complete responses against blocked and allowed patterns. *)

From S2P Require Import Prelude Json.

Module Guardrails.
Import Json.

Record GuardrailsConfig := mkConfig {
  enabled : bool;
  blocked_patterns : list string;
  allowed_patterns : list string;
  max_request_chars : Z;
  block_message : string;
}.

Inductive GuardrailAction :=
  | Allow
  | Block (reason : string).

(** [content_lower.contains(&pattern.to_lowercase())] *)
Definition matches (content_lower pattern : string) : bool :=
  contains content_lower (to_lowercase pattern).

(** The loop over the blocked patterns: the first that matches decides. *)
Fixpoint scan (allowed : list string) (content_lower : string) (blocked : list string)
    : GuardrailAction :=
  match blocked with
  | [] => Allow
  | pattern :: rest =>
      if matches content_lower pattern then
        if existsb (matches content_lower) allowed then Allow
        else Block ("Content matches blocked pattern: " +:+ pattern)
      else scan allowed content_lower rest
  end.

Definition check (c : GuardrailsConfig) (content : string) : GuardrailAction :=
  if negb (enabled c) then Allow
  else if (0 <? max_request_chars c) && (max_request_chars c <? Z.of_nat (length (chars content)))
  then Block "Request exceeds maximum length"
  else scan (allowed_patterns c) (to_lowercase content) (blocked_patterns c).

Definition newline : string := String "010"%char EmptyString.

(** The text fields found, each followed by a newline. *)
Definition combine (texts : list (option string)) : string :=
  foldr (λ t acc, match t with Some s => s +:+ newline +:+ acc | None => acc end) "" texts.

Definition request_text (body : value) : string :=
  match get body "messages" ≫= as_array with
  | Some messages => combine ((λ m, get m "content" ≫= as_str) <$> messages)
  | None => ""
  end.
Definition check_request (c : GuardrailsConfig) (body : value) : GuardrailAction :=
  check c (request_text body).

Definition response_text (body : value) : string :=
  match get body "choices" ≫= as_array with
  | Some choices =>
      combine ((λ ch, get ch "message" ≫= λ m, get m "content" ≫= as_str) <$> choices)
  | None => ""
  end.
Definition check_response (c : GuardrailsConfig) (body : value) : GuardrailAction :=
  check c (response_text body).

Definition update_config (new _ : GuardrailsConfig) : GuardrailsConfig := new.

(** *** What a text must avoid *)

(** [p] occurs in [text], letter case aside. *)
Definition occurs (p text : string) : Prop :=
  ∃ u v, to_lowercase text = u +:+ to_lowercase p +:+ v.

Lemma matches_occurs text p : matches (to_lowercase text) p = true ↔ occurs p text.
Proof. apply contains_spec. Qed.

Lemma scan_allow allowed text blocked :
  scan allowed (to_lowercase text) blocked = Allow ↔
  (∀ p, p ∈ blocked → ¬ occurs p text) ∨ (∃ a, a ∈ allowed ∧ occurs a text).
Proof.
  assert (Ha : existsb (matches (to_lowercase text)) allowed = true ↔
               ∃ a, a ∈ allowed ∧ occurs a text).
  { rewrite existsb_exists. setoid_rewrite matches_occurs.
    by setoid_rewrite <- list_elem_of_In. }
  induction blocked as [|p blocked IH]; simpl.
  - split; [intros _; left; intros p Hp; by apply not_elem_of_nil in Hp|done].
  - destruct (matches _ p) eqn:Ep.
    + apply matches_occurs in Ep. destruct (existsb _ allowed); split; try done.
      * intros _. right. by apply Ha.
      * intros [H|H]; [|by apply Ha in H]. exfalso. by apply (H p); [left|].
    + rewrite IH. split; (intros [H|H]; [left|by right]).
      * intros q [->|Hq]%elem_of_cons; [|by apply H]. rewrite <- matches_occurs. congruence.
      * intros q Hq. apply H. by right.
Qed.

End Guardrails.

Module GuardrailsProps.
Import Guardrails.

Lemma check_allows c text :
  check c text = Allow ↔
  enabled c = false ∨
  (max_request_chars c ≤ 0 ∨ Z.of_nat (length (chars text)) ≤ max_request_chars c) ∧
  ((∀ p, p ∈ blocked_patterns c → ¬ occurs p text) ∨
   ∃ a, a ∈ allowed_patterns c ∧ occurs a text).
Proof.
  unfold check. destruct (enabled c); simpl; [|naive_solver].
  destruct (_ && _) eqn:E.
  - split; [done|]. intros [?|[[H|H] _]]; [done|lia|lia].
  - rewrite scan_allow. split; [intros H; right; split; [lia|done]|]. by intros [?|[_ H]].
Qed.

(** The guardrails let a text pass exactly when they are disabled, or it is
    within the length limit (if there is one) and no blocked pattern occurs in
    it, or some allowed pattern does: one allowed pattern anywhere lifts all
    the blocked ones, but not the length limit. *)
Theorem guardrails_verdict c text :
  check c text = Allow ↔
  enabled c = false ∨
  (max_request_chars c ≤ 0 ∨ Z.of_nat (length (chars text)) ≤ max_request_chars c) ∧
  ((∀ p, p ∈ blocked_patterns c → ¬ occurs p text) ∨
   ∃ a, a ∈ allowed_patterns c ∧ occurs a text).
Proof. apply check_allows. Qed.

(** A request whose messages hold their text in content blocks is not
    screened: only string contents are collected. *)
Lemma content_blocks_unscreened c role (blocks : list Json.value) :
  (max_request_chars c = 0) → Forall (λ p, to_lowercase p ≠ "") (blocked_patterns c) →
  check_request c (Json.obj [("messages", Json.Array
    [Json.obj [("role", Json.Str role); ("content", Json.Array blocks)]])]) = Allow.
Proof.
  intros Hmax Hp. apply check_allows. right. split; [lia|]. left.
  intros p Hin (u&v&H). rewrite Forall_forall in Hp. apply (Hp p Hin).
  destruct u; [|done]. by destruct (to_lowercase p).
Qed.

End GuardrailsProps.
