(* ===== verification/ProviderBudget.v ===== *)
(** Budgets of providers (provider_budget.rs): the spend of each provider per
    local day and month, and the check that skips a provider over its cap. *)

From S2P Require Import Prelude Channel Trackers RateLimiter Affinity VirtualKey.

Module ProviderBudget.
Import VirtualKey.

Record ProviderBudgetConfig := mkBudget {
  b_daily : option Z;
  b_monthly : option Z;
}.

Record ProviderSpend := mkProviderSpend {
  today : DailySpend;
  this_month : MonthlySpend;
  total_cents : Z;
}.
Definition default_provider_spend : ProviderSpend :=
  mkProviderSpend (mkDaily "" 0) (mkMonthly "" 0) 0.

(** The spend table is the data of a persisted store. *)
Record ProviderBudgetStore := mkBudgetStore {
  configs : gmap string ProviderBudgetConfig;
  spend : gmap string ProviderSpend;
}.

Definition new : ProviderBudgetStore := mkBudgetStore ∅ ∅.

Definition set_budget (s : ProviderBudgetStore) (provider : string)
    (config : ProviderBudgetConfig) : ProviderBudgetStore :=
  mkBudgetStore (<[provider := config]> (configs s)) (spend s).
Definition get_budget (s : ProviderBudgetStore) (provider : string)
    : option ProviderBudgetConfig := configs s !! provider.
Definition delete_budget (s : ProviderBudgetStore) (provider : string)
    : ProviderBudgetStore * bool :=
  (mkBudgetStore (delete provider (configs s)) (spend s),
   bool_decide (is_Some (configs s !! provider))).
Definition get_spend (s : ProviderBudgetStore) (provider : string) : option ProviderSpend :=
  spend s !! provider.

(** [Some limit] with [spent >= limit] *)
Definition reached (limit : option Z) (spent : Z) : bool :=
  match limit with Some l => l <=? spent | None => false end.

Definition check_budget (s : ProviderBudgetStore) (provider : string) (d : LocalDate) : bool :=
  match configs s !! provider with
  | None => true
  | Some config =>
      if bool_decide (b_daily config = None) && bool_decide (b_monthly config = None) then true
      else
        let daily_spend := match spend s !! provider with
          | Some e => if String.eqb (date (today e)) (d_today d) then d_cents (today e) else 0
          | None => 0 end in
        let monthly_spend := match spend s !! provider with
          | Some e => if String.eqb (month (this_month e)) (d_month d)
                      then m_cents (this_month e) else 0
          | None => 0 end in
        negb (reached (b_daily config) daily_spend) &&
        negb (reached (b_monthly config) monthly_spend)
  end.

Definition accumulate_entry (d : LocalDate) (cents : Z) (entry : ProviderSpend) : ProviderSpend :=
  let t := if String.eqb (date (today entry)) (d_today d) then today entry
           else mkDaily (d_today d) 0 in
  let m := if String.eqb (month (this_month entry)) (d_month d) then this_month entry
           else mkMonthly (d_month d) 0 in
  mkProviderSpend (mkDaily (date t) (add_u64 (d_cents t) cents))
    (mkMonthly (month m) (add_u64 (m_cents m) cents)) (add_u64 (total_cents entry) cents).

Definition accumulate_spend (s : ProviderBudgetStore) (provider : string) (cents : Z)
    (d : LocalDate) : ProviderBudgetStore :=
  mkBudgetStore (configs s)
    (<[provider := accumulate_entry d cents
        (default default_provider_spend (spend s !! provider))]> (spend s)).

End ProviderBudget.

Module BudgetFacts.
Import VirtualKey ProviderBudget.

(** What was spent: a provider, an amount, and the local date. *)
Abbreviation Spent := (string * Z * LocalDate)%type (only parsing).

Definition run (s : ProviderBudgetStore) (h : list Spent) : ProviderBudgetStore :=
  foldl (λ s '(p, c, d), accumulate_spend s p c d) s h.

(** One provider's amounts and dates. *)
Definition of_provider (p : string) (h : list Spent) : list (Z * LocalDate) :=
  (λ e, (e.1.2, e.2)) <$> List.filter (λ e, String.eqb e.1.1 p) h.

Definition spent (P : LocalDate → bool) (l : list (Z * LocalDate)) : Z :=
  sum_where (λ e, P e.2) fst l.
Definition on_day (d : LocalDate) (x : LocalDate) : bool := String.eqb (d_today x) (d_today d).
Definition in_month (d : LocalDate) (x : LocalDate) : bool := String.eqb (d_month x) (d_month d).

(** The calendar never comes back to a day or a month it has left. *)
Definition no_return (f : LocalDate → string) (l : list (Z * LocalDate)) : Prop :=
  ∀ i j k a b c, (i ≤ j ≤ k)%nat → l !! i = Some a → l !! j = Some b → l !! k = Some c →
    f a.2 = f c.2 → f b.2 = f a.2.

Definition entry_of (l : list (Z * LocalDate)) : ProviderSpend :=
  foldl (λ e '(c, d), accumulate_entry d c e) default_provider_spend l.

Lemma no_return_snoc f l x : no_return f (l ++ [x]) → no_return f l.
Proof.
  intros H i j k a b c Hij Ha Hb Hc. apply (H i j k a b c Hij);
    by apply lookup_app_l_Some.
Qed.

(** After leaving a day, no earlier amount is of the new one. *)
Lemma fresh_none f l y x :
  no_return f ((l ++ [y]) ++ [x]) → f y.2 ≠ f x.2 →
  ∀ a, a ∈ l ++ [y] → f a.2 ≠ f x.2.
Proof.
  intros H Hne a Ha Heq. apply list_elem_of_lookup in Ha as [i Hi].
  pose proof (lookup_lt_Some _ _ _ Hi) as Hlt. rewrite length_app in Hlt. simpl in Hlt.
  assert (Hfy : f y.2 = f a.2); [|congruence].
  apply (H i (length l) (length (l ++ [y])) a y x); try done.
  - rewrite length_app. simpl. lia.
  - by apply lookup_app_l_Some.
  - apply lookup_app_l_Some. by rewrite lookup_app_r, Nat.sub_diag by lia.
  - by rewrite lookup_app_r, Nat.sub_diag by lia.
Qed.

(** The sum of the amounts of the last date, extended by one amount: the
    amount itself when the date is new. *)
Lemma spent_extend f l y c d :
  no_return f ((l ++ [y]) ++ [(c, d)]) →
  let total (D : string) m := spent (λ x, String.eqb (f x) D) m in
  (if String.eqb (f y.2) (f d) then total (f y.2) (l ++ [y]) else 0) + c
  = total (f d) ((l ++ [y]) ++ [(c, d)]).
Proof.
  intros H total. unfold total, spent. rewrite (sum_where_snoc _ _ (c, d)). simpl.
  rewrite String.eqb_refl. destruct (String.eqb_spec (f y.2) (f d)) as [->|Hne]; [lia|].
  rewrite (sum_where_none _ (λ e, String.eqb (f e.2) (f d))); [lia|].
  intros a Ha. by apply String.eqb_neq, (fresh_none f l y (c, d)).
Qed.

Lemma spent_nonneg P l : (∀ e, e ∈ l → 0 ≤ e.1) → 0 ≤ spent P l.
Proof. intros H. by apply sum_where_nonneg. Qed.

(** No overflow: the amounts are non-negative and sum to a [u64]. *)
Definition bounded (l : list (Z * LocalDate)) : Prop :=
  (∀ e, e ∈ l → 0 ≤ e.1) ∧ spent (λ _, true) l ≤ u64_max.

Lemma bounded_prefix l x : bounded (l ++ [x]) → bounded l.
Proof.
  intros [H1 H2]. assert (Hl : ∀ e, e ∈ l → 0 ≤ e.1) by (intros e He; apply H1; set_solver).
  split; [done|]. unfold spent in *. rewrite sum_where_snoc in H2. simpl in H2.
  specialize (H1 x ltac:(set_solver)). lia.
Qed.

Lemma bounded_spent P l : bounded l → 0 ≤ spent P l ≤ u64_max.
Proof.
  intros [H1 H2]. split; [by apply spent_nonneg|].
  etransitivity; [|exact H2]. by apply sum_where_mono.
Qed.

Lemma entry_of_spec l y :
  no_return d_today (l ++ [y]) → no_return d_month (l ++ [y]) → bounded (l ++ [y]) →
  entry_of (l ++ [y]) =
    mkProviderSpend (mkDaily (d_today y.2) (spent (on_day y.2) (l ++ [y])))
      (mkMonthly (d_month y.2) (spent (in_month y.2) (l ++ [y])))
      (spent (λ _, true) (l ++ [y])).
Proof.
  revert y. induction l as [|y' l IH] using rev_ind; intros y Hd Hm Hb.
  - destruct y as [c d]. pose proof (bounded_spent (λ _, true) _ Hb) as Hc.
    unfold entry_of, spent, sum_where, on_day, in_month in *. simpl in *.
    rewrite !String.eqb_refl. simpl. unfold accumulate_entry. simpl.
    assert (Hw : add_u64 0 c = c + 0).
    { unfold add_u64, wrap64. rewrite Z.mod_small; unfold u64_max in *; lia. }
    destruct (d_today d), (d_month d); simpl; rewrite Hw; reflexivity.
  - unfold entry_of in *. rewrite foldl_app. simpl.
    rewrite IH by eauto using no_return_snoc, bounded_prefix. destruct y as [c d].
    unfold accumulate_entry. cbn [today this_month total_cents date month d_cents m_cents].
    assert (Hadd : ∀ a P, a + c = spent P ((l ++ [y']) ++ [(c, d)]) →
              add_u64 a c = spent P ((l ++ [y']) ++ [(c, d)])).
    { intros a P E. unfold add_u64, wrap64. rewrite E. pose proof (bounded_spent P _ Hb).
      apply Z.mod_small. unfold u64_max in *. lia. }
    pose proof (spent_extend _ _ _ _ _ Hd) as Ed. pose proof (spent_extend _ _ _ _ _ Hm) as Em.
    simpl in Ed, Em. f_equal.
    + revert Ed. destruct (String.eqb_spec (d_today y'.2) (d_today d)) as [E|]; simpl; intros Ed;
        f_equal; try done; apply Hadd, Ed.
    + revert Em. destruct (String.eqb_spec (d_month y'.2) (d_month d)) as [E|]; simpl; intros Em;
        f_equal; try done; apply Hadd, Em.
    + apply Hadd. unfold spent. by rewrite (sum_where_snoc _ _ (c, d)).
Qed.

Lemma run_budget_snoc s h e : run s (h ++ [e]) = accumulate_spend (run s h) e.1.1 e.1.2 e.2.
Proof. unfold run. rewrite foldl_app. by destruct e as [[p c] d]. Qed.

Lemma of_provider_snoc p h e :
  of_provider p (h ++ [e]) =
  of_provider p h ++ (if String.eqb e.1.1 p then [(e.1.2, e.2)] else []).
Proof.
  unfold of_provider. rewrite List.filter_app, fmap_app. simpl. by destruct (String.eqb _ _).
Qed.

(** The table holds, for each provider, what its own history makes of it. *)
Lemma run_spend s h p :
  spend s = ∅ →
  configs (run s h) = configs s ∧
  spend (run s h) !! p =
    match of_provider p h with [] => None | l => Some (entry_of l) end.
Proof.
  intros Hs. induction h as [|[[q c] d] h [IHc IHs]] using rev_ind.
  { split; [done|]. change (spend s !! p = None). by rewrite Hs. }
  rewrite run_budget_snoc, of_provider_snoc. simpl. split; [done|].
  destruct (String.eqb_spec q p) as [->|Hne].
  - rewrite lookup_insert_eq, IHs. unfold entry_of.
    destruct (of_provider p h) as [|x l]; [done|]. cbn [app]. f_equal.
    change (x :: l ++ [(c, d)]) with ((x :: l) ++ [(c, d)]). by rewrite foldl_app.
  - by rewrite lookup_insert_ne, app_nil_r.
Qed.

(** The current spend of a provider on a date, as [check_budget] reads it. *)
Lemma entry_current l d :
  no_return d_today (l ++ [(0, d)]) → no_return d_month (l ++ [(0, d)]) → bounded l →
  l ≠ [] →
  let e := entry_of l in
  (if String.eqb (date (today e)) (d_today d) then d_cents (today e) else 0)
    = spent (on_day d) l ∧
  (if String.eqb (month (this_month e)) (d_month d) then m_cents (this_month e) else 0)
    = spent (in_month d) l.
Proof.
  intros Hd Hm Hb Hl. destruct l as [|y l _] using rev_ind; [done|].
  pose proof (spent_extend _ _ _ _ _ Hd) as Ed. pose proof (spent_extend _ _ _ _ _ Hm) as Em.
  rewrite entry_of_spec by eauto using no_return_snoc.
  cbn [today this_month total_cents date month d_cents m_cents].
  unfold spent in Ed, Em. rewrite (sum_where_snoc _ _ (0, d)) in Ed.
  rewrite (sum_where_snoc _ _ (0, d)) in Em. simpl in Ed, Em. rewrite String.eqb_refl in Ed, Em.
  unfold spent, on_day, in_month. repeat case_match; lia.
Qed.

End BudgetFacts.

Module BudgetProps.
Import VirtualKey ProviderBudget BudgetFacts.

(** A provider is skipped exactly when its cap is reached: after any history
    of spending on all providers, the check compares the day's and the
    month's limit with the sum of what this provider spent on that day and in
    that month.  (The calendar must not go back to a day it has left.) *)
Theorem provider_budget_exact s h p d config :
  spend s = ∅ → configs s !! p = Some config →
  let l := of_provider p h in
  no_return d_today (l ++ [(0, d)]) → no_return d_month (l ++ [(0, d)]) → bounded l →
  check_budget (run s h) p d =
    negb (reached (b_daily config) (spent (on_day d) l)) &&
    negb (reached (b_monthly config) (spent (in_month d) l)).
Proof.
  intros Hs Hc l Hd Hm Hb. destruct (run_spend s h p Hs) as [Ec Es].
  unfold check_budget. rewrite Ec, Hc, Es. fold l.
  destruct (bool_decide _ && bool_decide _) eqn:En.
  - apply andb_true_iff in En as [E1%bool_decide_eq_true E2%bool_decide_eq_true].
    by rewrite E1, E2.
  - destruct l as [|x l'] eqn:El; [done|]. rewrite <- El in *.
    destruct (entry_current l d) as [E1 E2]; [done|done|done|by rewrite El|].
    by rewrite E1, E2.
Qed.

Definition sample_history : list (string * Z * LocalDate) :=
  [("openai", 60, mkDate "2026-01-30" "2026-01"); ("anthropic", 900, mkDate "2026-01-31" "2026-01");
   ("openai", 70, mkDate "2026-01-31" "2026-01"); ("openai", 30, mkDate "2026-01-31" "2026-01")].
Definition sample_budgets : ProviderBudgetStore :=
  set_budget new "openai" (mkBudget (Some 100) (Some 500)).

Lemma provider_budget_exact_witness :
  check_budget (run sample_budgets sample_history) "openai" (mkDate "2026-01-31" "2026-01")
    = negb (100 <=? 100) && negb (500 <=? 160).
Proof.
  refine (provider_budget_exact sample_budgets sample_history "openai"
    (mkDate "2026-01-31" "2026-01") (mkBudget (Some 100) (Some 500)) eq_refl eq_refl _ _ _).
  - intros i j k a b c Hij Ha Hb Hc Hac.
    destruct i as [|[|[|[|]]]]; simpl in Ha; simplify_eq;
    destruct j as [|[|[|[|]]]]; simpl in Hb; simplify_eq; try done; try lia;
    destruct k as [|[|[|[|]]]]; simpl in Hc; simplify_eq; try done; try lia.
  - intros i j k a b c Hij Ha Hb Hc Hac.
    destruct i as [|[|[|[|]]]]; simpl in Ha; simplify_eq;
    destruct j as [|[|[|[|]]]]; simpl in Hb; simplify_eq; try done; try lia.
  - split; [|vm_compute; congruence]. intros e He. simpl in He.
    repeat (apply elem_of_cons in He as [->|He]; [simpl; lia|]). by apply elem_of_nil in He.
Defined.

End BudgetProps.
