(* ===== verification/Quota.v ===== *)
(** Quota information and redemption codes (quota/mod.rs): the table of what
    is known of each channel's quota, fed by a poller, by response headers and
    by the usage of responses, and the codes that can be redeemed once. *)

From S2P Require Import Prelude F64.

Module Quota.

Record QuotaItem := mkItem { label : string; item_value : string }.
Record QuotaGroup := mkGroup {
  window : string;
  utilization_pct : option F64.f64;
  resets_at : option string;
}.

(** The accumulated usage, and the passive rate-limit data, of an entry. *)
Record Totals := mkTotals {
  total_input_tokens : option Z;
  total_output_tokens : option Z;
  total_cache_hit_tokens : option Z;
  total_cache_miss_tokens : option Z;
  total_requests_counted : option Z;
  total_estimated_cost : option F64.f64;
}.
Record RateLimits := mkLimits {
  rate_limit_remaining_req : option Z;
  rate_limit_limit_req : option Z;
  rate_limit_remaining_tok : option Z;
  rate_limit_limit_tok : option Z;
  rate_limit_updated_at : option DateTime;
}.

Record QuotaInfo := mkInfo {
  channel_id : Uuid;
  channel_name : string;
  provider : string;
  balance : option F64.f64;
  limit : option F64.f64;
  usage : option F64.f64;
  remaining_tokens : option Z;
  remaining_requests : option Z;
  plan_status : option string;
  expires_at : option string;
  items : list QuotaItem;
  groups : list QuotaGroup;
  compact_text : option string;
  rates : RateLimits;
  totals : Totals;
  source : string;
  updated_at : DateTime;
  error : option string;
}.

Definition no_totals : Totals := mkTotals None None None None None None.
Definition no_rates : RateLimits := mkLimits None None None None None.

Definition new_info (u : Uuid) (name prov src : string) (now : DateTime) : QuotaInfo :=
  mkInfo u name prov None None None None None None None [] [] None no_rates no_totals src now None.

(** Assignments to the parts of an entry that the operations change. *)
Definition with_parts (r : RateLimits) (t : Totals) (src : string) (now : DateTime)
    (i : QuotaInfo) : QuotaInfo :=
  mkInfo (channel_id i) (channel_name i) (provider i) (balance i) (limit i) (usage i)
    (remaining_tokens i) (remaining_requests i) (plan_status i) (expires_at i) (items i)
    (groups i) (compact_text i) r t src now (error i).

(** What a response's headers tell. *)
Record Headers := mkHeaders {
  h_remaining_req : option Z;
  h_limit_req : option Z;
  h_remaining_tok : option Z;
  h_limit_tok : option Z;
}.

(** The new value when there is one, else the old. *)
Definition newer {A} (new old : option A) : option A := match new with Some _ => new | None => old end.

Definition update_from_headers (h : Headers) (now : DateTime) (i : QuotaInfo) : QuotaInfo :=
  let r := rates i in
  with_parts
    (mkLimits (newer (h_remaining_req h) (rate_limit_remaining_req r))
       (newer (h_limit_req h) (rate_limit_limit_req r))
       (newer (h_remaining_tok h) (rate_limit_remaining_tok r))
       (newer (h_limit_tok h) (rate_limit_limit_tok r)) (Some now))
    (totals i)
    (if String.eqb (source i) "" || String.eqb (source i) "http_api"
     then "response_header" else source i) now i.

(** The table is the data of a persisted store. *)
Abbreviation Store := (gmap Uuid QuotaInfo) (only parsing).

Definition update (s : Store) (info : QuotaInfo) : Store :=
  let merged :=
    match s !! channel_id info with
    | Some e =>
        let r := rates info in let o := rates e in
        with_parts
          (mkLimits (newer (rate_limit_remaining_req r) (rate_limit_remaining_req o))
             (newer (rate_limit_limit_req r) (rate_limit_limit_req o))
             (newer (rate_limit_remaining_tok r) (rate_limit_remaining_tok o))
             (newer (rate_limit_limit_tok r) (rate_limit_limit_tok o))
             (newer (rate_limit_updated_at r) (rate_limit_updated_at o)))
          (totals e) (source info) (updated_at info) info
    | None => info
    end in
  <[channel_id merged := merged]> s.

Definition update_rate_limits (s : Store) (u : Uuid) (h : Headers) (now : DateTime) : Store :=
  match s !! u with
  | Some info => <[u := update_from_headers h now info]> s
  | None => <[u := update_from_headers h now (new_info u "" "" "response_header" now)]> s
  end.

Definition get (s : Store) (u : Uuid) : option QuotaInfo := s !! u.
Definition delete_quota (s : Store) (u : Uuid) : Store := delete u s.

(** The usage of one response. *)
Record Usage := mkUsage {
  u_input : option Z;
  u_output : option Z;
  u_hit : option Z;
  u_miss : option Z;
  u_cost : option F64.f64;
}.

Definition plus (total v : option Z) : option Z :=
  match v with Some v => Some (add_u64 (default 0 total) v) | None => total end.

Definition accumulate_usage (s : Store) (u : Uuid) (v : Usage) (now : DateTime) : Store :=
  match s !! u with
  | Some i =>
      let t := totals i in
      <[u := with_parts (rates i)
          (mkTotals (plus (total_input_tokens t) (u_input v)) (plus (total_output_tokens t) (u_output v))
             (plus (total_cache_hit_tokens t) (u_hit v)) (plus (total_cache_miss_tokens t) (u_miss v))
             (plus (total_requests_counted t) (Some 1))
             (match u_cost v with
              | Some c => Some (F64.add (default F64.zero (total_estimated_cost t)) c)
              | None => total_estimated_cost t
              end))
          (source i) now i]> s
  | None =>
      let i := new_info u "" "" "passive" now in
      <[u := with_parts (rates i)
          (mkTotals (u_input v) (u_output v) (u_hit v) (u_miss v) (Some 1) (u_cost v))
          (source i) now i]> s
  end.

End Quota.

Module Redemption.

Record RedemptionCode := mkCode {
  code : string;
  credits_cents : Z;
  used : bool;
  used_by : option string;
  used_at : option DateTime;
  created_at : DateTime;
  expires_at : option DateTime;
}.

Inductive RedemptionError := NotFound | AlreadyUsed | Expired.

Abbreviation Codes := (gmap string RedemptionCode) (only parsing).

(** [fresh] is the text of the random [Uuid] drawn. *)
Definition generate (m : Codes) (fresh : string) (credits : Z) (expires : option DateTime)
    (now : DateTime) : Codes * RedemptionCode :=
  let c := mkCode fresh credits false None None now expires in (<[fresh := c]> m, c).

Definition past (o : option DateTime) (now : DateTime) : bool :=
  match o with Some exp => exp <? now | None => false end.

Definition redeem (m : Codes) (c redeemed_by : string) (now : DateTime)
    : Codes * (Z + RedemptionError) :=
  match m !! c with
  | None => (m, inr NotFound)
  | Some e =>
      if used e then (m, inr AlreadyUsed)
      else if past (expires_at e) now then (m, inr Expired)
      else (<[c := mkCode (code e) (credits_cents e) true (Some redeemed_by) (Some now)
                     (created_at e) (expires_at e)]> m, inl (credits_cents e))
  end.

Definition delete_code (m : Codes) (c : string) : Codes * bool :=
  (delete c m, bool_decide (is_Some (m !! c))).

Definition is_valid (m : Codes) (c : string) (now : DateTime) : bool :=
  match m !! c with
  | Some e => if used e then false else negb (past (expires_at e) now)
  | None => false
  end.

End Redemption.

Module RedemptionProps.
Import Redemption.

(** Requests to the code table. *)
Inductive request :=
  | Generate (fresh : string) (credits : Z) (expires : option DateTime) (now : DateTime)
  | Redeem (c who : string) (now : DateTime)
  | Delete (c : string).

Definition serve (m : gmap string RedemptionCode) (r : request)
    : gmap string RedemptionCode * option (string * Z) :=
  match r with
  | Generate f k e t => ((generate m f k e t).1, None)
  | Redeem c who t =>
      let '(m', r) := redeem m c who t in
      (m', match r with inl k => Some (c, k) | inr _ => None end)
  | Delete c => ((delete_code m c).1, None)
  end.

(** The credits granted, in order. *)
Fixpoint granted (m : gmap string RedemptionCode) (rs : list request) : list (string * Z) :=
  match rs with
  | [] => []
  | r :: rs' =>
      let '(m', g) := serve m r in
      match g with Some x => x :: granted m' rs' | None => granted m' rs' end
  end.

Definition generated (rs : list request) : list string :=
  omap (λ r, match r with Generate f _ _ _ => Some f | _ => None end) rs.

Definition spent_or_gone (m : gmap string RedemptionCode) (c : string) : Prop :=
  ∀ e, m !! c = Some e → used e = true.

Lemma granted_spent c rs : ∀ m,
  spent_or_gone m c → c ∉ generated rs → c ∉ (granted m rs).*1.
Proof.
  induction rs as [|r rs IH]; intros m Hm Hc; simpl; [set_solver|].
  destruct r as [f k e t|c' who t|c']; simpl in *.
  - apply IH; [|set_solver]. intros x. rewrite lookup_insert_ne by set_solver. apply Hm.
  - unfold redeem. destruct (m !! c') as [e|] eqn:E; [|by apply IH].
    destruct (used e) eqn:Eu; [by apply IH|]. destruct (past _ _); [by apply IH|].
    assert (c' ≠ c) by (intros ->; specialize (Hm e E); congruence). simpl.
    apply not_elem_of_cons. split; [done|]. apply IH; [|done].
    intros x. rewrite lookup_insert_ne by done. apply Hm.
  - apply IH; [|done]. intros x Hx. destruct (decide (c' = c)) as [->|].
    + by rewrite lookup_delete_eq in Hx.
    + rewrite lookup_delete_ne in Hx by done. by apply Hm.
Qed.

(** A code is worth its credits once.  However generations, redemptions and
    deletions of codes interleave, the credits of no code are granted twice
    (the fresh codes being distinct), and what is granted is what the code
    was generated for, or held at the start. *)
Theorem code_redeemed_once m rs :
  NoDup (generated rs) → (∀ c, c ∈ generated rs → m !! c = None) →
  NoDup (granted m rs).*1 ∧
  ∀ c k, (c, k) ∈ granted m rs →
    (∃ e, m !! c = Some e ∧ used e = false ∧ credits_cents e = k) ∨
    ∃ e t, Generate c k e t ∈ rs.
Proof.
  revert m. induction rs as [|r rs IH]; intros m Hnd Hf; simpl.
  { split; [constructor|]. intros c k Hck. by apply elem_of_nil in Hck. }
  destruct r as [f k e t|c' who t|c']; simpl in *.
  - apply NoDup_cons in Hnd as [Hnf Hnd].
    destruct (IH (<[f := mkCode f k false None None t e]> m) Hnd) as [H1 H2].
    { intros c Hc. rewrite lookup_insert_ne by set_solver. apply Hf. set_solver. }
    split; [done|]. intros c k' Hck. apply H2 in Hck as [(x&Hx&Hu&Hk)|(x&t'&Hx)].
    + destruct (decide (f = c)) as [->|].
      * rewrite lookup_insert_eq in Hx. simplify_eq. simpl. right. exists e, t. set_solver.
      * rewrite lookup_insert_ne in Hx by done. left. by exists x.
    + right. exists x, t'. set_solver.
  - assert (Hsame : NoDup (granted m rs).*1 ∧ ∀ c k, (c, k) ∈ granted m rs →
      (∃ e, m !! c = Some e ∧ used e = false ∧ credits_cents e = k) ∨
      ∃ e t0, Generate c k e t0 ∈ Redeem c' who t :: rs).
    { destruct (IH m Hnd Hf) as [H1 H2]. split; [done|]. intros c k Hck.
      apply H2 in Hck as [?|(x&t'&?)]; [by left|right; exists x, t'; set_solver]. }
    unfold redeem. destruct (m !! c') as [e|] eqn:E; [|done].
    destruct (used e) eqn:Eu; [done|]. destruct (past _ _); [done|]. simpl.
    set (m' := <[c' := _]> m).
    assert (Hc' : c' ∉ generated rs) by (intros Hc; rewrite Hf in E; done).
    destruct (IH m' Hnd) as [H1 H2].
    { intros c Hc. unfold m'. rewrite lookup_insert_ne by congruence. by apply Hf. }
    split.
    + apply NoDup_cons. split; [|done]. apply granted_spent; [|done].
      intros x. unfold m'. rewrite lookup_insert_eq. by intros [= <-].
    + intros c k [[= -> ->]|Hck]%elem_of_cons; [left; by exists e|].
      apply H2 in Hck as [(x&Hx&Hu&Hk)|(x&t'&?)]; [left|right; exists x, t'; set_solver].
      unfold m' in Hx. destruct (decide (c' = c)) as [->|].
      * rewrite lookup_insert_eq in Hx. by simplify_eq.
      * rewrite lookup_insert_ne in Hx by done. by exists x.
  - destruct (IH (delete c' m) Hnd) as [H1 H2].
    { intros c Hc. rewrite lookup_delete_None. right. by apply Hf. }
    split; [done|]. intros c k Hck. apply H2 in Hck as [(x&Hx&Hu&Hk)|(x&t'&?)].
    + apply lookup_delete_Some in Hx as [_ Hx]. left. by exists x.
    + right. exists x, t'. set_solver.
Qed.

Definition sample_requests : list request :=
  [Generate "a" 500 (Some 1000) 0; Redeem "a" "bob" 10; Redeem "a" "eve" 20; Redeem "b" "eve" 30].

Lemma code_redeemed_once_witness :
  NoDup (generated sample_requests) ∧ granted ∅ sample_requests = [("a", 500)] ∧
  NoDup (granted ∅ sample_requests).*1.
Proof.
  assert (H : NoDup (generated sample_requests)) by (repeat constructor; set_solver).
  split; [done|]. split; [by vm_compute|]. apply code_redeemed_once; [done|].
  intros c _. apply lookup_empty.
Defined.

End RedemptionProps.

Module QuotaProps.
Import Quota.

(** What reaches the table: the poller's entries, response headers, and the
    usage of responses. *)
Inductive event :=
  | Poll (info : QuotaInfo)
  | Head (u : Uuid) (h : Headers) (now : DateTime)
  | Use (u : Uuid) (v : Usage) (now : DateTime).

Definition apply_event (s : gmap Uuid QuotaInfo) (ev : event) : gmap Uuid QuotaInfo :=
  match ev with
  | Poll info => update s info
  | Head u h now => update_rate_limits s u h now
  | Use u v now => accumulate_usage s u v now
  end.
Definition run (h : list event) : gmap Uuid QuotaInfo := foldl apply_event ∅ h.

(** The sum over the responses of one channel. *)
Definition used_by (u : Uuid) (f : Usage → Z) (h : list event) : Z :=
  sumZ ((λ ev, match ev with Use u' v _ => if bool_decide (u' = u) then f v else 0 | _ => 0 end) <$> h).

Definition totals_of (s : gmap Uuid QuotaInfo) (u : Uuid) : Totals :=
  match s !! u with Some i => totals i | None => no_totals end.

Definition polled_clean (h : list event) : Prop :=
  ∀ info, Poll info ∈ h → totals info = no_totals.
Definition in_range (o : option Z) : Prop := match o with Some n => in_u64 n | None => True end.
Definition counts_fit (h : list event) : Prop :=
  ∀ u v now, Use u v now ∈ h →
    in_range (u_input v) ∧ in_range (u_output v) ∧ in_range (u_hit v) ∧ in_range (u_miss v).

Lemma totals_update s info u :
  totals info = no_totals → totals_of (update s info) u = totals_of s u.
Proof.
  intros Hi. unfold totals_of, update.
  assert (Hid : ∀ r t src now, channel_id (with_parts r t src now info) = channel_id info) by done.
  destruct (s !! channel_id info) as [e|] eqn:E; rewrite ?Hid;
    (destruct (decide (channel_id info = u)) as [<-|]; [|by rewrite lookup_insert_ne]);
    by rewrite lookup_insert_eq, E.
Qed.

Lemma totals_headers s u' h now u : totals_of (update_rate_limits s u' h now) u = totals_of s u.
Proof.
  unfold totals_of, update_rate_limits. destruct (s !! u') as [e|] eqn:E;
    (destruct (decide (u' = u)) as [->|]; [|by rewrite lookup_insert_ne]);
    by rewrite lookup_insert_eq, E.
Qed.

Lemma plus_wrap o v x : in_range v → default 0 o = wrap64 x →
  default 0 (plus o v) = wrap64 (x + default 0 v).
Proof.
  intros Hv Ho. destruct v as [v|]; simpl; [|by rewrite Z.add_0_r].
  rewrite Ho. unfold add_u64, wrap64. by rewrite Zplus_mod_idemp_l.
Qed.

Lemma totals_use s u' v now u :
  in_range (u_input v) → in_range (u_output v) → in_range (u_hit v) → in_range (u_miss v) →
  ∀ (get : Totals → option Z) (f : Usage → option Z) x,
    (get, f) ∈ [(total_input_tokens, u_input); (total_output_tokens, u_output);
                (total_cache_hit_tokens, u_hit); (total_cache_miss_tokens, u_miss);
                (total_requests_counted, λ _, Some 1)] →
    default 0 (get (totals_of s u)) = wrap64 x →
    default 0 (get (totals_of (accumulate_usage s u' v now) u)) =
      wrap64 (x + if bool_decide (u' = u) then default 0 (f v) else 0).
Proof.
  intros H1 H2 H3 H4 get f x Hin Hx. unfold totals_of, accumulate_usage in *.
  destruct (decide (u' = u)) as [->|Hne].
  2: { rewrite bool_decide_eq_false_2, Z.add_0_r by done.
       by destruct (s !! u'); rewrite lookup_insert_ne. }
  rewrite bool_decide_eq_true_2 by done.
  assert (Hf : in_range (f v)).
  { repeat (apply elem_of_cons in Hin as [[= -> ->]|Hin]; [first [done|split; lia]|]).
    by apply elem_of_nil in Hin. }
  assert (Hget : get no_totals = None).
  { repeat (apply elem_of_cons in Hin as [[= -> ->]|Hin]; [done|]). by apply elem_of_nil in Hin. }
  destruct (s !! u) as [i|]; rewrite lookup_insert_eq; cbn [totals with_parts].
  - rewrite <- (plus_wrap _ (f v) x Hf Hx).
    repeat (apply elem_of_cons in Hin as [[= -> ->]|Hin]; [done|]). by apply elem_of_nil in Hin.
  - rewrite Hget in Hx. simpl in Hx.
    rewrite <- (plus_wrap None (f v) x Hf Hx).
    assert (Hplus : default 0 (plus None (f v)) = default 0 (f v)).
    { destruct (f v) as [n|]; [|done]. simpl. unfold add_u64, wrap64.
      apply Z.mod_small. unfold in_range, in_u64, u64_max in Hf. lia. }
    rewrite Hplus.
    repeat (apply elem_of_cons in Hin as [[= -> ->]|Hin]; [done|]). by apply elem_of_nil in Hin.
Qed.

(** Counted usage is never lost.  However the poller's refreshes, response
    headers and responses interleave, the request count and the four token
    totals of a channel are the sums over its responses (modulo 2^64). *)
Theorem usage_never_lost h u get f :
  polled_clean h → counts_fit h →
  (get, f) ∈ [(total_input_tokens, u_input); (total_output_tokens, u_output);
              (total_cache_hit_tokens, u_hit); (total_cache_miss_tokens, u_miss);
              (total_requests_counted, λ _, Some 1)] →
  default 0 (get (totals_of (run h) u)) = wrap64 (used_by u (λ v, default 0 (f v)) h).
Proof.
  intros Hp Hc Hin. induction h as [|ev h IH] using rev_ind.
  { unfold run, totals_of, used_by. simpl. rewrite lookup_empty.
    repeat (apply elem_of_cons in Hin as [[= -> ->]|Hin]; [done|]). by apply elem_of_nil in Hin. }
  assert (IH' : default 0 (get (totals_of (run h) u)) = wrap64 (used_by u (λ v, default 0 (f v)) h)).
  { apply IH; [intros i Hi; apply Hp; set_solver|intros a b c Hi; apply (Hc a b c); set_solver]. }
  unfold run, used_by in *. rewrite foldl_app, fmap_app, sumZ_app. simpl. rewrite Z.add_0_r.
  destruct ev as [info|u' hd now|u' v now]; cbn [apply_event].
  - rewrite totals_update, Z.add_0_r; [done|]. apply Hp. set_solver.
  - by rewrite totals_headers, Z.add_0_r.
  - destruct (Hc u' v now) as (H1&H2&H3&H4); [set_solver|]. by apply totals_use.
Qed.

Definition sample_events : list event :=
  [Use 1%N (mkUsage (Some 10) (Some 5) None None None) 0;
   Poll (new_info 1%N "main" "openai" "http_api" 1);
   Head 1%N (mkHeaders (Some 9) None None None) 2;
   Use 1%N (mkUsage (Some 7) None None None None) 3].

Lemma usage_never_lost_witness :
  polled_clean sample_events ∧ counts_fit sample_events ∧
  default 0 (total_input_tokens (totals_of (run sample_events) 1%N)) = wrap64 17.
Proof.
  assert (H1 : polled_clean sample_events).
  { intros i Hi. unfold sample_events in Hi.
    repeat (apply elem_of_cons in Hi as [Hi|Hi]; [by simplify_eq|]). by apply elem_of_nil in Hi. }
  assert (H2 : counts_fit sample_events).
  { intros u v now Hi. unfold sample_events in Hi.
    repeat (apply elem_of_cons in Hi as [Hi|Hi]; [simplify_eq; vm_compute; intuition congruence|]).
    by apply elem_of_nil in Hi. }
  split; [done|]. split; [done|].
  rewrite (usage_never_lost sample_events 1%N total_input_tokens u_input H1 H2 ltac:(left)).
  reflexivity.
Defined.

End QuotaProps.
