(* ===== verification/Collectors.v ===== *)
(** The polling of quotas (quota/provider.rs, registry.rs, poller.rs and
    collectors/): how a channel's balance is asked for and read, which collector
    is asked, and the round over all channels. *)

From stdpp Require Import pretty.
From S2P Require Import Prelude F64 FloatText Json Channel ChannelManager Quota.

Module Collectors.
Import FloatText Quota.Quota Json.

Inductive QuotaError :=
  | Unsupported (m : string)
  | AuthFailed (m : string)
  | Network (m : string)
  | Parse (m : string).
Definition to_string (e : QuotaError) : string :=
  match e with
  | Unsupported m => "unsupported: " +:+ m
  | AuthFailed m => "auth failed: " +:+ m
  | Network m => "network: " +:+ m
  | Parse m => "parse: " +:+ m
  end.

Record PollContext := mkContext {
  c_channel_id : Uuid;
  c_channel_name : string;
  c_provider : string;
  c_base_url : string;
  c_credential : string;
  c_quota_config : option Channel.QuotaConfig;
}.

(** A request, and what comes of it: a failure with its message, or a status
    with the text of the body, if that can be read. *)
Record Sent := mkSent { s_url : string; s_authorization : string }.
Inductive Reply :=
  | Failed (m : string)
  | Answered (status : Z) (body : string + string).

Record QuotaProvider := mkProvider {
  p_id : string;
  p_supports : PollContext → bool;
  p_poll : PollContext → list Sent * (QuotaInfo + QuotaError);
}.

Definition eq_ignore_ascii_case (a b : string) : bool := String.eqb (to_lowercase a) (to_lowercase b).
Definition is_success (status : Z) : bool := (200 <=? status) && (status <? 300).

(** [Value::as_f64], [Value::as_i64] and [Value::get] with an index. *)
Definition as_f64 (v : value) : option F64.f64 :=
  match v with
  | Number (PosInt n) | Number (NegInt n) => Some (F64.of_Z n)
  | Number (Float f) => Some f
  | _ => None
  end.
Definition as_i64 (v : value) : option Z :=
  match v with
  | Number (PosInt n) => if n <? 2 ^ 63 then Some n else None
  | Number (NegInt n) => Some n
  | _ => None
  end.
Definition at_index (v : value) (i : Z) : option value :=
  match v with Array l => get_idx l i | _ => None end.
Definition float_of (v : value) (k : string) : option F64.f64 := get v k ≫= as_f64.
Definition str_of (v : value) (k : string) : option string := get v k ≫= as_str.

(** The calendar in UTC: the year, the month and the day as formatted. *)
Record Calendar := mkCalendar { year : string; month : Z; today : string }.

Section collectors.
(** [ask] answers the requests of one poll; [parse_json] is [serde_json]'s
    reader with its message, [rfc3339] prints a time of the epoch, if [chrono] can
    represent it. *)
Context (parse_json : string → value + string) (rfc3339 : Z → option string).
Context (ask : Sent → Reply) (now : DateTime) (cal : Calendar).

Definition json (body : string + string) : value + string :=
  match body with inl text => parse_json text | inr m => inr m end.

(** The steps that all collectors of one request share. *)
Definition authorized (refusal : string) (r : Reply) : (string + string) + QuotaError :=
  match r with
  | Failed m => inr (Network m)
  | Answered status body => if status =? 401 then inr (AuthFailed refusal) else inl body
  end.
Definition document (refusal : string) (r : Reply) : value + QuotaError :=
  let? body := authorized refusal r in
  match json body with inl v => inl v | inr m => inr (Parse m) end.

Definition bearer (ctx : PollContext) : string := "Bearer " +:+ c_credential ctx.
Definition billed (url : string) (read : PollContext → value → QuotaInfo + QuotaError) (ctx : PollContext)
    : list Sent * (QuotaInfo + QuotaError) :=
  let s := mkSent url (bearer ctx) in
  ([s], let? body := document "invalid API key" (ask s) in read ctx body).

(** [QuotaInfo { .., ..QuotaInfo::new(..) }] *)
Definition info (ctx : PollContext) (src : string) (bal lim use : option F64.f64)
    (expires : option string) (its : list QuotaItem) : QuotaInfo :=
  mkInfo (c_channel_id ctx) (c_channel_name ctx) (c_provider ctx) bal lim use None None None expires
    its [] None no_rates no_totals src now None.
Definition item_of (l : string) (digits : nat) (v : option F64.f64) : list QuotaItem :=
  match v with Some f => [mkItem l (show_fixed digits f)] | None => [] end.
Definition positive (f : F64.f64) : option F64.f64 := if F64.ltb F64.zero f then Some f else None.

(** collectors/deepseek.rs.  A sum starts at zero. *)
Definition deepseek_items (i : value) : list QuotaItem :=
  let currency := default "?" (str_of i "currency") in
  [mkItem ("Balance (" +:+ currency +:+ ")") (default "0" (str_of i "total_balance"));
   mkItem ("Granted (" +:+ currency +:+ ")") (default "0" (str_of i "granted_balance"));
   mkItem ("Topped Up (" +:+ currency +:+ ")") (default "0" (str_of i "topped_up_balance"))].
Definition parse_balance_response (ctx : PollContext) (body : value) : QuotaInfo + QuotaError :=
  match get body "balance_infos" ≫= as_array with
  | None => inr (Parse "no balance_infos")
  | Some balance_infos =>
      let balance := foldl F64.add F64.zero (omap (λ i, str_of i "total_balance" ≫= parse_f64) balance_infos) in
      let status := match get body "is_available" ≫= as_bool with
                    | Some b => [mkItem "Account Status" (if b : bool then "Available" else "Unavailable")]
                    | None => []
                    end in
      inl (info ctx "http_api" (Some balance) None None None (status ++ (balance_infos ≫= deepseek_items)))
  end.
Definition deepseek : QuotaProvider :=
  mkProvider "deepseek" (λ ctx, eq_ignore_ascii_case (c_provider ctx) "deepseek")
    (billed "https://api.deepseek.com/user/balance" parse_balance_response).

(** collectors/zhipu.rs *)
Definition amount_of (account : value) (k : string) : F64.f64 :=
  default F64.zero (get account k ≫= λ v, match as_f64 v with Some f => Some f | None => as_str v ≫= parse_f64 end).
Definition add_account (acc : F64.f64 * F64.f64 * F64.f64 * list QuotaItem) (account : value)
    : F64.f64 * F64.f64 * F64.f64 * list QuotaItem :=
  let '(total_balance, total_limit, total_usage, items) := acc in
  let balance := amount_of account "balance" in
  let limit := amount_of account "totalBalance" in
  let used := amount_of account "usedBalance" in
  (F64.add total_balance balance, F64.add total_limit limit, F64.add total_usage used,
   match str_of account "name" with
   | Some name => items ++ [mkItem name (show_fixed 2 balance +:+ " / " +:+ show_fixed 2 limit)]
   | None => items
   end).
Definition zhipu_read (ctx : PollContext) (body : value) : QuotaInfo + QuotaError :=
  match get body "data" ≫= as_array with
  | None => inr (Parse "no data array in response")
  | Some accounts =>
      let '(total_balance, total_limit, total_usage, items) :=
        foldl add_account (F64.zero, F64.zero, F64.zero, []) accounts in
      inl (info ctx "http_api" (positive total_balance) (positive total_limit) (positive total_usage) None items)
  end.
Definition mentions (url name : string) : bool := contains (to_lowercase url) name.
Definition zhipu : QuotaProvider :=
  mkProvider "zhipu"
    (λ ctx, let lower := to_lowercase (c_provider ctx) in
            String.eqb lower "zhipu" || String.eqb lower "glm" || String.eqb lower "bigmodel" ||
            mentions (c_base_url ctx) "bigmodel")
    (billed "https://open.bigmodel.cn/api/paas/api/biz/tokenAccounts/list?filterEnabled=true" zhipu_read).

(** collectors/moonshot.rs *)
Definition moonshot_read (ctx : PollContext) (body : value) : QuotaInfo + QuotaError :=
  match get body "data" with
  | None => inr (Parse "no data field")
  | Some data =>
      inl (info ctx "http_api" (float_of data "available_balance") None None None
             (item_of "voucher" 2 (float_of data "voucher_balance") ++ item_of "cash" 2 (float_of data "cash_balance")))
  end.
Definition moonshot : QuotaProvider :=
  mkProvider "moonshot"
    (λ ctx, let lower := to_lowercase (c_provider ctx) in
            String.eqb lower "moonshot" || String.eqb lower "kimi" ||
            mentions (c_base_url ctx) "moonshot" || mentions (c_base_url ctx) "kimi")
    (billed "https://api.moonshot.cn/v1/users/me/balance" moonshot_read).

(** collectors/minimax.rs *)
Definition minimax_read (ctx : PollContext) (body : value) : QuotaInfo + QuotaError :=
  let fields :=
    let remaining := float_of body "remaining" in
    let total := float_of body "total" in
    let used := float_of body "used" in
    info ctx "http_api" (match float_of body "balance" with Some b => Some b | None => remaining end) total used None
      (item_of "remaining" 0 remaining ++ item_of "used" 0 used ++ item_of "total" 0 total) in
  match get2 body "base_resp" "status_code" ≫= as_i64 with
  | Some status_code =>
      if negb (status_code =? 0) then
        let msg := default "unknown error" (get2 body "base_resp" "status_msg" ≫= as_str) in
        inr (Parse ("API error " +:+ pretty status_code +:+ ": " +:+ msg))
      else inl fields
  | None => inl fields
  end.
Definition minimax : QuotaProvider :=
  mkProvider "minimax"
    (λ ctx, String.eqb (to_lowercase (c_provider ctx)) "minimax" || mentions (c_base_url ctx) "minimax")
    (billed "https://api.minimaxi.com/v1/api/openplatform/coding_plan/remains" minimax_read).

(** collectors/siliconflow.rs *)
Definition siliconflow_read (ctx : PollContext) (body : value) : QuotaInfo + QuotaError :=
  let balance := match float_of body "totalBalance" with Some b => Some b | None => float_of body "balance" end in
  inl (info ctx "http_api" balance None None None []).
Definition siliconflow : QuotaProvider :=
  mkProvider "siliconflow"
    (λ ctx, eq_ignore_ascii_case (c_provider ctx) "siliconflow" || mentions (c_base_url ctx) "siliconflow")
    (billed "https://api.siliconflow.cn/v1/user/info" siliconflow_read).

(** collectors/openrouter.rs *)
Definition openrouter_read (ctx : PollContext) (body : value) : QuotaInfo + QuotaError :=
  match get body "data" with
  | None => inr (Parse "no data field")
  | Some data =>
      let usage := float_of data "usage" in
      let limit := float_of data "limit" ≫= positive in
      let balance := limit ≫= λ l, F64.sub l <$> usage in
      inl (info ctx "http_api" balance limit usage None
             (item_of "daily" 2 (float_of data "usage_daily") ++ item_of "weekly" 2 (float_of data "usage_weekly") ++
              item_of "monthly" 2 (float_of data "usage_monthly")))
  end.
Definition openrouter : QuotaProvider :=
  mkProvider "openrouter" (λ ctx, eq_ignore_ascii_case (c_provider ctx) "openrouter")
    (billed "https://openrouter.ai/api/v1/key" openrouter_read).

(** collectors/stepfun.rs *)
Definition stepfun_read (ctx : PollContext) (body : value) : QuotaInfo + QuotaError :=
  let cash := default F64.zero (float_of body "total_cash_balance") in
  let voucher := default F64.zero (float_of body "total_voucher_balance") in
  inl (info ctx "http_api" (Some (F64.add cash voucher)) None None None
         (item_of "cash" 2 (positive cash) ++ item_of "voucher" 2 (positive voucher))).
Definition stepfun : QuotaProvider :=
  mkProvider "stepfun"
    (λ ctx, eq_ignore_ascii_case (c_provider ctx) "stepfun" || mentions (c_base_url ctx) "stepfun")
    (billed "https://api.stepfun.com/v1/accounts" stepfun_read).

(** collectors/novita.rs: the only one that reads the text first. *)
Definition novita_balance (raw : string) : option F64.f64 :=
  match parse_f64 (trim raw) with
  | Some v => Some (F64.div v (F64.of_Z 10000))
  | None =>
      match parse_json raw with
      | inl body =>
          (λ v, F64.div v (F64.of_Z 10000)) <$>
            (match as_f64 body with Some v => Some v | None => float_of body "balance" end)
      | inr _ => None
      end
  end.
Definition novita_poll (ctx : PollContext) : list Sent * (QuotaInfo + QuotaError) :=
  let s := mkSent "https://api.novita.ai/openapi/v1/user/balance" (bearer ctx) in
  ([s],
   let? body := authorized "invalid API key" (ask s) in
   match body with
   | inl raw => inl (info ctx "http_api" (novita_balance raw) None None None [])
   | inr m => inr (Parse m)
   end).
Definition novita : QuotaProvider :=
  mkProvider "novita"
    (λ ctx, eq_ignore_ascii_case (c_provider ctx) "novita" || mentions (c_base_url ctx) "novita") novita_poll.

(** collectors/shengsuanyun.rs *)
Definition shengsuanyun_read (ctx : PollContext) (body : value) : QuotaInfo + QuotaError :=
  match get body "data" with
  | None => inr (Parse "no data field")
  | Some data =>
      let max_quota := default F64.zero (float_of data "max_quota") in
      let consumed := default F64.zero (float_of data "consumed_amount") in
      let unit_divisor := F64.of_Z 500000 in
      inl (info ctx "http_api" (Some (F64.div (F64.sub max_quota consumed) unit_divisor))
             (Some (F64.div max_quota unit_divisor)) (Some (F64.div consumed unit_divisor)) None [])
  end.
Definition shengsuanyun : QuotaProvider :=
  mkProvider "shengsuanyun"
    (λ ctx, eq_ignore_ascii_case (c_provider ctx) "shengsuanyun" || mentions (c_base_url ctx) "shengsuanyun")
    (billed "https://router.shengsuanyun.com/api/v1/key" shengsuanyun_read).

(** collectors/jsonpath_generic.rs *)
Fixpoint walk (path : string) (segments : list string) (current : value) : value + QuotaError :=
  match segments with
  | [] => inl current
  | segment :: rest =>
      if String.eqb segment "" then walk path rest current
      else match parse_uint u64_max segment with
      | Some idx =>
          match at_index current idx with
          | Some v => walk path rest v
          | None => inr (Parse ("path '" +:+ path +:+ "' not found at index " +:+ pretty idx))
          end
      | None =>
          match get current segment with
          | Some v => walk path rest v
          | None => inr (Parse ("path '" +:+ path +:+ "' not found at key '" +:+ segment +:+ "'"))
          end
      end
  end.
Definition extract_json_path (v : value) (path : string) : option F64.f64 + QuotaError :=
  let path := default path (strip_prefix "$." path) in
  let? current := walk path (split_on "." path) v in
  inl (match as_f64 current with Some f => Some f | None => as_str current ≫= parse_f64 end).

Definition absolute (url : string) : bool := starts_with url "http://" || starts_with url "https://".
Definition balance_address (base balance_url : string) : string :=
  if absolute balance_url then balance_url
  else trim_end_slashes base +:+ (if starts_with balance_url "/" then "" else "/") +:+ balance_url.
Definition optional_path (body : value) (path : option string) : option F64.f64 :=
  path ≫= λ p, match extract_json_path body p with inl f => f | inr _ => None end.
Definition jsonpath_poll (ctx : PollContext) : list Sent * (QuotaInfo + QuotaError) :=
  match c_quota_config ctx with
  | None => ([], inr (Unsupported "no quota config"))
  | Some cfg =>
      match Channel.balance_url cfg, Channel.balance_path cfg with
      | None, _ => ([], inr (Unsupported "no balance_url configured"))
      | _, None => ([], inr (Unsupported "no balance_path configured"))
      | Some balance_url, Some balance_path =>
          let auth_prefix := default "Bearer" (Channel.auth_prefix cfg) in
          let s := mkSent (balance_address (c_base_url ctx) balance_url)
                     (auth_prefix +:+ " " +:+ c_credential ctx) in
          ([s],
           let? body := document "invalid credentials" (ask s) in
           let? balance := extract_json_path body balance_path in
           inl (info ctx "jsonpath" balance (optional_path body (Channel.limit_path cfg))
                  (optional_path body (Channel.usage_path cfg)) None []))
      end
  end.
Definition jsonpath : QuotaProvider :=
  mkProvider "jsonpath"
    (λ ctx, match c_quota_config ctx with
            | Some cfg => bool_decide (is_Some (Channel.balance_url cfg)) && bool_decide (is_Some (Channel.balance_path cfg))
            | None => false
            end)
    jsonpath_poll.

(** collectors/openai_compat.rs.  The addresses are tried until one gives a
    document. *)
Fixpoint first_document (auth : string) (urls : list string) : list Sent * option value :=
  match urls with
  | [] => ([], None)
  | url :: rest =>
      let s := mkSent url auth in
      let found := match ask s with
                   | Answered status body =>
                       if is_success status then match json body with inl v => Some v | inr _ => None end else None
                   | Failed _ => None
                   end in
      match found with
      | Some v => ([s], Some v)
      | None => let '(sent, r) := first_document auth rest in (s :: sent, r)
      end
  end.
Definition two_digits (n : Z) : string := (if n <? 10 then "0" else "") +:+ pretty n.
Definition openai_compat_poll (ctx : PollContext) : list Sent * (QuotaInfo + QuotaError) :=
  let base := trim_end_slashes (c_base_url ctx) in
  let auth := bearer ctx in
  let '(sent, subscription) :=
    first_document auth [base +:+ "/dashboard/billing/subscription"; base +:+ "/v1/dashboard/billing/subscription"] in
  match subscription ≫= λ body, float_of body "hard_limit_usd" with
  | None => (sent, inr (Unsupported "no /dashboard/billing/subscription endpoint"))
  | Some hard_limit =>
      let access_until := (λ until, default (pretty until) (rfc3339 until)) <$>
                            (subscription ≫= λ body, get body "access_until" ≫= as_i64) in
      let dates := "start_date=" +:+ year cal +:+ "-" +:+ two_digits (month cal) +:+ "-01&end_date=" +:+ today cal in
      let '(sent', used) :=
        first_document auth [base +:+ "/dashboard/billing/usage?" +:+ dates;
                             base +:+ "/v1/dashboard/billing/usage?" +:+ dates] in
      let total_usage_usd :=
        match used with
        | Some body => F64.div (default F64.zero (float_of body "total_usage")) (F64.of_Z 100)
        | None => F64.zero
        end in
      (sent ++ sent',
       inl (info ctx "http_api" (Some (F64.sub hard_limit total_usage_usd)) (Some hard_limit)
              (Some total_usage_usd) access_until []))
  end.
Definition openai_compat : QuotaProvider := mkProvider "openai_compat" (λ _, true) openai_compat_poll.

Definition default_registry : list QuotaProvider :=
  [jsonpath; openrouter; deepseek; siliconflow; moonshot; stepfun; novita; shengsuanyun; zhipu; minimax;
   openai_compat].
End collectors.
End Collectors.

(** ** Registry and poller *)

Module Poller.
Import Quota.Quota Collectors.

(** *** quota/registry.rs *)

Definition find_by_id (providers : list QuotaProvider) (i : string) : option QuotaProvider :=
  List.find (λ p, eq_ignore_ascii_case (p_id p) i) providers.

Definition match_by_url (providers : list QuotaProvider) (url : string) : option QuotaProvider :=
  if mentions url "siliconflow" then find_by_id providers "siliconflow"
  else if mentions url "moonshot" || mentions url "kimi" then find_by_id providers "moonshot"
  else if mentions url "stepfun" then find_by_id providers "stepfun"
  else if mentions url "novita" then find_by_id providers "novita"
  else if mentions url "shengsuanyun" then find_by_id providers "shengsuanyun"
  else if mentions url "bigmodel" then find_by_id providers "zhipu"
  else if mentions url "minimax" then find_by_id providers "minimax"
  else if mentions url "deepseek" then find_by_id providers "deepseek"
  else None.

(** What follows the explicit strategy. *)
Definition resolve_default (providers : list QuotaProvider) (ctx : PollContext) : option QuotaProvider :=
  let later :=
    match find_by_id providers (c_provider ctx) with
    | Some p => Some p
    | None =>
        match match_by_url providers (c_base_url ctx) with
        | Some p => Some p
        | None => find_by_id providers "openai_compat"
        end
    end in
  match find_by_id providers "jsonpath" with
  | Some p => if p_supports p ctx then Some p else later
  | None => later
  end.
Definition resolve (providers : list QuotaProvider) (ctx : PollContext) : option QuotaProvider :=
  match c_quota_config ctx ≫= Channel.strategy with
  | Some strategy =>
      if String.eqb strategy "disabled" then None
      else match find_by_id providers strategy with
           | Some p => Some p
           | None => resolve_default providers ctx
           end
  | None => resolve_default providers ctx
  end.

Definition poll (providers : list QuotaProvider) (ctx : PollContext) : list Sent * (QuotaInfo + QuotaError) :=
  match resolve providers ctx with
  | None => ([], inr (Unsupported ("no quota provider for '" +:+ c_provider ctx +:+ "'")))
  | Some p => p_poll p ctx
  end.

(** *** quota/poller.rs *)

Definition with_error (e : string) (i : QuotaInfo) : QuotaInfo :=
  mkInfo (channel_id i) (channel_name i) (provider i) (balance i) (limit i) (usage i) (remaining_tokens i)
    (remaining_requests i) (plan_status i) (expires_at i) (items i) (groups i) (compact_text i) (rates i)
    (totals i) (source i) (updated_at i) (Some e).
Definition without_credential : string :=
  "No API key configured — add api_key in channel config or re-create the channel".

Section poller.
Context (parse_json : string → Json.value + string) (rfc3339 : Z → option string) (show_uuid : Uuid → string).
Context (store_get : string → string → option string).
(** What the billing services answer when a channel is polled, and the time. *)
Context (ask : Uuid → Sent → Reply) (now : DateTime) (cal : Calendar).
Context (quota_configs : gmap string Channel.QuotaConfig).

Definition registry (u : Uuid) : list QuotaProvider :=
  default_registry parse_json rfc3339 (ask u) now cal.
Definition context_of (ch : Channel.Channel) (api_key : string) : PollContext :=
  mkContext (Channel.id ch) (Channel.name ch) (Channel.as_str (Channel.provider ch)) (Channel.base_url ch) api_key
    (quota_configs !! show_uuid (Channel.id ch)).
Definition blank (ch : Channel.Channel) : QuotaInfo :=
  new_info (Channel.id ch) (Channel.name ch) (Channel.as_str (Channel.provider ch)) "http_api" now.

(** The entry of a polled channel. *)
Definition polled (ch : Channel.Channel) (result : QuotaInfo + QuotaError) : QuotaInfo :=
  match result with
  | inl i => with_parts (rates i) (totals i) (source i) now i
  | inr (Unsupported reason) => with_error reason (blank ch)
  | inr e => with_error (to_string e) (blank ch)
  end.

Record Polling := mkPolling { mgr : ChannelManager.ChannelManager; quotas : Store; sent : list Sent }.

Definition poll_channel (p : Polling) (ch : Channel.Channel) : outcome Polling :=
  if negb (Channel.enabled ch) then Done p else
  let '(key, m) := ChannelManager.get_credential store_get (Channel.id ch) (mgr p) in
  let! key := key in
  match key with
  | None => Done (mkPolling m (update (quotas p) (with_error without_credential (blank ch))) (sent p))
  | Some api_key =>
      let '(s, result) := poll (registry (Channel.id ch)) (context_of ch api_key) in
      Done (mkPolling m (update (quotas p) (polled ch result)) (sent p ++ s))
  end.

(** [channels] are those that the manager lists, in the order of its table. *)
Fixpoint poll_all_channels (channels : list Channel.Channel) (p : Polling) : outcome Polling :=
  match channels with
  | [] => Done p
  | ch :: rest => let! p := poll_channel p ch in poll_all_channels rest p
  end.
End poller.
End Poller.

Module PollFacts.
Import FloatText Quota.Quota Json Collectors Poller.

(** *** Where a poll sends the credential *)

(** The vendors whose billing address is fixed: identifier, address, and the words
    by which an address of a channel is taken for theirs. *)
Record Vendor := mkVendor { v_id : string; v_url : string; v_words : list string }.
Definition vendors : list Vendor :=
  [mkVendor "openrouter" "https://openrouter.ai/api/v1/key" [];
   mkVendor "deepseek" "https://api.deepseek.com/user/balance" ["deepseek"];
   mkVendor "siliconflow" "https://api.siliconflow.cn/v1/user/info" ["siliconflow"];
   mkVendor "moonshot" "https://api.moonshot.cn/v1/users/me/balance" ["moonshot"; "kimi"];
   mkVendor "stepfun" "https://api.stepfun.com/v1/accounts" ["stepfun"];
   mkVendor "novita" "https://api.novita.ai/openapi/v1/user/balance" ["novita"];
   mkVendor "shengsuanyun" "https://router.shengsuanyun.com/api/v1/key" ["shengsuanyun"];
   mkVendor "zhipu" "https://open.bigmodel.cn/api/paas/api/biz/tokenAccounts/list?filterEnabled=true" ["bigmodel"];
   mkVendor "minimax" "https://api.minimaxi.com/v1/api/openplatform/coding_plan/remains" ["minimax"]].

(** Why a collector is asked: the strategy or the provider is its identifier, or
    the channel's address has a word of the vendor. *)
Definition named (ctx : PollContext) (i : string) (words : list string) : Prop :=
  (∃ s, c_quota_config ctx ≫= Channel.strategy = Some s ∧ eq_ignore_ascii_case i s = true) ∨
  eq_ignore_ascii_case i (c_provider ctx) = true ∨ (∃ w, w ∈ words ∧ mentions (c_base_url ctx) w = true).

(** A request to a vendor, to the channel's own address, or to the address that is
    configured, in each case with the credential of the channel. *)
Definition to_vendor (ctx : PollContext) (i : string) (s : Sent) : Prop :=
  ∃ v, v ∈ vendors ∧ v_id v = i ∧ s_url s = v_url v ∧ s_authorization s = bearer ctx.
Definition to_channel (ctx : PollContext) (s : Sent) : Prop :=
  (∃ path, s_url s = trim_end_slashes (c_base_url ctx) +:+ path) ∧ s_authorization s = bearer ctx.
Definition as_configured (ctx : PollContext) (s : Sent) : Prop :=
  ∃ cfg b, c_quota_config ctx = Some cfg ∧ Channel.balance_url cfg = Some b ∧
    s_url s = balance_address (c_base_url ctx) b ∧
    s_authorization s = default "Bearer" (Channel.auth_prefix cfg) +:+ " " +:+ c_credential ctx.
Definition permitted (ctx : PollContext) (s : Sent) : Prop :=
  (∃ v, v ∈ vendors ∧ s_url s = v_url v ∧ s_authorization s = bearer ctx ∧ named ctx (v_id v) (v_words v)) ∨
  to_channel ctx s ∨ as_configured ctx s.

(** What a collector reports is about the channel, and has no counts of its own. *)
Definition own (ctx : PollContext) (i : QuotaInfo) : Prop :=
  channel_id i = c_channel_id ctx ∧ totals i = no_totals ∧ rates i = no_rates.

Section facts.
Context (parse_json : string → value + string) (rfc3339 : Z → option string).
Context (ask : Sent → Reply) (now : DateTime) (cal : Calendar).

Definition reads_own (read : PollContext → value → QuotaInfo + QuotaError) : Prop :=
  ∀ ctx v i, read ctx v = inl i → own ctx i.

Lemma billed_own url read ctx sent i :
  reads_own read → billed parse_json ask url read ctx = (sent, inl i) → own ctx i.
Proof. intros Hr. unfold billed. intros [= _ H]. apply result_bind_inl in H as (v&_&H). by eapply Hr. Qed.

Ltac readers := intros ctx v i H; repeat case_match; simplify_eq; by split_and!.
Lemma deepseek_own : reads_own (parse_balance_response now). Proof. unfold parse_balance_response. readers. Qed.
Lemma zhipu_own : reads_own (zhipu_read now). Proof. unfold zhipu_read. readers. Qed.
Lemma moonshot_own : reads_own (moonshot_read now). Proof. unfold moonshot_read. readers. Qed.
Lemma minimax_own : reads_own (minimax_read now). Proof. unfold minimax_read. readers. Qed.
Lemma siliconflow_own : reads_own (siliconflow_read now). Proof. unfold siliconflow_read. readers. Qed.
Lemma openrouter_own : reads_own (openrouter_read now). Proof. unfold openrouter_read. readers. Qed.
Lemma stepfun_own : reads_own (stepfun_read now). Proof. unfold stepfun_read. readers. Qed.
Lemma shengsuanyun_own : reads_own (shengsuanyun_read now). Proof. unfold shengsuanyun_read. readers. Qed.

Lemma registry_own p ctx sent i :
  p ∈ default_registry parse_json rfc3339 ask now cal → p_poll p ctx = (sent, inl i) → own ctx i.
Proof.
  unfold default_registry. rewrite !elem_of_cons, elem_of_nil.
  intros [->|[->|[->|[->|[->|[->|[->|[->|[->|[->|[->|[]]]]]]]]]]]]; cbn [p_poll jsonpath openrouter deepseek
    siliconflow moonshot stepfun novita shengsuanyun zhipu minimax openai_compat];
    try (apply billed_own; eauto using deepseek_own, zhipu_own, moonshot_own, minimax_own, siliconflow_own,
      openrouter_own, stepfun_own, shengsuanyun_own).
  - unfold jsonpath_poll. intros H. repeat case_match; try done. injection H as _ H.
    apply result_bind_inl in H as (v&_&(b&_&[= <-])%result_bind_inl). by split_and!.
  - unfold novita_poll. intros [= _ H]. apply result_bind_inl in H as ([v|m]&_&H); [|done].
    injection H as <-. by split_and!.
  - unfold openai_compat_poll. intros H. repeat case_match; simplify_eq; by split_and!.
Qed.

Lemma first_document_sent auth urls sent d s :
  first_document parse_json ask auth urls = (sent, d) → s ∈ sent → s_url s ∈ urls ∧ s_authorization s = auth.
Proof.
  revert sent d. induction urls as [|u urls IH]; cbn; [by intros ? ? [= <- _] ?%elem_of_nil|]. intros sent d.
  destruct (match ask _ with Failed _ => _ | _ => _ end) as [v|].
  - intros [= <- _] ->%list_elem_of_singleton. by split; [left|].
  - destruct (first_document _ _ _ _) as [l r] eqn:E. intros [= <- _] [->|H]%elem_of_cons; [by split; [left|]|].
    destruct (IH _ _ eq_refl H) as [? ?]. by split; [right|].
Qed.

Lemma billed_sent i url words read ctx s :
  mkVendor i url words ∈ vendors → s ∈ (billed parse_json ask url read ctx).1 → to_vendor ctx i s.
Proof. intros Hv ->%list_elem_of_singleton. by exists (mkVendor i url words). Qed.

Lemma two_addresses base x y url :
  url ∈ [base +:+ x; base +:+ y] → ∃ path, url = base +:+ path.
Proof. rewrite !elem_of_cons. intros [->|[->|[]%elem_of_nil]]; by eexists. Qed.

Lemma jsonpath_sent ctx s : s ∈ (jsonpath_poll parse_json ask now ctx).1 → as_configured ctx s.
Proof.
  unfold jsonpath_poll. destruct (c_quota_config ctx) as [cfg|] eqn:E; [|by intros ?%elem_of_nil].
  destruct (Channel.balance_url cfg) as [b|] eqn:Eb; [|by intros ?%elem_of_nil].
  destruct (Channel.balance_path cfg); [|by intros ?%elem_of_nil].
  intros ->%list_elem_of_singleton. by exists cfg, b.
Qed.

Lemma openai_compat_sent ctx s : s ∈ (openai_compat_poll parse_json rfc3339 ask now cal ctx).1 → to_channel ctx s.
Proof.
  unfold openai_compat_poll. destruct (first_document _ _ _ _) as [l1 d1] eqn:E1.
  assert (∀ x, x ∈ l1 → to_channel ctx x) as H1.
  { intros x Hx. destruct (first_document_sent _ _ _ _ _ E1 Hx) as [H ?]. by apply two_addresses in H. }
  destruct (d1 ≫= _); [|by apply H1]. cbv zeta.
  match goal with |- context [first_document _ _ ?a ?l] => destruct (first_document _ _ a l) as [l2 d2] eqn:E2 end.
  cbn [fst].
  intros [Hs|Hs]%elem_of_app; [by apply H1|].
  destruct (first_document_sent _ _ _ _ _ E2 Hs) as [H ?]. by apply two_addresses in H.
Qed.

Ltac vendor := eapply billed_sent; [|eassumption]; unfold vendors; solve [repeat first [by left | right]].
Lemma registry_sent p ctx s :
  p ∈ default_registry parse_json rfc3339 ask now cal → s ∈ (p_poll p ctx).1 →
  to_vendor ctx (p_id p) s ∨ to_channel ctx s ∨ as_configured ctx s.
Proof.
  unfold default_registry. rewrite !elem_of_cons, elem_of_nil.
  intros [->|[->|[->|[->|[->|[->|[->|[->|[->|[->|[->|[]]]]]]]]]]]] Hs; cbn [p_poll p_id jsonpath openrouter deepseek
    siliconflow moonshot stepfun novita shengsuanyun zhipu minimax openai_compat] in *; try (left; vendor).
  - right; right. by apply jsonpath_sent in Hs.
  - left. apply list_elem_of_singleton in Hs as ->. eexists (mkVendor _ _ _). split; [|done].
    unfold vendors. solve [repeat first [by left | right]].
  - right; left. by apply openai_compat_sent in Hs.
Qed.

(** *** Why a collector is asked *)

Abbreviation reg := (default_registry parse_json rfc3339 ask now cal).

Lemma find_in i p : find_by_id reg i = Some p → p ∈ reg ∧ eq_ignore_ascii_case (p_id p) i = true.
Proof. intros [H ?]%find_some. by rewrite list_elem_of_In. Qed.

Lemma no_vendor v i : v ∈ vendors → v_id v = i → i ≠ "jsonpath" ∧ i ≠ "openai_compat".
Proof.
  intros Hv <-. unfold vendors in Hv. rewrite !elem_of_cons, elem_of_nil in Hv.
  by repeat (destruct Hv as [->|Hv]; [done|]).
Qed.

Lemma has_word v ctx i w :
  v ∈ vendors → v_id v = i → mentions (c_base_url ctx) w = true →
  (i, w) ∈ (vendors ≫= λ v, pair (v_id v) <$> v_words v) → named ctx (v_id v) (v_words v).
Proof.
  intros Hv Hi Hm Hw. right; right. exists w. split; [|done].
  apply list_elem_of_bind in Hw as (v'&Hw&Hv'). apply list_elem_of_fmap in Hw as (w'&[= -> ->]&Hw).
  assert (v = v') as ->; [|done]. clear -Hv Hv' Hi.
  unfold vendors in *. rewrite !elem_of_cons, elem_of_nil in Hv, Hv'.
  by repeat (destruct Hv as [->|Hv]; [repeat (destruct Hv' as [->|Hv']; [done|]); done|]).
Qed.

Lemma match_by_url_reason ctx p :
  match_by_url reg (c_base_url ctx) = Some p →
  p ∈ reg ∧ ∀ v, v ∈ vendors → v_id v = p_id p → named ctx (v_id v) (v_words v).
Proof.
  assert (∀ i w q, mentions (c_base_url ctx) w = true → find_by_id reg i = Some q → p_id q = i →
    (i, w) ∈ (vendors ≫= λ v, pair (v_id v) <$> v_words v) →
    find_by_id reg i = Some p →
    p ∈ reg ∧ ∀ v, v ∈ vendors → v_id v = p_id p → named ctx (v_id v) (v_words v)) as H.
  { intros i w q Hm Hq Hi Hw Hp. rewrite Hq in Hp. injection Hp as <-. split; [by apply find_in in Hq as [? _]|].
    intros v Hv Hvi. rewrite Hi in Hvi. by eapply has_word. }
  unfold match_by_url. intros Hp.
  repeat match type of Hp with
  | (if ?b || ?c then _ else _) = _ => destruct b eqn:?; cbn [orb] in Hp
  | (if mentions ?u ?w then _ else _) = _ =>
      destruct (mentions u w) eqn:?
  end; try done;
  (refine (H _ _ _ _ _ _ _ Hp); [eassumption|reflexivity|reflexivity|vm_compute; solve [repeat first [by left | right]]]).
Qed.

Lemma resolve_default_reason ctx p :
  resolve_default reg ctx = Some p →
  p ∈ reg ∧ ∀ v, v ∈ vendors → v_id v = p_id p → named ctx (v_id v) (v_words v).
Proof.
  unfold resolve_default.
  assert (∀ p, find_by_id reg (c_provider ctx) = Some p →
    p ∈ reg ∧ ∀ v, v ∈ vendors → v_id v = p_id p → named ctx (v_id v) (v_words v)) as Hprov.
  { intros q [? H]%find_in. split; [done|]. intros v _ ->. by right; left. }
  assert (∀ i p q, find_by_id reg i = Some q → (p_id q = "jsonpath" ∨ p_id q = "openai_compat") →
    Some q = Some p → p ∈ reg ∧ ∀ v, v ∈ vendors → v_id v = p_id p → named ctx (v_id v) (v_words v)) as Hno.
  { intros i q' q Hq Hi [= <-]. split; [by apply find_in in Hq as [? _]|].
    intros v Hv E. destruct (no_vendor v _ Hv E). naive_solver. }
  assert (match find_by_id reg (c_provider ctx) with
          | Some p => Some p
          | None => match match_by_url reg (c_base_url ctx) with
                    | Some p => Some p
                    | None => find_by_id reg "openai_compat"
                    end
          end = Some p → p ∈ reg ∧ ∀ v, v ∈ vendors → v_id v = p_id p → named ctx (v_id v) (v_words v)) as Hlater.
  { destruct (find_by_id reg (c_provider ctx)) as [q|]; [intros [= <-]; by apply Hprov|].
    destruct (match_by_url _ _) as [q|] eqn:E; [intros [= <-]; by apply match_by_url_reason|].
    eapply (Hno "openai_compat"); [reflexivity|by right]. }
  destruct (find_by_id reg "jsonpath") as [q|] eqn:E; [|done].
  destruct (p_supports q ctx); [|done]. eapply (Hno "jsonpath"); [exact E|left; by injection E as <-].
Qed.

Lemma resolve_reason ctx p :
  resolve reg ctx = Some p →
  p ∈ reg ∧ ∀ v, v ∈ vendors → v_id v = p_id p → named ctx (v_id v) (v_words v).
Proof.
  unfold resolve. destruct (c_quota_config ctx ≫= Channel.strategy) as [strategy|] eqn:Es;
    [|by apply resolve_default_reason].
  destruct (String.eqb _ _); [done|]. destruct (find_by_id reg strategy) as [q|] eqn:Ef;
    [|by apply resolve_default_reason].
  intros [= <-]. apply find_in in Ef as [? H]. split; [done|]. intros v _ ->. left. by exists strategy.
Qed.

Lemma poll_permitted ctx s : s ∈ (poll reg ctx).1 → permitted ctx s.
Proof.
  unfold poll. destruct (resolve reg ctx) as [p|] eqn:E; [|by intros ?%elem_of_nil].
  apply resolve_reason in E as [Hp Hn]. intros Hs.
  destruct (registry_sent p ctx s Hp Hs) as [(v&Hv&Hi&Hu&Ha)|H]; [left|by right].
  exists v. by split_and!; [..|apply Hn].
Qed.

Lemma poll_own ctx sent i : poll reg ctx = (sent, inl i) → own ctx i.
Proof.
  unfold poll. destruct (resolve reg ctx) as [p|] eqn:E; [|done].
  apply resolve_reason in E as [Hp _]. by apply registry_own.
Qed.
End facts.
End PollFacts.

Module PollProps.
Import FloatText Quota.Quota Json Collectors Poller PollFacts.

(** *** The round *)

(** A key of the channel. *)
Definition key_of (store_get : string → string → option string) (c : Channel.Channel) (k : string) : Prop :=
  Channel.api_key (Channel.credential c) = Some k ∨ k ∈ Channel.api_keys c ∨
  store_get "modelswitch" (Channel.key_ref (Channel.credential c)) = Some k.

Lemma credential_key sg u m m' k :
  ChannelManager.get_credential sg u m = (Done (Some k), m') →
  ∃ c, ChannelManager.channels m !! u = Some c ∧ key_of sg c k.
Proof.
  unfold ChannelManager.get_credential, key_of. destruct (_ !! u) as [c|]; [|done]. intros H. exists c. split; [done|].
  destruct (Channel.api_key _) as [pk|], (Channel.api_keys c) as [|k1 ks]; cbn in *; try (simplify_eq; naive_solver);
    destruct (_ <? _) in H; simplify_eq;
    (destruct (_ !! _) as [x|] eqn:E in H; [|done]); simplify_eq; apply list_elem_of_lookup_2 in E.
  - apply elem_of_cons in E as [->|E]; naive_solver.
  - naive_solver.
Qed.

Section round.
Context (parse_json : string → value + string) (rfc3339 : Z → option string) (show_uuid : Uuid → string).
Context (store_get : string → string → option string) (ask : Uuid → Sent → Reply) (now : DateTime) (cal : Calendar).
Context (configs : gmap string Channel.QuotaConfig).

Lemma polled_parts ch key :
  let i := polled now ch (poll (registry parse_json rfc3339 ask now cal (Channel.id ch))
                            (context_of show_uuid configs ch key)).2 in
  channel_id i = Channel.id ch ∧ rates i = no_rates.
Proof.
  destruct (poll _ _) as [s [i|e]] eqn:E; cbn [snd].
  - apply poll_own in E as (H&_&Hr). by split.
  - by destruct e.
Qed.

(** What a new entry keeps of an old one. *)
Definition carried (old new : QuotaInfo) : Prop := totals new = totals old ∧ rates new = rates old.
Lemma update_keeps (s : Store) i :
  rates i = no_rates →
  ∃ i', update s i !! channel_id i = Some i' ∧ channel_id i' = channel_id i ∧
    (∀ old, s !! channel_id i = Some old → carried old i') ∧
    ∀ u, u ≠ channel_id i → update s i !! u = s !! u.
Proof.
  intros Hr. unfold update. rewrite Hr. cbn. destruct (s !! channel_id i) as [e|] eqn:E; cbn; eexists;
    (split; [apply lookup_insert_eq|]); split_and!; try done; try (intros u Hu; by apply lookup_insert_ne).
  intros old [= <-]. split; [done|]. by destruct (rates e).
Qed.

(** What polling one channel does. *)
Definition step_ok (ch : Channel.Channel) (p p' : Polling) : Prop :=
  ChannelManager.channels (mgr p') = ChannelManager.channels (mgr p) ∧
  (∀ u, u ≠ Channel.id ch ∨ Channel.enabled ch = false → quotas p' !! u = quotas p !! u) ∧
  (Channel.enabled ch = true → ∃ i, quotas p' !! Channel.id ch = Some i ∧ channel_id i = Channel.id ch ∧
     ∀ old, quotas p !! Channel.id ch = Some old → carried old i) ∧
  (∀ x, x ∈ sent p' → x ∈ sent p ∨
     ∃ c key, ChannelManager.channels (mgr p) !! Channel.id ch = Some c ∧ key_of store_get c key ∧
       permitted (context_of show_uuid configs ch key) x).

Lemma updated_step ch m p i l :
  Channel.enabled ch = true → channel_id i = Channel.id ch → rates i = no_rates →
  ChannelManager.channels m = ChannelManager.channels (mgr p) →
  (∀ x, x ∈ l → ∃ c key, ChannelManager.channels (mgr p) !! Channel.id ch = Some c ∧ key_of store_get c key ∧
     permitted (context_of show_uuid configs ch key) x) →
  step_ok ch p (mkPolling m (update (quotas p) i) (sent p ++ l)).
Proof.
  intros He Hi Hr Hm Hl. destruct (update_keeps (quotas p) i Hr) as (i'&H1&H2&H3&H4). rewrite Hi in *.
  split_and!; [done| | |].
  - intros u [Hu|Hu]; [by apply H4|congruence].
  - intros _. by exists i'.
  - intros x [Hx|Hx]%elem_of_app; [by left|right; by apply Hl].
Qed.

Lemma poll_channel_ok ch p p' :
  poll_channel parse_json rfc3339 show_uuid store_get ask now cal configs p ch = Done p' → step_ok ch p p'.
Proof.
  unfold poll_channel. destruct (Channel.enabled ch) eqn:He; cbn [negb].
  2: { intros [= <-]. unfold step_ok. split_and!; [done|done|congruence|by left]. }
  pose proof (ManagerSteps.get_credential_channels store_get (Channel.id ch) (mgr p)) as Hm.
  destruct (ChannelManager.get_credential _ _ _) as [[[key|]|] m] eqn:Ek; [| |done]; cbn [outcome_bind snd] in *.
  - pose proof (polled_parts ch key) as Hp. cbn zeta in Hp.
    destruct (poll _ _) as [l r] eqn:E. cbn [snd] in Hp. destruct Hp as [Hi Hr]. intros [= <-].
    apply updated_step; try done. intros x Hx. apply credential_key in Ek as (c&Hc&Hk). exists c, key.
    split_and!; [done..|]. apply (poll_permitted parse_json rfc3339 (ask (Channel.id ch)) now cal).
    unfold registry in E. by rewrite E.
  - intros [= <-]. rewrite <- (app_nil_r (sent p)). apply updated_step; try done. by intros x ?%elem_of_nil.
Qed.
End round.

(** A round of polling touches what it should, and no key strays. After it every
    enabled channel that was listed has an entry of its own, in which the counts and
    the limits learned from responses are those of before; entries of others are
    unchanged, and so are the channels. Every request of the round carries a key of
    the channel it is about, and goes to the channel's own address, to the address
    configured for its balance, or to a vendor that the configured strategy, the
    provider or a word in the address names. *)
Theorem polling_round parse_json rfc3339 show store_get ask now cal configs listed p p' :
  poll_all_channels parse_json rfc3339 show store_get ask now cal configs listed p = Done p' →
  let polled := Channel.id <$> List.filter Channel.enabled listed in
  ChannelManager.channels (mgr p') = ChannelManager.channels (mgr p) ∧
  (∀ u, u ∉ polled → quotas p' !! u = quotas p !! u) ∧
  (∀ u, u ∈ polled → ∃ i, quotas p' !! u = Some i ∧ channel_id i = u ∧
     ∀ old, quotas p !! u = Some old → carried old i) ∧
  (∀ x, x ∈ sent p' → x ∈ sent p ∨ ∃ ch c key, ch ∈ listed ∧
     ChannelManager.channels (mgr p) !! Channel.id ch = Some c ∧ key_of store_get c key ∧
     permitted (context_of show configs ch key) x).
Proof.
  revert p. induction listed as [|ch rest IH]; intros p; cbn [poll_all_channels].
  { intros [= <-]. split_and!; [done..| |by left]. by intros u ?%elem_of_nil. }
  destruct (poll_channel _ _ _ _ _ _ _ _ p ch) as [q|] eqn:E; [|done]. cbn [outcome_bind]. intros H.
  apply poll_channel_ok in E as (A1&A2&A3&A4). destruct (IH q H) as (B1&B2&B3&B4). cbn zeta in *. clear IH H.
  split_and!.
  - by rewrite B1.
  - intros u Hu. cbn in Hu. destruct (Channel.enabled ch) eqn:He; cbn in Hu; [|rewrite B2 by done; apply A2; by right].
    apply not_elem_of_cons in Hu as [? ?]. rewrite B2 by done. apply A2. by left.
  - intros u Hu. destruct (decide (u ∈ Channel.id <$> List.filter Channel.enabled rest)) as [Hr|Hr].
    + destruct (B3 u Hr) as (i&?&?&Hi). exists i. split_and!; [done..|]. intros old Ho.
      destruct (decide (u = Channel.id ch ∧ Channel.enabled ch = true)) as [[-> He]|Hn].
      * destruct (A3 He) as (j&Hj&_&Hc). destruct (Hi j Hj), (Hc old Ho). by split; etrans.
      * apply Hi. rewrite A2; [done|]. destruct (Channel.enabled ch); naive_solver.
    + rewrite B2 by done. cbn in Hu. destruct (Channel.enabled ch) eqn:He; cbn in Hu; [|done].
      apply elem_of_cons in Hu as [->|?]; [|done]. by apply A3.
  - intros x Hx. destruct (B4 x Hx) as [Hq|(ch'&c&key&?&?&?&?)].
    + destruct (A4 x Hq) as [?|(c&key&?&?&?)]; [by left|right]. exists ch, c, key. by split; [left|].
    + right. exists ch', c, key. rewrite A1 in *. by split; [right|].
Qed.

(** *** Paths *)

(** What is found by going from field to field, and the number it holds. *)
Definition field_path (v : value) (ks : list string) : option value :=
  foldl (λ o k, o ≫= λ v, get v k) (Some v) ks.
Definition amount (v : value) : option F64.f64 :=
  match as_f64 v with Some f => Some f | None => as_str v ≫= parse_f64 end.
(** A segment that names a field: no dot in it, and no number. *)
Definition plain (k : string) : Prop := k ≠ "" ∧ dotless k ∧ parse_uint u64_max k = None.

Lemma split_concat ks : ks ≠ [] → Forall dotless ks → split_on "." (String.concat "." ks) = ks.
Proof.
  induction ks as [|k ks IH]; [done|]. intros _ [Hk Hks]%Forall_cons. destruct ks as [|k' ks]; [done|].
  change (String.concat "." (k :: k' :: ks)) with (k +:+ String "." (String.concat "." (k' :: ks))).
  by rewrite split_on_app, Hk, IH.
Qed.

Lemma no_field ks : foldl (λ o k, o ≫= λ v, get v k) None ks = None.
Proof. by induction ks. Qed.

Lemma walk_fields path ks : Forall plain ks → ∀ v,
  match field_path v ks with
  | Some w => walk path ks v = inl w
  | None => ∃ m, walk path ks v = inr (Parse m)
  end.
Proof.
  induction 1 as [|k ks (Hk&_&Hn) _ IH]; intros v; [done|]. unfold field_path. cbn [foldl walk option_bind mbind].
  destruct (String.eqb_spec k ""); [done|]. rewrite Hn. destruct (get v k) as [w|]; cbn; [apply IH|].
  rewrite no_field. by eexists.
Qed.

Lemma strip_dollar k ks : k ≠ "$" → Forall dotless (k :: ks) → strip_prefix "$." (String.concat "." (k :: ks)) = None.
Proof.
  intros Hk Hd. destruct (strip_prefix _ _) as [r|] eqn:E; [|done]. apply strip_prefix_Some in E.
  apply (f_equal (split_on ".")) in E. rewrite split_concat in E by done.
  change ("$." +:+ r) with ("$" +:+ String "." r) in E. rewrite split_on_app in E. cbn in E. congruence.
Qed.

(** A path of field names reads what a walk through these fields finds, with or
    without the leading [$.], as a number or a text of one; and it is an error
    exactly when a field is missing. *)
Theorem json_path_reads v k ks :
  k ≠ "$" → Forall plain (k :: ks) →
  let path := String.concat "." (k :: ks) in
  extract_json_path v ("$." +:+ path) = extract_json_path v path ∧
  match field_path v (k :: ks) with
  | Some w => extract_json_path v path = inl (amount w)
  | None => ∃ m, extract_json_path v path = inr (Parse m)
  end.
Proof.
  intros Hk Hp path. assert (Forall dotless (k :: ks)) as Hd by (eapply Forall_impl; [exact Hp|]; by intros ? (_&?&_)).
  unfold extract_json_path. assert (strip_prefix "$." path = None) as -> by (by apply strip_dollar).
  assert (strip_prefix "$." ("$." +:+ path) = Some path) as -> by done. split; [done|].
  cbn [default]. assert (split_on "." path = k :: ks) as -> by (by apply split_concat).
  pose proof (walk_fields path (k :: ks) Hp v) as H. destruct (field_path v (k :: ks)); [by rewrite H|].
  destruct H as [m ->]. by exists m.
Qed.

Definition sample_document : value := obj [("data", obj [("balance", Str "12.5")])].
Lemma json_path_reads_witness :
  extract_json_path sample_document "$.data.balance" = extract_json_path sample_document "data.balance" ∧
  extract_json_path sample_document "data.balance" = inl (Some (F64.lit 125 10)).
Proof.
  destruct (json_path_reads sample_document "data" ["balance"]) as [H1 H2];
    [discriminate|repeat constructor; discriminate|]. split; [exact H1|]. exact H2.
Defined.

(** *** Behaviours worth knowing *)

Definition sample_calendar : Calendar := mkCalendar "2026" 1 "2026-01-31".
Definition reads_text (t : string) : value + string :=
  if String.eqb t "{}" then inl (obj []) else inr "expected value".
Definition sample_config (base : string) : Channel.ChannelConfig :=
  Channel.mkChannelConfig "1" "relay" "custom" 1 1 None None None "api_key" "ref" (Some "key1") base true
    ∅ None None None None None None None ["key2"] [] None None None None 300 [].
Definition sample_manager (base : string) : ChannelManager.ChannelManager :=
  ChannelManager.new Channel.sample_parse 0 [(sample_config base, 0%N)] 5 false.
Definition sample_poll (base : string) (reply : Reply) (quotas : Store) : outcome Polling :=
  let m := sample_manager base in
  poll_all_channels reads_text (λ _, None) pretty (λ _ _, None) (λ _ _, reply) 7 sample_calendar ∅
    (ChannelManager.list_channels m 0) (mkPolling m quotas []).
Definition entry (o : outcome Polling) : option QuotaInfo :=
  match o with Done p => quotas p !! 1%N | Panic => None end.

(** A relay whose address merely contains the word has its key sent to the vendor. *)
Example word_sends_key_elsewhere :
  match sample_poll "https://relay.example/deepseek/v1" (Failed "refused") ∅ with
  | Done p => sent p = [mkSent "https://api.deepseek.com/user/balance" "Bearer key1"]
  | Panic => False
  end.
Proof. vm_compute. reflexivity. Qed.

(** An outage answered with an empty document is a balance of zero, without error. *)
Example outage_reads_as_zero :
  (λ i, (balance i, error i)) <$> entry (sample_poll "https://api.stepfun.com" (Answered 500 (inl "{}")) ∅) =
  Some (Some F64.zero, None).
Proof. vm_compute. reflexivity. Qed.

(** A poll that fails takes the last known balance away. *)
Example failed_poll_drops_balance :
  let known := info 3 (mkContext 1 "relay" "custom" "https://api.stepfun.com" "key1" None) "http_api"
                 (Some F64.one) None None None [] in
  (λ i, (balance i, error i)) <$> entry (sample_poll "https://api.stepfun.com" (Failed "timeout") {[1%N := known]}) =
  Some (None, Some "network: timeout").
Proof. vm_compute. reflexivity. Qed.

(** Polling takes a turn of the channel's keys: the next request uses the second. *)
Example poll_takes_a_turn :
  match sample_poll "https://api.stepfun.com" (Failed "timeout") ∅ with
  | Done p => (ChannelManager.get_credential (λ _ _, None) 1 (mgr p)).1 = Done (Some "key2")
  | Panic => False
  end.
Proof. vm_compute. reflexivity. Qed.

Lemma polling_round_witness :
  match sample_poll "https://api.stepfun.com" (Answered 200 (inl "{}")) ∅ with
  | Done p => ∃ i, quotas p !! 1%N = Some i ∧ channel_id i = 1%N
  | Panic => False
  end.
Proof.
  destruct (sample_poll _ _ _) as [p'|] eqn:E; [|vm_compute in E; discriminate].
  destruct (polling_round _ _ _ _ _ _ _ _ _ _ _ E) as (_&_&H&_).
  destruct (H 1%N) as (i&H1&H2&_); [vm_compute; left|]. exists i. split; [exact H1|exact H2].
Defined.
End PollProps.
