(* ===== verification/Desktop.v ===== *)
(** The desktop application (tauri_cmds.rs, webview_login.rs, quota/webview_scrape.rs):
    the commands that start and stop the gateway, the window in which a user signs in to a
    provider, and the reading of a quota from a provider's page. *)

From S2P Require Import Prelude F64 FloatText Json Channel Quota Collectors.

(** ** Starting and stopping the gateway (tauri_cmds.rs) *)
Module Manager.

(** A server from when it is spawned: it binds; it listens, but its task has not come to
    await the shutdown request; it serves and awaits it; it has been requested; it has
    ended.  The last is also how a server whose binding failed is. *)
Inductive Stage := Binding | Listening | Serving | Requested | Ended.
#[global] Instance Stage_eq_dec : EqDecision Stage.
Proof. solve_decision. Defined.

(** [GwInner], whose handles are the number of a server, with the servers. *)
Record State := mkState {
  running : bool;
  shutdown : option nat;
  servers : list Stage;
}.
Definition initial : State := mkState false None [].

(** The port can be bound once. *)
Definition holds_port (st : Stage) : bool :=
  match st with Listening | Serving | Requested => true | Binding | Ended => false end.
Definition port_free (s : State) : bool := bool_decide (Forall (λ st, holds_port st = false) (servers s)).

(** What happens to the servers, and the steps of the commands: [gateway_start] checks
    that none is running and spawns a server, and when that has bound, or failed to, it
    goes on; [gateway_stop], and the [force_shutdown] of a closed window, wake the tasks
    that await at that time. *)
Inductive Action :=
  | StartCheck
  | HasBound (k : nat)
  | BindFailed (k : nat)
  | Awaits (k : nat)
  | Stop
  | Ends (k : nat)
  | TimesOut (k : nat).

Definition gateway_start_check (s : State) : option State :=
  if running s then None else Some (mkState (running s) (shutdown s) (servers s ++ [Binding])).
Definition gateway_start_bound (k : nat) (s : State) : option State :=
  match servers s !! k with
  | Some Binding => if port_free s then Some (mkState true (Some k) (<[k := Listening]> (servers s))) else None
  | _ => None
  end.
Definition notify_waiters (k : nat) (l : list Stage) : list Stage :=
  match l !! k with Some Serving => <[k := Requested]> l | _ => l end.
Definition gateway_stop (s : State) : option State :=
  if running s
  then Some (mkState false None (match shutdown s with Some k => notify_waiters k (servers s) | None => servers s end))
  else None.
Definition moves (k : nat) (from : list Stage) (to : Stage) (s : State) : option State :=
  match servers s !! k with
  | Some st => if bool_decide (st ∈ from) then Some (mkState (running s) (shutdown s) (<[k := to]> (servers s))) else None
  | None => None
  end.
Definition act (a : Action) (s : State) : option State :=
  match a with
  | StartCheck => gateway_start_check s
  | HasBound k => gateway_start_bound k s
  | BindFailed k => moves k [Binding] Ended s
  | Awaits k => moves k [Listening] Serving s
  | Stop => gateway_stop s
  | Ends k => moves k [Requested] Ended s
  | TimesOut k => moves k [Listening; Serving; Requested] Ended s
  end.
Fixpoint run (acts : list Action) (s : State) : option State :=
  match acts with
  | [] => Some s
  | a :: acts => act a s ≫= run acts
  end.

(** [gateway_status] *)
Definition gateway_status (s : State) : bool := running s.
End Manager.

(** ** Signing in (webview_login.rs) *)
Module LoginWindow.

Definition claude_logged_in (url : string) : bool :=
  contains url "claude.ai" && negb (contains url "/login") && negb (contains url "/auth").
Definition chatgpt_logged_in (url : string) : bool := contains url "chatgpt.com" && negb (contains url "/auth").
Definition deepseek_logged_in (url : string) : bool := contains url "chat.deepseek.com" && negb (contains url "login").

Record ProviderConfig := mkConfig { login_url : string; logged_in : string → bool }.
Definition get_provider_config (provider : string) : option ProviderConfig :=
  if bool_decide (provider ∈ ["anthropic"; "claude"]) then Some (mkConfig "https://claude.ai/login" claude_logged_in)
  else if bool_decide (provider ∈ ["openai"; "chatgpt"]) then Some (mkConfig "https://chatgpt.com/auth/login" chatgpt_logged_in)
  else if bool_decide (provider ∈ ["deepseek"]) then Some (mkConfig "https://chat.deepseek.com/" deepseek_logged_in)
  else None.

(** The window goes to the login page and then to those the user is led to, at the
    given times in milliseconds.  At each that counts as signed in a task is spawned
    which sends the cookies of the page after three seconds, and closes the window two
    seconds later; none sends anything once the window is closed. *)
Definition captures (c : ProviderConfig) (navigations : list (Z * string)) : list Z :=
  (λ n, n.1 + 3000) <$> List.filter (λ n, logged_in c n.2) navigations.
Definition closed_at (c : ProviderConfig) (navigations : list (Z * string)) : option Z :=
  (λ t, t + 2000) <$> head (captures c navigations).
Definition sent (c : ProviderConfig) (navigations : list (Z * string)) : list Z :=
  match closed_at c navigations with
  | Some t => List.filter (λ s, s <? t) (captures c navigations)
  | None => []
  end.
Definition open_login_webview (provider : string) (rest : list (Z * string)) : option (list Z * option Z) :=
  (λ c, let navigations := (0, login_url c) :: rest in (sent c navigations, closed_at c navigations))
    <$> get_provider_config provider.
End LoginWindow.

Module ManagerProps.
Import Manager.

Lemma acts_snoc acts a s : run (acts ++ [a]) s = run acts s ≫= act a.
Proof.
  revert s. induction acts as [|b acts IH]; intros s; cbn; [by destruct (act a s)|]. destruct (act b s) as [s'|]; cbn; [apply IH|done].
Qed.
(** What every action keeps holds after any that are possible. *)
Lemma acts_keep (P : State → Prop) acts s s' :
  (∀ a s s', a ∈ acts → act a s = Some s' → P s → P s') → run acts s = Some s' → P s → P s'.
Proof.
  revert s. induction acts as [|a acts IH]; intros s Ha; [by intros [= ->]|]. cbn.
  destruct (act a s) as [s1|] eqn:E; [|done]. cbn. intros Hr Hs. apply (IH s1); [|done|].
  - intros b s2 s3 Hb. apply Ha. by right.
  - eapply Ha; [by left|done|done].
Qed.

Lemma port_free_spec s : port_free s = true ↔ ∀ j st, servers s !! j = Some st → holds_port st = false.
Proof.
  unfold port_free. by rewrite bool_decide_eq_true, Forall_lookup.
Qed.

(** Each action changes the stage of one server at most, or adds one. *)
Lemma act_stage a s s' : act a s = Some s' → ∀ j st', servers s' !! j = Some st' →
  match a with
  | StartCheck => servers s !! j = Some st' ∨ st' = Binding
  | HasBound k => if decide (j = k) then servers s !! j = Some Binding ∧ st' = Listening else servers s !! j = Some st'
  | Stop => servers s !! j = Some st' ∨ servers s !! j = Some Serving ∧ st' = Requested ∧ shutdown s = Some j
  | BindFailed k => if decide (j = k) then servers s !! j = Some Binding ∧ st' = Ended else servers s !! j = Some st'
  | Awaits k => if decide (j = k) then servers s !! j = Some Listening ∧ st' = Serving else servers s !! j = Some st'
  | Ends k | TimesOut k => if decide (j = k) then st' = Ended else servers s !! j = Some st'
  end.
Proof.
  assert (∀ k from to, moves k from to s = Some s' → ∀ j st', servers s' !! j = Some st' →
    if decide (j = k) then (∃ st, servers s !! j = Some st ∧ st ∈ from) ∧ st' = to else servers s !! j = Some st') as Hm.
  { intros k from to. unfold moves. destruct (servers s !! k) as [st|] eqn:E; [|done].
    case_bool_decide; [|done]. intros [= <-] j st'. cbn. destruct (decide (j = k)) as [->|].
    - rewrite list_lookup_insert_eq by (by eapply lookup_lt_Some). intros [= <-]. split; [by exists st|done].
    - by rewrite list_lookup_insert_ne. }
  destruct a as [|k|k|k| |k|k]; cbn.
  - unfold gateway_start_check. destruct (running s); [done|]. intros [= <-] j st'. cbn.
    intros [?|[_ H]]%lookup_app_Some; [by left|right]. by apply list_lookup_singleton_Some in H as [_ <-].
  - unfold gateway_start_bound. destruct (servers s !! k) as [[]|] eqn:E; try done. destruct (port_free s); [|done].
    intros [= <-] j st'. cbn. destruct (decide (j = k)) as [->|].
    + rewrite list_lookup_insert_eq by (by eapply lookup_lt_Some). by intros [= <-].
    + by rewrite list_lookup_insert_ne.
  - intros H j st' Hj. apply (Hm _ _ _ H) in Hj. destruct (decide (j = k)); [|done]. destruct Hj as [(st&?&->%list_elem_of_singleton)?]. done.
  - intros H j st' Hj. apply (Hm _ _ _ H) in Hj. destruct (decide (j = k)); [|done]. destruct Hj as [(st&?&->%list_elem_of_singleton)?]. done.
  - unfold gateway_stop. destruct (running s); [|done]. intros [= <-] j st'. cbn. destruct (shutdown s) as [k|]; [|by left].
    unfold notify_waiters. destruct (servers s !! k) as [[]|] eqn:E; try by left. destruct (decide (j = k)) as [->|].
    + rewrite list_lookup_insert_eq by (by eapply lookup_lt_Some). intros [= <-]. by right.
    + rewrite list_lookup_insert_ne by done. by left.
  - intros H j st' Hj. apply (Hm _ _ _ H) in Hj. destruct (decide (j = k)); [by destruct Hj|done].
  - intros H j st' Hj. apply (Hm _ _ _ H) in Hj. destruct (decide (j = k)); [by destruct Hj|done].
Qed.

(** A server that serves and has not been told to end. *)
Definition at_large (st : Stage) : Prop := st = Listening ∨ st = Serving.
Lemma at_large_holds st : at_large st → holds_port st = true.
Proof. by intros [-> | ->]. Qed.
Lemma moves_fields k from to s s' : moves k from to s = Some s' → running s' = running s ∧ shutdown s' = shutdown s.
Proof. unfold moves. destruct (servers s !! k); [|done]. case_bool_decide; [|done]. by intros [= <-]. Qed.
Lemma moves_kept j from to s s' k st :
  moves j from to s = Some s' → servers s !! k = Some st → (j = k → st ∉ from) → servers s' !! k = Some st.
Proof.
  unfold moves. destruct (servers s !! j) as [sj|] eqn:Ej; [|done]. case_bool_decide as Hin; [|done]. intros [= <-] Hk Hne. cbn.
  destruct (decide (j = k)) as [->|]; [|by rewrite list_lookup_insert_ne]. exfalso. apply (Hne eq_refl). by simplify_eq.
Qed.
Lemma at_large_other st st' : at_large st → ¬ at_large st' → st ∉ [st'].
Proof. intros Hst Hn ->%list_elem_of_singleton. done. Qed.

(** If the gateway is stopped only while its server awaits the request, a server that
    serves without having been told to end is the one whose handle the application
    holds: it can be stopped, and is reported as running. *)
Theorem servers_in_hand acts s k st :
  (∀ pre post s0, acts = pre ++ Stop :: post → run pre initial = Some s0 → Listening ∉ servers s0) →
  run acts initial = Some s → servers s !! k = Some st → at_large st →
  gateway_status s = true ∧ shutdown s = Some k.
Proof.
  unfold gateway_status. revert s k st. induction acts as [|a acts IH] using rev_ind; intros s k st Hp; [by intros [= <-]|].
  rewrite acts_snoc. destruct (run acts initial) as [s0|] eqn:E0; [|done]. cbn. intros E Hk Hst.
  assert (∀ k st, servers s0 !! k = Some st → at_large st → running s0 = true ∧ shutdown s0 = Some k) as IH'.
  { intros k' st'. apply IH; [|done]. intros pre post s1 ->. apply (Hp pre (post ++ [a])). by rewrite <- app_assoc. }
  pose proof (act_stage a s0 s E k st Hk) as Hs. destruct a as [|j|j|j| |j|j]; cbn in E.
  - unfold gateway_start_check in E. destruct (running s0) eqn:Er; [done|]. destruct Hs as [Hs| ->]; [|by destruct Hst].
    destruct (IH' k st Hs Hst). congruence.
  - unfold gateway_start_bound in E. destruct (servers s0 !! j) as [[]|]; try done. destruct (port_free s0) eqn:Ef; [|done].
    injection E as <-. cbn. destruct (decide (k = j)) as [->|]; [done|]. exfalso.
    pose proof (proj1 (port_free_spec s0) Ef k st Hs) as Hh. rewrite at_large_holds in Hh; done.
  - apply moves_fields in E as [-> ->]. destruct (decide (k = j)); [destruct Hs as [_ ->]; by destruct Hst|by apply (IH' k st)].
  - apply moves_fields in E as [-> ->]. destruct (decide (k = j)) as [->|]; [destruct Hs as [Hs _]; by apply (IH' j Listening Hs); left|by apply (IH' k st)].
  - specialize (Hp acts [] s0 eq_refl E0). destruct Hs as [Hs|(_&->&_)]; [|by destruct Hst]. exfalso.
    destruct (IH' k st Hs Hst) as [Hr Hd]. unfold gateway_stop in E. rewrite Hr, Hd in E. injection E as <-. cbn in Hk.
    destruct Hst as [-> | ->]; [by apply Hp, (list_elem_of_lookup_2 _ k)|].
    unfold notify_waiters in Hk. rewrite Hs, list_lookup_insert_eq in Hk by (by eapply lookup_lt_Some). done.
  - apply moves_fields in E as [-> ->]. destruct (decide (k = j)); [subst st; by destruct Hst|by apply (IH' k st)].
  - apply moves_fields in E as [-> ->]. destruct (decide (k = j)); [subst st; by destruct Hst|by apply (IH' k st)].
Qed.

(** If it is stopped before that, the request reaches nobody: the server goes on and
    holds the port until its time is over, the application reports that nothing runs,
    and no start that binds the port succeeds. *)
Theorem early_stop_lost k acts s s' :
  shutdown s = Some k → servers s !! k = Some Listening →
  run (Stop :: acts) s = Some s' → TimesOut k ∉ acts →
  gateway_status s' = false ∧ ∃ st, servers s' !! k = Some st ∧ at_large st.
Proof.
  unfold gateway_status. intros Hd Hk Hr Hn. cbn in Hr. unfold gateway_stop in Hr. destruct (running s); [|done]. cbn in Hr.
  rewrite Hd in Hr. unfold notify_waiters in Hr. rewrite Hk in Hr.
  set (P := λ s, running s = false ∧ shutdown s = None ∧ ∃ st, servers s !! k = Some st ∧ at_large st).
  cut (P s'); [by intros (H1&_&H3)|].
  refine (acts_keep P acts _ s' _ Hr _); [|split_and!; [done..|]; exists Listening; split; [done|by left]].
  intros a s1 s2 Ha E (H1&H2&st&Hs&Hst). destruct a as [|j|j|j| |j|j]; cbn in E.
  - unfold gateway_start_check in E. rewrite H1 in E. injection E as <-. split_and!; [done..|]. exists st. split; [|done].
    cbn. rewrite lookup_app_l by (by eapply lookup_lt_Some). done.
  - unfold gateway_start_bound in E. destruct (servers s1 !! j) as [[]|]; try done. destruct (port_free s1) eqn:Ef; [|done].
    pose proof (proj1 (port_free_spec s1) Ef k st Hs) as Hh. rewrite at_large_holds in Hh; done.
  - pose proof (moves_fields _ _ _ _ _ E) as [E1 E2]. split_and!; [congruence..|]. exists st. split; [|done].
    apply (moves_kept _ _ _ _ _ _ _ E Hs). intros _. apply at_large_other; [done|]. by intros [|].
  - pose proof (moves_fields _ _ _ _ _ E) as [E1 E2]. split_and!; [congruence..|]. destruct (decide (j = k)) as [->|].
    + exists Serving. split; [|by right]. unfold moves in E. rewrite Hs in E. case_bool_decide; [|done]. injection E as <-.
      apply list_lookup_insert_eq. by eapply lookup_lt_Some.
    + exists st. split; [|done]. by apply (moves_kept _ _ _ _ _ _ _ E Hs).
  - unfold gateway_stop in E. by rewrite H1 in E.
  - pose proof (moves_fields _ _ _ _ _ E) as [E1 E2]. split_and!; [congruence..|]. exists st. split; [|done].
    apply (moves_kept _ _ _ _ _ _ _ E Hs). intros _. apply at_large_other; [done|]. by intros [|].
  - pose proof (moves_fields _ _ _ _ _ E) as [E1 E2]. split_and!; [congruence..|]. exists st. split; [|done].
    apply (moves_kept _ _ _ _ _ _ _ E Hs). intros ->. done.
Qed.

(** A server whose time is over is reported as running, and none can be started, until
    the gateway is stopped. *)
Theorem ended_counts_as_running k acts s s' :
  gateway_status s = true → run (TimesOut k :: acts) s = Some s' → Stop ∉ acts →
  gateway_status s' = true ∧ act StartCheck s' = None.
Proof.
  unfold gateway_status. intros Hr. cbn [run act]. destruct (moves k _ Ended s) as [s1|] eqn:E1; [|done]. cbn.
  apply moves_fields in E1 as [E1 _]. rewrite Hr in E1. intros Hrun Hn.
  assert (running s' = true) as Hs'; [|unfold gateway_start_check; by rewrite Hs'].
  refine (acts_keep (λ s, running s = true) acts _ s' _ Hrun E1). intros a s2 s3 Ha E H2.
  destruct a; cbn in E; try (apply moves_fields in E as [-> _]; done); [| |done].
  - unfold gateway_start_check in E. by rewrite H2 in E.
  - unfold gateway_start_bound in E. destruct (servers s2 !! k0) as [[]|]; try done. destruct (port_free s2); [|done].
    by injection E as <-.
Qed.
End ManagerProps.

(** ** Reading a quota from a page (quota/webview_scrape.rs) *)
Module Scrape.
Import FloatText Quota.Quota Json.

Definition value_as_f64 (v : value) : option F64.f64 :=
  match Collectors.as_f64 v with Some f => Some f | None => as_str v ≫= parse_f64 end.
Definition number (v : value) (k : string) : option F64.f64 := get v k ≫= value_as_f64.
(** [.get(a).or_else(|| .get(b))] *)
Definition get_either (v : value) (a b : string) : option value :=
  match get v a with Some x => Some x | None => get v b end.

Record ScrapeConfig := mkConfig { target_url : string; provider_id : string }.
Definition resolve_scrape_config (provider base_url : string) : option ScrapeConfig :=
  let aliyun := mkConfig "https://bailian.console.aliyun.com" "aliyun" in
  if String.eqb provider "anthropic" then Some (mkConfig "https://console.anthropic.com" "anthropic")
  else if bool_decide (provider ∈ ["baidu"; "qianfan"]) then Some (mkConfig "https://console.bce.baidu.com/qianfan" "baidu")
  else if bool_decide (provider ∈ ["aliyun"; "dashscope"; "bailian"]) then Some aliyun
  else if bool_decide (provider ∈ ["doubao"; "volcengine"; "bytedance"])
  then Some (mkConfig "https://console.volcengine.com/ark" "doubao")
  else let lower := to_lowercase base_url in
       if contains lower "dashscope" || contains lower "aliyun" then Some aliyun else None.

(** webview_scripts/anthropic.rs *)
Record UsageWindow := mkWindow { utilization : F64.f64; w_resets_at : option string }.
Record AnthropicUsage := mkUsage {
  five_hour : option UsageWindow;
  seven_day : option UsageWindow;
  seven_day_sonnet : option UsageWindow;
  seven_day_opus : option UsageWindow;
}.
Definition group_of (name : string) (w : option UsageWindow) : list QuotaGroup :=
  match w with Some w => [mkGroup name (Some (utilization w)) (w_resets_at w)] | None => [] end.
Definition to_groups (u : AnthropicUsage) : list QuotaGroup :=
  group_of "5h" (five_hour u) ++ group_of "7d" (seven_day u) ++
  group_of "7d_sonnet" (seven_day_sonnet u) ++ group_of "7d_opus" (seven_day_opus u).

Section scrape.
(** [from_value] reads a document as an [AnthropicUsage], [from_str] a text as one. *)
Context (from_value : value → AnthropicUsage + string) (from_str : string → value + string) (now : DateTime).
Context (ch : Channel.Channel).

Definition blank (provider : string) : QuotaInfo := new_info (Channel.id ch) (Channel.name ch) provider "webview" now.
(** The fields that the readers set. *)
Definition with_fields (i : QuotaInfo) (bal lim use : option F64.f64) (its : list QuotaItem) (text : option string) : QuotaInfo :=
  mkInfo (channel_id i) (channel_name i) (provider i) bal lim use (remaining_tokens i) (remaining_requests i)
    (plan_status i) (expires_at i) its (groups i) text (rates i) (totals i) (source i) (updated_at i) (error i).
Definition with_groups (i : QuotaInfo) (g : list QuotaGroup) (text : option string) : QuotaInfo :=
  mkInfo (channel_id i) (channel_name i) (provider i) (balance i) (limit i) (usage i) (remaining_tokens i)
    (remaining_requests i) (plan_status i) (expires_at i) (items i) g text (rates i) (totals i) (source i)
    (updated_at i) (error i).
Definition with_error (i : QuotaInfo) (e : string) : QuotaInfo :=
  mkInfo (channel_id i) (channel_name i) (provider i) (balance i) (limit i) (usage i) (remaining_tokens i)
    (remaining_requests i) (plan_status i) (expires_at i) (items i) (groups i) (compact_text i) (rates i) (totals i)
    (source i) (updated_at i) (Some e).

Definition compact_group (g : QuotaGroup) : string :=
  window g +:+ ": " +:+ show_fixed 0 (default F64.zero (utilization_pct g)) +:+ "%" +:+
  match resets_at g with Some r => " (resets " +:+ r +:+ ")" | None => "" end.
Definition parse_anthropic_result (data : value) : QuotaInfo + string :=
  match from_value data with
  | inr e => inr ("parse error: " +:+ e)
  | inl u =>
      let gs := to_groups u in
      let compact := String.concat ", " (compact_group <$> gs) in
      inl (with_groups (blank "anthropic") gs (if String.eqb compact "" then None else Some compact))
  end.

Definition add_resource (acc : F64.f64 * F64.f64 * list QuotaItem) (res : value) : F64.f64 * F64.f64 * list QuotaItem :=
  let '(total_remain, total_amount, its) := acc in
  let remain := default F64.zero (number res "remainAmount") in
  let total := default F64.zero (number res "totalAmount") in
  (F64.add total_remain remain, F64.add total_amount total,
   match get res "resourceName" ≫= as_str with
   | Some name => its ++ [mkItem name (show_fixed 2 remain +:+ " / " +:+ show_fixed 2 total)]
   | None => its
   end).
Definition parse_baidu_result (data : value) : QuotaInfo + string :=
  match get_either data "result" "data" ≫= as_array with
  | None => inr "no result/data array in Baidu response"
  | Some resources =>
      let '(total_remain, total_amount, its) := foldl add_resource (F64.zero, F64.zero, []) resources in
      inl (with_fields (blank "baidu")
             (if F64.ltb F64.zero total_remain then Some total_remain else None)
             (if F64.ltb F64.zero total_amount then Some total_amount else None)
             (if F64.ltb total_remain total_amount then Some (F64.sub total_amount total_remain) else None) its None)
  end.

(** What the readers for Aliyun and Doubao share: an item has the first of two names
    and the first of two numbers. *)
Definition listed (inner : value) (name1 name2 amount1 amount2 : string) : list QuotaItem :=
  omap (λ item, match get_either item name1 name2 ≫= as_str, get_either item amount1 amount2 ≫= value_as_f64 with
                | Some n, Some v => Some (mkItem n (show_fixed 2 v))
                | _, _ => None
                end)
    (default [] (get inner "items" ≫= as_array)).
Definition page_text (data : value) (bal lim : option F64.f64) : option string :=
  if bool_decide (bal = None) && bool_decide (lim = None) then take_chars 200 <$> (get data "page_text" ≫= as_str) else None.
Definition parse_aliyun_result (data : value) : QuotaInfo + string :=
  let inner := get data "data" in
  let bal := inner ≫= λ v, number v "remainAmount" in
  let lim := inner ≫= λ v, number v "totalAmount" in
  let use := inner ≫= λ v, number v "usedAmount" in
  let its := match inner with
             | Some v => listed v "commodityCode" "name" "deductQuantity" "remainQuantity"
             | None => []
             end in
  inl (with_fields (blank "aliyun") bal lim use its (page_text data bal lim)).
Definition parse_doubao_result (data : value) : QuotaInfo + string :=
  let inner := get data "data" in
  let bal := inner ≫= λ v, number v "balance" in
  let lim := inner ≫= λ v, get_either v "totalQuota" "totalAmount" ≫= value_as_f64 in
  let use := inner ≫= λ v, get_either v "usedQuota" "usedAmount" ≫= value_as_f64 in
  let its := match inner with
             | Some v => listed v "name" "resourceName" "remainAmount" "remain"
             | None => []
             end in
  inl (with_fields (blank "doubao") bal lim use its (page_text data bal lim)).

Definition parse_result (c : ScrapeConfig) (data : value) : QuotaInfo + string :=
  if String.eqb (provider_id c) "anthropic" then parse_anthropic_result data
  else if String.eqb (provider_id c) "baidu" then parse_baidu_result data
  else if String.eqb (provider_id c) "aliyun" then parse_aliyun_result data
  else if String.eqb (provider_id c) "doubao" then parse_doubao_result data
  else inr ("No parser for provider '" +:+ provider_id c +:+ "'").

(** [scrape_webview_quota] from when its window has answered, or not: the entry that is
    stored for the channel, and the answer. *)
Definition conclude (c : ScrapeConfig) (payload : option string) (s : Store) : Store * (QuotaInfo + string) :=
  match payload with
  | None => (s, inr "Timeout waiting for WebView result")
  | Some text =>
      match from_str text with
      | inr e => (s, inr ("Invalid JSON from WebView: " +:+ e))
      | inl parsed =>
          let failed m := (update s (with_error (blank (provider_id c)) m), inr m) in
          if negb (default false (get parsed "success" ≫= as_bool))
          then failed (default "Unknown error" (get parsed "error" ≫= as_str))
          else match get parsed "data" with
          | None => (s, inr "No data in WebView result")
          | Some data =>
              match parse_result c data with
              | inl info => (update s info, inl info)
              | inr e => failed e
              end
          end
      end
  end.
End scrape.

(** The windows that are open, each with what it has heard: an event is heard by all
    that have not heard one, whichever page it comes from. *)
Inductive Event := Listen (scrape : nat) | Emit (payload : string).
Definition hear (m : gmap nat (option string)) (e : Event) : gmap nat (option string) :=
  match e with
  | Listen i => <[i := None]> m
  | Emit p => (λ o, match o with Some q => Some q | None => Some p end) <$> m
  end.
Definition heard (events : list Event) (i : nat) : option string := foldl hear ∅ events !! i ≫= id.
End Scrape.

Module LoginProps.
Import LoginWindow.

(** The window sends the cookies three seconds after the first page that counts as
    signed in and closes two seconds later; the page with which it opens for DeepSeek
    counts as one, so there it closes after five seconds, whatever the user does. *)
Theorem login_window provider c rest :
  get_provider_config provider = Some c →
  let navigations := (0, login_url c) :: rest in
  (head (sent c navigations), closed_at c navigations) =
    match (if bool_decide (provider = "deepseek") then Some 0 else (λ n, n.1) <$> head (List.filter (λ n, logged_in c n.2) rest)) with
    | Some t => (Some (t + 3000), Some (t + 5000))
    | None => (None, None)
    end.
Proof.
  intros Hc. cbv zeta. assert (logged_in c (login_url c) = bool_decide (provider = "deepseek")) as Hl.
  { revert Hc. unfold get_provider_config. case_bool_decide as H1.
    { intros [= <-]. apply list_elem_of_In in H1 as [<-|[<-|[]]]; reflexivity. }
    case_bool_decide as H2.
    { intros [= <-]. apply list_elem_of_In in H2 as [<-|[<-|[]]]; reflexivity. }
    case_bool_decide as H3; [|done]. intros [= <-]. apply list_elem_of_singleton in H3 as ->. reflexivity. }
  assert (∀ l, (head (sent c l), closed_at c l) =
    match (λ n, n.1) <$> head (List.filter (λ n, logged_in c n.2) l) with
    | Some t => (Some (t + 3000), Some (t + 5000)) | None => (None, None) end) as H.
  { intros l. unfold sent, closed_at, captures. destruct (List.filter (λ n, logged_in c n.2) l) as [|[t u] l']; [done|].
    cbn. rewrite (proj2 (Z.ltb_lt (t + 3000) (t + 3000 + 2000))) by lia. cbn.
    by replace (t + 3000 + 2000) with (t + 5000) by lia. }
  rewrite H. cbn [List.filter snd]. rewrite Hl. by destruct (bool_decide (provider = "deepseek")).
Qed.
Lemma login_window_witness :
  get_provider_config "deepseek" = Some (mkConfig "https://chat.deepseek.com/" deepseek_logged_in) ∧
  closed_at (mkConfig "https://chat.deepseek.com/" deepseek_logged_in)
    [(0, "https://chat.deepseek.com/"); (1500, "https://chat.deepseek.com/sign_in")] = Some 5000.
Proof.
  split; [reflexivity|].
  exact (f_equal snd (login_window "deepseek" _ [(1500, "https://chat.deepseek.com/sign_in")] eq_refl)).
Defined.

(** A path that is not named as expected counts as signed in, too. *)
Example claude_signup_counts : claude_logged_in "https://claude.ai/signup" = true.
Proof. reflexivity. Qed.
End LoginProps.

Module ScrapeProps.
Import Scrape Quota.Quota Json.

Lemma foldl_hear_heard events m i : m !! i = None → (Listen i ∉ events) → foldl hear m events !! i = None.
Proof.
  revert m. induction events as [|e events IH]; intros m Hm Hn; [done|]. apply not_elem_of_cons in Hn as [He Hn]. cbn. apply IH; [|done].
  destruct e as [j|p]; cbn; [rewrite lookup_insert_ne by congruence; done|by rewrite lookup_fmap, Hm].
Qed.
Definition emitted (e : Event) : option string := match e with Emit p => Some p | Listen _ => None end.
Lemma foldl_hear_open events m i o : m !! i = Some o → Listen i ∉ events →
  foldl hear m events !! i = Some (match o with Some q => Some q | None => head (omap emitted events) end).
Proof.
  revert m o. induction events as [|e events IH]; intros m o Hm Hn; [cbn; rewrite Hm; by destruct o|].
  apply not_elem_of_cons in Hn as [He Hn]. cbn [foldl]. destruct e as [j|p].
  - rewrite (IH _ o); [done| |done]. cbn. by rewrite lookup_insert_ne by congruence.
  - rewrite (IH _ (match o with Some q => Some q | None => Some p end)); [by destruct o| |done]. cbn. by rewrite lookup_fmap, Hm.
Qed.

(** A window takes the first event that any page emits after it has begun to listen for
    its own answer. *)
Theorem takes_first_event pre post i :
  Listen i ∉ post → heard (pre ++ Listen i :: post) i = head (omap emitted post).
Proof.
  intros Hn. unfold heard. rewrite foldl_app. cbn [foldl]. by rewrite (foldl_hear_open _ _ _ None) by (done || apply lookup_insert_eq).
Qed.
Lemma takes_first_event_witness :
  heard [Listen 0; Listen 1; Emit "of the second page"; Emit "of the first page"] 0 = Some "of the second page".
Proof.
  apply (takes_first_event [] [Listen 1; Emit "of the second page"; Emit "of the first page"] 0).
  intros H%list_elem_of_In. cbn in H. intuition discriminate.
Defined.

Section props.
Context (from_value : value → AnthropicUsage + string) (from_str : string → value + string) (now : DateTime) (ch : Channel.Channel).

(** What every reader makes. *)
Definition entry_of (c : ScrapeConfig) (info : QuotaInfo) : Prop :=
  channel_id info = Channel.id ch ∧ provider info = provider_id c ∧ source info = "webview" ∧ error info = None.
Lemma parse_result_entry c data info : parse_result from_value now ch c data = inl info → entry_of c info.
Proof.
  unfold parse_result. destruct (String.eqb (provider_id c) "anthropic") eqn:H1.
  { apply String.eqb_eq in H1. unfold parse_anthropic_result, entry_of. rewrite H1. destruct (from_value data); [|done]. by intros [= <-]. }
  destruct (String.eqb (provider_id c) "baidu") eqn:H2.
  { apply String.eqb_eq in H2. unfold parse_baidu_result, entry_of. rewrite H2. destruct (_ ≫= as_array); [|done].
    destruct (foldl _ _ _) as [[r a] its]. by intros [= <-]. }
  destruct (String.eqb (provider_id c) "aliyun") eqn:H3.
  { apply String.eqb_eq in H3. unfold parse_aliyun_result, entry_of. rewrite H3. by intros [= <-]. }
  destruct (String.eqb (provider_id c) "doubao") eqn:H4; [|done].
  apply String.eqb_eq in H4. unfold parse_doubao_result, entry_of. rewrite H4. by intros [= <-].
Qed.

(** The answer of the command is the entry it has stored for the channel; a failure is
    stored as one, but for those of the window itself, which leave what was there. *)
Theorem scrape_stores_answer c payload s s' r :
  conclude from_value from_str now ch c payload s = (s', r) →
  match r with
  | inl info => s' = update s info ∧ entry_of c info
  | inr m => s' = s ∨ s' = update s (with_error (blank now ch (provider_id c)) m)
  end.
Proof.
  unfold conclude. destruct payload as [text|]; [|intros [= <- <-]; by left].
  destruct (from_str text) as [parsed|e]; [|intros [= <- <-]; by left]. destruct (negb _); [intros [= <- <-]; by right|].
  destruct (Json.get parsed "data") as [data|]; [|intros [= <- <-]; by left].
  destruct (parse_result from_value now ch c data) as [info|e] eqn:E; intros [= <- <-]; [|by right].
  split; [done|]. by apply (parse_result_entry c data).
Qed.
End props.
End ScrapeProps.

Module ManagerSample.
Import Manager ManagerProps.
Local Abbreviation started := [StartCheck; HasBound 0; Awaits 0].

Lemma servers_in_hand_witness :
  run (started ++ [Stop; Ends 0; StartCheck; HasBound 1]) initial = Some (mkState true (Some 1%nat) [Ended; Listening]) ∧
  gateway_status (mkState true (Some 1%nat) [Ended; Listening]) = true ∧
  shutdown (mkState true (Some 1%nat) [Ended; Listening]) = Some 1%nat.
Proof.
  split; [reflexivity|]. apply (servers_in_hand (started ++ [Stop; Ends 0; StartCheck; HasBound 1]) _ 1 Listening).
  - intros pre post s0 E. destruct pre as [|a0 [|a1 [|a2 [|a3 [|a4 [|a5 [|a6 [|a7 pre]]]]]]]]; try discriminate E.
    injection E as <- <- <- _. intros [= <-]. intros H%list_elem_of_singleton. discriminate.
  - reflexivity.
  - reflexivity.
  - by left.
Defined.
Lemma early_stop_lost_witness :
  let s := mkState true (Some 0%nat) [Listening] in
  run [StartCheck; HasBound 0] initial = Some s ∧
  ∀ s', run [Stop; Awaits 0; StartCheck; BindFailed 1] s = Some s' →
    gateway_status s' = false ∧ ∃ st, servers s' !! 0%nat = Some st ∧ at_large st.
Proof.
  split; [reflexivity|]. intros s' H. apply (early_stop_lost 0 [Awaits 0; StartCheck; BindFailed 1] (mkState true (Some 0%nat) [Listening])).
  - reflexivity.
  - reflexivity.
  - exact H.
  - intros Hin%list_elem_of_In. cbn in Hin. intuition discriminate.
Defined.
Lemma ended_counts_as_running_witness :
  gateway_status (mkState true (Some 0%nat) [Ended]) = true ∧ act StartCheck (mkState true (Some 0%nat) [Ended]) = None.
Proof.
  apply (ended_counts_as_running 0 [] (mkState true (Some 0%nat) [Serving])).
  - reflexivity.
  - reflexivity.
  - by intros ?%not_elem_of_nil.
Defined.
End ManagerSample.

Module ScrapeSample.
Import Scrape ScrapeProps Quota.Quota Json.
Definition obj (l : list (string * value)) : value := Object (list_to_map l).

(** Two accounts are read at once, one of Aliyun and one of Doubao. Aliyun's page is the
    quicker: both take its answer, and its total is stored as that of the other. *)
Definition aliyun_page : value :=
  obj [("success", Bool true); ("data", obj [("data", obj [("totalAmount", Str "80"); ("remainAmount", Str "5")])])].
Definition reader (text : string) : value + string := if String.eqb text "aliyun" then inl aliyun_page else inr "not JSON".
Example answers_mixed_up :
  let doubao := Channel.sample_channel "2" "doubao" 1 1 in
  let events := [Listen 1; Listen 2; Emit "aliyun"; Emit "doubao"] in
  match conclude (λ _, inr "") reader 0 doubao (mkConfig "https://console.volcengine.com/ark" "doubao") (heard events 2) ∅ with
  | (_, inl info) => provider info = "doubao" ∧ limit info = Some (F64.of_Z 80) ∧ balance info = None
  | (_, inr _) => False
  end.
Proof. vm_compute. split_and!; reflexivity. Qed.

Lemma scrape_stores_answer_witness :
  let ch := Channel.sample_channel "2" "aliyun" 1 1 in
  let c := mkConfig "https://bailian.console.aliyun.com" "aliyun" in
  ∃ info, conclude (λ _, inr "") reader 0 ch c (Some "aliyun") ∅ = (update ∅ info, inl info) ∧
    entry_of ch c info ∧ balance info = Some (F64.of_Z 5).
Proof.
  cbv zeta. set (ch := Channel.sample_channel "2" "aliyun" 1 1). set (c := mkConfig "https://bailian.console.aliyun.com" "aliyun").
  destruct (conclude (λ _, inr "") reader 0 ch c (Some "aliyun") ∅) as [s' r] eqn:E.
  pose proof (scrape_stores_answer (λ _, inr "") reader 0 ch c (Some "aliyun") ∅ s' r E) as H.
  destruct r as [info|m]; [|exfalso; vm_compute in E; discriminate E]. destruct H as [-> He]. exists info.
  split; [reflexivity|]. split; [exact He|].
  assert ((conclude (λ _, inr "") reader 0 ch c (Some "aliyun") ∅).2 = inl info) as E2 by (rewrite E; reflexivity).
  vm_compute in E2. injection E2 as <-. reflexivity.
Defined.
End ScrapeSample.
