(* ===== verification/Notification.v ===== *)
(** Notifications (notification/mod.rs and their endpoints in admin/features.rs):
    which alerts are raised, which messages an event makes, which addresses a
    configured URL may point to, and the configuration the console edits. *)

From S2P Require Import Prelude.

Module Notification.

Inductive NotificationEvent :=
  | BudgetThreshold (key_name : string) (threshold_pct : Z) (period : string)
  | BudgetExhausted (key_name period : string)
  | ChannelDisabled (channel_name reason : string)
  | ChannelRecovered (channel_name : string).

Record NotificationConfig := mkConfig {
  webhook_url : option string;
  webhook_secret : option string;
  bark_url : option string;
  budget_threshold_pct : Z;
  smtp_enabled : bool;
  smtp_host : option string;
  smtp_port : option Z;
  smtp_username : option string;
  smtp_password : option string;
  smtp_from : option string;
  smtp_admin_email : option string;
  smtp_use_tls : bool;
}.
Definition default_threshold : Z := 80.
Definition default_config : NotificationConfig :=
  mkConfig None None None default_threshold false None None None None None None true.

Record NotificationService := mkService {
  config : NotificationConfig;
  notified_thresholds : gset string;
}.
Definition new (c : NotificationConfig) : NotificationService := mkService c ∅.

Section events.
(** Decimal text of a number; JSON text of an event. *)
Context (show : Z → string) (to_string to_string_pretty : NotificationEvent → string).

Definition event_title (e : NotificationEvent) : string :=
  match e with
  | BudgetThreshold key_name pct _ => key_name +:+ " budget at " +:+ show pct +:+ "%"
  | BudgetExhausted key_name _ => key_name +:+ " budget exhausted"
  | ChannelDisabled channel_name _ => "Channel " +:+ channel_name +:+ " disabled"
  | ChannelRecovered channel_name => "Channel " +:+ channel_name +:+ " recovered"
  end.

(** The messages [notify] hands to background tasks. *)
Inductive message :=
  | Webhook (url : string) (secret : option string) (payload : NotificationEvent)
  | Bark (url title body : string)
  | Email (config : NotificationConfig) (recipient subject body : string).

Definition notify (s : NotificationService) (e : NotificationEvent) : list message :=
  let c := config s in
  match webhook_url c with Some url => [Webhook url (webhook_secret c) e] | None => [] end
  ++ match bark_url c with Some url => [Bark url (event_title e) (to_string e)] | None => [] end
  ++ (if smtp_enabled c
      then match smtp_admin_email c with
           | Some recipient =>
               [Email c recipient ("[ModelSwitch] " +:+ event_title e) (to_string_pretty e)]
           | None => []
           end
      else []).
End events.

(** Whether crossing the threshold is to be notified. *)
Definition check_budget_threshold (s : NotificationService) (key : string) (pct : Z)
    : NotificationService * bool :=
  if pct <? budget_threshold_pct (config s)
  then (mkService (config s) (notified_thresholds s ∖ {[key]}), false)
  else (mkService (config s) ({[key]} ∪ notified_thresholds s),
        negb (bool_decide (key ∈ notified_thresholds s))).

Definition get_config (s : NotificationService) : NotificationConfig := config s.
Definition update_config (s : NotificationService) (c : NotificationConfig) : NotificationService :=
  mkService c (notified_thresholds s).

(** *** Addresses: an IPv4 address is 32 bits, an IPv6 address 128 *)

Inductive IpAddr := V4 (a : Z) | V6 (a : Z).

Definition octet (a : Z) (i : Z) : Z := Z.land (Z.shiftr a (8 * (3 - i))) 255.

(** The predicates of [std::net]. *)
Definition is_private (a : Z) : bool :=
  (octet a 0 =? 10)
  || ((octet a 0 =? 172) && (16 <=? octet a 1) && (octet a 1 <=? 31))
  || ((octet a 0 =? 192) && (octet a 1 =? 168)).
Definition is_link_local (a : Z) : bool := (octet a 0 =? 169) && (octet a 1 =? 254).
Definition is_unspecified (a : Z) : bool := a =? 0.
Definition is_broadcast (a : Z) : bool := a =? 4294967295.
Definition is_loopback (a : Z) : bool := octet a 0 =? 127.
Definition LOCALHOST : Z := 2130706433.

Definition v6_is_loopback (a : Z) : bool := a =? 1.
Definition V6_LOCALHOST : Z := 1.
Definition v6_is_unspecified (a : Z) : bool := a =? 0.
Definition v6_is_multicast (a : Z) : bool := Z.shiftr a 120 =? 255.

(** The address is named in the messages; they are left out. *)
Inductive refusal :=
  | Private | LinkLocal | Unspecified | Broadcast | Loopback | Multicast
  | InvalidUrl (e : string) | PlainHttp | Scheme (scheme : string)
  | Resolution (e : string) | NoAddress.

Definition check_v6 (a : Z) : option refusal :=
  if v6_is_loopback a && negb (a =? V6_LOCALHOST) then Some Loopback
  else if v6_is_unspecified a then Some Unspecified
  else if v6_is_multicast a then Some Multicast
  else None.

Definition check_ip (ip : IpAddr) : option refusal :=
  match ip with
  | V4 a =>
      if is_private a then Some Private
      else if is_link_local a then Some LinkLocal
      else if is_unspecified a then Some Unspecified
      else if is_broadcast a then Some Broadcast
      else if is_loopback a && negb (a =? LOCALHOST) then Some Loopback
      else None
  | V6 a => check_v6 a
  end.

Definition check_smtp_ip (ip : IpAddr) : option refusal :=
  match ip with
  | V4 a =>
      if is_link_local a then Some LinkLocal
      else if is_unspecified a then Some Unspecified
      else if is_broadcast a then Some Broadcast
      else if is_loopback a && negb (a =? LOCALHOST) then Some Loopback
      else None
  | V6 a => check_v6 a
  end.

(** The first refusal of a list of addresses. *)
Fixpoint check_all (check : IpAddr → option refusal) (ips : list IpAddr) : option refusal :=
  match ips with
  | [] => None
  | ip :: rest => match check ip with Some r => Some r | None => check_all check rest end
  end.

(** What the [url] crate reads in a URL. *)
Record Url := mkUrl { scheme : string; host_str : option string; port : option Z }.

(** [parse::<Ipv4Addr>]: four octets without leading zeros. *)
Definition parse_octet (s : string) : option Z :=
  match s with
  | EmptyString => None
  | String c (String _ _) => if ascii_dec c "0"%char then None else parse_digits 255 s 0
  | _ => parse_digits 255 s 0
  end.
Definition parse_ipv4 (s : string) : option Z :=
  match parse_octet <$> split_on "." s with
  | [Some a; Some b; Some c; Some d] => Some (256 * (256 * (256 * a + b) + c) + d)
  | _ => None
  end.

Section validation.
(** [Url::parse]; [parse::<Ipv6Addr>]; the resolver, per host and port. *)
Context (parse_url : string → Url + string) (parse_ipv6 : string → option Z).
Context (lookup_host : string → Z → list IpAddr + string).

Definition parse_ip (host : string) : option IpAddr :=
  match parse_ipv4 host with
  | Some a => Some (V4 a)
  | None => V6 <$> parse_ipv6 host
  end.

Definition validate_smtp_host (host : string) : option refusal :=
  match parse_ip host with
  | Some ip => check_smtp_ip ip
  | None =>
      match lookup_host host 0 with
      | inl ips => check_all check_smtp_ip ips
      | inr _ => None
      end
  end.

(** The mandatory fields of the mail configuration. *)
Definition nonempty (o : option string) : option string :=
  match o with Some "" => None | _ => o end.
Definition build_email_notifier (c : NotificationConfig)
    : (string * Z * string * string * string * bool) + (refusal + string) :=
  match nonempty (smtp_host c) with
  | None => inr (inr "smtp_host not configured")
  | Some host =>
      match validate_smtp_host host with
      | Some r => inr (inl r)
      | None =>
          match nonempty (smtp_from c) with
          | None => inr (inr "smtp_from not configured")
          | Some from =>
              inl (host, default 587 (smtp_port c), default "" (smtp_username c),
                   default "" (smtp_password c), from, smtp_use_tls c)
          end
      end
  end.

Definition validate_notification_url (url : string) : option refusal :=
  match parse_url url with
  | inr e => Some (InvalidUrl e)
  | inl parsed =>
      let host := default "" (host_str parsed) in
      let scheme_refused :=
        if String.eqb (scheme parsed) "https" then None
        else if String.eqb (scheme parsed) "http" then
          if negb (String.eqb host "localhost") && negb (String.eqb host "127.0.0.1")
          then Some PlainHttp else None
        else Some (Scheme (scheme parsed)) in
      match scheme_refused with
      | Some r => Some r
      | None =>
          let p := default (if String.eqb (scheme parsed) "https" then 443 else 80) (port parsed) in
          match (match parse_ip host with Some ip => check_ip ip | None => None end) with
          | Some r => Some r
          | None =>
              match lookup_host host p with
              | inr e => Some (Resolution e)
              | inl [] => Some NoAddress
              | inl ips => check_all check_ip ips
              end
          end
      end
  end.

(** *** admin/features.rs *)

Definition redacted (c : NotificationConfig) : NotificationConfig :=
  mkConfig (webhook_url c) None (bark_url c) (budget_threshold_pct c) (smtp_enabled c) (smtp_host c)
    (smtp_port c) (smtp_username c) None (smtp_from c) (smtp_admin_email c) (smtp_use_tls c).
Definition with_password (p : option string) (c : NotificationConfig) : NotificationConfig :=
  mkConfig (webhook_url c) (webhook_secret c) (bark_url c) (budget_threshold_pct c) (smtp_enabled c)
    (smtp_host c) (smtp_port c) (smtp_username c) p (smtp_from c) (smtp_admin_email c) (smtp_use_tls c).

Definition get_notification_config (s : NotificationService) : NotificationConfig :=
  redacted (get_config s).

Definition update_notification_config (s : NotificationService) (c : NotificationConfig)
    : NotificationService * (NotificationConfig + refusal) :=
  match webhook_url c ≫= validate_notification_url with
  | Some r => (s, inr r)
  | None =>
      match bark_url c ≫= validate_notification_url with
      | Some r => (s, inr r)
      | None =>
          let c := match smtp_password c with
                   | None => with_password (smtp_password (get_config s)) c
                   | Some _ => c
                   end in
          (update_config s c, inl (redacted c))
      end
  end.
End validation.
End Notification.

Module NotificationFacts.
Import Notification.

(** *** Addresses as numbers *)

Definition ip4 (a b c d : Z) : Z := 256 * (256 * (256 * a + b) + c) + d.
Definition between (lo hi a : Z) : Prop := lo ≤ a ≤ hi.

(** The ranges no IPv4 address of a notification may lie in. *)
Definition internal (a : Z) : Prop :=
  between (ip4 10 0 0 0) (ip4 10 255 255 255) a ∨ between (ip4 172 16 0 0) (ip4 172 31 255 255) a ∨
  between (ip4 192 168 0 0) (ip4 192 168 255 255) a ∨ between (ip4 169 254 0 0) (ip4 169 254 255 255) a ∨
  between (ip4 127 0 0 0) (ip4 127 255 255 255) a ∨ a = 0 ∨ a = ip4 255 255 255 255.

Lemma octet_div a i : 0 ≤ i ≤ 3 → octet a i = a / 2 ^ (8 * (3 - i)) mod 256.
Proof.
  intros Hi. unfold octet. rewrite Z.shiftr_div_pow2 by lia.
  change 255 with (Z.ones 8). by rewrite Z.land_ones.
Qed.

Lemma octet0 a : 0 ≤ a < 2 ^ 32 → octet a 0 = a / 2 ^ 24.
Proof. intros H. rewrite octet_div by lia. apply Z.mod_small. cbn. Z.to_euclidean_division_equations. lia. Qed.
Lemma octet1 a : 0 ≤ a < 2 ^ 32 → a / 2 ^ 16 = 256 * octet a 0 + octet a 1.
Proof.
  intros H. rewrite octet0, octet_div by lia. cbn. Z.to_euclidean_division_equations. lia.
Qed.
Lemma octet1_range a : 0 ≤ octet a 1 < 256.
Proof. rewrite octet_div by lia. apply Z.mod_pos_bound. lia. Qed.

Lemma check_v4 a : 0 ≤ a < 2 ^ 32 → check_ip (V4 a) = None ↔ a = LOCALHOST ∨ ¬ internal a.
Proof.
  intros Ha. unfold check_ip, is_private, is_link_local, is_unspecified, is_broadcast, is_loopback, LOCALHOST.
  pose proof (octet0 a Ha) as H0. pose proof (octet1 a Ha) as H1. pose proof (octet1_range a) as Hr.
  revert H0 H1 Hr. generalize (octet a 0), (octet a 1). intros x y H0 H1 Hr.
  unfold internal, between, ip4. cbn in H0, H1.
  assert (16777216 * x ≤ a < 16777216 * (x + 1)) by (Z.to_euclidean_division_equations; lia).
  assert (65536 * (256 * x + y) ≤ a < 65536 * (256 * x + y + 1))
    by (Z.to_euclidean_division_equations; lia).
  clear H0 H1.
  destruct (Z.eqb_spec x 10), (Z.eqb_spec x 172), (Z.eqb_spec x 192), (Z.eqb_spec x 169),
    (Z.eqb_spec x 127); try lia; cbn [orb andb];
  destruct (Z.eqb_spec y 168), (Z.eqb_spec y 254), (Z.leb_spec 16 y), (Z.leb_spec y 31); try lia;
    cbn [orb andb]; destruct (Z.eqb_spec a 0), (Z.eqb_spec a 4294967295), (Z.eqb_spec a 2130706433);
    try lia; cbn [orb andb negb]; split; try done; try lia; intros; exfalso; lia.
Qed.

Lemma check_all_none check ips : check_all check ips = None ↔ ∀ ip, ip ∈ ips → check ip = None.
Proof.
  induction ips as [|ip ips IH]; cbn; [split; [intros _ ip []%not_elem_of_nil|done]|].
  destruct (check ip) eqn:E; [split; [done|]|rewrite IH].
  - intros H. rewrite (H ip) in E; [done|by left].
  - split; [intros H i [->|Hi]%elem_of_cons; auto|intros H i Hi; apply H; by right].
Qed.

(** An address of its width, and one that is let through. *)
Definition valid (ip : IpAddr) : Prop :=
  match ip with V4 a => 0 ≤ a < 2 ^ 32 | V6 a => 0 ≤ a < 2 ^ 128 end.
Definition allowed (ip : IpAddr) : Prop :=
  match ip with
  | V4 a => a = LOCALHOST ∨ ¬ internal a
  | V6 a => a ≠ 0 ∧ a < 255 * 2 ^ 120
  end.

Lemma check_ip_spec ip : valid ip → check_ip ip = None ↔ allowed ip.
Proof.
  destruct ip as [a|a]; cbn [valid allowed]; intros Ha; [by apply check_v4|].
  unfold check_ip, check_v6, v6_is_loopback, V6_LOCALHOST, v6_is_unspecified, v6_is_multicast.
  rewrite andb_negb_r, Z.shiftr_div_pow2 by lia.
  destruct (Z.eqb_spec a 0); [naive_solver|].
  assert (0 ≤ a / 2 ^ 120 < 256) as Hd.
  { split; [apply Z.div_pos; lia|]. apply Z.div_lt_upper_bound; lia. }
  destruct (Z.eqb_spec (a / 2 ^ 120) 255) as [E|E].
  - split; [done|]. intros [_ Hlt]. exfalso.
    assert (a / 2 ^ 120 < 255) by (apply Z.div_lt_upper_bound; lia). lia.
  - split; [|done]. intros _. split; [done|].
    pose proof (Z.mul_succ_div_gt a (2 ^ 120) ltac:(lia)) as H. unfold Z.succ in H.
    assert (a / 2 ^ 120 + 1 ≤ 255) as Hle by lia.
    assert (2 ^ 120 * (a / 2 ^ 120 + 1) ≤ 2 ^ 120 * 255) by (apply Z.mul_le_mono_nonneg_l; lia). lia.
Qed.

Lemma parse_octet_range s a : parse_octet s = Some a → 0 ≤ a ≤ 255.
Proof.
  assert (∀ t, parse_digits 255 t 0 = Some a → 0 ≤ a ≤ 255) as H.
  { intros t Ht. split; [by eapply parse_digits_bounds in Ht|by eapply parse_digits_max in Ht]. }
  unfold parse_octet. destruct s as [|c [|c' s]]; [done|apply H|]. destruct (ascii_dec c "0"); [done|apply H].
Qed.
Lemma parse_ipv4_valid s a : parse_ipv4 s = Some a → 0 ≤ a < 2 ^ 32.
Proof.
  unfold parse_ipv4.
  assert (Forall (λ o, ∀ b, o = Some b → 0 ≤ b ≤ 255) (parse_octet <$> split_on "." s)) as H.
  { apply Forall_fmap, Forall_forall. intros x _ b. apply parse_octet_range. }
  revert H. generalize (parse_octet <$> split_on "." s). intros l H.
  destruct l as [|[x|] [|[y|] [|[z|] [|[t|] [|? ?]]]]]; try done. intros [= <-].
  repeat (apply Forall_cons in H as [Hx H]; specialize (Hx _ eq_refl); revert Hx). lia.
Qed.

(** *** The parts of the validation *)

Lemma scheme_spec scheme host :
  (if String.eqb scheme "https" then None
   else if String.eqb scheme "http" then
     if negb (String.eqb host "localhost") && negb (String.eqb host "127.0.0.1")
     then Some PlainHttp else None
   else Some (Scheme scheme)) = None ↔
  scheme = "https" ∨ scheme = "http" ∧ (host = "localhost" ∨ host = "127.0.0.1").
Proof.
  destruct (String.eqb_spec scheme "https"); [by split; [left|]|].
  destruct (String.eqb_spec scheme "http"); [|split; [done|]; by intros [|[]]].
  destruct (String.eqb_spec host "localhost"), (String.eqb_spec host "127.0.0.1"); cbn;
    (split; [auto|]); try done. by intros [|[_ []]].
Qed.

Lemma literal_spec parse_ipv6 host :
  (∀ s a, parse_ipv6 s = Some a → valid (V6 a)) →
  (match parse_ip parse_ipv6 host with Some ip => check_ip ip | None => None end) = None ↔
  ∀ ip, parse_ip parse_ipv6 host = Some ip → allowed ip.
Proof.
  intros Hv6. destruct (parse_ip parse_ipv6 host) as [ip|] eqn:E; [|done].
  rewrite check_ip_spec; [split; [by intros ? ? [= <-]|auto]|].
  revert E. unfold parse_ip. destruct (parse_ipv4 host) as [a|] eqn:E4.
  - intros [= <-]. by apply parse_ipv4_valid in E4.
  - destruct (parse_ipv6 host) as [a|] eqn:E6; [|done]. intros [= <-]. by apply Hv6 in E6.
Qed.

Lemma lookup_spec (lookup_host : string → Z → list IpAddr + string) host p :
  (∀ host p ips ip, lookup_host host p = inl ips → ip ∈ ips → valid ip) →
  (match lookup_host host p with
   | inr e => Some (Resolution e)
   | inl [] => Some NoAddress
   | inl ips => check_all check_ip ips
   end) = None ↔
  ∃ ips, lookup_host host p = inl ips ∧ ips ≠ [] ∧ ∀ ip, ip ∈ ips → allowed ip.
Proof.
  intros Hv. destruct (lookup_host host p) as [[|ip ips]|e] eqn:E.
  - split; [done|]. by intros (ips&[= <-]&?&_).
  - rewrite check_all_none. split.
    + intros H. eexists. split_and!; [done..|]. intros i Hi. apply check_ip_spec; [by eapply Hv|by apply H].
    + intros (l&[= <-]&_&H) i Hi. apply check_ip_spec; [by eapply Hv|by apply H].
  - split; [done|]. by intros (ips&?&_).
Qed.
End NotificationFacts.

Module NotificationProps.
Import Notification NotificationFacts.

(** A notification URL is accepted exactly when it parses, is https, or http to
    this host, and its host resolves to addresses that are all let through:
    no IPv4 address of a private, link-local, loopback (127.0.0.1 apart),
    unspecified or broadcast range. *)
Theorem notification_url_guard parse_url parse_ipv6 lookup_host url :
  (∀ host p ips ip, lookup_host host p = inl ips → ip ∈ ips → valid ip) →
  (∀ s a, parse_ipv6 s = Some a → valid (V6 a)) →
  validate_notification_url parse_url parse_ipv6 lookup_host url = None ↔
  ∃ u ips, parse_url url = inl u ∧
    let host := default "" (host_str u) in
    (scheme u = "https" ∨ scheme u = "http" ∧ (host = "localhost" ∨ host = "127.0.0.1")) ∧
    (∀ ip, parse_ip parse_ipv6 host = Some ip → allowed ip) ∧
    lookup_host host (default (if String.eqb (scheme u) "https" then 443 else 80) (port u)) = inl ips ∧
    ips ≠ [] ∧ ∀ ip, ip ∈ ips → allowed ip.
Proof.
  intros Hlookup Hv6. unfold validate_notification_url. cbn zeta.
  destruct (parse_url url) as [u|e]; [|split; [done|]; by intros (?&?&?&_)].
  set (host := default "" (host_str u)). set (p := default _ (port u)).
  pose proof (scheme_spec (scheme u) host) as Hscheme.
  pose proof (literal_spec parse_ipv6 host Hv6) as Hlit.
  pose proof (lookup_spec lookup_host host p Hlookup) as Hres.
  set (r1 := if String.eqb (scheme u) "https" then None else _) in *.
  destruct r1 as [r|]; [split; [done|]; intros (v&ips&[= <-]&H&_); by apply Hscheme in H|].
  set (r2 := match parse_ip parse_ipv6 host with Some ip => check_ip ip | None => None end) in *.
  destruct r2 as [r|]; [split; [done|]; intros (v&ips&[= <-]&_&H&_); by apply Hlit in H|].
  rewrite Hres. split.
  - intros (ips&H). exists u, ips. split_and!; try apply H; [done|by apply Hscheme|by apply Hlit].
  - intros (v&ips&[= <-]&_&_&H). by exists ips.
Qed.

(** A host of the test network, and one on the local network. *)
Definition sample_url (u : string) : Url + string :=
  if String.eqb u "good" then inl (mkUrl "https" (Some "hooks.example") None)
  else inl (mkUrl "https" (Some "intranet") None).
Definition sample_lookup (host : string) (_ : Z) : list IpAddr + string :=
  if String.eqb host "hooks.example" then inl [V4 (ip4 203 0 113 9)] else inl [V4 (ip4 10 0 0 7)].

Lemma notification_url_guard_witness :
  ∃ u ips, sample_url "good" = inl u ∧ sample_lookup (default "" (host_str u)) 443 = inl ips ∧
    ∀ ip, ip ∈ ips → allowed ip.
Proof.
  assert (∀ host p ips ip, sample_lookup host p = inl ips → ip ∈ ips → valid ip) as Hv.
  { intros host p ips ip. unfold sample_lookup. destruct (String.eqb host "hooks.example");
      intros [= <-] ->%list_elem_of_singleton; vm_compute; split; [discriminate|reflexivity|discriminate|reflexivity]. }
  destruct (proj1 (notification_url_guard sample_url (λ _, None) sample_lookup "good" Hv
    (λ s a H, match H with end)) eq_refl) as (u&ips&Hu&_&_&Hl&_&H).
  exists u, ips. split_and!; [done| |done]. injection Hu as <-. exact Hl.
Defined.

(** The IPv6 forms of the same networks are let through: the mapped form of
    10.0.0.1, a link-local address and a unique local one. *)
Example internal_v6_allowed :
  check_ip (V6 (65535 * 2 ^ 32 + ip4 10 0 0 1)) = None ∧ check_ip (V6 (65152 * 2 ^ 112 + 1)) = None ∧
  check_ip (V6 (64512 * 2 ^ 112 + 1)) = None.
Proof. done. Qed.

(** *** Alerts *)

(** Checks of budgets, each under the configuration then in force. *)
Definition checked (s : NotificationService) '((c, key, pct) : NotificationConfig * string * Z)
    : NotificationService :=
  (check_budget_threshold (update_config s c) key pct).1.
Definition after (c0 : NotificationConfig) (h : list (NotificationConfig * string * Z))
    : NotificationService := foldl checked (new c0) h.
Definition previous (h : list (NotificationConfig * string * Z)) (key : string)
    : option (NotificationConfig * string * Z) := last (List.filter (λ e, String.eqb e.1.2 key) h).

Lemma notified_after c0 h key :
  key ∈ notified_thresholds (after c0 h) ↔
  ∃ c k pct, previous h key = Some (c, k, pct) ∧ budget_threshold_pct c ≤ pct.
Proof.
  unfold after. induction h as [|[[c k] pct] h IH] using rev_ind.
  - cbn. split; [set_solver|]. by intros (?&?&?&?&_).
  - rewrite foldl_app. cbn [foldl]. set (s := foldl checked _ h) in *.
    unfold previous. rewrite List.filter_app. cbn [List.filter fst snd app].
    unfold checked, check_budget_threshold. cbn [config update_config notified_thresholds fst].
    destruct (String.eqb_spec k key) as [->|Hne].
    + rewrite last_snoc. destruct (Z.ltb_spec pct (budget_threshold_pct c)); cbn [fst notified_thresholds].
      * split; [set_solver|]. intros (?&?&?&[= <- <- <-]&?). lia.
      * split; [intros _; eauto 10|set_solver].
    + rewrite app_nil_r. fold (previous h key). rewrite <- IH.
      destruct (pct <? budget_threshold_pct c); cbn [fst notified_thresholds]; set_solver.
Qed.

(** An alert is raised once per crossing: a check of a budget raises one exactly
    when the budget is at the threshold or above it and was not so, under the
    threshold then in force, the last time the same budget was checked. *)
Theorem alert_once_per_crossing c0 h c key pct :
  (check_budget_threshold (update_config (after c0 h) c) key pct).2 = true ↔
  budget_threshold_pct c ≤ pct ∧
  ∀ c' k pct', previous h key = Some (c', k, pct') → pct' < budget_threshold_pct c'.
Proof.
  unfold check_budget_threshold. cbn [config update_config notified_thresholds].
  destruct (Z.ltb_spec pct (budget_threshold_pct c)); cbn [snd]; [split; [done|lia]|].
  rewrite negb_true_iff, bool_decide_eq_false, notified_after. split.
  - intros Hn. split; [lia|]. intros c' k pct' Hp. apply Z.nle_gt. intros Hle. apply Hn. eauto 10.
  - intros [_ Hp] (c'&k&pct'&Hq&Hle). specialize (Hp _ _ _ Hq). lia.
Qed.

(** Saving the configuration that was read back erases the secret the webhooks
    are signed with; the mail password alone survives. *)
Lemma resaving_drops_webhook_secret parse_url parse_ipv6 lookup_host s :
  let validate := validate_notification_url parse_url parse_ipv6 lookup_host in
  webhook_url (config s) ≫= validate = None → bark_url (config s) ≫= validate = None →
  config (update_notification_config parse_url parse_ipv6 lookup_host s (get_notification_config s)).1 =
  mkConfig (webhook_url (config s)) None (bark_url (config s)) (budget_threshold_pct (config s))
    (smtp_enabled (config s)) (smtp_host (config s)) (smtp_port (config s)) (smtp_username (config s))
    (smtp_password (config s)) (smtp_from (config s)) (smtp_admin_email (config s))
    (smtp_use_tls (config s)).
Proof.
  intros validate H1 H2. unfold update_notification_config, get_notification_config, redacted, get_config.
  cbn [webhook_url bark_url smtp_password]. fold validate. by rewrite H1, H2.
Qed.
End NotificationProps.
