(* ===== verification/Delivery.v ===== *)
(** The sending of notifications (notification/webhook.rs, bark.rs, email.rs): the
    requests and the mail that come of the messages [Notification.notify] hands out. *)

From S2P Require Import Prelude Notification.

Module Delivery.
Import Notification.

Record HttpRequest := mkRequest { url : string; headers : list (string * string); body : string }.
(** How the connection to the mail server is secured: by an upgrade, or from the start. *)
Inductive Security := StartTls | Wrapped.
Record EmailNotifier := mkNotifier {
  host : string;
  port : Z;
  security : Security;
  credentials : option (string * string);
  from : string;
}.
Record Mail := mkMail { via : EmailNotifier; to : string; subject : string; text : string }.
Inductive Sent := Http (r : HttpRequest) | Smtp (m : Mail).

Section delivery.
(** The JSON text of an event taken as a document, that of a Bark body, the keyed hash
    in hexadecimal, percent-encoding, and whether a text is a mail address. *)
Context (to_json : NotificationEvent → string) (bark_json : string → string) (hmac : string → string → string).
Context (encode : string → string) (mailbox : string → bool).

Definition signature_header : string := "X-ModelSwitch-Signature".
Definition webhook_request (u : string) (secret : option string) (payload : NotificationEvent) : HttpRequest :=
  let b := to_json payload in
  mkRequest u (("Content-Type", "application/json") ::
                 match secret with Some s => [(signature_header, "sha256=" +:+ hmac s b)] | None => [] end) b.
Definition bark_request (bark_url title b : string) : HttpRequest :=
  mkRequest (trim_end_slashes bark_url +:+ "/" +:+ encode title)
    [("Content-Type", "application/json; charset=utf-8")] (bark_json b).
(** [EmailNotifier::new]; [relay] is whether the host can be a mail server's name. *)
Definition new_notifier (relay : string → bool) (h : string) (p : Z) (username password f : string) (use_tls : bool)
    : EmailNotifier + string :=
  if negb (mailbox f) then inr ("invalid from address: " +:+ f)
  else if negb (relay h) then inr "smtp transport error"
  else inl (mkNotifier h p (if use_tls then StartTls else Wrapped)
              (if String.eqb username "" then None else Some (username, password)) f).
Definition compose (n : EmailNotifier) (recipient s b : string) : Mail + string :=
  if negb (mailbox recipient) then inr ("invalid recipient address: " +:+ recipient) else inl (mkMail n recipient s b).

(** [smtp] is what [build_email_notifier] read of the configuration. *)
Definition deliver (relay : string → bool) (smtp : (string * Z * string * string * string * bool) + (refusal + string))
    (m : message) : Sent + string :=
  match m with
  | Webhook u secret payload => inl (Http (webhook_request u secret payload))
  | Bark u title b => inl (Http (bark_request u title b))
  | Email _ recipient s b =>
      match smtp with
      | inr (inr e) => inr e
      | inr (inl _) => inr "refused"
      | inl (h, p, username, password, f, use_tls) =>
          match new_notifier relay h p username password f use_tls with
          | inr e => inr e
          | inl n => match compose n recipient s b with inl mail => inl (Smtp mail) | inr e => inr e end
          end
      end
  end.
(** What an answer with this status, or none, means to the sender. *)
Definition sent_result (name : string) (status : option (Z * string)) : unit + string :=
  match status with
  | None => inr "request failed"
  | Some (code, shown) => if (200 <=? code) && (code <? 300) then inl tt else inr (name +:+ " returned " +:+ shown)
  end.

(** *** What a receiver sees *)

(** The check a receiver makes who shares the secret. *)
Definition verifies (secret : string) (r : HttpRequest) : bool :=
  match List.find (λ h, String.eqb h.1 signature_header) (headers r) with
  | Some (_, v) => String.eqb v ("sha256=" +:+ hmac secret (body r))
  | None => false
  end.
End delivery.
End Delivery.

Module DeliveryProps.
Import Notification Delivery.

Section props.
Context (to_json : NotificationEvent → string) (bark_json : string → string) (hmac : string → string → string).
Context (encode : string → string) (mailbox relay : string → bool).
Context (show : Z → string) (to_string to_string_pretty : NotificationEvent → string).
Abbreviation notify := (notify show to_string to_string_pretty).
Abbreviation deliver := (deliver to_json bark_json hmac encode mailbox relay).

Lemma split_across a b : lacks "/" b → split_on "/" (a +:+ "/" +:+ b) = split_on "/" a ++ [b].
Proof.
  intros Hb. assert (split_on "/" b = [b]) as Eb.
  { clear a. induction b as [|c b IH]; [done|]. destruct Hb as [Hc Hb]. cbn. destruct (ascii_dec c "/"); [done|]. by rewrite IH. }
  induction a as [|c a IH].
  { change ("" +:+ "/" +:+ b) with (String "/" b). cbn [split_on]. destruct (ascii_dec "/" "/"); [|done]. by rewrite Eb. }
  change (String c a +:+ "/" +:+ b) with (String c (a +:+ "/" +:+ b)). cbn [split_on]. rewrite IH.
  assert (split_on "/" a ≠ []) as Hn.
  { clear. destruct a as [|x a]; [done|]. cbn. destruct (ascii_dec x "/"); [done|]. by destruct (split_on "/" a). }
  destruct (ascii_dec c "/"); [done|]. by destruct (split_on "/" a).
Qed.

(** Each way of notification that is configured is used once for an event, and no other.
    A webhook is signed exactly if there is a secret, and the receiver who has it
    verifies the body that was sent. What an event is called cannot leave its segment of
    the address of a Bark server. Mail goes to an address, from an address, with the
    credentials if there are any, and never in the clear. *)
Theorem event_delivered smtp s e :
  (∀ t, lacks "/" (encode t) ∧ lacks "?" (encode t) ∧ lacks "#" (encode t)) →
  let sent := deliver smtp <$> notify s e in
  let c := config s in
  length sent = (Nat.b2n (bool_decide (is_Some (webhook_url c))) + Nat.b2n (bool_decide (is_Some (bark_url c))) +
    Nat.b2n (smtp_enabled c && bool_decide (is_Some (smtp_admin_email c))))%nat ∧
  (∀ u, webhook_url c = Some u → ∃ r, inl (Http r) ∈ sent ∧ url r = u ∧ body r = to_json e ∧
     match webhook_secret c with
     | Some secret => verifies hmac secret r = true
     | None => ∀ v, (signature_header, v) ∉ headers r
     end) ∧
  (∀ u, bark_url c = Some u → ∃ r, inl (Http r) ∈ sent ∧
     split_on "/" (url r) = split_on "/" (trim_end_slashes u) ++ [encode (event_title show e)]) ∧
  (∀ m, inl (Smtp m) ∈ sent → mailbox (to m) = true ∧ mailbox (from (via m)) = true ∧ smtp_admin_email c = Some (to m) ∧
     (credentials (via m) = None ∨ ∃ u p, credentials (via m) = Some (u, p) ∧ u ≠ "")).
Proof.
  intros Henc. cbn zeta. unfold Notification.notify. split_and!.
  - destruct (webhook_url _), (bark_url _), (smtp_enabled _), (smtp_admin_email _); done.
  - intros u ->. eexists. split; [rewrite fmap_app; apply elem_of_app; left; left|]. split_and!; [done|done|].
    destruct (webhook_secret (config s)) as [k|].
    + unfold verifies. cbn. apply String.eqb_refl.
    + intros v. cbn. intros [H|H]%elem_of_cons; [by injection H|]. by apply not_elem_of_nil in H.
  - intros u ->. eexists. split; [rewrite !fmap_app; apply elem_of_app; right; apply elem_of_app; left; left|].
    cbn [url bark_request]. apply split_across, Henc.
  - intros m Hm. apply list_elem_of_fmap in Hm as (x&Ex&Hx). rewrite !elem_of_app in Hx. destruct Hx as [Hx|[Hx|Hx]].
    + destruct (webhook_url _); [|by apply not_elem_of_nil in Hx]. apply list_elem_of_singleton in Hx as ->. done.
    + destruct (bark_url _); [|by apply not_elem_of_nil in Hx]. apply list_elem_of_singleton in Hx as ->. done.
    + destruct (smtp_enabled _); [|by apply not_elem_of_nil in Hx]. destruct (smtp_admin_email _) as [rec|]; [|by apply not_elem_of_nil in Hx].
      apply list_elem_of_singleton in Hx as ->. cbn in Ex. destruct smtp as [[[[[[h p] un] pw] f] tls]|[?|?]]; [|done..].
      unfold new_notifier, compose in Ex. destruct (mailbox f) eqn:Ef; [|done]. destruct (relay h); [|done]. cbn [negb] in Ex.
      destruct (mailbox rec) eqn:Er; [|done]. injection Ex as ->. cbn. split_and!; [done..|].
      destruct (String.eqb_spec un ""); [by left|right; eauto].
Qed.
End props.
End DeliveryProps.

Module DeliverySample.
Import Notification Delivery DeliveryProps.

Definition service : NotificationService :=
  new (mkConfig (Some "https://hooks.example.com/in") (Some "s3cret") (Some "https://api.day.app/key/") 80 true (Some "mail.example.com")
    None None None (Some "gw@example.com") (Some "ops@example.com") true).
Lemma event_delivered_witness :
  ∃ r, inl (Http r) ∈ (deliver (λ _, "{}") (λ b, b) (λ k b, k +:+ b) (λ _, "disabled") (λ _, true) (λ _, true) (inr (inr "no mail"))
        <$> notify (λ _, "0") (λ _, "{}") (λ _, "{}") service (ChannelDisabled "a/b" "401")) ∧
    verifies (λ k b, k +:+ b) "s3cret" r = true.
Proof.
  destruct (event_delivered (λ _, "{}") (λ b, b) (λ k b, k +:+ b) (λ _, "disabled") (λ _, true) (λ _, true) (λ _, "0") (λ _, "{}") (λ _, "{}")
    (inr (inr "no mail")) service (ChannelDisabled "a/b" "401") ltac:(by repeat split)) as (_&H&_).
  destruct (H "https://hooks.example.com/in" eq_refl) as (r&Hin&_&_&Hv). exists r. split; [exact Hin|exact Hv].
Defined.
End DeliverySample.
