(* ===== verification/ModelRegistry.v ===== *)
(** The registry of model capabilities (model_registry.rs): the built-in
    table, the models discovered at upstream endpoints, and the lookup by
    longest prefix. *)

From S2P Require Import Prelude Fallback.

Module ModelRegistry.

Inductive ThinkingFormat := NoThinking | Budget | Level | Hybrid.

Record ModelCapabilities := mkCaps {
  supports_thinking : bool;
  supports_vision : bool;
  supports_tools : bool;
  max_context_tokens : option Z;
  thinking_format : ThinkingFormat;
  source : option string;
}.

#[global] Instance ThinkingFormat_eq_dec : EqDecision ThinkingFormat.
Proof. solve_decision. Defined.
#[global] Instance ModelCapabilities_eq_dec : EqDecision ModelCapabilities.
Proof. solve_decision. Defined.

(** [ModelCapabilities::default()], derived. *)
Definition default_capabilities : ModelCapabilities :=
  mkCaps false false false None NoThinking None.

Record ModelRegistry := mkRegistry {
  models : gmap string ModelCapabilities;
  refresh_times : gmap string Z;
}.

Definition openai_chat (model : string) : string * ModelCapabilities :=
  let supports_vision := negb (String.eqb model "gpt-4") && negb (String.eqb model "gpt-3.5-turbo") in
  let max_context := if contains model "turbo" || String.eqb model "gpt-4o"
                     then 128000 else 8192 in
  (model, mkCaps false supports_vision true (Some max_context) Level None).
Definition openai_reasoning (model : string) : string * ModelCapabilities :=
  let limited := String.eqb model "o1-preview" || String.eqb model "o1-mini" in
  (model, mkCaps true (negb limited) (negb limited) (Some 200000) Level None).
Definition claude (thinking : bool) (model : string) : string * ModelCapabilities :=
  (model, mkCaps thinking true true (Some 200000) (if thinking then Budget else NoThinking) None).
Definition gemini (thinking : bool) (model : string) : string * ModelCapabilities :=
  (model, mkCaps thinking true true (Some 1000000)
     (if thinking then if String.eqb model "gemini-3-pro" then Hybrid else Budget
      else NoThinking) None).

Definition builtin : list (string * ModelCapabilities) :=
  (openai_chat <$> ["gpt-4o"; "gpt-4o-mini"; "gpt-4-turbo"; "gpt-4"; "gpt-3.5-turbo"]) ++
  (openai_reasoning <$> ["o1"; "o1-preview"; "o1-mini"; "o3"; "o3-mini"; "o4-mini"]) ++
  (claude false <$> ["claude-3-5-sonnet"; "claude-3-5-haiku"; "claude-3-opus";
                     "claude-3-sonnet"; "claude-3-haiku"]) ++
  (claude true <$> ["claude-sonnet-4"; "claude-opus-4"; "claude-3-7-sonnet"]) ++
  (gemini false <$> ["gemini-1.5-pro"; "gemini-1.5-flash"; "gemini-2.0-flash"]) ++
  (gemini true <$> ["gemini-2.5-pro"; "gemini-2.5-flash"; "gemini-3-pro"]).

Definition new : ModelRegistry :=
  mkRegistry (foldl (λ m '(k, c), <[k := c]> m) ∅ builtin) ∅.

(** The loop of [get]: the longest key so far that the model starts with. *)
Definition longer_prefix (model : string) (best : option (string * ModelCapabilities))
    (entry : string * ModelCapabilities) : option (string * ModelCapabilities) :=
  let '(key, caps) := entry in
  if (starts_with model key || starts_with model (key +:+ "-")) &&
     match best with
     | None => true
     | Some (k, _) => (String.length k <? String.length key)%nat
     end
  then Some (key, caps) else best.

Section lookup.
(** The iteration order of the table. *)
Context (iter : gmap string ModelCapabilities → list (string * ModelCapabilities)).

Definition get (r : ModelRegistry) (model : string) : ModelCapabilities :=
  match models r !! model with
  | Some caps => caps
  | None =>
      match foldl (longer_prefix model) None (iter (models r)) with
      | Some (_, c) => c
      | None => default_capabilities
      end
  end.

Definition with_source (src : string) (c : ModelCapabilities) : ModelCapabilities :=
  mkCaps (supports_thinking c) (supports_vision c) (supports_tools c) (max_context_tokens c)
    (thinking_format c) (Some src).

Definition forget_source (src : string) (r : ModelRegistry) : ModelRegistry :=
  mkRegistry (filter (λ e, source e.2 ≠ Some src) (models r)) (refresh_times r).

Definition discover (src : string) (r : ModelRegistry) (model_id : string) : ModelRegistry :=
  mkRegistry (<[model_id := with_source src (get r model_id)]> (models r)) (refresh_times r).

(** [now_secs] is the system time since the epoch. *)
Definition update_models (r : ModelRegistry) (found : list string) (src : string)
    (now_secs : Z) : ModelRegistry :=
  let r := foldl (discover src) (forget_source src r) found in
  mkRegistry (models r) (<[src := now_secs]> (refresh_times r)).
End lookup.

Lemma append_assoc (a b c : string) : (a +:+ b) +:+ c = a +:+ (b +:+ c).
Proof.
  induction a as [|x a IH]; [done|].
  change (String x a +:+ b) with (String x (a +:+ b)).
  change (String x ((a +:+ b) +:+ c) = String x (a +:+ (b +:+ c))). by rewrite IH.
Qed.

(** The test at a hyphen adds nothing to the test without one. *)
Lemma hyphen_redundant model key :
  starts_with model key || starts_with model (key +:+ "-") = starts_with model key.
Proof.
  destruct (starts_with model key) eqn:E; [done|]. simpl. apply not_true_is_false. intros H.
  apply starts_with_spec in H as [v ->]. apply not_true_iff_false in E. apply E.
  apply starts_with_spec. exists ("-" +:+ v). by rewrite append_assoc.
Qed.

Lemma longest_loop model l :
  match foldl (longer_prefix model) None l with
  | None => ∀ k c, (k, c) ∈ l → starts_with model k = false
  | Some (k, c) => (k, c) ∈ l ∧ starts_with model k = true ∧
      ∀ k' c', (k', c') ∈ l → starts_with model k' = true →
        (String.length k' ≤ String.length k)%nat
  end.
Proof.
  induction l as [|[key caps] l IH] using rev_ind; [by intros ? ? ?%not_elem_of_nil|].
  rewrite foldl_app. cbn [foldl]. destruct (foldl _ None l) as [[k c]|];
    unfold longer_prefix; rewrite hyphen_redundant.
  - destruct IH as (Hk&Hp&Hm). destruct (starts_with model key) eqn:E; simpl.
    + destruct (Nat.ltb_spec (String.length k) (String.length key)).
      * split_and!; [set_solver|done|]. intros k' c' [Hin|Hin]%elem_of_app Hp'.
        { specialize (Hm _ _ Hin Hp'). lia. }
        apply list_elem_of_singleton in Hin. by simplify_eq.
      * split_and!; [set_solver|done|]. intros k' c' [Hin|Hin]%elem_of_app Hp'; [by eapply Hm|].
        apply list_elem_of_singleton in Hin. by simplify_eq.
    + split_and!; [set_solver|done|]. intros k' c' [Hin|Hin]%elem_of_app Hp'; [by eapply Hm|].
      apply list_elem_of_singleton in Hin. simplify_eq. congruence.
  - destruct (starts_with model key) eqn:E; simpl.
    + split_and!; [set_solver|done|]. intros k' c' [Hin|Hin]%elem_of_app Hp'.
      { apply IH in Hin. congruence. }
      apply list_elem_of_singleton in Hin. by simplify_eq.
    + intros k' c' [Hin|Hin]%elem_of_app; [by eapply IH|].
      apply list_elem_of_singleton in Hin. by simplify_eq.
Qed.

End ModelRegistry.

Module RegistryProps.
Import ModelRegistry.

(** The capabilities of a model are those registered for it, else those of
    the longest registered name it starts with, else the defaults; the order
    in which the table is iterated does not matter. *)
Theorem longest_prefix_wins iter iter' r model :
  (∀ m, iter m ≡ₚ map_to_list m) → (∀ m, iter' m ≡ₚ map_to_list m) →
  get iter r model = get iter' r model ∧
  (∀ c, models r !! model = Some c → get iter r model = c) ∧
  (models r !! model = None →
   (∃ k c, models r !! k = Some c ∧ get iter r model = c ∧ starts_with model k = true ∧
      ∀ k', is_Some (models r !! k') → starts_with model k' = true → k' ≠ k →
        (String.length k' < String.length k)%nat) ∨
   (get iter r model = default_capabilities ∧
    ∀ k', is_Some (models r !! k') → starts_with model k' = false)).
Proof.
  intros Hi Hi'. unfold get. destruct (models r !! model) as [c|]; [naive_solver|].
  assert (Hin : ∀ i k c, (∀ m, i m ≡ₚ map_to_list m) →
            (k, c) ∈ i (models r) ↔ models r !! k = Some c).
  { intros i k c H. by rewrite H, elem_of_map_to_list. }
  pose proof (longest_loop model (iter (models r))) as H1.
  pose proof (longest_loop model (iter' (models r))) as H2.
  assert (Huniq : ∀ k k', starts_with model k = true → starts_with model k' = true →
            String.length k = String.length k' → k = k')
    by (intros; by eapply FallbackFacts.prefix_unique).
  split; [|split; [done|]].
  - destruct (foldl _ None (iter _)) as [[k c]|], (foldl _ None (iter' _)) as [[k' c']|]; [| | |done].
    + destruct H1 as (Hk&Hp&Hm), H2 as (Hk'&Hp'&Hm'). apply Hin in Hk, Hk'; try done.
      assert (k = k') as ->; [|congruence]. apply Huniq; [done|done|].
      pose proof (Hm' k c (proj2 (Hin iter' k c Hi') Hk) Hp).
      pose proof (Hm k' c' (proj2 (Hin iter k' c' Hi) Hk') Hp'). lia.
    + destruct H1 as (Hk&Hp&_). apply Hin in Hk; [|done].
      rewrite (H2 k c) in Hp; [done|]. by apply Hin.
    + destruct H2 as (Hk&Hp&_). apply Hin in Hk; [|done].
      rewrite (H1 k' c') in Hp; [done|]. by apply Hin.
  - intros _. destruct (foldl _ None (iter _)) as [[k c]|]; [left|right].
    + destruct H1 as (Hk&Hp&Hm). apply Hin in Hk; [|done]. exists k, c. split_and!; try done.
      intros k' [c' Hc'] Hp' Hne. apply (Hin iter) in Hc'; [|done].
      specialize (Hm _ _ Hc' Hp'). assert (String.length k' ≠ String.length k); [|lia].
      intros Hl. apply Hne. by apply Huniq.
    + split; [done|]. intros k' [c' Hc']. apply (H1 k' c'). by apply Hin.
Qed.

Definition listed := λ m : gmap string ModelCapabilities, map_to_list m.

Lemma longest_prefix_wins_witness :
  max_context_tokens (get listed new "gpt-4o-2024-08-06") = Some 128000 ∧
  get listed new "gpt-4o-2024-08-06" = get (λ m, reverse (map_to_list m)) new "gpt-4o-2024-08-06".
Proof.
  split; [by vm_compute|].
  destruct (longest_prefix_wins listed (λ m, reverse (map_to_list m)) new "gpt-4o-2024-08-06")
    as [H _]; [done|intros m; apply reverse_Permutation|exact H].
Defined.

(** Refreshing twice forgets what is built in.  The first refresh of an
    endpoint that lists a built-in model marks the entry as discovered there;
    the second removes it before it looks its capabilities up, so that the
    model falls back to a shorter name, or to the defaults. *)
Theorem refresh_forgets_builtin :
  let found := ["gpt-4o"; "claude-sonnet-4"] in
  let once := update_models listed new found "https://api.example.com/v1/models" 0 in
  let twice := update_models listed once found "https://api.example.com/v1/models" 300 in
  (max_context_tokens (get listed once "gpt-4o"), supports_tools (get listed once "claude-sonnet-4"))
    = (Some 128000, true) ∧
  (max_context_tokens (get listed twice "gpt-4o"), supports_tools (get listed twice "claude-sonnet-4"))
    = (Some 8192, false).
Proof. split; vm_compute; reflexivity. Qed.

(** The name need not end at a hyphen, and an unknown model has no tools. *)
Example no_hyphen_boundary :
  max_context_tokens (get listed new "gpt-45") = Some 8192 ∧
  supports_tools (get listed new "deepseek-chat") = false.
Proof. split; vm_compute; reflexivity. Qed.

End RegistryProps.
