(* ===== verification/Usage.v ===== *)
(** Tokens and costs (proxy/token_counter.rs, proxy/usage.rs, and the cost
    computation of proxy/response.rs and of the estimates in proxy/mod.rs):
    counting the tokens of a request, reading the usage of a response or of a
    stream, and pricing it. *)

From S2P Require Import Prelude F64 Json Guardrails Channel.

Module TokenCounter.
Import Json Guardrails.

(** A Unicode scalar value in one of the CJK blocks. *)
Definition within (lo hi c : Z) : bool := (lo <=? c) && (c <=? hi).
Definition is_cjk (c : Z) : bool :=
  within 19968 40959 c || within 13312 19903 c || within 63744 64255 c ||
  within 12352 12447 c || within 12448 12543 c || within 44032 55215 c ||
  within 12288 12351 c || within 65280 65519 c.

(** [char::is_ascii_whitespace]: space, tab, line feed, form feed, return. *)
Definition is_ascii_whitespace (c : Z) : bool := bool_decide (c ∈ [32; 9; 10; 12; 13]).
Definition is_ascii (c : Z) : bool := (0 <=? c) && (c <? 128).

(** One character: the tokens so far and the length of the open ASCII word. *)
Definition count_char (acc : Z * Z) (c : Z) : Z * Z :=
  let '(tokens, word) := acc in
  let flushed := if 0 <? word then tokens + 1 else tokens in
  if is_cjk c then (flushed + 1, 0)
  else if is_ascii_whitespace c then (flushed, 0)
  else if is_ascii c then (tokens, word + 1)
  else (flushed + 1, 0).

(** The count is kept in an [f64] to which 1.0 is added, which stays at
    [2^53] once it gets there. *)
Definition count_text_tokens (text : string) : Z :=
  let '(tokens, word) := foldl count_char (0, 0) (chars text) in
  Z.min (2 ^ 53) (if 0 <? word then tokens + 1 else tokens).

Definition extract_text_from_content (content : value) : string :=
  match content with
  | Str s => s +:+ newline
  | Array blocks =>
      foldr (λ b acc,
        match get b "type" ≫= as_str, get b "text" ≫= as_str with
        | Some ty, Some text => if String.eqb ty "text" then text +:+ newline +:+ acc else acc
        | _, _ => acc
        end) "" blocks
  | _ => ""
  end.

Definition or_empty (o : option string) : string := default "" o.

Section tokens.
Context (to_string : value → string).

Definition message_text (msg : value) : string :=
  (match get msg "role" ≫= as_str with Some role => role +:+ newline | None => "" end) +:+
  (match get msg "content" with Some c => extract_text_from_content c | None => "" end) +:+
  (match get msg "tool_calls" ≫= as_array with
   | Some calls =>
       foldr (λ tc acc,
         match get tc "function" with
         | Some f => or_empty (get f "name" ≫= as_str) +:+
                     or_empty (get f "arguments" ≫= as_str) +:+ acc
         | None => acc
         end) "" calls
   | None => ""
   end).

Definition tool_text (tool : value) : string :=
  match get tool "function" with
  | Some f => or_empty (get f "name" ≫= as_str) +:+ or_empty (get f "description" ≫= as_str) +:+
              or_empty (to_string <$> get f "parameters")
  | None => ""
  end.

Definition array_of (body : value) (k : string) : list value := default [] (get body k ≫= as_array).

Definition count_input_tokens (body : value) : Z :=
  let messages := array_of body "messages" in
  let tools := array_of body "tools" in
  let total_text := foldr (λ m acc, message_text m +:+ acc)
    (foldr (λ t acc, tool_text t +:+ acc) "" tools) messages in
  add_u64 (add_u64 (count_text_tokens total_text) (wrap64 (Z.of_nat (length messages) * 3)))
    (wrap64 (Z.of_nat (length tools) * 10)).

(** proxy/mod.rs *)
Definition estimate_tokens (body : value) : Z :=
  add_u64 (count_input_tokens body) (default 4096 (get body "max_tokens" ≫= as_u64)).
End tokens.

(** The pre-charge of a request, in cents: [(t as f64 / 1000.0 * 0.01 * 100.0)
    as u64 + 1] in dispatch. *)
Definition estimated_cost_cents (est_tokens : Z) : Z :=
  add_u64 (F64.to_u64 (F64.mul (F64.mul (F64.div (F64.of_Z est_tokens) (F64.of_Z 1000))
    (F64.lit 1 100)) (F64.of_Z 100))) 1.

End TokenCounter.

Module Usage.
Import Json.

Record TokenUsage := mkUsage {
  input_tokens : option Z;
  output_tokens : option Z;
  cache_hit_tokens : option Z;
  cache_miss_tokens : option Z;
}.
Definition no_usage : TokenUsage := mkUsage None None None None.

(** [usage.get(a).and_then(as_u64).or_else(|| usage.get(b)...)] *)
Definition either (usage : value) (a b : string) : option Z :=
  match get usage a ≫= as_u64 with Some n => Some n | None => get usage b ≫= as_u64 end.

Section parse.
(** [serde_json::from_str] *)
Context (parse : string → option value).

Definition extract_usage (body : string) : TokenUsage :=
  match parse body ≫= λ v, get v "usage" with
  | Some usage =>
      mkUsage (either usage "prompt_tokens" "input_tokens")
        (either usage "completion_tokens" "output_tokens")
        (either usage "prompt_cache_hit_tokens" "cache_read_input_tokens")
        (either usage "prompt_cache_miss_tokens" "cache_creation_input_tokens")
  | None => no_usage
  end.

Definition has_counts (u : TokenUsage) : bool :=
  bool_decide (is_Some (input_tokens u)) || bool_decide (is_Some (output_tokens u)).

(** The loop over the chunks, latest first, with what the Anthropic events
    have told so far. *)
Fixpoint scan_chunks (acc : TokenUsage) (chunks : list string) : TokenUsage :=
  match chunks with
  | [] => if has_counts acc then acc else no_usage
  | chunk :: rest =>
      if String.eqb (trim chunk) "[DONE]" || String.eqb (trim chunk) "" then scan_chunks acc rest
      else
        let v := parse chunk in
        let event_type := v ≫= λ v, get v "type" ≫= as_str in
        if bool_decide (event_type = Some "message_delta") then
          match v ≫= λ v, get v "usage" with
          | Some usage =>
              scan_chunks (mkUsage (input_tokens acc) (get usage "output_tokens" ≫= as_u64)
                             (cache_hit_tokens acc) (cache_miss_tokens acc)) rest
          | None => scan_chunks acc rest
          end
        else if bool_decide (event_type = Some "message_start") then
          match v ≫= λ v, get v "message" ≫= λ m, get m "usage" with
          | Some usage =>
              scan_chunks (mkUsage (get usage "input_tokens" ≫= as_u64) (output_tokens acc)
                             (get usage "cache_read_input_tokens" ≫= as_u64)
                             (get usage "cache_creation_input_tokens" ≫= as_u64)) rest
          | None => scan_chunks acc rest
          end
        else
          let u := extract_usage chunk in
          if has_counts u then u else scan_chunks acc rest
  end.

Definition extract_usage_from_stream (chunks : list string) : TokenUsage :=
  scan_chunks no_usage (take 10 (reverse chunks)).
End parse.

End Usage.

Module Cost.

(** config/gateway.rs *)
Record ModelPricing := mkPricing {
  p_input_cost_per_mtok : option F64.f64;
  p_output_cost_per_mtok : option F64.f64;
}.

Record ChannelCostRates := mkRates {
  r_input_cost_per_mtok : option F64.f64;
  r_output_cost_per_mtok : option F64.f64;
  r_cost_per_token : option F64.f64;
}.
Definition from_channel (c : Channel.Channel) : ChannelCostRates :=
  mkRates (Channel.input_cost_per_mtok c) (Channel.output_cost_per_mtok c)
    (Channel.cost_per_token c).

Definition or_else {A} (a b : option A) : option A := match a with Some _ => a | None => b end.

Definition compute_token_cost (model_pricing : option ModelPricing) (rates : ChannelCostRates)
    (completion_ratio : F64.f64) (input_tokens output_tokens : Z) : option F64.f64 :=
  let eff_in := or_else (model_pricing ≫= p_input_cost_per_mtok) (r_input_cost_per_mtok rates) in
  let eff_out := or_else (model_pricing ≫= p_output_cost_per_mtok) (r_output_cost_per_mtok rates) in
  let mtok n := F64.div (F64.of_Z n) (F64.of_Z 1000000) in
  match eff_in, eff_out with
  | None, None =>
      (λ rate, F64.mul (F64.div (F64.of_Z (add_u64 input_tokens output_tokens)) (F64.of_Z 1000)) rate)
        <$> r_cost_per_token rates
  | _, _ =>
      Some (F64.add (F64.mul (mtok input_tokens) (default F64.zero eff_in))
              (F64.mul (F64.mul (mtok output_tokens) (default F64.zero eff_out)) completion_ratio))
  end.

(** [(cost.unwrap_or(0.0) * 100.0) as u64] *)
Definition cost_cents (cost : option F64.f64) : Z :=
  F64.to_u64 (F64.mul (default F64.zero cost) (F64.of_Z 100)).

End Cost.

Module UsageProps.
Import Json Usage TokenCounter.

(** *** Counting text *)

(** A character that is part of an ASCII word. *)
Definition in_word (c : Z) : bool :=
  negb (is_cjk c) && negb (is_ascii_whitespace c) && is_ascii c.
Definition wide (c : Z) : bool :=
  negb (in_word c) && negb (negb (is_cjk c) && is_ascii_whitespace c).

(** The words that start in a text that follows the character [prev]. *)
Fixpoint word_starts (prev_in_word : bool) (l : list Z) : Z :=
  match l with
  | [] => 0
  | c :: l' => (if in_word c && negb prev_in_word then 1 else 0) + word_starts (in_word c) l'
  end.
Definition wide_chars (l : list Z) : Z := Z.of_nat (length (List.filter wide l)).

Lemma count_chars_spec l : ∀ t w, 0 ≤ w →
  let '(t', w') := foldl count_char (t, w) l in
  0 ≤ w' ∧
  (if 0 <? w' then t' + 1 else t') =
    (if 0 <? w then t + 1 else t) + word_starts (0 <? w) l + wide_chars l.
Proof.
  induction l as [|c l IH]; intros t w Hw; cbn [foldl word_starts].
  { split; [done|]. unfold wide_chars. simpl. lia. }
  assert (Hstep : ∃ t1 w1, count_char (t, w) c = (t1, w1) ∧ 0 ≤ w1 ∧ (0 <? w1) = in_word c ∧
    (if 0 <? w1 then t1 + 1 else t1) = (if 0 <? w then t + 1 else t) +
      (if in_word c && negb (0 <? w) then 1 else 0) + (if wide c then 1 else 0)).
  { unfold count_char, wide, in_word.
    destruct (is_cjk c); simpl; [eexists _, _; split; [done|]; simpl; lia|].
    destruct (is_ascii_whitespace c); simpl; [eexists _, _; split; [done|]; simpl; lia|].
    destruct (is_ascii c); simpl; eexists _, _; (split; [done|]); simpl; [|lia].
    replace (0 <? w + 1) with true by lia. destruct (0 <? w) eqn:?; simpl; lia. }
  destruct Hstep as (t1&w1&->&Hw1&Hin&Hv). specialize (IH t1 w1 Hw1).
  destruct (foldl count_char (t1, w1) l) as [t' w']. destruct IH as [H1 H2]. split; [done|].
  rewrite H2, Hv, Hin. unfold wide_chars. simpl. destruct (wide c); simpl; lia.
Qed.

(** The token estimate of a text is what it contains: one token for each
    maximal run of ASCII other than white space, and one for each character
    beyond ASCII, whatever its script. *)
Theorem text_tokens_spec text :
  count_text_tokens text =
    Z.min (2 ^ 53) (word_starts false (chars text) + wide_chars (chars text)).
Proof.
  unfold count_text_tokens. pose proof (count_chars_spec (chars text) 0 0 ltac:(lia)) as H.
  destruct (foldl count_char (0, 0) (chars text)) as [t w]. destruct H as [_ H].
  rewrite H. reflexivity.
Qed.

(** *** Usage of streams *)

(** A chunk that tells nothing about usage, such as a content delta. *)
Definition silent (parse : string → option value) (chunk : string) : Prop :=
  (parse chunk ≫= λ v, get v "usage") = None ∧
  (parse chunk ≫= λ v, get v "type" ≫= as_str) ≠ Some "message_start".

Lemma scan_silent parse acc chunk rest :
  silent parse chunk → scan_chunks parse acc (chunk :: rest) = scan_chunks parse acc rest.
Proof.
  intros [Hu Ht]. cbn [scan_chunks]. destruct (_ || _); [done|].
  case_bool_decide; [by rewrite Hu|]. case_bool_decide; [done|].
  unfold extract_usage. by rewrite Hu.
Qed.

Lemma scan_all_silent parse acc l rest :
  Forall (silent parse) l → scan_chunks parse acc (l ++ rest) = scan_chunks parse acc rest.
Proof. induction 1 as [|c l Hc _ IH]; [done|]. cbn [app]. by rewrite scan_silent. Qed.

(** The chunk that ends an Anthropic stream with its output count. *)
Definition final_delta (parse : string → option value) (chunk : string) (n : Z) : Prop :=
  trim chunk ≠ "" ∧ trim chunk ≠ "[DONE]" ∧
  ∃ v usage, parse chunk = Some v ∧ get v "type" ≫= as_str = Some "message_delta" ∧
    get v "usage" = Some usage ∧ get usage "output_tokens" ≫= as_u64 = Some n.

Lemma scan_final_delta parse acc chunk n rest :
  final_delta parse chunk n →
  scan_chunks parse acc (chunk :: rest) =
  scan_chunks parse (mkUsage (input_tokens acc) (Some n) (cache_hit_tokens acc)
                       (cache_miss_tokens acc)) rest.
Proof.
  intros (H1&H2&v&usage&Hp&Ht&Hu&Hn). cbn [scan_chunks].
  apply String.eqb_neq in H1, H2. rewrite H1, H2. cbn [orb].
  rewrite Hp. cbn [mbind option_bind]. rewrite Ht, bool_decide_eq_true_2 by done.
  by rewrite Hu, Hn.
Qed.

(** Only the last ten chunks of a stream are read.  The input tokens of an
    Anthropic stream are in its first chunk, so any stream of more than ten
    chunks is accounted, and billed, without its input. *)
Theorem long_stream_loses_input parse start deltas last stop n :
  Forall (silent parse) deltas → silent parse stop → final_delta parse last n →
  (8 ≤ length deltas)%nat →
  extract_usage_from_stream parse (start :: deltas ++ [last; stop])
    = mkUsage None (Some n) None None.
Proof.
  intros Hd Hs Hf Hlen. unfold extract_usage_from_stream.
  rewrite reverse_cons, reverse_app. change (reverse [last; stop]) with [stop; last].
  rewrite <- !(assoc_L (++)). cbn [app take].
  rewrite scan_silent, (scan_final_delta _ _ _ _ _ Hf) by done.
  rewrite take_app_le by (rewrite length_reverse; lia).
  rewrite <- (app_nil_r (take 8 _)), scan_all_silent; [done|].
  apply Forall_take. by rewrite Forall_reverse.
Qed.

(** The same for a short stream: both counts are found. *)
Lemma short_stream_has_input parse start deltas last stop n v usage m :
  Forall (silent parse) deltas → silent parse stop → final_delta parse last n →
  (length deltas ≤ 7)%nat →
  trim start ≠ "" → trim start ≠ "[DONE]" → parse start = Some v →
  get v "type" ≫= as_str = Some "message_start" →
  get v "message" ≫= (λ m, get m "usage") = Some usage →
  get usage "input_tokens" ≫= as_u64 = Some m →
  input_tokens (extract_usage_from_stream parse (start :: deltas ++ [last; stop])) = Some m ∧
  output_tokens (extract_usage_from_stream parse (start :: deltas ++ [last; stop])) = Some n.
Proof.
  intros Hd Hs Hf Hlen H1 H2 Hp Ht Hu Hm. unfold extract_usage_from_stream.
  rewrite reverse_cons, reverse_app. change (reverse [last; stop]) with [stop; last].
  rewrite take_ge by (rewrite !length_app, length_reverse; simpl; lia).
  rewrite <- !(assoc_L (++)). cbn [app].
  rewrite scan_silent, (scan_final_delta _ _ _ _ _ Hf), scan_all_silent by (by rewrite ?Forall_reverse).
  cbn [scan_chunks]. apply String.eqb_neq in H1, H2. rewrite H1, H2. cbn [orb].
  rewrite Hp. cbn [mbind option_bind] in *. rewrite Ht, bool_decide_eq_false_2 by congruence.
  rewrite bool_decide_eq_true_2 by done. rewrite Hu. cbn [scan_chunks input_tokens output_tokens].
  rewrite Hm. done.
Qed.

(** A parser that knows the chunks of the sample stream. *)
Definition sample_parse (s : string) : option value :=
  if String.eqb s "start" then
    Some (obj [("type", Str "message_start");
               ("message", obj [("usage", obj [("input_tokens", num 1200)])])])
  else if String.eqb s "final" then
    Some (obj [("type", Str "message_delta"); ("usage", obj [("output_tokens", num 40)])])
  else Some (obj [("type", Str "content_block_delta")]).

Lemma long_stream_loses_input_witness :
  extract_usage_from_stream sample_parse
    ("start" :: replicate 8 "delta" ++ ["final"; "stop"]) = mkUsage None (Some 40) None None ∧
  input_tokens (extract_usage_from_stream sample_parse
    ("start" :: replicate 7 "delta" ++ ["final"; "stop"])) = Some 1200.
Proof.
  split; [|by vm_compute].
  apply (long_stream_loses_input sample_parse "start" (replicate 8 "delta") "final" "stop" 40).
  - apply Forall_replicate. by vm_compute.
  - by vm_compute.
  - split_and!; [done|done|]. eexists _, _. split_and!; vm_compute; reflexivity.
  - simpl. lia.
Defined.

End UsageProps.
