(* ===== verification/Thinking.v ===== *)
(** Thinking parameters (proxy/thinking.rs): the budget that a request asks
    for in any of the provider formats, and its translation into the format
    of the provider that is to serve it. *)

From S2P Require Import Prelude Json.

Module Thinking.
Import Json.

Definition DEFAULT_ENABLED_BUDGET : Z := 8192.

Definition budget_to_level (budget : Z) : string :=
  if budget =? 0 then "none"
  else if budget <=? 1024 then "low"
  else if budget <=? 8192 then "medium"
  else "high".

Definition level_to_budget (level : string) : option Z :=
  let l := to_lowercase level in
  if String.eqb l "none" then Some 0
  else if String.eqb l "minimal" then Some 512
  else if String.eqb l "low" then Some 1024
  else if String.eqb l "medium" then Some 8192
  else if String.eqb l "high" then Some 24576
  else if String.eqb l "xhigh" then Some 32768
  else if String.eqb l "max" then Some 128000
  else None.

(** The first that is there. *)
Definition orelse (a b : option Z) : option Z := match a with Some _ => a | None => b end.

Definition thinking_enabled (body : value) : bool :=
  match get2 body "thinking" "type" ≫= as_str with
  | Some ty => String.eqb ty "enabled"
  | None => false
  end.

(** The budget of a level held as a string. *)
Definition level_budget (o : option value) : option Z :=
  match o with Some v => match as_str v with Some l => level_to_budget l | None => None end
             | None => None end.

Definition extract_thinking_budget (body : value) : option Z :=
  orelse (get2 body "thinking" "budget_tokens" ≫= as_u64)
  (orelse (if thinking_enabled body then Some DEFAULT_ENABLED_BUDGET else None)
  (orelse (level_budget (get body "reasoning_effort"))
  (orelse (level_budget (get2 body "reasoning" "effort"))
     (get3 body "generationConfig" "thinkingConfig" "thinkingBudget" ≫= as_u64)))).

(** [if let Some(obj) = body.get_mut(k).and_then(as_object_mut)], then [f] on it. *)
Definition alter_object (k : string) (f : gmap string value → gmap string value)
    (m : gmap string value) : gmap string value :=
  match m !! k with Some (Object o) => <[k := Object (f o)]> m | _ => m end.

Definition remove_thinking_map (m : gmap string value) : gmap string value :=
  alter_object "generationConfig" (delete "thinkingConfig")
    (delete "reasoning" (delete "reasoning_effort" (delete "thinking" m))).
Definition remove_thinking_fields (body : value) : value :=
  match body with Object m => Object (remove_thinking_map m) | _ => body end.

(** [v[k] = x]: inserts in an object, makes an object of null, panics on the rest. *)
Definition index_set (v : value) (k : string) (x : value) : outcome value :=
  match v with
  | Object m => Done (Object (<[k := x]> m))
  | Null => Done (Object {[k := x]})
  | _ => Panic
  end.

(** [body[k]] as a place that is then written by [f]: a missing entry is null. *)
Definition index_alter (v : value) (k : string) (f : value → outcome value) : outcome value :=
  match v with
  | Object m => let! x := f (default Null (m !! k)) in Done (Object (<[k := x]> m))
  | Null => let! x := f Null in Done (Object {[k := x]})
  | _ => Panic
  end.

Definition normalize_for_provider (body : value) (target_provider : string) : outcome value :=
  let budget := extract_thinking_budget body in
  let body := remove_thinking_fields body in
  match budget with
  | Some b =>
      if 0 <? b then
        let p := to_lowercase target_provider in
        if String.eqb p "anthropic" then
          index_set body "thinking" (obj [("type", Str "enabled"); ("budget_tokens", num b)])
        else if String.eqb p "openai" then
          index_set body "reasoning_effort" (Str (budget_to_level b))
        else if String.eqb p "gemini" then
          let! body := match get body "generationConfig" with
                       | None => index_set body "generationConfig" (Object ∅)
                       | Some _ => Done body
                       end in
          index_alter body "generationConfig" (λ gc,
            index_set gc "thinkingConfig" (obj [("thinkingBudget", num b)]))
        else Done body
      else Done body
  | None => Done body
  end.

(** *** What normalisation does *)

(** The budget of a level: what is left of a budget once it has been a level. *)
Definition rounded (b : Z) : Z := if b <=? 1024 then 1024 else if b <=? 8192 then 8192 else 24576.

Definition carried (p : string) (budget : option Z) : option Z :=
  match budget with
  | Some b =>
      if 0 <? b then
        if String.eqb p "anthropic" || String.eqb p "gemini" then Some b
        else if String.eqb p "openai" then Some (rounded b)
        else None
      else None
  | None => None
  end.

Definition thinking_keys : list string :=
  ["thinking"; "reasoning_effort"; "reasoning"; "generationConfig"].

Lemma level_of_budget b : 0 < b → level_to_budget (budget_to_level b) = Some (rounded b).
Proof.
  intros Hb. unfold budget_to_level, rounded. replace (b =? 0) with false by lia.
  repeat case_match; reflexivity.
Qed.

Lemma alter_object_lookup k f m k' :
  alter_object k f m !! k' =
    if decide (k = k') then
      match m !! k with Some (Object o) => Some (Object (f o)) | x => x end
    else m !! k'.
Proof.
  unfold alter_object. destruct (decide (k = k')) as [<-|Hne].
  - destruct (m !! k) as [[]|] eqn:E; by rewrite ?lookup_insert_eq.
  - destruct (m !! k) as [[]|] eqn:E; by rewrite ?lookup_insert_ne.
Qed.

(** A removal takes exactly the four thinking fields. *)
Lemma removed_lookup m k :
  remove_thinking_map m !! k =
    if decide (k ∈ ["thinking"; "reasoning_effort"; "reasoning"]) then None
    else if decide (k = "generationConfig") then
      match m !! k with
      | Some (Object o) => Some (Object (delete "thinkingConfig" o))
      | x => x
      end
    else m !! k.
Proof.
  unfold remove_thinking_map. rewrite alter_object_lookup.
  destruct (decide (k ∈ _)) as [Hk|Hk].
  - rewrite decide_False by (intros <-; set_solver).
    rewrite !lookup_delete. repeat case_decide; try done. set_solver.
  - destruct (decide ("generationConfig" = k)) as [<-|Hne].
    + rewrite decide_True by done. by rewrite !lookup_delete_ne by set_solver.
    + rewrite decide_False by done. by rewrite !lookup_delete_ne by set_solver.
Qed.

End Thinking.

Module ThinkingProps.
Import Json Thinking.

(** A body without Claude's and OpenAI's fields. *)
Lemma extract_gemini m :
  m !! "thinking" = None → m !! "reasoning_effort" = None → m !! "reasoning" = None →
  extract_thinking_budget (Object m) =
    get3 (Object m) "generationConfig" "thinkingConfig" "thinkingBudget" ≫= as_u64.
Proof.
  intros H1 H2 H3. unfold extract_thinking_budget, thinking_enabled, get2. cbn [get].
  by rewrite H1, H2, H3.
Qed.

Lemma extract_removed m : extract_thinking_budget (Object (remove_thinking_map m)) = None.
Proof.
  rewrite extract_gemini by (rewrite removed_lookup, decide_True by set_solver; done).
  unfold get3, get2. cbn [get]. rewrite removed_lookup.
  rewrite decide_False by set_solver. rewrite decide_True by done.
  destruct (m !! "generationConfig") as [[]|]; try done. cbn [get]. by rewrite lookup_delete_eq.
Qed.

Lemma gemini_written b body body' :
  (let! body := match get (Object body) "generationConfig" with
                | None => index_set (Object body) "generationConfig" (Object ∅)
                | Some _ => Done (Object body)
                end in
   index_alter body "generationConfig" (λ gc,
     index_set gc "thinkingConfig" (obj [("thinkingBudget", num b)]))) = Done body' →
  ∃ gc, body' = Object (<["generationConfig" := Object
      (<["thinkingConfig" := obj [("thinkingBudget", num b)]]> gc)]> body) ∧
    ∀ k, gc !! k = get2 (Object body) "generationConfig" k.
Proof.
  intros H. unfold get2. cbn [get] in *. destruct (body !! "generationConfig") as [gc|] eqn:E.
  - cbn [outcome_bind index_alter] in H. rewrite E in H. cbn [from_option id default] in H.
    destruct gc; cbn [index_set outcome_bind] in H; simplify_eq.
    + exists ∅. by rewrite insert_empty.
    + by exists m.
  - cbn [index_set outcome_bind index_alter] in H. rewrite lookup_insert_eq in H.
    cbn [from_option id index_set outcome_bind] in H. simplify_eq. exists ∅.
    by rewrite insert_insert_eq.
Qed.

(** Where a provider is asked for thinking. *)
Definition native (p : string) : string :=
  if String.eqb p "anthropic" then "thinking" else if String.eqb p "openai" then "reasoning_effort" else "generationConfig".

(** All that is not about thinking: the other fields, the other settings of
    [generationConfig] and whether it is there; and no other provider's field is left. *)
Definition rest_kept (m : gmap string value) (p : string) (body' : value) : Prop :=
  (∀ k, k ∉ thinking_keys → get body' k = m !! k) ∧
  (∀ k, k ≠ "thinkingConfig" → get2 body' "generationConfig" k = get2 (Object m) "generationConfig" k) ∧
  (is_Some (m !! "generationConfig") → is_Some (get body' "generationConfig")) ∧
  ∀ k, k ∈ ["thinking"; "reasoning_effort"; "reasoning"] → k ≠ native p → get body' k = None.

Lemma removed_rest m p : rest_kept m p (Object (remove_thinking_map m)).
Proof.
  unfold rest_kept, get2. cbn [get]. split_and!.
  - intros k Hk. unfold thinking_keys in Hk. rewrite removed_lookup, !decide_False by set_solver. done.
  - intros k Hk. rewrite removed_lookup, decide_False, decide_True by set_solver.
    destruct (m !! "generationConfig") as [[]|]; try done. cbn [get]. by rewrite lookup_delete_ne.
  - rewrite removed_lookup, decide_False, decide_True by set_solver. by destruct (m !! "generationConfig") as [[]|].
  - intros k Hk _. by rewrite removed_lookup, decide_True.
Qed.
(** Writing the native field of a provider, other than Gemini's, into it. *)
Lemma native_rest m p x :
  native p ≠ "generationConfig" → rest_kept m p (Object (<[native p := x]> (remove_thinking_map m))).
Proof.
  intros Hn. destruct (removed_rest m p) as (H1&H2&H3&H4). unfold rest_kept, get2 in *. cbn [get] in *. split_and!.
  - intros k Hk. rewrite lookup_insert_ne; [by apply H1|]. intros <-. apply Hk. unfold thinking_keys, native in *. repeat case_match; set_solver.
  - intros k Hk. rewrite lookup_insert_ne by done. by apply H2.
  - by rewrite lookup_insert_ne.
  - intros k Hk Hne. rewrite lookup_insert_ne by done. by apply H4.
Qed.

(** C33. Thinking survives normalisation, in the target's terms.  If it does not
    panic, the body that goes to an Anthropic or Gemini channel asks for the
    same budget, the one that goes to an OpenAI channel for the budget of its
    level, and for any other provider, or when no thinking was asked for, none
    at all; of the fields [thinking], [reasoning_effort] and [reasoning] at most the
    target's own is left; and every other field is untouched, as is every setting of
    [generationConfig] but [thinkingConfig]. *)
Theorem thinking_survives m provider body' :
  normalize_for_provider (Object m) provider = Done body' →
  extract_thinking_budget body' =
    carried (to_lowercase provider) (extract_thinking_budget (Object m)) ∧
  (∀ k, k ∉ thinking_keys → get body' k = m !! k) ∧
  (∀ k, k ≠ "thinkingConfig" → get2 body' "generationConfig" k = get2 (Object m) "generationConfig" k) ∧
  (is_Some (m !! "generationConfig") → is_Some (get body' "generationConfig")) ∧
  ∀ k, k ∈ ["thinking"; "reasoning_effort"; "reasoning"] → k ≠ native (to_lowercase provider) → get body' k = None.
Proof.
  unfold normalize_for_provider, carried. cbn [remove_thinking_fields].
  set (p := to_lowercase provider). clearbody p. fold (rest_kept m p body').
  assert (Hclean : Object (remove_thinking_map m) = body' → extract_thinking_budget body' = None ∧ rest_kept m p body').
  { intros <-. split; [apply extract_removed|apply removed_rest]. }
  destruct (extract_thinking_budget (Object m)) as [b|]; [|intros [= H]; by apply Hclean].
  destruct (Z.ltb_spec 0 b) as [Hb|Hb]; [|intros [= H]; by apply Hclean].
  destruct (String.eqb_spec p "anthropic") as [->|_].
  { intros [= <-]. split; [|by apply (native_rest m "anthropic")].
    unfold extract_thinking_budget, get2. cbn [get]. by rewrite lookup_insert_eq. }
  destruct (String.eqb_spec p "openai") as [->|_].
  { intros [= <-]. split; [|by apply (native_rest m "openai")].
    unfold extract_thinking_budget, thinking_enabled, get2. cbn [get].
    rewrite (lookup_insert_ne _ _ "thinking"), removed_lookup by done.
    rewrite decide_True by set_solver. rewrite lookup_insert_eq. cbn [orelse level_budget as_str].
    by rewrite level_of_budget. }
  destruct (String.eqb_spec p "gemini") as [->|_]; [|intros [= H]; by apply Hclean].
  intros (gc&->&Hgc)%gemini_written. destruct (removed_rest m "gemini") as (H1&H2&_&H4).
  split; [|unfold rest_kept, get2 in *; cbn [get] in *; split_and!].
  - rewrite extract_gemini.
    { unfold get3, get2. cbn [get]. rewrite lookup_insert_eq. cbn [get]. by rewrite lookup_insert_eq. }
    all: by rewrite lookup_insert_ne, removed_lookup, decide_True by set_solver.
  - intros k Hk. rewrite lookup_insert_ne by set_solver. by apply H1.
  - intros k Hk. rewrite lookup_insert_eq. cbn [get]. rewrite lookup_insert_ne, Hgc by done. by apply H2.
  - intros _. by rewrite lookup_insert_eq.
  - intros k Hk Hne. rewrite lookup_insert_ne by done. by apply H4.
Qed.

Definition sample_thinking : gmap string value :=
  list_to_map [("model", Str "gemini-2.5-pro"); ("thinking", obj [("budget_tokens", num 5000)]);
               ("generationConfig", obj [("topP", num 1)])].

Lemma thinking_survives_witness :
  ∃ body', normalize_for_provider (Object sample_thinking) "Gemini" = Done body' ∧
    extract_thinking_budget body' = Some 5000 ∧ get body' "model" = Some (Str "gemini-2.5-pro") ∧
    get2 body' "generationConfig" "topP" = Some (num 1).
Proof.
  destruct (normalize_for_provider (Object sample_thinking) "Gemini") as [body'|] eqn:E;
    [|vm_compute in E; discriminate].
  exists body'. split; [reflexivity|].
  destruct (thinking_survives sample_thinking "Gemini" body' E) as (H1&H2&H3&_). split_and!.
  - rewrite H1. vm_compute. reflexivity.
  - rewrite H2; [vm_compute; reflexivity|]. unfold thinking_keys. rewrite !not_elem_of_cons. split_and!; try done. apply not_elem_of_nil.
  - rewrite H3 by discriminate. vm_compute. reflexivity.
Defined.

(** A [generationConfig] that is not an object makes the assignment panic. *)
Example generation_config_panics :
  normalize_for_provider (obj [("reasoning_effort", Str "high"); ("generationConfig", Str "x")])
    "gemini" = Panic.
Proof. vm_compute. reflexivity. Qed.

End ThinkingProps.
