(* ===== verification/Translate.v ===== *)
(** Translation between wire formats (proxy/translate/mod.rs, anthropic.rs and
    gemini.rs): requests, complete responses and stream events, between the
    OpenAI chat format, Anthropic messages and Gemini.

    Printing and parsing JSON are serde_json's ([to_string] and [parse]); the
    random identifiers and the time of day are arguments. *)

From S2P Require Import Prelude Json.

(** proxy/mod.rs *)
Inductive RequestFormat := OpenAIChat | AnthropicMessages | Gemini | OpenAIResponses.

#[global] Instance RequestFormat_eq_dec : EqDecision RequestFormat.
Proof. solve_decision. Defined.

Module Translate.
Import Json.

(** [v.get(k).and_then(as_str).unwrap_or(d)] *)
Definition str_or (o : option value) (d : string) : string :=
  match o with Some v => default d (as_str v) | None => d end.
Definition field_str (v : value) (k d : string) : string := str_or (get v k) d.
Definition field_u64 (v : value) (k : string) : Z :=
  match get v k with Some x => default 0 (as_u64 x) | None => 0 end.
Definition field_array (v : value) (k : string) : option (list value) :=
  match get v k with Some x => as_array x | None => None end.
Definition empty_object : value := Object ∅.

Definition joined (l : list string) : string := foldr String.append "" l.

(** Copies the fields that are there. *)
Definition pass_through (body : value) (keys : list string) (m : gmap string value)
    : gmap string value :=
  foldl (λ m k, match get body k with Some v => <[k := v]> m | None => m end) m keys.
Definition scalar_keys : list string := ["model"; "max_tokens"; "stream"; "temperature"; "top_p"].

Definition renamed (body : value) (from to : string) (m : gmap string value) : gmap string value :=
  match get body from with Some v => <[to := v]> m | None => m end.

Section anthropic_to_openai.
Context (to_string : value → string).

Definition system_text_of (system : value) : string :=
  match system with
  | Str s => s
  | Array arr =>
      joined (omap (λ b, match get b "text" with Some t => as_str t | None => None end) arr)
  | _ => ""
  end.

Definition tool_call (id name arguments : string) : value :=
  obj [("id", Str id); ("type", Str "function");
       ("function", obj [("name", Str name); ("arguments", Str arguments)])].

(** The loop over the blocks of one message. *)
Record Blocks := mkBlocks {
  text_parts : list string;
  content_parts : list value;
  tool_calls : list value;
  has_multimodal : bool;
  tool_messages : list value;
}.
Definition no_blocks : Blocks := mkBlocks [] [] [] false [].

Definition add_block (b : Blocks) (block : value) : Blocks :=
  let ty := field_str block "type" "" in
  if String.eqb ty "text" then
    let text := field_str block "text" "" in
    mkBlocks (text_parts b ++ [text])
      (content_parts b ++ [obj [("type", Str "text"); ("text", Str text)]])
      (tool_calls b) (has_multimodal b) (tool_messages b)
  else if String.eqb ty "image" then
    mkBlocks (text_parts b)
      (match get block "source" with
       | Some source =>
           content_parts b ++
             [obj [("type", Str "image_url");
                   ("image_url", obj [("url", Str ("data:" +:+ field_str source "media_type" "image/png"
                      +:+ ";base64," +:+ field_str source "data" ""))])]]
       | None => content_parts b
       end)
      (tool_calls b) true (tool_messages b)
  else if String.eqb ty "tool_use" then
    mkBlocks (text_parts b) (content_parts b)
      (tool_calls b ++
        [tool_call (field_str block "id" "") (field_str block "name" "")
           (to_string (default empty_object (get block "input")))])
      (has_multimodal b) (tool_messages b)
  else if String.eqb ty "tool_result" then
    mkBlocks (text_parts b) (content_parts b) (tool_calls b) (has_multimodal b)
      (tool_messages b ++
        [obj [("role", Str "tool"); ("tool_call_id", Str (field_str block "tool_use_id" ""));
              ("content", Str (field_str block "content" ""))]])
  else b.

Definition nonempty {A} (l : list A) : bool := match l with [] => false | _ => true end.

(** The message assembled from the blocks, when there is anything to say. *)
Definition main_message (role : string) (b : Blocks) : list value :=
  if nonempty (text_parts b) || has_multimodal b || nonempty (tool_calls b) then
    let content :=
      if has_multimodal b then Array (content_parts b)
      else if nonempty (tool_calls b) && negb (nonempty (text_parts b)) then Null
      else Str (joined (text_parts b)) in
    [Object (let m := list_to_map [("role", Str role); ("content", content)] in
             if nonempty (tool_calls b) then <["tool_calls" := Array (tool_calls b)]> m else m)]
  else [].

Definition message_to_openai (msg : value) : list value :=
  let role := field_str msg "role" "user" in
  match get msg "content" with
  | Some (Str s) => [obj [("role", Str role); ("content", Str s)]]
  | Some (Array blocks) =>
      let b := foldl add_block no_blocks blocks in
      tool_messages b ++ main_message role b
  | _ => [obj [("role", Str role); ("content", Str "")]]
  end.

Definition tool_to_openai (tool : value) : value :=
  obj [("type", Str "function");
       ("function", obj [("name", Str (field_str tool "name" ""));
                         ("description", Str (field_str tool "description" ""));
                         ("parameters", default (obj [("type", Str "object")])
                                          (get tool "input_schema"))])].

Definition tool_choice_to_openai (tc : value) : value :=
  match get tc "type" with
  | Some (Str ty) =>
      if String.eqb ty "any" then Str "required"
      else if String.eqb ty "tool" then
        obj [("type", Str "function"); ("function", obj [("name", Str (field_str tc "name" ""))])]
      else Str "auto"
  | _ => Str "auto"
  end.

Definition anthropic_to_openai_request (body : value) : value :=
  let out := renamed body "stop_sequences" "stop" (pass_through body scalar_keys ∅) in
  let system := match get body "system" with
    | Some s => if String.eqb (system_text_of s) "" then []
                else [obj [("role", Str "system"); ("content", Str (system_text_of s))]]
    | None => [] end in
  let messages := match field_array body "messages" with
    | Some msgs => concat (message_to_openai <$> msgs)
    | None => [] end in
  let out := <["messages" := Array (system ++ messages)]> out in
  let out := match field_array body "tools" with
    | Some tools => <["tools" := Array (tool_to_openai <$> tools)]> out
    | None => out end in
  Object (match get body "tool_choice" with
    | Some tc => <["tool_choice" := tool_choice_to_openai tc]> out
    | None => out end).

Definition finish_of_stop (stop_reason : string) : string :=
  if String.eqb stop_reason "end_turn" then "stop"
  else if String.eqb stop_reason "max_tokens" then "length"
  else if String.eqb stop_reason "tool_use" then "tool_calls"
  else "stop".

Definition response_text (blocks : list value) : string :=
  joined (omap (λ b, if String.eqb (field_str b "type" "") "text"
                     then match get b "text" with Some t => as_str t | None => None end
                     else None) blocks).
Definition response_tool_calls (blocks : list value) : list value :=
  omap (λ b, if String.eqb (field_str b "type" "") "tool_use"
             then Some (tool_call (field_str b "id" "") (field_str b "name" "")
                          (to_string (default empty_object (get b "input"))))
             else None) blocks.

Definition anthropic_to_openai_response (body : value) (model : string) (now_secs : Z) : value :=
  let blocks := default [] (field_array body "content") in
  let text := response_text blocks in
  let calls := response_tool_calls blocks in
  let message : gmap string value :=
    if nonempty calls
    then list_to_map [("role", Str "assistant");
                      ("content", if String.eqb text "" then Null else Str text);
                      ("tool_calls", Array calls)]
    else list_to_map [("role", Str "assistant"); ("content", Str text)] in
  let usage := default empty_object (get body "usage") in
  obj [("id", Str (field_str body "id" "anthropic-resp"));
       ("object", Str "chat.completion"); ("created", num now_secs); ("model", Str model);
       ("choices", Array [obj [("index", num 0); ("message", Object message);
          ("finish_reason", Str (finish_of_stop (field_str body "stop_reason" "end_turn")))]]);
       ("usage", obj [("prompt_tokens", num (field_u64 usage "input_tokens"));
                      ("completion_tokens", num (field_u64 usage "output_tokens"));
                      ("total_tokens", num (add_u64 (field_u64 usage "input_tokens")
                                              (field_u64 usage "output_tokens")))])].

Definition newline2 : string := String "010"%char (String "010"%char EmptyString).
Definition data_event (v : value) : string := "data: " +:+ to_string v +:+ newline2.

(** A chunk with one delta; [simple] is the random identifier. *)
Definition openai_chunk (simple : string) (now_secs : Z) (model : string) (delta finish : value)
    : gmap string value :=
  list_to_map [("id", Str ("anthropic-stream-" +:+ simple)); ("object", Str "chat.completion.chunk");
    ("created", num now_secs); ("model", Str model);
    ("choices", Array [obj [("index", num 0); ("delta", delta); ("finish_reason", finish)]])].

Definition anthropic_to_openai_stream_chunk (chunk : value) (model simple : string) (now_secs : Z)
    : option string :=
  let emit delta := Some (data_event (Object (openai_chunk simple now_secs model delta Null))) in
  match get chunk "type" with
  | Some (Str event_type) =>
      if String.eqb event_type "content_block_start" then
        match get chunk "content_block" with
        | Some block =>
            match get block "type" with
            | Some (Str ty) =>
                if String.eqb ty "text" then
                  emit (obj [("role", Str "assistant"); ("content", Str (field_str block "text" ""))])
                else if String.eqb ty "tool_use" then
                  emit (obj [("tool_calls", Array [obj [("index", num 0);
                    ("id", Str (field_str block "id" "")); ("type", Str "function");
                    ("function", obj [("name", Str (field_str block "name" ""));
                                      ("arguments", Str "")])]])])
                else None
            | _ => None
            end
        | None => None
        end
      else if String.eqb event_type "content_block_delta" then
        match get chunk "delta" with
        | Some delta =>
            match get delta "type" with
            | Some (Str ty) =>
                if String.eqb ty "text_delta" then
                  let text := field_str delta "text" "" in
                  if String.eqb text "" then None else emit (obj [("content", Str text)])
                else if String.eqb ty "input_json_delta" then
                  emit (obj [("tool_calls", Array [obj [("index", num 0);
                    ("function", obj [("arguments", Str (field_str delta "partial_json" ""))])]])])
                else None
            | _ => None
            end
        | None => None
        end
      else if String.eqb event_type "message_delta" then
        match get chunk "delta" with
        | Some delta =>
            match get delta "stop_reason" with
            | Some (Str s) =>
                let out := openai_chunk simple now_secs model empty_object (Str (finish_of_stop s)) in
                Some (data_event (Object (match get chunk "usage" with
                  | Some usage =>
                      <["usage" := obj [("prompt_tokens", num (field_u64 usage "input_tokens"));
                                        ("completion_tokens", num (field_u64 usage "output_tokens"))]]> out
                  | None => out
                  end)))
            | _ => None
            end
        | None => None
        end
      else if String.eqb event_type "message_stop" then Some ("data: [DONE]" +:+ newline2)
      else None
  | _ => None
  end.
End anthropic_to_openai.

Section openai_to_anthropic.
Context (to_string : value → string) (parse : string → option value).

Definition text_block (s : string) : value := obj [("type", Str "text"); ("text", Str s)].

(** [s.strip_suffix(suf)], and [trim_end_matches]: as often as it is there. *)
Definition strip_suffix (suf s : string) : option string :=
  let n := (String.length s - String.length suf)%nat in
  if (String.length suf <=? String.length s)%nat &&
     String.eqb (String.substring n (String.length suf) s) suf
  then Some (String.substring 0 n s) else None.
Fixpoint trim_end_matches (fuel : nat) (suf s : string) : string :=
  match fuel with
  | O => s
  | S f => match strip_suffix suf s with Some s' => trim_end_matches f suf s' | None => s end
  end.

Definition image_block (url : string) : list value :=
  match strip_prefix "data:" url with
  | Some stripped =>
      match split_once "," stripped with
      | Some (media, data) =>
          [obj [("type", Str "image");
                ("source", obj [("type", Str "base64");
                   ("media_type", Str (trim_end_matches (String.length media) ";base64" media));
                   ("data", Str data)])]]
      | None => []
      end
  | None => []
  end.

Definition content_blocks (content : option value) : list value :=
  match content with
  | Some (Str s) => if String.eqb s "" then [] else [text_block s]
  | Some (Array arr) =>
      concat ((λ block,
        let ty := field_str block "type" "" in
        if String.eqb ty "text" then [block]
        else if String.eqb ty "image_url"
        then image_block (str_or (get2 block "image_url" "url") "")
        else []) <$> arr)
  | _ => []
  end.

Definition tool_use_block (tc : value) : value :=
  let function := default empty_object (get tc "function") in
  obj [("type", Str "tool_use"); ("id", Str (field_str tc "id" ""));
       ("name", Str (field_str function "name" ""));
       ("input", default empty_object (parse (field_str function "arguments" "{}")))].

Definition anthropic_content (blocks : list value) : value :=
  match blocks with
  | [] => Str ""
  | [b] => match get b "type" with
           | Some (Str ty) => if String.eqb ty "text" then Str (field_str b "text" "") else Array blocks
           | _ => Array blocks
           end
  | _ => Array blocks
  end.

(** One message: the messages and the system text so far. *)
Definition message_to_anthropic (acc : list value * string) (msg : value) : list value * string :=
  let '(out, system_text) := acc in
  let role := field_str msg "role" "user" in
  if String.eqb role "system" then
    match get msg "content" with
    | Some (Str c) =>
        (out, (if String.eqb system_text "" then system_text
               else system_text +:+ String "010"%char EmptyString) +:+ c)
    | _ => acc
    end
  else if String.eqb role "tool" then
    (out ++ [obj [("role", Str "user");
       ("content", Array [obj [("type", Str "tool_result");
          ("tool_use_id", Str (field_str msg "tool_call_id" ""));
          ("content", Str (field_str msg "content" ""))]])]], system_text)
  else
    let blocks := content_blocks (get msg "content") ++
      match field_array msg "tool_calls" with
      | Some tcs => tool_use_block <$> tcs
      | None => []
      end in
    (out ++ [obj [("role", Str role); ("content", anthropic_content blocks)]], system_text).

Definition tool_to_anthropic (tool : value) : option value :=
  if String.eqb (field_str tool "type" "") "function" then
    let function := default empty_object (get tool "function") in
    Some (obj [("name", Str (field_str function "name" ""));
               ("description", Str (field_str function "description" ""));
               ("input_schema", default (obj [("type", Str "object")]) (get function "parameters"))])
  else None.

Definition tool_choice_to_anthropic (tc : value) : value :=
  let typed t := obj [("type", Str t)] in
  match tc with
  | Str s =>
      if String.eqb s "required" then typed "any"
      else if String.eqb s "none" then typed "none"
      else typed "auto"
  | Object _ =>
      if String.eqb (field_str tc "type" "auto") "function"
      then obj [("type", Str "tool"); ("name", Str (str_or (get2 tc "function" "name") ""))]
      else typed "auto"
  | _ => typed "auto"
  end.

Definition openai_to_anthropic_request (body : value) : value :=
  let out := renamed body "stop" "stop_sequences" (pass_through body scalar_keys ∅) in
  let '(messages, system_text) :=
    foldl message_to_anthropic ([], "") (default [] (field_array body "messages")) in
  let out := if String.eqb system_text "" then out else <["system" := Str system_text]> out in
  let out := <["messages" := Array messages]> out in
  let out := match field_array body "tools" with
    | Some tools =>
        let ts := omap tool_to_anthropic tools in
        if nonempty ts then <["tools" := Array ts]> out else out
    | None => out end in
  Object (match get body "tool_choice" with
    | Some tc => <["tool_choice" := tool_choice_to_anthropic tc]> out
    | None => out end).

Definition stop_of_finish (finish_reason : string) : string :=
  if String.eqb finish_reason "length" then "max_tokens"
  else if String.eqb finish_reason "tool_calls" then "tool_use"
  else "end_turn".

Definition first_choice (body : value) : option value :=
  match field_array body "choices" with Some (c :: _) => Some c | _ => None end.

Definition openai_to_anthropic_response (body : value) (simple : string) : value :=
  let choice := first_choice body in
  let message := match choice with
    | Some c => default empty_object (get c "message") | None => empty_object end in
  let finish_reason := match choice with
    | Some c => field_str c "finish_reason" "stop" | None => "stop" end in
  let text := field_str message "content" "" in
  let content := (if String.eqb text "" then [] else [text_block text]) ++
    match field_array message "tool_calls" with
    | Some tcs => tool_use_block <$> tcs
    | None => []
    end in
  let usage := default empty_object (get body "usage") in
  obj [("id", Str ("msg_" +:+ simple)); ("type", Str "message"); ("role", Str "assistant");
       ("content", Array content); ("model", Str (field_str body "model" ""));
       ("stop_reason", Str (stop_of_finish finish_reason));
       ("usage", obj [("input_tokens", num (field_u64 usage "prompt_tokens"));
                      ("output_tokens", num (field_u64 usage "completion_tokens"))])].

Definition named_event (name : string) (v : value) : string :=
  "event: " +:+ name +:+ String "010"%char EmptyString +:+ data_event to_string v.

Definition openai_to_anthropic_stream_chunk (chunk : value) : option string :=
  match first_choice chunk with
  | None => None
  | Some choice =>
      let delta := default empty_object (get choice "delta") in
      let text := field_str delta "content" "" in
      if negb (String.eqb text "") then
        Some (named_event "content_block_delta"
          (obj [("type", Str "content_block_delta");
                ("delta", obj [("type", Str "text_delta"); ("text", Str text)])]))
      else
        let parts := match field_array delta "tool_calls" with
          | Some tcs =>
              omap (λ tc, match get2 tc "function" "arguments" with
                | Some (Str args) =>
                    Some (named_event "content_block_delta"
                      (obj [("type", Str "content_block_delta");
                            ("delta", obj [("type", Str "input_json_delta");
                                           ("partial_json", Str args)])]))
                | _ => None end) tcs
          | None => [] end in
        if nonempty parts then Some (joined parts)
        else
          match get choice "finish_reason" with
          | Some (Str _) =>
              let stop := named_event "message_stop" (obj [("type", Str "message_stop")]) in
              match get chunk "usage" with
              | Some usage =>
                  Some (named_event "message_delta"
                    (obj [("type", Str "message_delta");
                          ("usage", obj [("output_tokens", num (field_u64 usage "completion_tokens"))])])
                    +:+ stop)
              | None => Some stop
              end
          | _ => None
          end
  end.
End openai_to_anthropic.

(** *** Gemini *)

Definition gemini_content (msg : value) : option value :=
  let role := field_str msg "role" "user" in
  if String.eqb role "system" then None
  else Some (obj [("role", Str (if String.eqb role "assistant" then "model" else "user"));
                  ("parts", Array [obj [("text", Str (field_str msg "content" ""))]])]).

Definition system_part (msg : value) : option value :=
  match get msg "role" with
  | Some (Str r) =>
      if String.eqb r "system" then
        match get msg "content" with Some (Str s) => Some (obj [("text", Str s)]) | _ => None end
      else None
  | _ => None
  end.

Definition openai_to_gemini (body : value) : value :=
  let messages := field_array body "messages" in
  let config : gmap string value :=
    <["contents" := Array (omap gemini_content (default [] messages))]> ∅ in
  let config := match messages with
    | Some msgs =>
        let parts := omap system_part msgs in
        if nonempty parts then <["systemInstruction" := obj [("parts", Array parts)]]> config else config
    | None => config end in
  let gen : gmap string value := match get body "max_tokens" with
    | Some v => <["maxOutputTokens" := v]> ∅
    | None => renamed body "max_completion_tokens" "maxOutputTokens" ∅ end in
  let gen := renamed body "top_p" "topP" (renamed body "temperature" "temperature" gen) in
  let config := match get body "stream" with
    | Some (Bool b) => <["stream" := Bool b]> config | _ => config end in
  Object (if bool_decide (gen = ∅) then config else <["generationConfig" := Object gen]> config).

Definition gemini_finish (c : value) : string :=
  match get c "finishReason" with
  | Some (Str f) =>
      if String.eqb f "MAX_TOKENS" then "length"
      else if String.eqb f "SAFETY" then "content_filter"
      else "stop"
  | _ => "stop"
  end.

Definition gemini_text (c : value) : string :=
  match get2 c "content" "parts" with
  | Some (Array (part :: _)) => field_str part "text" ""
  | _ => ""
  end.

Definition gemini_to_openai (body : value) (model : string) (now_secs : Z) : value :=
  let choices := imap (λ i c,
    obj [("index", num (Z.of_nat i));
         ("message", obj [("role", Str "assistant"); ("content", Str (gemini_text c))]);
         ("finish_reason", Str (gemini_finish c))]) (default [] (field_array body "candidates")) in
  let usage := match get body "usageMetadata" with Some u => u | None => empty_object end in
  obj [("id", Str "gemini-resp"); ("object", Str "chat.completion"); ("created", num now_secs);
       ("model", Str model); ("choices", Array choices);
       ("usage", obj [("prompt_tokens", num (field_u64 usage "promptTokenCount"));
                      ("completion_tokens", num (field_u64 usage "candidatesTokenCount"));
                      ("total_tokens", num (field_u64 usage "totalTokenCount"))])].

Definition gemini_stream_to_openai (to_string : value → string) (chunk : value) (model : string)
    (now_secs : Z) : option string :=
  match field_array chunk "candidates" with
  | Some (candidate :: _) =>
      let text := gemini_text candidate in
      let finish := gemini_finish candidate in
      let is_done := negb (String.eqb finish "stop") || String.eqb text "" in
      let sse := obj [("id", Str "gemini-stream"); ("object", Str "chat.completion.chunk");
        ("created", num now_secs); ("model", Str model);
        ("choices", Array [obj [("index", num 0);
           ("delta", obj [("role", Str "assistant"); ("content", Str text)]);
           ("finish_reason", if is_done then Str finish else Null)]])] in
      Some (data_event to_string sse +:+ if is_done then "data: [DONE]" +:+ newline2 else "")
  | _ => None
  end.

(** *** The registry of translations *)

Section registry.
Context (to_string : value → string) (parse : string → option value).

Definition translate_request (body : value) (from to : RequestFormat) : value :=
  match from, to with
  | OpenAIChat, AnthropicMessages => openai_to_anthropic_request parse body
  | AnthropicMessages, OpenAIChat => anthropic_to_openai_request to_string body
  | _, _ => body
  end.

Definition translate_response (body : value) (from to : RequestFormat) (model simple : string)
    (now_secs : Z) : value :=
  match from, to with
  | AnthropicMessages, OpenAIChat => anthropic_to_openai_response to_string body model now_secs
  | OpenAIChat, AnthropicMessages => openai_to_anthropic_response parse body simple
  | _, _ => body
  end.

Definition translate_stream_chunk (chunk : value) (from to : RequestFormat) (model simple : string)
    (now_secs : Z) : option string :=
  match from, to with
  | AnthropicMessages, OpenAIChat =>
      anthropic_to_openai_stream_chunk to_string chunk model simple now_secs
  | OpenAIChat, AnthropicMessages => openai_to_anthropic_stream_chunk to_string chunk
  | _, _ => None
  end.
End registry.

End Translate.

(** *** What an OpenAI request says, and that Anthropic's format keeps it *)
Module TranslateFacts.
Import Json Translate.

(** A conversation in the OpenAI format, as the values it carries. *)
Record Call := mkCall { call_id : string; call_name : string; call_input : value }.
Inductive Turn :=
  | Said (role : string) (text : string)
  | Asked (text : string) (call : Call) (calls : list Call)
  | Answered (id output : string).
Record ToolDef := mkTool { tool_name : string; tool_description : string; parameters : value }.
Inductive Choice := AnyWay | Required | Forced (name : string).
Record Conversation := mkConversation {
  scalars : gmap string value;
  stop : option value;
  system : string;
  turns : list Turn;
  tools : list ToolDef;
  choice : option Choice;
}.

Section rendered.
Context (to_string : value → string) (parse : string → option value).

Definition render_call (c : Call) : value :=
  tool_call (call_id c) (call_name c) (to_string (call_input c)).
Definition said_text (t : string) : value := if String.eqb t "" then Null else Str t.
Definition render_turn (t : Turn) : value :=
  match t with
  | Said role text => obj [("role", Str role); ("content", Str text)]
  | Asked text c cs =>
      obj [("tool_calls", Array (render_call <$> c :: cs)); ("role", Str "assistant");
           ("content", said_text text)]
  | Answered id output =>
      obj [("role", Str "tool"); ("tool_call_id", Str id); ("content", Str output)]
  end.
Definition render_tool (t : ToolDef) : value :=
  obj [("type", Str "function");
       ("function", obj [("name", Str (tool_name t)); ("description", Str (tool_description t));
                         ("parameters", parameters t)])].
Definition render_choice (c : Choice) : value :=
  match c with
  | AnyWay => Str "auto"
  | Required => Str "required"
  | Forced name => obj [("type", Str "function"); ("function", obj [("name", Str name)])]
  end.
Definition opt_insert (k : string) (o : option value) (m : gmap string value) : gmap string value :=
  match o with Some v => <[k := v]> m | None => m end.
Definition render (c : Conversation) : value :=
  Object (opt_insert "tool_choice" (render_choice <$> choice c)
    (opt_insert "tools" (if nonempty (tools c) then Some (Array (render_tool <$> tools c)) else None)
      (<["messages" := Array ((if String.eqb (system c) "" then [] else
            [obj [("role", Str "system"); ("content", Str (system c))]])
          ++ (render_turn <$> turns c))]>
        (opt_insert "stop" (stop c) (pass_through (Object (scalars c)) scalar_keys ∅))))).

(** The roles the other two kinds of turn have are not spoken ones, and the
    arguments of a call are printed the way serde_json prints them. *)
Definition canonical_call (c : Call) : Prop :=
  parse (to_string (call_input c)) = Some (call_input c).
Definition canonical_turn (t : Turn) : Prop :=
  match t with
  | Said role _ => role ≠ "system" ∧ role ≠ "tool"
  | Asked _ c cs => Forall canonical_call (c :: cs)
  | Answered _ _ => True
  end.

Lemma eqb_false (a b : string) : a ≠ b → String.eqb a b = false.
Proof. apply String.eqb_neq. Qed.

Lemma tool_use_back c :
  canonical_call c →
  tool_use_block parse (render_call c) =
    obj [("type", Str "tool_use"); ("id", Str (call_id c)); ("name", Str (call_name c));
         ("input", call_input c)].
Proof.
  intros Hc. unfold tool_use_block, render_call, tool_call, field_str. read_obj.
  cbn [str_or as_str default from_option id]. read_obj.
  cbn [str_or as_str default from_option id]. by rewrite Hc.
Qed.

Definition use_block (c : Call) : value :=
  obj [("type", Str "tool_use"); ("id", Str (call_id c)); ("name", Str (call_name c));
       ("input", call_input c)].

Lemma tool_use_blocks cs :
  Forall canonical_call cs → (tool_use_block parse ∘ render_call) <$> cs = use_block <$> cs.
Proof.
  intros Hcs. apply list_fmap_ext. intros i c Hi.
  apply tool_use_back. by eapply Forall_lookup_1.
Qed.

Lemma add_use_block b c :
  add_block to_string b (use_block c) =
  mkBlocks (text_parts b) (content_parts b) (tool_calls b ++ [render_call c])
    (has_multimodal b) (tool_messages b).
Proof.
  unfold add_block, use_block, field_str. read_obj.
  cbn [str_or as_str default from_option id String.eqb Ascii.eqb Bool.eqb]. done.
Qed.

Lemma add_use_blocks cs b :
  foldl (add_block to_string) b (use_block <$> cs) =
  mkBlocks (text_parts b) (content_parts b) (tool_calls b ++ (render_call <$> cs))
    (has_multimodal b) (tool_messages b).
Proof.
  revert b. induction cs as [|c cs IH]; intros b; cbn [fmap list_fmap foldl].
  - rewrite app_nil_r. by destruct b.
  - rewrite add_use_block, IH. cbn [text_parts content_parts tool_calls has_multimodal tool_messages].
    by rewrite <- app_assoc.
Qed.

(** What a turn becomes in Anthropic's format. *)
Definition anthropic_turn (t : Turn) : value :=
  match t with
  | Said role text => obj [("role", Str role); ("content", Str text)]
  | Asked text c cs =>
      obj [("role", Str "assistant");
           ("content", Array ((if String.eqb text "" then [] else [text_block text])
                              ++ (use_block <$> c :: cs)))]
  | Answered id output =>
      obj [("role", Str "user");
           ("content", Array [obj [("type", Str "tool_result"); ("tool_use_id", Str id);
                                   ("content", Str output)]])]
  end.

Lemma blocks_of_text text :
  content_blocks (Some (said_text text)) = if String.eqb text "" then [] else [text_block text].
Proof. unfold said_text. destruct (String.eqb text "") eqn:E; cbn; by rewrite ?E. Qed.

Lemma anthropic_content_calls (blocks : list value) c cs :
  anthropic_content (blocks ++ (use_block <$> c :: cs)) =
  Array (blocks ++ (use_block <$> c :: cs)).
Proof.
  destruct blocks as [|b [|b' blocks]]; cbn [app fmap list_fmap anthropic_content]; try done.
  destruct cs; cbn [fmap list_fmap]; [|done].
  unfold use_block. by read_obj.
Qed.

Lemma turn_to_anthropic t out sys :
  canonical_turn t →
  message_to_anthropic parse (out, sys) (render_turn t) = (out ++ [anthropic_turn t], sys).
Proof.
  destruct t as [role text|text c cs|tid output]; cbn [canonical_turn]; intros Hc;
    unfold message_to_anthropic, render_turn, field_array, field_str; read_obj;
    cbn [str_or as_str as_array default from_option id].
  - destruct Hc as [Hs Ht]. rewrite (eqb_false _ _ Hs), (eqb_false _ _ Ht), app_nil_r.
    cbn [content_blocks]. destruct (String.eqb_spec text "") as [->|Hne]; [done|].
    unfold anthropic_content, text_block, field_str. by read_obj.
  - cbn [String.eqb Ascii.eqb Bool.eqb].
    rewrite blocks_of_text, <- list_fmap_compose, tool_use_blocks by done.
    by rewrite anthropic_content_calls.
  - done.
Qed.

Lemma add_text_block b text :
  add_block to_string b (text_block text) =
  mkBlocks (text_parts b ++ [text]) (content_parts b ++ [text_block text])
    (tool_calls b) (has_multimodal b) (tool_messages b).
Proof. unfold add_block, text_block, field_str. by read_obj. Qed.

Lemma joined_one s : joined [s] = s.
Proof. change (s +:+ "" = s). induction s as [|a s IH]; [done|].
  change (String a (s +:+ "") = String a s). by rewrite IH.
Qed.

Lemma turn_to_openai t :
  message_to_openai to_string (anthropic_turn t) = [render_turn t].
Proof.
  destruct t as [role text|text c cs|tid output];
    unfold message_to_openai, anthropic_turn, field_str; read_obj;
    cbn [str_or as_str default from_option id]; [done| |].
  - rewrite foldl_app, add_use_blocks. destruct (String.eqb_spec text "") as [->|Hne].
    + done.
    + cbn [foldl]. rewrite add_text_block.
      cbn [no_blocks text_parts content_parts tool_calls has_multimodal tool_messages app].
      unfold main_message. cbn [nonempty text_parts has_multimodal tool_calls fmap list_fmap negb
        orb andb render_turn app tool_messages].
      unfold said_text. rewrite joined_one, (eqb_false _ _ Hne). done.
  - cbn [foldl]. unfold add_block, field_str. read_obj.
    cbn [str_or as_str default from_option id String.eqb Ascii.eqb Bool.eqb].
    done.
Qed.

Lemma turns_to_anthropic ts out sys :
  Forall canonical_turn ts →
  foldl (message_to_anthropic parse) (out, sys) (render_turn <$> ts) =
    (out ++ (anthropic_turn <$> ts), sys).
Proof.
  intros Hts. revert out. induction Hts as [|t ts Ht Hts IH]; intros out.
  - by rewrite app_nil_r.
  - cbn [fmap list_fmap foldl]. rewrite turn_to_anthropic, IH by done.
    by rewrite <- app_assoc.
Qed.

Lemma turns_to_openai ts :
  concat (message_to_openai to_string <$> (anthropic_turn <$> ts)) = render_turn <$> ts.
Proof.
  induction ts as [|t ts IH]; [done|].
  cbn [fmap list_fmap concat]. by rewrite turn_to_openai, IH.
Qed.

Lemma tool_back t : tool_to_anthropic (render_tool t) =
  Some (obj [("name", Str (tool_name t)); ("description", Str (tool_description t));
             ("input_schema", parameters t)]).
Proof.
  unfold tool_to_anthropic, render_tool, field_str. read_obj.
  cbn [str_or as_str default from_option id String.eqb Ascii.eqb Bool.eqb]. by read_obj.
Qed.

Lemma tools_back (ts : list ToolDef) :
  tool_to_openai <$> omap tool_to_anthropic (render_tool <$> ts) = render_tool <$> ts.
Proof.
  induction ts as [|t ts IH]; [done|].
  cbn [fmap list_fmap omap list_omap]. rewrite tool_back. cbn [fmap list_fmap].
  assert (∀ v (l l' : list value), l = l' → v :: l = v :: l') as Hcons by congruence.
  unfold tool_to_openai at 1. unfold field_str. read_obj. by apply Hcons.
Qed.

Lemma choice_of_obj fields :
  tool_choice_to_anthropic (obj fields) =
    if String.eqb (field_str (obj fields) "type" "auto") "function"
    then obj [("type", Str "tool"); ("name", Str (str_or (get2 (obj fields) "function" "name") ""))]
    else obj [("type", Str "auto")].
Proof. done. Qed.

Lemma choice_back c :
  tool_choice_to_openai (tool_choice_to_anthropic (render_choice c)) = render_choice c.
Proof.
  destruct c as [| |name]; [done..|].
  unfold render_choice. rewrite choice_of_obj. unfold field_str, get2. read_obj.
  cbn [str_or as_str default from_option id String.eqb Ascii.eqb Bool.eqb]. read_obj.
  cbn [str_or as_str default from_option id]. unfold tool_choice_to_openai, field_str. by read_obj.
Qed.

Lemma tools_nonempty (ts : list ToolDef) :
  nonempty (omap tool_to_anthropic (render_tool <$> ts)) = nonempty ts.
Proof. destruct ts as [|t ts]; [done|]. cbn [fmap list_fmap omap list_omap]. by rewrite tool_back. Qed.

Lemma pass_through_lookup body keys m k :
  pass_through body keys m !! k =
    if decide (k ∈ keys)
    then match get body k with Some v => Some v | None => m !! k end
    else m !! k.
Proof.
  revert m. induction keys as [|k' keys IH]; intros m; cbn [pass_through foldl].
  - rewrite decide_False by apply not_elem_of_nil. done.
  - change (foldl _ ?m0 keys) with (pass_through body keys m0). rewrite IH.
    destruct (decide (k = k')) as [<-|Hne].
    + rewrite (decide_True (P := k ∈ k :: keys)) by set_solver.
      destruct (get body k) as [v|] eqn:E; [|by case_decide].
      rewrite lookup_insert_eq. by case_decide.
    + assert (match get body k' with Some v => <[k' := v]> m | None => m end !! k = m !! k) as ->.
      { destruct (get body k'); [by rewrite lookup_insert_ne|done]. }
      destruct (decide (k ∈ keys)).
      * by rewrite (decide_True (P := k ∈ k' :: keys)) by set_solver.
      * by rewrite (decide_False (P := k ∈ k' :: keys)) by set_solver.
Qed.

Lemma opt_insert_lookup k o m k' :
  opt_insert k o m !! k' =
    if decide (k = k') then match o with Some v => Some v | None => m !! k' end else m !! k'.
Proof.
  destruct o as [v|]; cbn [opt_insert]; case_decide; subst; try done.
  - apply lookup_insert_eq.
  - by apply lookup_insert_ne.
Qed.

Lemma pass_through_ext a b keys m :
  (∀ k, k ∈ keys → get a k = get b k) → pass_through a keys m = pass_through b keys m.
Proof.
  intros Hab. apply map_eq. intros k. rewrite !pass_through_lookup.
  case_decide as Hk; [|done]. by rewrite Hab.
Qed.

Lemma pass_through_other body keys k : k ∉ keys → pass_through body keys ∅ !! k = None.
Proof. intros Hk. by rewrite pass_through_lookup, decide_False by done. Qed.

(** The request in Anthropic's format. *)
Definition anthropic_tools (c : Conversation) : option value :=
  if nonempty (tools c)
  then Some (Array (omap tool_to_anthropic (render_tool <$> tools c))) else None.
Definition anthropic_system (c : Conversation) : option value :=
  if String.eqb (system c) "" then None else Some (Str (system c)).
Definition anthropic_body (c : Conversation) : value :=
  Object (opt_insert "tool_choice" ((λ x, tool_choice_to_anthropic (render_choice x)) <$> choice c)
    (opt_insert "tools" (anthropic_tools c)
      (<["messages" := Array (anthropic_turn <$> turns c)]>
        (opt_insert "system" (anthropic_system c)
          (opt_insert "stop_sequences" (stop c)
            (pass_through (Object (scalars c)) scalar_keys ∅)))))).

Lemma opt_insert_eq k o m : m !! k = None → opt_insert k o m !! k = o.
Proof. intros Hm. rewrite opt_insert_lookup, decide_True by done. by destruct o. Qed.
Lemma opt_insert_ne k o m k' : k ≠ k' → opt_insert k o m !! k' = m !! k'.
Proof. intros Hk. by rewrite opt_insert_lookup, decide_False. Qed.

(** Reads a closed key through the insertions of a body. *)
Ltac read_body :=
  repeat first
    [ rewrite opt_insert_ne by done
    | rewrite lookup_insert_ne by done
    | rewrite lookup_insert_eq
    | rewrite pass_through_other by (unfold scalar_keys; set_solver)
    | rewrite opt_insert_eq ]; try done.

Lemma render_scalar c k : k ∈ scalar_keys → get (render c) k = get (Object (scalars c)) k.
Proof.
  intros Hk. unfold render, get at 1. rewrite !opt_insert_lookup.
  rewrite !decide_False by (intros <-; revert Hk; set_solver).
  rewrite lookup_insert_ne by (intros <-; revert Hk; set_solver).
  rewrite opt_insert_lookup, decide_False by (intros <-; revert Hk; set_solver).
  rewrite pass_through_lookup, decide_True by done.
  by destruct (get _ k).
Qed.

Lemma render_stop c : get (render c) "stop" = stop c.
Proof. unfold render, get. read_body. Qed.
Lemma render_messages c : get (render c) "messages" = Some (Array ((if String.eqb (system c) ""
    then [] else [obj [("role", Str "system"); ("content", Str (system c))]])
  ++ (render_turn <$> turns c))).
Proof. unfold render, get. read_body. Qed.
Lemma render_tools c : get (render c) "tools" =
  if nonempty (tools c) then Some (Array (render_tool <$> tools c)) else None.
Proof. unfold render, get. read_body. Qed.
Lemma render_tool_choice c : get (render c) "tool_choice" = render_choice <$> choice c.
Proof. unfold render, get. read_body. Qed.

Lemma anthropic_scalar c k : k ∈ scalar_keys → get (anthropic_body c) k = get (Object (scalars c)) k.
Proof.
  intros Hk. unfold anthropic_body, get at 1.
  repeat (rewrite opt_insert_ne || rewrite lookup_insert_ne); try (intros <-; revert Hk; set_solver).
  rewrite pass_through_lookup, decide_True by done.
  by destruct (get _ k).
Qed.
Lemma anthropic_stop c : get (anthropic_body c) "stop_sequences" = stop c.
Proof. unfold anthropic_body, get. read_body. Qed.
Lemma anthropic_messages c :
  get (anthropic_body c) "messages" = Some (Array (anthropic_turn <$> turns c)).
Proof. unfold anthropic_body, get. read_body. Qed.
Lemma anthropic_system_field c : get (anthropic_body c) "system" = anthropic_system c.
Proof. unfold anthropic_body, get. read_body. Qed.
Lemma anthropic_tools_field c : get (anthropic_body c) "tools" = anthropic_tools c.
Proof. unfold anthropic_body, get. read_body. Qed.
Lemma anthropic_choice c : get (anthropic_body c) "tool_choice" =
  (λ x, tool_choice_to_anthropic (render_choice x)) <$> choice c.
Proof. unfold anthropic_body, get. read_body. Qed.

Lemma to_anthropic c :
  Forall canonical_turn (turns c) →
  openai_to_anthropic_request parse (render c) = anthropic_body c.
Proof.
  intros Hts. unfold openai_to_anthropic_request, renamed, field_array.
  rewrite render_stop, render_messages, render_tools, render_tool_choice.
  rewrite (pass_through_ext _ _ _ _ (render_scalar c)).
  cbn [as_array default from_option id].
  assert (foldl (message_to_anthropic parse) ([], "")
    ((if String.eqb (system c) "" then []
      else [obj [("role", Str "system"); ("content", Str (system c))]]) ++ (render_turn <$> turns c))
    = (anthropic_turn <$> turns c, system c)) as ->.
  { destruct (String.eqb_spec (system c) "") as [->|Hne]; cbn [app].
    - by rewrite turns_to_anthropic.
    - cbn [foldl]. unfold message_to_anthropic at 2. unfold field_str. read_obj.
      cbn [str_or as_str default from_option id String.eqb Ascii.eqb Bool.eqb].
      by rewrite turns_to_anthropic. }
  unfold anthropic_body, anthropic_tools, anthropic_system. f_equal.
  destruct (choice c), (nonempty (tools c)) eqn:Et, (String.eqb (system c) ""), (stop c);
    cbn [opt_insert fmap option_fmap option_map as_array]; rewrite ?tools_nonempty, ?Et; done.
Qed.

Lemma to_openai c : anthropic_to_openai_request to_string (anthropic_body c) = render c.
Proof.
  unfold anthropic_to_openai_request, renamed, field_array.
  rewrite anthropic_stop, anthropic_messages, anthropic_tools_field, anthropic_choice,
    anthropic_system_field.
  rewrite (pass_through_ext _ _ _ _ (anthropic_scalar c)).
  cbn [as_array]. rewrite turns_to_openai.
  unfold render, anthropic_tools, anthropic_system.
  destruct (choice c), (nonempty (tools c)) eqn:Et, (String.eqb (system c) "") eqn:Es, (stop c);
    cbn [opt_insert fmap option_fmap option_map as_array system_text_of app]; rewrite ?Es;
    rewrite ?tools_back, ?choice_back; done.
Qed.
End rendered.
End TranslateFacts.

Module TranslateProps.
Import Json Translate TranslateFacts.

(** C10. A conversation survives the translation of its request from OpenAI's chat format
    to Anthropic's and back: the request is the same again.  A conversation is what the
    two formats can both say: the parameters of [scalar_keys] and the stop sequences; one
    system text, which comes first, if any; turns of text, of an assistant's text with
    calls of tools, whose arguments are printed as serde_json prints the value they parse
    to, and of a tool's text; tools with name, description and parameters; and the choice
    of tool "auto", "required" or one function.  (A request that says more -- images, other
    parameters, the choice "none" ([tool_choice_none_lost]) -- is not covered.) *)
Theorem openai_request_roundtrip (to_string : value → string) (parse : string → option value)
    (c : Conversation) :
  Forall (canonical_turn to_string parse) (turns c) →
  anthropic_to_openai_request to_string
    (openai_to_anthropic_request parse (render to_string c)) = render to_string c.
Proof. intros Hc. rewrite to_anthropic by done. by apply to_openai. Qed.

(** A printer and a parser for the values the example uses. *)
Definition print_small (v : value) : string :=
  match v with Object _ => "{}" | Bool true => "true" | Bool false => "false" | _ => "null" end.
Definition parse_small (s : string) : option value :=
  if String.eqb s "{}" then Some empty_object
  else if String.eqb s "true" then Some (Bool true)
  else if String.eqb s "false" then Some (Bool false)
  else if String.eqb s "null" then Some Null else None.

Definition weather : Conversation := mkConversation
  {["model" := Str "claude-sonnet"; "max_tokens" := num 64]}
  (Some (Array [Str "END"])) "Be brief."
  [Said "user" "Is it raining?"; Asked "Let me look." (mkCall "c1" "rain" empty_object)
     [mkCall "c2" "wind" (Bool true)]; Answered "c1" "yes"; Answered "c2" "no";
   Said "assistant" "It is."]
  [mkTool "rain" "tells whether it rains" empty_object;
   mkTool "wind" "tells whether it is windy" empty_object]
  (Some (Forced "rain")).

Lemma openai_request_roundtrip_witness :
  Forall (canonical_turn print_small parse_small) (turns weather) ∧
  anthropic_to_openai_request print_small
    (openai_to_anthropic_request parse_small (render print_small weather))
  = render print_small weather.
Proof.
  assert (Forall (canonical_turn print_small parse_small) (turns weather)) as Hc.
  { repeat first [apply List.Forall_cons | apply List.Forall_nil | split | exact I | done]. }
  split; [exact Hc|]. by apply openai_request_roundtrip.
Defined.

(** What does not survive: the choice not to call a tool becomes automatic. *)
Example tool_choice_none_lost :
  tool_choice_to_openai (tool_choice_to_anthropic (Str "none")) = Str "auto".
Proof. reflexivity. Qed.

(** A tool result given as content blocks reaches the OpenAI side empty. *)
Lemma tool_result_blocks_dropped (to_string : value → string) (id : string) (blocks : list value) :
  message_to_openai to_string
    (obj [("role", Str "user");
          ("content", Array [obj [("type", Str "tool_result"); ("tool_use_id", Str id);
                                  ("content", Array blocks)]])])
  = [obj [("role", Str "tool"); ("tool_call_id", Str id); ("content", Str "")]].
Proof. reflexivity. Qed.
End TranslateProps.
