(* ===== verification/Provider.v ===== *)
(** The provider adaptors and the wire (proxy/provider.rs, proxy/stream.rs,
    the headers of proxy/mod.rs and the classifiers of proxy/attempt.rs): the
    URL and the authentication of an upstream request, the check of a model
    name put in a URL, the translation of server-sent events line by line, the
    bytes a stream delivers, and how an upstream error is recognised. *)

From S2P Require Import Prelude Json Channel Translate.

(** ** UTF-8 (std::str::from_utf8 and String::from_utf8_lossy) *)
Module Utf8.

(** Continuation bytes still wanted after the bytes [seen]; the next one is
    in [lo..hi]. *)
Inductive pending :=
  | Ready
  | More (seen : string) (want : nat) (lo hi : Z).

Definition replacement : string :=
  String "239"%char (String "191"%char (String "189"%char EmptyString)).
Definition byte (c : ascii) : Z := Z.of_N (N_of_ascii c).
Definition one (c : ascii) : string := String c EmptyString.

(** A byte at the beginning of a character: text to emit, whether it is
    valid, what is pending. *)
Definition lead (c : ascii) : string * bool * pending :=
  let b := byte c in
  let more n lo hi := ("", true, More (one c) n lo hi) in
  if b <? 128 then (one c, true, Ready)
  else if b <? 194 then (replacement, false, Ready)
  else if b <? 224 then more 1%nat 128 191
  else if b =? 224 then more 2%nat 160 191
  else if b =? 237 then more 2%nat 128 159
  else if b <? 240 then more 2%nat 128 191
  else if b =? 240 then more 3%nat 144 191
  else if b <? 244 then more 3%nat 128 191
  else if b =? 244 then more 3%nat 128 143
  else (replacement, false, Ready).

Definition next (p : pending) (c : ascii) : string * bool * pending :=
  match p with
  | Ready => lead c
  | More seen want lo hi =>
      if (lo <=? byte c) && (byte c <=? hi) then
        match want with
        | S (S n) => ("", true, More (seen +:+ one c) (S n) 128 191)
        | _ => (seen +:+ one c, true, Ready)
        end
      else let '(t, _, p') := lead c in (replacement +:+ t, false, p')
  end.

(** The text, and whether all bytes were valid. *)
Fixpoint decode (p : pending) (bytes : string) : string * bool :=
  match bytes with
  | EmptyString => match p with Ready => ("", true) | More _ _ _ _ => (replacement, false) end
  | String c rest =>
      let '(t, ok, p') := next p c in
      let '(text, oks) := decode p' rest in
      (t +:+ text, ok && oks)
  end.

Definition from_utf8 (bytes : string) : option string :=
  if (decode Ready bytes).2 then Some bytes else None.
Definition from_utf8_lossy (bytes : string) : string := (decode Ready bytes).1.

End Utf8.

Module Provider.
Import Json Translate.

(** ** Model names in a URL *)

Definition ascii_alphanumeric (c : ascii) : bool :=
  let b := Utf8.byte c in
  ((48 <=? b) && (b <=? 57)) || ((65 <=? b) && (b <=? 90)) || ((97 <=? b) && (b <=? 122)).
Definition url_punctuation (c : ascii) : bool :=
  bool_decide (c ∈ ["-"; "."; "_"; ":"]%char).

Section sanitize.
(** [char::is_alphanumeric] for a character of more than one byte. *)
Context (alphanumeric : string → bool).

Definition flush_char (open : string) : string :=
  match open with EmptyString => "" | _ => if alphanumeric open then open else "" end.

(** [.chars().filter(..).collect()]; [open] is the beginning of a character
    of several bytes. *)
Fixpoint keep_safe (open s : string) : string :=
  match s with
  | EmptyString => flush_char open
  | String c rest =>
      let b := Utf8.byte c in
      if b <? 128 then
        flush_char open +:+
        (if ascii_alphanumeric c || url_punctuation c then Utf8.one c else "") +:+
        keep_safe "" rest
      else if b <? 192 then keep_safe (open +:+ Utf8.one c) rest
      else flush_char open +:+ keep_safe (Utf8.one c) rest
  end.

(** [s.replace("..", ".")] *)
Fixpoint replace_dots (s : string) : string :=
  match s with
  | String "." (String "." rest) => String "." (replace_dots rest)
  | String c rest => String c (replace_dots rest)
  | EmptyString => EmptyString
  end.

Fixpoint collapse_dots (fuel : nat) (s : string) : string :=
  match fuel with
  | O => s
  | S f => if contains s ".." then collapse_dots f (replace_dots s) else s
  end.

Fixpoint trim_start_dots (s : string) : string :=
  match s with String "." rest => trim_start_dots rest | _ => s end.
Fixpoint trim_end_dots (s : string) : string :=
  match s with
  | String c rest =>
      let r := trim_end_dots rest in
      if ascii_dec c "." then (if String.eqb r "" then EmptyString else String c r)
      else String c r
  | EmptyString => EmptyString
  end.
Definition trim_dots (s : string) : string := trim_end_dots (trim_start_dots s).

Definition sanitize_model_for_url (model : string) : string :=
  let kept := keep_safe "" model in
  let sanitized := trim_dots (collapse_dots (String.length kept) kept) in
  if String.eqb sanitized "" then "unknown" else sanitized.
End sanitize.

(** ** The adaptors *)

(** The trait [ProviderAdaptor].  [apply_auth] gives the headers it adds. *)
Record ProviderAdaptor := mkAdaptor {
  default_model : string;
  provider_request_format : RequestFormat;
  build_url : string → string → bool → string;
  apply_auth : string → bool → list (string * string);
  inject_stream_usage : bool;
  is_gemini_stream : bool;
  transform_request : value → value;
  transform_response : value → string → Z → value;
  needs_response_transform : bool;
}.

Definition auth_headers (native : string → list (string * string)) (api_key : string)
    (is_web_session : bool) : list (string * string) :=
  (if is_web_session then [("Cookie", api_key)] else native api_key)
  ++ [("Content-Type", "application/json")].

Definition OpenAIAdaptor : ProviderAdaptor :=
  mkAdaptor "gpt-3.5-turbo" OpenAIChat
    (λ base_url _ _, trim_end_slashes base_url +:+ "/" +:+ "v1/chat/completions")
    (auth_headers (λ key, [("Authorization", "Bearer " +:+ key)]))
    true false (λ body, body) (λ body _ _, body) false.

Definition AnthropicAdaptor : ProviderAdaptor :=
  mkAdaptor "claude-3-5-sonnet-20241022" AnthropicMessages
    (λ base_url _ _, trim_end_slashes base_url +:+ "/" +:+ "v1/messages")
    (auth_headers (λ key, [("x-api-key", key); ("anthropic-version", "2023-06-01")]))
    false false (λ body, body) (λ body _ _, body) false.

Definition GeminiAdaptor (alphanumeric : string → bool) : ProviderAdaptor :=
  mkAdaptor "gemini-pro" Gemini
    (λ base_url upstream_model is_stream,
       trim_end_slashes base_url +:+ "/v1beta/models/"
       +:+ sanitize_model_for_url alphanumeric upstream_model
       +:+ (if is_stream then ":streamGenerateContent?alt=sse" else ":generateContent"))
    (auth_headers (λ key, [("x-goog-api-key", key)]))
    false true openai_to_gemini gemini_to_openai true.

(** ** Headers *)

Definition SKIP_HEADERS : list string :=
  ["host"; "connection"; "keep-alive"; "proxy-authenticate"; "proxy-authorization"; "te";
   "trailers"; "transfer-encoding"; "upgrade"; "content-length"; "authorization"; "x-api-key";
   "anthropic-version"; "content-type"].
Definition CUSTOM_HEADER_DENYLIST : list string :=
  ["host"; "transfer-encoding"; "content-length"; "connection"; "x-forwarded-for";
   "x-forwarded-host"; "x-forwarded-proto"; "authorization"; "x-api-key"; "cookie"; "forwarded"].

(** The headers of the request to the upstream, in the order they are added:
    the client's, the provider's authentication, the channel's own ([custom],
    in iteration order) and the one for streams.  Names of received headers
    are in lower case; [valid] is what the http crate accepts. *)
Definition upstream_headers (valid : string → string → bool) (original : list (string * string))
    (auth custom : list (string * string)) (is_stream : bool) : list (string * string) :=
  List.filter (λ h, negb (bool_decide (h.1 ∈ SKIP_HEADERS))) original
  ++ auth
  ++ List.filter (λ h, negb (bool_decide (to_lowercase h.1 ∈ CUSTOM_HEADER_DENYLIST))
                       && valid h.1 h.2) custom
  ++ (if is_stream then [("Accept", "text/event-stream")] else []).

(** ** Server-sent events *)

Definition newline : string := String "010"%char EmptyString.

Section events.
Context (parse : string → option value).

(** One line of [translate_sse_lines]. *)
Definition translate_sse_line (translate_chunk : string → value → option string) (line : string)
    : string :=
  let trimmed := trim line in
  if String.eqb trimmed "" || starts_with trimmed ":" then line +:+ newline
  else
    let json_str := default trimmed (strip_prefix "data: " trimmed) in
    if String.eqb json_str "[DONE]" then "data: [DONE]" +:+ newline2
    else if starts_with json_str "event: " then ""
    else match parse json_str with
         | Some v => default "" (translate_chunk line v)
         | None => line +:+ newline
         end.

(** [translate_chunk] also gets the number of the line. *)
Definition translate_sse_lines (text : string)
    (translate_chunk : nat → string → value → option string) : string :=
  joined (imap (λ i line, translate_sse_line (translate_chunk i) line) (split_on "010"%char text)).
End events.

(** What arrives on the byte stream: data with the random identifiers and the
    time used for its lines, an error, or a read that times out. *)
Inductive chunk :=
  | Data (bytes : string) (stamp : nat → string * Z)
  | StreamError
  | Stall.

Section stream.
Context (to_string : value → string) (parse : string → option value).

Definition translate_gemini_sse_chunk (bytes model : string) (stamp : nat → string * Z) : string :=
  translate_sse_lines parse (Utf8.from_utf8_lossy bytes) (λ i line v,
    Some (default (line +:+ newline2)
            (gemini_stream_to_openai to_string v model (stamp i).2))).

Definition translate_protocol_sse_chunk (bytes model : string) (from to : RequestFormat)
    (stamp : nat → string * Z) : string :=
  translate_sse_lines parse (Utf8.from_utf8_lossy bytes) (λ i _ v,
    translate_stream_chunk to_string v from to model (stamp i).1 (stamp i).2).

(** The bytes delivered for one chunk. *)
Definition deliver (protocol : option (RequestFormat * RequestFormat)) (gemini : bool)
    (model bytes : string) (stamp : nat → string * Z) : string :=
  match protocol with
  | Some (from, to) => translate_protocol_sse_chunk bytes model from to stamp
  | None => if gemini then translate_gemini_sse_chunk bytes model stamp else bytes
  end.

Definition MAX_OUTPUT_BUFFER_BYTES : Z := 512 * 1024.
Definition accumulate (buf bytes : string) : string :=
  let b := buf +:+ bytes in
  let n := String.length b in
  if MAX_OUTPUT_BUFFER_BYTES <? Z.of_nat n
  then let keep_from := Nat.div n 2 in String.substring keep_from (n - keep_from) b
  else b.

(** The client has disconnected: the stream is drained past errors, to its
    end or to a stall. *)
Fixpoint drain_stream (out : string → (nat → string * Z) → string) (buf : string)
    (chunks : list chunk) : string :=
  match chunks with
  | Data bytes stamp :: rest => drain_stream out (accumulate buf (out bytes stamp)) rest
  | StreamError :: rest => drain_stream out buf rest
  | Stall :: _ | [] => buf
  end.

(** The loop of the stream task: the output buffer when it ends.  [connected]
    is the number of chunks the client receives before it disconnects. *)
Fixpoint forward_stream (out : string → (nat → string * Z) → string) (connected : option nat)
    (buf : string) (chunks : list chunk) : string :=
  match chunks with
  | Data bytes stamp :: rest =>
      let buf := accumulate buf (out bytes stamp) in
      match connected with
      | Some O => drain_stream out buf rest
      | Some (S n) => forward_stream out (Some n) buf rest
      | None => forward_stream out None buf rest
      end
  | StreamError :: _ | Stall :: _ | [] => buf
  end.
End stream.

(** ** Recognising errors *)

Definition quoted (s : string) : string := String "034"%char (s +:+ String "034"%char EmptyString).

Definition is_stream_error_chunk (c : string) : bool :=
  if contains c "event: error" then true
  else if contains c (quoted "type" +:+ ":" +:+ quoted "error")
          || contains c (quoted "type" +:+ ": " +:+ quoted "error") then true
  else contains c (quoted "error") && negb (contains c (quoted "choices")).

Definition is_context_window_error (status : Z) (body : string) : bool :=
  if negb (status =? 400) && negb (status =? 413) then false
  else
    let body_lower := to_lowercase body in
    contains body_lower "maximum context length"
    || contains body_lower "context_length_exceeded"
    || contains body_lower "context length exceeded"
    || contains body_lower "reduce the length of the messages"
    || contains body_lower "prompt is too long"
    || (contains body_lower "context window"
        && (contains body_lower "exceed" || contains body_lower "limit")).

End Provider.

Module ProviderFacts.
Import Provider.

Lemma app_cons_str a (s t : string) : String a s +:+ t = String a (s +:+ t).
Proof. done. Qed.

(** All bytes of a string. *)
Fixpoint all_bytes (P : ascii → bool) (s : string) : bool :=
  match s with EmptyString => true | String c r => P c && all_bytes P r end.

Lemma all_bytes_app P s t : all_bytes P (s +:+ t) = all_bytes P s && all_bytes P t.
Proof.
  induction s as [|a s IH]; [done|]. rewrite app_cons_str. cbn. rewrite IH. by destruct (P a).
Qed.

Definition url_safe (c : ascii) : bool :=
  (128 <=? Utf8.byte c) || ascii_alphanumeric c || url_punctuation c.

Lemma keep_safe_safe alnum s : ∀ open,
  all_bytes (λ c, 128 <=? Utf8.byte c) open = true →
  all_bytes url_safe (keep_safe alnum open s) = true.
Proof.
  assert (∀ open, all_bytes (λ c, 128 <=? Utf8.byte c) open = true → all_bytes url_safe open = true)
    as Hhigh.
  { induction open as [|c open IH]; [done|]. cbn. unfold url_safe at 1.
    intros [-> ?]%andb_prop. by rewrite IH. }
  assert (∀ open, all_bytes (λ c, 128 <=? Utf8.byte c) open = true →
            all_bytes url_safe (flush_char alnum open) = true) as Hflush.
  { intros open Ho. unfold flush_char. destruct open as [|c open]; [done|].
    destruct (alnum _); [by apply Hhigh|done]. }
  induction s as [|c s IH]; intros open Ho; cbn [keep_safe]; [by apply Hflush|].
  destruct (Z.ltb_spec (Utf8.byte c) 128).
  - rewrite !all_bytes_app, Hflush, (IH "") by done.
    destruct (ascii_alphanumeric c || url_punctuation c) eqn:E; [|done].
    cbn. unfold url_safe. rewrite <- orb_assoc, E. by rewrite orb_true_r.
  - assert ((128 <=? Utf8.byte c) = true) as Hc by lia. destruct (_ <? _).
    + apply IH. rewrite all_bytes_app, Ho. cbn. by rewrite Hc.
    + rewrite all_bytes_app, Hflush, IH by (cbn; rewrite ?Hc; done). done.
Qed.

Lemma replace_dots_cons c s :
  replace_dots (String c s) =
    if ascii_dec c "." then
      match s with
      | String d r => if ascii_dec d "." then String "." (replace_dots r)
                      else String c (replace_dots s)
      | EmptyString => String c EmptyString
      end
    else String c (replace_dots s).
Proof.
  destruct (ascii_dec c ".") as [->|Hc].
  - destruct s as [|d s]; [done|]. destruct (ascii_dec d ".") as [->|Hd]; [done|].
    destruct d as [[] [] [] [] [] [] [] []]; done.
  - destruct c as [[] [] [] [] [] [] [] []]; done.
Qed.

(** Induction that may take two characters at once. *)
Lemma string_ind2 (P : string → Prop) :
  P "" → (∀ c, P (String c "")) → (∀ c d s, P s → P (String d s) → P (String c (String d s))) →
  ∀ s, P s.
Proof.
  intros H0 H1 H2 s. enough (P s ∧ ∀ c, P (String c s)) as [? _] by done.
  induction s as [|d s [IH1 IH2]]; [by auto|]. split; [apply IH2|]. auto.
Qed.

Lemma replace_dots_bytes P s : all_bytes P s = true → all_bytes P (replace_dots s) = true.
Proof.
  induction s as [|c|c d s IH1 IH2] using string_ind2; [done| |].
  - rewrite replace_dots_cons. by destruct (ascii_dec c ".").
  - rewrite replace_dots_cons. cbn [all_bytes]. intros [Hc [Hd Hs]%andb_prop]%andb_prop.
    destruct (ascii_dec c "."); [destruct (ascii_dec d ".")|]; subst; cbn [all_bytes].
    + by rewrite Hc, IH1.
    + rewrite Hc. apply IH2. cbn. by rewrite Hd.
    + rewrite Hc. apply IH2. cbn. by rewrite Hd.
Qed.

Lemma replace_dots_length s :
  (String.length (replace_dots s) ≤ String.length s)%nat ∧
  (contains s ".." = true → (String.length (replace_dots s) < String.length s)%nat).
Proof.
  induction s as [|c|c d s [A1 A2] [B1 B2]] using string_ind2; [done| |].
  - rewrite replace_dots_cons. destruct (ascii_dec c "."); (split; [cbn; lia|]);
      by destruct c as [[] [] [] [] [] [] [] []].
  - rewrite replace_dots_cons. destruct (ascii_dec c ".") as [->|Hc].
    + destruct (ascii_dec d ".") as [->|Hd]; cbn [String.length] in *; [lia|].
      split; [lia|]. intros H. assert (contains (String d s) ".." = true); [|lia..].
      by destruct d as [[] [] [] [] [] [] [] []].
    + cbn [String.length] in *. split; [lia|]. intros H.
      assert (contains (String d s) ".." = true); [|lia..].
      by destruct c as [[] [] [] [] [] [] [] []].
Qed.

Lemma collapse_dots_spec fuel : ∀ s,
  (String.length s ≤ fuel)%nat → contains (collapse_dots fuel s) ".." = false.
Proof.
  induction fuel as [|fuel IH]; intros s Hs; cbn [collapse_dots].
  - by destruct s; [|cbn in Hs; lia].
  - destruct (contains s "..") eqn:E; [|done]. apply IH.
    pose proof (proj2 (replace_dots_length s) E). lia.
Qed.

Lemma collapse_dots_bytes P fuel : ∀ s,
  all_bytes P s = true → all_bytes P (collapse_dots fuel s) = true.
Proof.
  induction fuel as [|fuel IH]; intros s Hs; cbn [collapse_dots]; [done|].
  destruct (contains s ".."); [by apply IH, replace_dots_bytes|done].
Qed.

Lemma trim_start_dots_spec s :
  (∃ u, s = u +:+ trim_start_dots s) ∧ (∀ r, trim_start_dots s ≠ String "." r).
Proof.
  induction s as [|c s [[u Hu] IH]]; [split; [by exists ""|done]|].
  destruct (ascii_dec c ".") as [->|Hc].
  - change (trim_start_dots (String "." s)) with (trim_start_dots s).
    split; [exists (String "." u); rewrite app_cons_str; by f_equal|done].
  - assert (trim_start_dots (String c s) = String c s) as ->
      by (by destruct c as [[] [] [] [] [] [] [] []]).
    split; [by exists ""|]. by intros r [= -> _].
Qed.

Lemma trim_end_dots_spec s :
  (∃ v, s = trim_end_dots s +:+ v) ∧ (∀ r, trim_end_dots s ≠ r +:+ ".").
Proof.
  induction s as [|c s [[v Hv] IH]]; cbn [trim_end_dots].
  - split; [by exists ""|]. by intros [|].
  - destruct (ascii_dec c ".") as [->|Hc].
    + destruct (String.eqb_spec (trim_end_dots s) "") as [E|E].
      * split; [by exists (String "." s)|]. by intros [|].
      * split; [exists v; rewrite app_cons_str; by f_equal|].
        intros [|a r]; [by intros [= ?]|]. rewrite app_cons_str. intros [= _ H]. by apply (IH r).
    + split; [exists v; rewrite app_cons_str; by f_equal|].
      intros [|a r]; [by intros [= -> _]|]. rewrite app_cons_str. intros [= _ H]. by apply (IH r).
Qed.

Lemma contains_sub u s v p : contains (u +:+ s +:+ v) p = false → contains s p = false.
Proof.
  intros H. apply not_true_iff_false in H. apply not_true_iff_false. intros Hs. apply H.
  apply contains_spec in Hs as (a&b&->). apply contains_spec.
  exists (u +:+ a), (b +:+ v). by rewrite !app_assoc_string.
Qed.

Lemma trim_dots_sub s : ∃ u v, s = u +:+ trim_dots s +:+ v.
Proof.
  unfold trim_dots. destruct (trim_start_dots_spec s) as [[u Hu] _].
  destruct (trim_end_dots_spec (trim_start_dots s)) as [[v Hv] _].
  exists u, v. by rewrite <- Hv.
Qed.

Lemma trim_dots_edges s :
  (∀ r, trim_dots s ≠ String "." r) ∧ (∀ r, trim_dots s ≠ r +:+ ".").
Proof.
  unfold trim_dots. destruct (trim_start_dots_spec s) as [_ H1].
  destruct (trim_end_dots_spec (trim_start_dots s)) as [[v Hv] H2]. split; [|done].
  intros r Hr. rewrite Hr in Hv. by apply (H1 (r +:+ v)).
Qed.
End ProviderFacts.

Module ProviderProps.
Import Provider ProviderFacts.

(** C34. The model name put in an upstream URL cannot leave its place in the
    path: it is not empty, contains no two dots in a row, neither begins nor
    ends with a dot, and all its ASCII characters are letters, digits or one of
    - . _ and colon, whatever name the client sends; and the loop that
    collapses dots terminates within as many rounds as the name has bytes. *)
Theorem model_url_safe alphanumeric model :
  let name := sanitize_model_for_url alphanumeric model in
  name ≠ "" ∧ contains name ".." = false ∧
  (∀ r, name ≠ String "." r) ∧ (∀ r, name ≠ r +:+ ".") ∧ all_bytes url_safe name = true.
Proof.
  unfold sanitize_model_for_url. set (kept := keep_safe alphanumeric "" model).
  pose proof (collapse_dots_spec (String.length kept) kept (le_n _)) as Hdots.
  pose proof (collapse_dots_bytes url_safe (String.length kept) kept
                (keep_safe_safe alphanumeric model "" eq_refl)) as Hbytes.
  set (s := collapse_dots _ kept) in *. destruct (trim_dots_sub s) as (u&v&Hs).
  destruct (String.eqb_spec (trim_dots s) "") as [E|E].
  - split_and!; try done. by intros [|a [|b [|c [|d [|e [|f [|g [|]]]]]]]].
  - destruct (trim_dots_edges s) as [H1 H2]. rewrite Hs in Hdots, Hbytes.
    split_and!; [done|by eapply contains_sub|done..|].
    rewrite !all_bytes_app in Hbytes. by destruct (all_bytes url_safe (trim_dots s)), (all_bytes _ u).
Qed.

(** The credentials of an upstream request are the channel's alone:
    whatever headers the client sends and the channel adds, every header named
    authorization or x-api-key is one the provider's adaptor made of the
    channel's key, and all of those are sent. *)
Theorem credentials_from_channel valid original auth custom is_stream k v :
  Forall (λ h, to_lowercase h.1 = h.1) original →
  let sent := upstream_headers valid original auth custom is_stream in
  (∀ h, h ∈ auth → h ∈ sent) ∧
  ((k, v) ∈ sent → to_lowercase k ∈ ["authorization"; "x-api-key"] → (k, v) ∈ auth).
Proof.
  intros Hlow sent. subst sent. unfold upstream_headers. split; [set_solver|].
  rewrite !elem_of_app. intros [H|[H|[H|H]]] Hk; [|done| |].
  - apply list_elem_of_In, filter_In in H as [H Hs]. rewrite <- list_elem_of_In in H.
    rewrite Forall_forall in Hlow. specialize (Hlow _ H). cbn in *. rewrite Hlow in Hk.
    apply negb_true_iff, bool_decide_eq_false in Hs. destruct Hs. unfold SKIP_HEADERS. set_solver.
  - apply list_elem_of_In, filter_In in H as [_ Hs]. apply andb_prop in Hs as [Hs _]. cbn in Hs.
    apply negb_true_iff, bool_decide_eq_false in Hs. destruct Hs.
    unfold CUSTOM_HEADER_DENYLIST. set_solver.
  - destruct is_stream; [|by apply not_elem_of_nil in H].
    apply list_elem_of_singleton in H as [= -> ->]. cbn in Hk. set_solver.
Qed.

Lemma credentials_from_channel_witness :
  ("authorization", "stolen") ∉ upstream_headers (λ _ _, true)
    [("authorization", "stolen"); ("user-agent", "x")]
    (apply_auth OpenAIAdaptor "key" false) [("Authorization", "other")] true.
Proof.
  intros H.
  destruct (credentials_from_channel (λ _ _, true)
    [("authorization", "stolen"); ("user-agent", "x")]
    (apply_auth OpenAIAdaptor "key" false) [("Authorization", "other")] true
    "authorization" "stolen") as [_ Hs].
  - repeat first [apply List.Forall_cons | apply List.Forall_nil | reflexivity].
  - assert (("authorization", "stolen") ∈ apply_auth OpenAIAdaptor "key" false) as Hin.
    { apply Hs; [exact H|]. left. }
    revert Hin. vm_compute. intros Hin.
    apply elem_of_cons in Hin as [Hin|Hin]; [discriminate|].
    apply elem_of_cons in Hin as [Hin|Hin]; [discriminate|]. by apply not_elem_of_nil in Hin.
Defined.
End ProviderProps.
