(* ===== verification/ModelFetch.v ===== *)
(** The lists of models of the providers (model_fetch.rs), the probes of their endpoints
    (endpoint_probe.rs) and of the channels (health/probe.rs), and the checks of a channel on request (channel/mod.rs). *)

From stdpp Require Import pretty.
From S2P Require Import Prelude Json Fallback Translate Channel.

(** ** Fetching a list of models (model_fetch.rs) *)
Module ModelFetch.
Import Fallback.Fallback.

Record FetchedModel := mkModel { id : string; owned_by : option string }.

Definition FETCH_TIMEOUT_SECS : Z := 15.
Definition MAX_REQUEST_HEADERS : nat := 64.
Definition MAX_HEADER_NAME_BYTES : nat := 256.
Definition MAX_HEADER_VALUE_BYTES : nat := 16 * 1024.
Definition ERROR_BODY_MAX_CHARS : nat := 512.
Definition KNOWN_COMPAT_SUFFIXES : list string :=
  ["/api/claudecode"; "/api/anthropic"; "/apps/anthropic"; "/api/coding"; "/claudecode"; "/anthropic"; "/step_plan";
   "/coding"; "/claude"].

Definition ends_with (s p : string) : bool := bool_decide (is_Some (Translate.strip_suffix p s)).
(** [s.find(p)]: what comes before the first [p]. *)
Fixpoint before (p s : string) : option string :=
  if starts_with s p then Some ""
  else match s with String c s' => String c <$> before p s' | EmptyString => None end.

(** *** Addresses *)

Definition strip_compat_suffix (base_url : string) : option string :=
  head (omap (λ suffix, Translate.strip_suffix suffix base_url) KNOWN_COMPAT_SUFFIXES).
Definition ends_with_version_segment (url : string) : bool :=
  let last := match rsplit_once "/" url with Some (_, l) => l | None => url end in
  match strip_prefix "v" last with
  | Some digits => negb (String.eqb digits "") && all_digits digits
  | None => false
  end.
(** In order, each once. *)
Definition unique (candidates : list string) : list string :=
  foldl (λ seen url, if bool_decide (url ∈ seen) then seen else seen ++ [url]) [] candidates.
Definition full_url_candidates (trimmed : string) : list string :=
  match before "/v1/" trimmed with
  | Some root => [root +:+ "/v1/models"]
  | None =>
      match rsplit_once "/" trimmed with
      | Some (root, _) =>
          match before "://" root with
          | Some scheme => if (String.length scheme + 3 <? String.length root)%nat then [root +:+ "/v1/models"] else []
          | None => []
          end
      | None => []
      end
  end.
Definition base_url_candidates (trimmed : string) : list string :=
  (if ends_with_version_segment trimmed
   then (trimmed +:+ "/models") :: (if ends_with trimmed "/v1" then [] else [trimmed +:+ "/v1/models"])
   else [trimmed +:+ "/v1/models"]) ++
  match strip_compat_suffix trimmed with
  | Some stripped =>
      let root := trim_end_slashes stripped in
      if negb (String.eqb root "") && contains root "://" then [root +:+ "/v1/models"; root +:+ "/models"] else []
  | None => []
  end.
Definition build_models_url_candidates (base_url : string) (is_full_url : bool) (models_url_override : option string)
    : list string + string :=
  let derived :=
    let trimmed := trim_end_slashes (trim base_url) in
    if String.eqb trimmed "" then inr "Base URL is empty"
    else if is_full_url then
      let candidates := full_url_candidates trimmed in
      if bool_decide (candidates = []) then inr "Cannot derive models endpoint from full URL" else inl candidates
    else inl (unique (base_url_candidates trimmed)) in
  match models_url_override with
  | Some raw => if String.eqb (trim raw) "" then derived else inl [trim raw]
  | None => derived
  end.

(** *** Secrets *)

Definition redact_secrets (text : string) (secrets : list string) : string :=
  foldl (λ result secret, if String.eqb secret "" then result else replace secret "[REDACTED]" result) text secrets.
Definition ellipsis : string := String "226" (String "128" (String "166" "")).
Definition truncate_body (body : string) : string :=
  if (length (chars body) <=? ERROR_BODY_MAX_CHARS)%nat then body else take_chars ERROR_BODY_MAX_CHARS body +:+ ellipsis.
Definition redact_error_body (body : string) (known_secrets : list string) : string :=
  truncate_body (redact_secrets body known_secrets).

(** *** The request *)

Section fetch.
(** [HeaderName::from_bytes], which gives the name in lower case, and
    [HeaderValue::from_str]; what is wrong otherwise. *)
Context (header_name : string → string + string) (header_value : string → option string).

Definition auth_header (api_format : option string) (api_key : string) : string * string :=
  match api_format with
  | Some f =>
      if String.eqb f "anthropic" then ("x-api-key", api_key)
      else if String.eqb f "gemini" then ("x-goog-api-key", api_key)
      else ("authorization", "Bearer " +:+ api_key)
  | None => ("authorization", "Bearer " +:+ api_key)
  end.
Definition add_header (acc : gmap string string + string) (h : string * string) : gmap string string + string :=
  let? headers := acc in
  let '(raw_name, raw_value) := h in
  let name := trim raw_name in
  if String.eqb name "" || (MAX_HEADER_NAME_BYTES <? String.length name)%nat
  then inr ("Invalid model-fetch header name: " +:+ raw_name)
  else if (MAX_HEADER_VALUE_BYTES <? String.length raw_value)%nat
  then inr ("Model-fetch header value is too large: " +:+ name)
  else match header_name name with
  | inr e => inr ("Invalid model-fetch header name " +:+ name +:+ ": " +:+ e)
  | inl n =>
      match header_value raw_value with
      | Some e => inr ("Invalid model-fetch header value for " +:+ name +:+ ": " +:+ e)
      | None => inl (<[n := raw_value]> headers)
      end
  end.
(** [request_headers] in the order of its names. *)
Definition build_model_fetch_headers (api_key : string) (api_format : option string) (user_agent : option string)
    (request_headers : option (list (string * string))) : gmap string string + string :=
  let custom := default [] request_headers in
  if String.eqb api_key "" && bool_decide (custom = []) then inr "API Key or request headers are required to fetch models"
  else if (MAX_REQUEST_HEADERS <? length custom)%nat
  then inr "Too many model-fetch request headers (maximum 64)"
  else
    let? headers :=
      if String.eqb api_key "" then inl ∅
      else let '(name, value) := auth_header api_format api_key in
           match header_value value with
           | Some e => inr ("Invalid API Key header value: " +:+ e)
           | None => inl {[name := value]}
           end in
    let headers := match user_agent with Some ua => <["user-agent" := ua]> headers | None => headers end in
    foldl add_header (inl headers) custom.

(** A reply: no connection, or a status, how it is printed, and the body. *)
Inductive Reply := Failed (e : string) | Answered (status : Z) (shown body : string).
(** [ask] sends a request, [read_models] reads the document of a body. *)
Context (ask : string → gmap string string → Reply) (read_models : string → option (list FetchedModel) + string).

Definition is_success (status : Z) : bool := (200 <=? status) && (status <? 300).
Definition by_id (a b : FetchedModel) : bool := String.leb (id a) (id b).
(** The addresses that are asked, in order, and what comes of it. *)
Fixpoint try_candidates (headers : gmap string string) (known_secrets : list string) (last_err : option string)
    (candidates : list string) : list string * (list FetchedModel + string) :=
  match candidates with
  | [] => ([], inr ("All candidates failed: " +:+ default "no candidates" last_err))
  | url :: rest =>
      let next e := let '(asked, r) := try_candidates headers known_secrets (Some e) rest in (url :: asked, r) in
      match ask url headers with
      | Failed e => next ("Request failed: " +:+ e)
      | Answered status shown body =>
          let refused := "HTTP " +:+ shown +:+ ": " +:+ redact_error_body body known_secrets in
          if is_success status then
            ([url], match read_models body with
                    | inl data => inl (stable_sort by_id (default [] data))
                    | inr e => inr ("Failed to parse response: " +:+ e)
                    end)
          else if (status =? 404) || (status =? 405) then next refused
          else ([url], inr refused)
      end
  end.
Definition fetch_models (base_url api_key : string) (is_full_url : bool) (models_url_override : option string)
    (user_agent api_format : option string) (request_headers : option (list (string * string)))
    : list string * (list FetchedModel + string) :=
  match build_models_url_candidates base_url is_full_url models_url_override with
  | inr e => ([], inr e)
  | inl candidates =>
      match build_model_fetch_headers api_key api_format user_agent request_headers with
      | inr e => ([], inr e)
      | inl headers => try_candidates headers (api_key :: (default [] request_headers).*2) None candidates
      end
  end.
End fetch.
End ModelFetch.

(** ** Probing endpoints (endpoint_probe.rs) *)
Module EndpointProbe.

Record ProbeResult := mkResult {
  url : string;
  ok : bool;
  status : option Z;
  latency_ms : option Z;
  error : option string;
  reachable : bool;
}.
(** A reply: a status, or an error with what [reqwest] says of it. *)
Inductive Reply :=
  | Status (code : Z)
  | Error (is_timeout is_connect is_status is_body is_decode : bool) (text : string).

Definition derive_probe_path (base_url : string) : string :=
  let trimmed := trim_end_slashes (trim base_url) in
  if contains trimmed "/api" || ModelFetch.ends_with trimmed "/v1"
  then Translate.trim_end_matches (String.length trimmed) "/v1" trimmed +:+ "/v1/models"
  else trimmed.

(** The replies to HEAD and to GET, and how long each took. *)
Section probe.
Context (head get : string → Reply * Z).

Definition client_or_server_error (code : Z) : bool := (400 <=? code) && (code <? 600).
Definition probe_result (base_url : string) (r : Reply * Z) : ProbeResult :=
  match r with
  | (Status code, latency) =>
      let is_ok := ModelFetch.is_success code in
      mkResult base_url is_ok (Some code) (Some latency) (if is_ok then None else Some ("HTTP " +:+ pretty code))
        (client_or_server_error code || is_ok)
  | (Error is_timeout is_connect is_status is_body is_decode text, latency) =>
      let reached := is_status || is_body || is_decode in
      mkResult base_url false None (if reached then Some latency else None)
        (Some (if is_timeout then "Timeout" else if is_connect then "Connection failed" else text)) reached
  end.
Definition probe_with_get (probe_path base_url : string) : ProbeResult := probe_result base_url (get probe_path).
Definition probe_single_endpoint (base_url : string) : ProbeResult :=
  let probe_path := derive_probe_path base_url in
  match head probe_path with
  | (Status code, latency) =>
      if code =? 405 then probe_with_get probe_path base_url else probe_result base_url (Status code, latency)
  | r => probe_result base_url r
  end.
(** One task for each address; a task that panics has no result. *)
Definition probe_endpoints (panics : string → bool) (urls : list string) : list ProbeResult :=
  probe_single_endpoint <$> List.filter (λ u, negb (panics u)) urls.
End probe.
End EndpointProbe.

(** ** Probing channels (health/probe.rs) *)
Module HealthProbe.

(** [Ok] with the status, if there is an answer. *)
Definition probe_connectivity (get : string → option Z) (ch : Channel.Channel) : bool :=
  bool_decide (is_Some (get (Channel.base_url ch))).

Inductive Request :=
  | PostMessages (url : string) (x_api_key : option string)
  | GetModels (url : string) (authorization : option string).
Definition probe_request (ch : Channel.Channel) (api_key : option string) : Request :=
  let base := trim_end_slashes (Channel.base_url ch) in
  match Channel.provider ch with
  | Channel.Anthropic => PostMessages (base +:+ "/v1/messages") api_key
  | Channel.Gemini => GetModels (base +:+ "/v1/models?key=" +:+ default "" api_key) None
  | _ => GetModels (base +:+ "/v1/models") ((λ k, "Bearer " +:+ k) <$> api_key)
  end.
Definition probe_channel (send : Request → option Z) (ch : Channel.Channel) (api_key : option string) : bool :=
  match send (probe_request ch api_key) with
  | Some code => ModelFetch.is_success code || (code =? 429)
  | None => false
  end.
End HealthProbe.

(** ** Checks of a channel on request (channel/mod.rs) *)
Module Diagnostics.
Import Json.

(** [get] is whether an address answers, or why it does not. *)
Definition check_channel_connectivity (get : string → option string) (base_url : string) : unit + string :=
  let base := trim_end_slashes base_url in
  match get (base +:+ "/models") with
  | None => inl tt
  | Some _ =>
      match get (base +:+ "/health") with
      | None => inl tt
      | Some e => inr ("connectivity check failed: " +:+ e)
      end
  end.

Record ChannelDiagnosticsResult := mkDiagnostics {
  channel_id : Uuid;
  channel_name : string;
  auth_status : string;
  available_models : list string;
  status_code : option Z;
  latency_ms : Z;
  error : option string;
  tested_at : DateTime;
}.
(** The answer to a request with this bearer token: none, or a status and the document
    of the body, if it is one. *)
Definition Answer : Type := option (Z * option Json.value).
Definition models_of (body : Json.value) : list string :=
  match Json.get body "data" ≫= as_array with
  | Some arr => omap (λ m, Json.get m "id" ≫= as_str) arr
  | None => []
  end.
Definition diagnosis (ch : Channel.Channel) (a : Answer) (elapsed : Z) (now : DateTime) : ChannelDiagnosticsResult :=
  let result auth models code error := mkDiagnostics (Channel.id ch) (Channel.name ch) auth models code elapsed error now in
  match a with
  | None => result "error" [] None (Some "upstream request failed")
  | Some (status, body) =>
      if ModelFetch.is_success status
      then result "authenticated" (default [] (models_of <$> body)) (Some status) None
      else if (status =? 401) || (status =? 403) then result "unauthenticated" [] (Some status) None
      else result "error" [] (Some status) (Some ("upstream returned status " +:+ pretty status))
  end.
(** [found] is the channel that the manager has under the identifier; [ask] sends a
    request to an address with a key. *)
Definition run_channel_diagnostics (ask : string → string → Answer) (u : Uuid) (found : option Channel.Channel) (elapsed : Z)
    (now : DateTime) : ChannelDiagnosticsResult :=
  match found with
  | None => mkDiagnostics u "" "error" [] None 0 (Some "channel not found") now
  | Some ch =>
      diagnosis ch (ask (trim_end_slashes (Channel.base_url ch) +:+ "/models")
                        (default "" (Channel.api_key (Channel.credential ch)))) elapsed now
  end.
End Diagnostics.

Module FetchFacts.
Import ModelFetch Fallback.Fallback.

(** *** Redaction *)

(** A text that has neither bracket, is not empty and no part of the mark. *)
Definition plain (s : string) : Prop := s ≠ "" ∧ lacks "[" s ∧ lacks "]" s ∧ contains "REDACTED" s = false.

Lemma contains_nothing q : q ≠ "" → contains "" q = true → False.
Proof. by destruct q. Qed.
Lemma mark_skipped r q : plain q → contains ("[REDACTED]" +:+ r) q = true → contains r q = true.
Proof.
  intros (Hne&Ho&Hc&Hr) H. change ("[REDACTED]" +:+ r) with ("" +:+ String "[" ("REDACTED" +:+ String "]" r)) in H.
  destruct (contains_across "[" q "" _ Ho Hne H) as [H1|H1]; [by destruct q|].
  destruct (contains_across "]" q "REDACTED" r Hc Hne H1) as [H2|H2]; [congruence|done].
Qed.
Lemma replaced_prefix p q : lacks "[" q → ∀ s, starts_with (replace p "[REDACTED]" s) q = true → starts_with s q = true.
Proof.
  intros Hq s. rewrite !starts_with_spec. revert q Hq. induction s as [|c s IH]; intros q Hq [v Hv]; [by exists v|].
  destruct q as [|x q]; [by exists (String c s)|]. destruct Hq as [Hx Hq]. unfold replace in Hv. cbn [replace_from] in Hv.
  destruct (starts_with (String c s) p); [by injection Hv|]. injection Hv as -> Hv.
  destruct (IH q Hq) as [w ->]; [by exists v|]. by exists w.
Qed.
(** What a text does not contain does not come in, and what is replaced is gone. *)
Lemma replaced_clean p q : plain q → p ≠ "" → ∀ s skip, q = p ∨ contains s q = false →
  contains (replace_from p "[REDACTED]" skip s) q = false.
Proof.
  intros Hq Hp. induction s as [|c s IH]; intros skip Hs.
  { cbn. destruct Hq as [Hne _]. by destruct q. }
  assert (q = p ∨ contains s q = false) as Hs'.
  { destruct Hs as [?|Hs]; [by left|right]. cbn [contains] in Hs. by apply orb_false_iff in Hs as [_ ?]. }
  destruct skip as [|k]; cbn [replace_from]; [|by apply IH]. destruct (starts_with (String c s) p) eqn:Ep.
  - apply not_true_is_false. intros E. apply mark_skipped in E; [|done]. rewrite IH in E; done.
  - cbn [contains]. rewrite (IH 0%nat Hs'), orb_false_r. destruct (starts_with (String c _) q) eqn:E; [|done]. exfalso.
    assert (starts_with (String c s) q = true) as E2.
    { apply (replaced_prefix p q); [by apply Hq|]. unfold replace. cbn [replace_from]. by rewrite Ep. }
    destruct Hs as [->|Hs]; [congruence|]. cbn [contains] in Hs. by rewrite E2 in Hs.
Qed.
Lemma redact_keeps_out q secrets : plain q → ∀ text, contains text q = false → contains (redact_secrets text secrets) q = false.
Proof.
  intros Hq. unfold redact_secrets. induction secrets as [|p l IH]; intros text Ht; [done|]. cbn [foldl].
  destruct (String.eqb_spec p ""); apply IH; [done|]. apply replaced_clean; auto.
Qed.
Fixpoint ascii_text (s : string) : Prop :=
  match s with EmptyString => True | String a s' => (N_of_ascii a <? 128)%N = true ∧ ascii_text s' end.
Lemma ascii_lacks c s : ascii_text s → (N_of_ascii c <? 128)%N = false → lacks c s.
Proof. intros H Hc. induction s as [|a s IH]; [done|]. destruct H as [Ha H]. split; [by intros ->; congruence|by apply IH]. Qed.
Lemma take_chars_prefix n s : ∃ r, s = take_chars n s +:+ r.
Proof.
  revert n. induction s as [|c s IH]; intros n; [by exists ""|]. cbn [take_chars]. destruct (_ && _).
  - destruct (IH n) as [r Hr]. exists r. change (String c s = String c (take_chars n s +:+ r)). by rewrite <- Hr.
  - destruct n as [|n]; [by exists (String c s)|]. destruct (IH n) as [r Hr]. exists r.
    change (String c s = String c (take_chars n s +:+ r)). by rewrite <- Hr.
Qed.

(** *** Addresses *)

Lemma strip_suffix_Some p s x : Translate.strip_suffix p s = Some x → s = x +:+ p.
Proof.
  unfold Translate.strip_suffix. destruct (_ <=? _)%nat eqn:El; [|done]. apply Nat.leb_le in El. cbn [andb].
  destruct (String.eqb_spec (String.substring (String.length s - String.length p) (String.length p) s) p) as [E|]; [|done].
  intros [= <-]. rewrite <- E at 2. replace (String.length p) with (String.length s - (String.length s - String.length p))%nat at 3 by lia.
  symmetry. apply substring_split. lia.
Qed.
Lemma rsplit_once_app c a b u v : rsplit_once c b = Some (u, v) → rsplit_once c (a +:+ b) = Some (a +:+ u, v).
Proof.
  intros H. induction a as [|x a IH]; [exact H|]. change (String x a +:+ b) with (String x (a +:+ b)). cbn [rsplit_once]. by rewrite IH.
Qed.
Lemma strip_compat_suffix_Some url x : strip_compat_suffix url = Some x →
  ∃ suffix, suffix ∈ KNOWN_COMPAT_SUFFIXES ∧ url = x +:+ suffix.
Proof.
  unfold strip_compat_suffix. intros H%head_Some_elem_of%list_elem_of_omap. destruct H as (p&Hp&E). exists p. split; [done|].
  by apply strip_suffix_Some.
Qed.
(** The last segment of a compatible address is no version. *)
Lemma versions_not_compat url : ends_with_version_segment url = true → strip_compat_suffix url = None.
Proof.
  intros Hv. destruct (strip_compat_suffix url) as [x|] eqn:E; [|done]. exfalso.
  apply strip_compat_suffix_Some in E as (p&Hp&->). revert Hv. unfold ends_with_version_segment.
  assert (∃ u v, rsplit_once "/" p = Some (u, v) ∧ strip_prefix "v" v = None) as (u&v&Eu&Ev).
  { revert Hp. unfold KNOWN_COMPAT_SUFFIXES. intros H%list_elem_of_In. cbn in H.
    repeat destruct H as [<-|H]; try done; by eexists _, _. }
  by rewrite (rsplit_once_app _ x _ _ _ Eu), Ev.
Qed.
Lemma unique_spec l : NoDup (unique l) ∧ (∀ u, u ∈ unique l ↔ u ∈ l) ∧ (length (unique l) ≤ length l)%nat.
Proof.
  unfold unique. induction l as [|x l IH] using rev_ind; [split_and!; [constructor|done|done]|]. rewrite foldl_app. cbn.
  destruct IH as (H1&H2&H3). rewrite length_app. cbn. case_bool_decide as Hx.
  - split_and!; [done| |lia]. intros u. rewrite H2, elem_of_app, list_elem_of_singleton. split; [by left|]. intros [?| ->]; [done|by apply H2].
  - split_and!; [|intros u; by rewrite !elem_of_app, H2|rewrite length_app; cbn; lia].
    apply NoDup_app. split_and!; [done| |apply NoDup_singleton]. by intros u Hu ->%list_elem_of_singleton.
Qed.
Definition models_address (u : string) : Prop := ∃ r, u = r +:+ "/models".
Lemma base_url_candidates_spec t : base_url_candidates t ≠ [] ∧ (length (base_url_candidates t) ≤ 3)%nat ∧
  Forall models_address (base_url_candidates t).
Proof.
  assert (∀ s, models_address (s +:+ "/v1/models")) as H1.
  { intros s. exists (s +:+ "/v1"). by rewrite app_assoc_string. }
  assert (∀ s, models_address (s +:+ "/models")) as H2 by (intros s; by exists s).
  unfold base_url_candidates. destruct (ends_with_version_segment t) eqn:Ev.
  - rewrite (versions_not_compat t Ev), app_nil_r. destruct (ends_with t "/v1"); split_and!; cbn; auto.
  - destruct (strip_compat_suffix t) as [x|]; [|by split_and!; cbn; auto]. cbn zeta.
    destruct (_ && _); split_and!; cbn; auto.
Qed.
Lemma full_url_candidates_spec t : (length (full_url_candidates t) ≤ 1)%nat ∧ Forall models_address (full_url_candidates t).
Proof.
  assert (∀ s, models_address (s +:+ "/v1/models")) as H1.
  { intros s. exists (s +:+ "/v1"). by rewrite app_assoc_string. }
  unfold full_url_candidates. repeat case_match; split; cbn; auto.
Qed.
End FetchFacts.

Module FetchProps.
Import ModelFetch FetchFacts Fallback.Fallback.

(** C25. A key that could be sent in a header, without brackets and no part of the mark, does
    not occur in the text of an error that quotes the body of an answer. *)
Theorem secrets_not_quoted body known_secrets key :
  key ∈ known_secrets → plain key → ascii_text key → contains (redact_error_body body known_secrets) key = false.
Proof.
  intros Hin Hk Ha. assert (contains (redact_secrets body known_secrets) key = false) as H.
  { apply list_elem_of_split in Hin as (l1&l2&->). unfold redact_secrets. rewrite foldl_app. cbn [foldl].
    destruct (String.eqb_spec key "") as [->|Hne]; [by destruct Hk|]. apply redact_keeps_out; [done|].
    by apply replaced_clean; [..|left]. }
  unfold redact_error_body, truncate_body. destruct (_ <=? _)%nat; [done|]. revert H. generalize (redact_secrets body known_secrets).
  intros s H. apply not_true_is_false. intros E. destruct (take_chars_prefix ERROR_BODY_MAX_CHARS s) as [r Hr].
  destruct (contains_across "226" key _ _ (ascii_lacks "226" _ Ha eq_refl) (proj1 Hk) E) as [E1|E1].
  - apply contains_spec in E1 as (u&v&E1). rewrite Hr, E1 in H. rewrite (proj2 (contains_spec _ key)) in H; [done|].
    exists u, (v +:+ r). by rewrite !app_assoc_string.
  - destruct (contains_across "128" key "" _ (ascii_lacks "128" _ Ha eq_refl) (proj1 Hk) E1) as [E2|E2];
      [by apply (contains_nothing key (proj1 Hk))|].
    by destruct (contains_across "166" key "" "" (ascii_lacks "166" _ Ha eq_refl) (proj1 Hk) E2) as [E3|E3];
      apply (contains_nothing key (proj1 Hk)).
Qed.

(** The addresses tried are the given one, or at least one and at most three, no two
    alike, that end in /models. *)
Theorem model_addresses base_url is_full_url models_url_override l :
  build_models_url_candidates base_url is_full_url models_url_override = inl l →
  (∃ raw, models_url_override = Some raw ∧ trim raw ≠ "" ∧ l = [trim raw]) ∨
  l ≠ [] ∧ (length l ≤ 3)%nat ∧ NoDup l ∧ ∀ u, u ∈ l → ∃ r, u = r +:+ "/models".
Proof.
  unfold build_models_url_candidates. cbv zeta. set (t := trim_end_slashes (trim base_url)).
  assert ((if String.eqb t "" then inr "Base URL is empty" else
    if is_full_url then if bool_decide (full_url_candidates t = []) then inr "Cannot derive models endpoint from full URL"
                        else inl (full_url_candidates t)
    else inl (unique (base_url_candidates t))) = inl l → l ≠ [] ∧ (length l ≤ 3)%nat ∧ NoDup l ∧ ∀ u, u ∈ l → models_address u) as H.
  { destruct (String.eqb t ""); [done|]. destruct is_full_url.
    - destruct (full_url_candidates_spec t) as [H1 H2]. case_bool_decide as Hn; [done|]. intros [= <-].
      destruct (full_url_candidates t) as [|u [|? ?]]; cbn in H1; [done| |lia]. split_and!; [done|cbn; lia|apply NoDup_singleton|].
      by apply Forall_forall.
    - destruct (base_url_candidates_spec t) as (H1&H2&H3). destruct (unique_spec (base_url_candidates t)) as (U1&U2&U3).
      intros [= <-]. split_and!; [|lia|done|intros u Hu%U2; by apply (proj1 (Forall_forall _ _) H3)].
      intros Hn. destruct (base_url_candidates t) as [|u b] eqn:E; [done|]. assert (u ∈ unique (u :: b)) as Hu by (apply U2; left).
      rewrite Hn in Hu. by apply not_elem_of_nil in Hu. }
  destruct models_url_override as [raw|]; [|by right; apply H]. destruct (String.eqb_spec (trim raw) "") as [|Hr].
  - right. by apply H.
  - intros [= <-]. left. by exists raw.
Qed.

Section order.
Context (ask : string → gmap string string → Reply) (read_models : string → option (list FetchedModel) + string).
Context (headers : gmap string string) (known_secrets : list string).

(** Goes on to the next address: no connection, or one that is not there. *)
Definition passes (url : string) : bool :=
  match ask url headers with Failed _ => true | Answered status _ _ => (status =? 404) || (status =? 405) end.

Lemma by_id_total a b : by_id a b = true ∨ by_id b a = true.
Proof. apply String.leb_total. Qed.
Lemma by_id_trans a b c : by_id a b = true → by_id b c = true → by_id a c = true.
Proof. apply string_leb_trans. Qed.

(** What the answer of the deciding address comes to. *)
Definition answers (r : list FetchedModel + string) (status : Z) (shown body : string) : Prop :=
  match r with
  | inl models => is_success status = true ∧
      ∃ data, read_models body = inl data ∧ models ≡ₚ default [] data ∧ StronglySorted (λ a b, by_id a b = true) models
  | inr e => e = "HTTP " +:+ shown +:+ ": " +:+ redact_error_body body known_secrets ∨
      is_success status = true ∧ ∃ m, read_models body = inr m ∧ e = "Failed to parse response: " +:+ m
  end.

(** The addresses are asked in order until one answers with another status than 404
    and 405, and its answer decides; on success that is the models it lists, sorted. *)
Theorem fetching_order candidates last_err asked r :
  try_candidates ask read_models headers known_secrets last_err candidates = (asked, r) →
  (∃ pre url post status shown body, candidates = pre ++ url :: post ∧ asked = pre ++ [url] ∧
     Forall (λ u, passes u = true) pre ∧ passes url = false ∧ ask url headers = Answered status shown body ∧
     answers r status shown body) ∨
  asked = candidates ∧ Forall (λ u, passes u = true) candidates ∧ ∃ e, r = inr ("All candidates failed: " +:+ e).
Proof.
  revert last_err asked r. induction candidates as [|url l IH]; intros last_err asked r; cbn [try_candidates].
  { intros [= <- <-]. right. split_and!; [done|constructor|by eexists]. }
  assert (∀ e, passes url = true →
    (let '(asked, r) := try_candidates ask read_models headers known_secrets (Some e) l in (url :: asked, r)) = (asked, r) →
    (∃ pre url0 post status shown body, url :: l = pre ++ url0 :: post ∧ asked = pre ++ [url0] ∧
      Forall (λ u, passes u = true) pre ∧ passes url0 = false ∧ ask url0 headers = Answered status shown body ∧
      answers r status shown body) ∨
    asked = url :: l ∧ Forall (λ u, passes u = true) (url :: l) ∧ ∃ e, r = inr ("All candidates failed: " +:+ e)) as Hnext.
  { intros e Hp. destruct (try_candidates _ _ _ _ (Some e) l) as [asked1 r1] eqn:E. intros [= <- <-].
    destruct (IH _ _ _ E) as [(pre&u&post&st&sh&b&E1&E2&E3&E4&E5&E6)|(E1&E2&E3)].
    - left. exists (url :: pre), u, post, st, sh, b. split_and!; [by rewrite E1|by rewrite E2|by constructor|done..].
    - right. split_and!; [by rewrite E1|by constructor|done]. }
  unfold passes in Hnext at 1. destruct (ask url headers) as [e|status shown body] eqn:Ea; [by apply Hnext|].
  destruct (is_success status) eqn:Es.
  - assert (passes url = false) as Hp.
    { unfold passes, is_success in *. rewrite Ea. lia. }
    intros E. left. exists [], url, l, status, shown, body.
    destruct (read_models body) as [data|m] eqn:Er; injection E as <- <-; (split_and!; [done|done|by apply Forall_nil|done|done|]).
    + unfold answers. split; [done|]. exists data. split_and!; [done|apply stable_sort_perm|].
      apply stable_sort_sorted; [apply by_id_total|apply by_id_trans].
    + right. split; [done|]. by exists m.
  - destruct ((status =? 404) || (status =? 405)) eqn:Ep; [by apply Hnext|]. intros [= <- <-]. left.
    exists [], url, l, status, shown, body. split_and!; [done|done|by apply Forall_nil|unfold passes; by rewrite Ea|done|by left].
Qed.
End order.
End FetchProps.

Module ProbeProps.
Import EndpointProbe.

(** One result for each address whose task does not panic, in their order; what is
    working is reachable and without error, and only that is without error. *)
Theorem probes_consistent head get panics urls :
  (url <$> probe_endpoints head get panics urls) = List.filter (λ u, negb (panics u)) urls ∧
  Forall (λ r, (ok r = true ↔ error r = None) ∧ (ok r = true → reachable r = true ∧ is_Some (latency_ms r)))
    (probe_endpoints head get panics urls).
Proof.
  assert (∀ u r, url (probe_result u r) = u ∧ (ok (probe_result u r) = true ↔ error (probe_result u r) = None) ∧
    (ok (probe_result u r) = true → reachable (probe_result u r) = true ∧ is_Some (latency_ms (probe_result u r)))) as H.
  { intros u [[code|t c s b d text] l]; cbn; [|by split_and!]. destruct (ModelFetch.is_success code).
    - split_and!; [done|done|]. intros _. split; [apply orb_true_r|by eexists].
    - by split_and!. }
  assert (∀ u, ∃ r, probe_single_endpoint head get u = probe_result u r) as Hr.
  { intros u. unfold probe_single_endpoint, probe_with_get. destruct (head _) as [[code|] l]; [destruct (code =? 405)|]; by eexists. }
  unfold probe_endpoints. split.
  - rewrite <- list_fmap_compose. induction (List.filter _ urls) as [|u l IH]; [done|]. cbn. rewrite IH. f_equal.
    destruct (Hr u) as [r ->]. apply H.
  - apply Forall_fmap, Forall_true. intros u. cbn. destruct (Hr u) as [r ->]. apply H.
Qed.

(** An answer that is neither a success nor an error counts as unreachable. *)
Example redirection_unreachable :
  let r := probe_single_endpoint (λ _, (Status 304, 12)) (λ _, (Status 200, 9)) "https://api.example.com" in
  reachable r = false ∧ status r = Some 304 ∧ error r = Some "HTTP 304".
Proof. split_and!; reflexivity. Qed.
Example probe_paths :
  derive_probe_path "https://api.example.com" = "https://api.example.com/v1/models" ∧
  derive_probe_path "https://api.openai.com/v1/" = "https://api.openai.com/v1/models" ∧
  derive_probe_path "https://example.com" = "https://example.com" ∧
  derive_probe_path "https://example.com/apidocs" = "https://example.com/apidocs/v1/models".
Proof. split_and!; reflexivity. Qed.
End ProbeProps.

Module DiagnosticsProps.
Import Diagnostics.

(** What the diagnosis says of the credential is what the status says, and it lists
    models only for one that was accepted. The key that is tried is the one written in
    the file: for a channel whose keys are in the credential store, or are several, it
    is the empty one. *)
Theorem diagnosis_by_status ask u ch elapsed now :
  let key := default "" (Channel.api_key (Channel.credential ch)) in
  let r := run_channel_diagnostics ask u (Some ch) elapsed now in
  (auth_status r = "authenticated" ↔ ∃ code, status_code r = Some code ∧ 200 ≤ code < 300) ∧
  (auth_status r = "unauthenticated" ↔ status_code r = Some 401 ∨ status_code r = Some 403) ∧
  (available_models r ≠ [] → auth_status r = "authenticated") ∧
  (is_Some (error r) ↔ auth_status r = "error") ∧
  ∀ ask', (∀ url, ask url key = ask' url key) → run_channel_diagnostics ask' u (Some ch) elapsed now = r.
Proof.
  cbn zeta. split_and!; [unfold run_channel_diagnostics, diagnosis..|]; [| | | |intros ask' H; unfold run_channel_diagnostics; by rewrite H].
  all: destruct (ask _ _) as [[status body]|]; cbn [auth_status status_code available_models error]; [|try naive_solver].
  all: unfold ModelFetch.is_success; destruct (Z.leb_spec 200 status), (Z.ltb_spec status 300); cbn [andb];
    destruct (Z.eqb_spec status 401), (Z.eqb_spec status 403); cbn [orb auth_status status_code available_models error]; subst; try lia.
  all: try (split; [intros; simplify_eq; eauto with lia|intros; simplify_eq; destruct_and?; eauto with lia]).
  all: try naive_solver lia.
Qed.
End DiagnosticsProps.

Module FetchSample.
Import ModelFetch FetchFacts FetchProps.

Example addresses :
  build_models_url_candidates "https://open.bigmodel.cn/api/coding/paas/v4" false None =
    inl ["https://open.bigmodel.cn/api/coding/paas/v4/models"; "https://open.bigmodel.cn/api/coding/paas/v4/v1/models"] ∧
  build_models_url_candidates "https://api.deepseek.com/anthropic" false None =
    inl ["https://api.deepseek.com/anthropic/v1/models"; "https://api.deepseek.com/v1/models"; "https://api.deepseek.com/models"] ∧
  build_models_url_candidates "https://x.ai/v1/chat/completions" true None = inl ["https://x.ai/v1/models"].
Proof. split_and!; reflexivity. Qed.

Lemma secrets_not_quoted_witness :
  redact_error_body "invalid key sk-12" ["sk-12"] = "invalid key [REDACTED]" ∧
  contains (redact_error_body "invalid key sk-12" ["sk-12"]) "sk-12" = false.
Proof.
  split; [reflexivity|]. apply secrets_not_quoted; [by left| |]; repeat (split || done).
Defined.
(** A secret that is part of the mark is put back by the mark. *)
Example mark_as_secret : redact_secrets "key RED" ["RED"] = "key [REDACTED]".
Proof. reflexivity. Qed.

Lemma model_addresses_witness :
  NoDup ["https://api.deepseek.com/anthropic/v1/models"; "https://api.deepseek.com/v1/models"; "https://api.deepseek.com/models"].
Proof.
  assert (build_models_url_candidates "https://api.deepseek.com/anthropic" false None =
    inl ["https://api.deepseek.com/anthropic/v1/models"; "https://api.deepseek.com/v1/models"; "https://api.deepseek.com/models"])
    as E by (vm_compute; reflexivity).
  destruct (model_addresses "https://api.deepseek.com/anthropic" false None _ E) as [(raw&H&_)|(_&_&H&_)]; [discriminate H|exact H].
Defined.
Local Abbreviation ask :=
  (λ (url : string) (_ : gmap string string),
     if String.eqb url "https://a/x/v1/models" then Answered 404 "404 Not Found" "" else Answered 200 "200 OK" "two").
Lemma fetching_order_witness :
  try_candidates ask (λ _, inl (Some [mkModel "b" None; mkModel "a" None])) ∅ [] None
    ["https://a/x/v1/models"; "https://a/v1/models"] =
    (["https://a/x/v1/models"; "https://a/v1/models"], inl [mkModel "a" None; mkModel "b" None]) ∧
  passes ask ∅ "https://a/x/v1/models" = true.
Proof.
  split; [reflexivity|].
  destruct (fetching_order ask (λ _, inl (Some [mkModel "b" None; mkModel "a" None])) ∅ []
    ["https://a/x/v1/models"; "https://a/v1/models"] None _ _ eq_refl) as [(pre&u&post&st&sh&b&E&E2&H&_)|(_&_&e&H)]; [|discriminate H].
  destruct pre as [|p [|? [|? ?]]]; [discriminate E2| |discriminate E2..]. injection E2 as <- _. by apply Forall_inv in H.
Defined.
End FetchSample.
