(* ===== verification/Sanitizer.v ===== *)
(** The privacy guardrail (middleware/sanitizer.rs, config/security.rs): secrets are cut
    out of the body of a request before anything else sees it and, if wanted, out of
    the events that come back. *)

From S2P Require Import Prelude Provider.

Module Sanitizer.

(** An expression of the regex crate: how many matches it finds in a text, and the text
    with all of them replaced. *)
Record Regex := mkRegex { find_count : string → Z; replace_all : string → string → string }.

Record CustomPattern := mkCustom { custom_name : string; pattern : string; custom_replacement : string }.
Record SanitizerConfig := mkConfig {
  enabled : bool;
  redact_secrets : bool;
  scan_response : bool;
  custom_patterns : list CustomPattern;
}.
Definition default_custom_replacement : string := "[REDACTED]".
Definition default : SanitizerConfig := mkConfig true true false [].

Definition BODY_SCAN_LIMIT : Z := 10 * 1024 * 1024.
Definition STREAM_OVERLAP : nat := 256.

Record CompiledPattern := mkPattern { regex : Regex; replacement : string; name : string }.

(** The sources of the built-in patterns, their replacements and their names. *)
Definition BUILTIN : list (string * string * string) :=
  let q := String "034" "" in
  [("AKIA[0-9A-Z]{16}", "[REDACTED:AWS_KEY]", "aws_access_key");
   ("(?i)aws_secret_access_key[" +:+ q +:+ "'\s:=]+([A-Za-z0-9/+=]{40})", "[REDACTED:AWS_SECRET]", "aws_secret_key");
   ("sk_live_[0-9a-zA-Z]{24,}", "[REDACTED:STRIPE_KEY]", "stripe_live_key");
   ("rk_live_[0-9a-zA-Z]{24,}", "[REDACTED:STRIPE_KEY]", "stripe_restricted_key");
   ("-----BEGIN (?:RSA |EC |DSA |OPENSSH |PGP |)PRIVATE KEY-----[\s\S]*?-----END (?:RSA |EC |DSA |OPENSSH |PGP |)PRIVATE KEY-----",
    "[REDACTED:PRIVATE_KEY]", "private_key_block");
   ("-----BEGIN (?:RSA |EC |DSA |OPENSSH |PGP |)PRIVATE KEY-----", "[REDACTED:PRIVATE_KEY]", "private_key_header");
   ("(?i)(postgresql|postgres|mysql|mongodb|redis)://[^:\s]+:([^@\s]+)@", "${1}://[REDACTED_USER]:[REDACTED_PASSWORD]@",
    "db_connection_string");
   ("ghp_[A-Za-z0-9]{36}", "[REDACTED:GITHUB_TOKEN]", "github_pat");
   ("xoxb-[0-9]{10,13}-[0-9]{10,13}-[A-Za-z0-9]{24}", "[REDACTED:SLACK_TOKEN]", "slack_bot_token");
   ("(?i)(api[_-]?key|secret[_-]?key|access[_-]?token|private[_-]?key|password|passwd|pwd)[" +:+ q +:+ "'\s]*[:=][" +:+ q +:+
    "'\s]*[A-Za-z0-9+/=_-]{20,}", "[REDACTED:SECRET]", "generic_api_key")].

(** [Regex::new]. *)
Section sanitizer.
Context (compile : string → option Regex).

(** [LazyLock] with [expect]: [None] is the panic. *)
Definition builtin_patterns : option (list CompiledPattern) :=
  mapM (λ b, (λ re, mkPattern re b.1.2 b.2) <$> compile b.1.1) BUILTIN.
Definition compile_patterns (config : SanitizerConfig) : option (list CompiledPattern) :=
  (λ builtin, builtin ++
     omap (λ c, (λ re, mkPattern re (custom_replacement c) "custom") <$> compile (pattern c)) (custom_patterns config))
  <$> builtin_patterns.

Definition redact_one (acc : string * Z) (p : CompiledPattern) : string * Z :=
  let count := find_count (regex p) acc.1 in
  if 0 <? count then (replace_all (regex p) acc.1 (replacement p), acc.2 + count) else acc.
Definition scan_and_redact (text : string) (patterns : list CompiledPattern) : string * Z :=
  foldl redact_one (text, 0) patterns.

(** *** Requests *)

(** The body that the handler sees; [body] is [None] if it cannot be read. *)
Definition sanitized_body (config : SanitizerConfig) (body : option string) : outcome (option string) :=
  if negb (enabled config) || negb (redact_secrets config) then Done body
  else
    match compile_patterns config with
    | None => Panic
    | Some patterns =>
        match body with
        | Some bytes =>
            if Z.of_nat (String.length bytes) <=? BODY_SCAN_LIMIT
            then Done (Some (scan_and_redact (Utf8.from_utf8_lossy bytes) patterns).1)
            else Done (Some "")
        | None => Done (Some "")
        end
    end.

(** *** Responses *)

Inductive Inner := Chunk (bytes : string) | Failed (e : string) | NotYet.
Inductive Poll := Ready (item : option (string + string)) | Pending.

Definition flush_chunk (patterns : list CompiledPattern) (flush_len : nat) (buffer : string) : string * string :=
  ((scan_and_redact (Utf8.from_utf8_lossy (String.substring 0 flush_len buffer)) patterns).1,
   String.substring flush_len (String.length buffer - flush_len) buffer).

(** [SanitizingStream::poll_next], on the buffer and what the inner stream still
    gives before it ends; an ended one is not polled again. *)
Fixpoint poll_next (patterns : list CompiledPattern) (buffer : string) (inner : list Inner)
    : Poll * string * list Inner :=
  let flush_but_overlap buffer rest :=
    let '(redacted, left_over) := flush_chunk patterns (String.length buffer - STREAM_OVERLAP) buffer in
    (Ready (Some (inl redacted)), left_over, rest) in
  match inner with
  | [] =>
      if String.eqb buffer "" then (Ready None, buffer, [])
      else let '(redacted, left_over) := flush_chunk patterns (String.length buffer) buffer in
           (Ready (Some (inl redacted)), left_over, [])
  | Chunk chunk :: rest =>
      let buffer := buffer +:+ chunk in
      if (STREAM_OVERLAP * 2 <? String.length buffer)%nat then flush_but_overlap buffer rest
      else poll_next patterns buffer rest
  | Failed e :: rest => (Ready (Some (inr e)), buffer, rest)
  | NotYet :: rest =>
      if (STREAM_OVERLAP <? String.length buffer)%nat then flush_but_overlap buffer rest
      else (Pending, buffer, rest)
  end.

(** All that a reader gets who polls until the end. *)
Fixpoint collect (fuel : nat) (patterns : list CompiledPattern) (buffer : string) (inner : list Inner)
    : option (list (string + string)) :=
  match fuel with
  | O => None
  | S fuel =>
      match poll_next patterns buffer inner with
      | (Ready None, _, _) => Some []
      | (Ready (Some item), buffer, rest) => cons item <$> collect fuel patterns buffer rest
      | (Pending, buffer, rest) => collect fuel patterns buffer rest
      end
  end.

(** [sanitize_sse_response], for a response with this content type. *)
Definition sanitize_sse_response (config : SanitizerConfig) (content_type : option string) (inner : list Inner)
    : outcome (option (list (string + string))) :=
  let verbatim := omap (λ i, match i with Chunk b => Some (inl b) | Failed e => Some (inr e) | NotYet => None end) inner in
  if negb (enabled config) || negb (redact_secrets config) || negb (scan_response config) ||
     negb (contains match content_type with Some t => t | None => "" end "text/event-stream")
  then Done (Some verbatim)
  else
    match compile_patterns config with
    | None => Panic
    | Some patterns => Done (collect (length inner + 2) patterns "" inner)
    end.
End sanitizer.
End Sanitizer.

Module SanitizerProps.
Import Sanitizer ProviderFacts.

Section props.
Context (compile : string → option Regex).
Implicit Types (p q : CompiledPattern) (patterns : list CompiledPattern).

(** *** Bodies *)

Definition clean patterns (text : string) : Prop := ∀ p, p ∈ patterns → find_count (regex p) text ≤ 0.

(** A pattern that its own replacement leaves no match of, and that none of the patterns
    that come after it brings back.  (Not the built-in one for the addresses of
    databases: what it writes, [postgres://[REDACTED_USER]:[REDACTED_PASSWORD]@], it
    matches itself.) *)
Definition gone_for_good patterns p : Prop :=
  (∀ t, find_count (regex p) (replace_all (regex p) t (replacement p)) ≤ 0) ∧
  ∀ before after q t, patterns = before ++ p :: after → q ∈ after →
    find_count (regex p) t ≤ 0 → find_count (regex p) (replace_all (regex q) t (replacement q)) ≤ 0.

Lemma scan_gone patterns p text :
  p ∈ patterns → gone_for_good patterns p → find_count (regex p) (scan_and_redact text patterns).1 ≤ 0.
Proof.
  intros (before&after&->)%list_elem_of_split [Hown Hlater]. unfold scan_and_redact. rewrite foldl_app. cbn [foldl].
  generalize (foldl redact_one (text, 0) before). intros acc.
  assert (find_count (regex p) (redact_one acc p).1 ≤ 0) as Hp.
  { unfold redact_one. destruct (Z.ltb_spec 0 (find_count (regex p) acc.1)); [apply Hown|done]. }
  revert Hp. generalize (redact_one acc p). specialize (Hlater before after).
  assert (∀ q t, q ∈ after → find_count (regex p) t ≤ 0 → find_count (regex p) (replace_all (regex q) t (replacement q)) ≤ 0) as Hq
    by (intros; by apply Hlater).
  clear -Hq. induction after as [|q after IH]; intros acc Hp; [done|]. cbn [foldl]. apply IH.
  - intros q' t Hin. apply Hq. by right.
  - unfold redact_one. destruct (Z.ltb_spec 0 (find_count (regex q) acc.1)); [|done]. cbn. apply Hq; [by left|done].
Qed.
Lemma clean_scan patterns text : clean patterns text → scan_and_redact text patterns = (text, 0).
Proof.
  unfold scan_and_redact. induction patterns as [|p ps IH]; intros Hc; [done|]. cbn [foldl]. unfold redact_one at 2. cbn [fst].
  destruct (Z.ltb_spec 0 (find_count (regex p) text)) as [H|H].
  - specialize (Hc p ltac:(by left)). lia.
  - apply IH. intros q Hq. apply Hc. by right.
Qed.

(** *** UTF-8 *)

Definition seen (p : Utf8.pending) : string := match p with Utf8.Ready => "" | Utf8.More s _ _ _ => s end.
Lemma decode_valid (bytes : string) : ∀ (st : Utf8.pending) t, Utf8.decode st bytes = (t, true) → t = seen st +:+ bytes.
Proof.
  induction bytes as [|c rest IH]; intros st t; cbn [Utf8.decode].
  - destruct st; [by intros [= <-]|done].
  - destruct (Utf8.next st c) as [[t1 ok] st'] eqn:En. destruct (Utf8.decode st' rest) as [text oks] eqn:Ed.
    intros [= <- Hok]. apply andb_true_iff in Hok as [-> ->]. rewrite (IH st' text Ed).
    assert (t1 +:+ seen st' = seen st +:+ Utf8.one c) as Hone.
    { destruct st as [|s want lo hi]; cbn in En.
      - unfold Utf8.lead in En. repeat case_match; simplify_eq/=; done.
      - destruct (_ && _); [|by destruct (Utf8.lead c) as [[? ?] ?]]. destruct want as [|[|n]]; simplify_eq/=; [| |done];
          by rewrite app_nil_r_str. }
    rewrite <- app_assoc_string, Hone, app_assoc_string. done.
Qed.
Lemma lossy_valid bytes : Utf8.from_utf8 bytes = Some bytes → Utf8.from_utf8_lossy bytes = bytes.
Proof.
  unfold Utf8.from_utf8, Utf8.from_utf8_lossy. destruct (Utf8.decode _ bytes) as [t ok] eqn:E. destruct ok; [|done].
  intros _. by apply decode_valid in E.
Qed.

(** With the guardrail on, the body that the handler sees has no match of any pattern
    whose matches are gone for good when they are replaced; it is the text sent if that
    had no match of any pattern, and empty if it could not be read or was too long. *)
Theorem body_redacted config body patterns :
  enabled config = true → redact_secrets config = true → compile_patterns compile config = Some patterns →
  ∃ text, sanitized_body compile config body = Done (Some text) ∧
    (text = "" ∨ ∀ p, p ∈ patterns → gone_for_good patterns p → find_count (regex p) text ≤ 0) ∧
    (∀ bytes, body = Some bytes → Z.of_nat (String.length bytes) ≤ BODY_SCAN_LIMIT →
       Utf8.from_utf8 bytes = Some bytes → clean patterns bytes → text = bytes).
Proof.
  intros He Hr Hc. unfold sanitized_body. rewrite He, Hr, Hc. cbn [negb orb].
  destruct body as [bytes|]; [|exists ""; split_and!; [done|by left|done]].
  destruct (Z.leb_spec (Z.of_nat (String.length bytes)) BODY_SCAN_LIMIT) as [Hl|Hl].
  - eexists. split; [done|]. split; [right; intros; by apply scan_gone|]. intros b [= ->] _ Hu Hcl.
    by rewrite (lossy_valid b Hu), clean_scan.
  - exists "". split; [done|]. split; [by left|]. intros b [= ->] Hb. lia.
Qed.

(** *** Streams *)


Definition redacted patterns (segment : string) : string :=
  (scan_and_redact (Utf8.from_utf8_lossy segment) patterns).1.
Definition joined (l : list string) : string := foldr String.append "" l.
Definition received (inner : list Inner) : string :=
  joined (omap (λ i, match i with Chunk b => Some b | _ => None end) inner).
Definition failed (i : Inner) : bool := match i with Failed _ => true | _ => false end.
(** The polls that are still to come. *)
Definition polls (buffer : string) (inner : list Inner) : nat :=
  match inner with [] => if String.eqb buffer "" then 1 else 2 | _ => length inner + 2 end.

Lemma flush_spec patterns n buffer :
  (0 < n ≤ String.length buffer)%nat →
  let '(out, rest) := flush_chunk patterns n buffer in
  ∃ segment, segment ≠ "" ∧ out = redacted patterns segment ∧ segment +:+ rest = buffer.
Proof.
  intros Hn. unfold flush_chunk. exists (String.substring 0 n buffer). split; [|split; [done|by apply substring_split; lia]].
  destruct buffer, n; cbn in *; try lia; done.
Qed.

Definition poll_ok patterns (buffer : string) (inner : list Inner) (x : Poll * string * list Inner) : Prop :=
  let '(res, buffer', rest) := x in
  existsb failed rest = false ∧
  match res with
  | Ready None => buffer +:+ received inner = ""
  | Ready (Some (inl out)) =>
      ∃ segment, segment ≠ "" ∧ out = redacted patterns segment ∧
        segment +:+ (buffer' +:+ received rest) = buffer +:+ received inner ∧ (polls buffer' rest < polls buffer inner)%nat
  | Ready (Some (inr _)) => False
  | Pending => buffer' +:+ received rest = buffer +:+ received inner ∧ (polls buffer' rest < polls buffer inner)%nat
  end.

Lemma flush_ok patterns n buffer rest whole inner :
  (0 < n ≤ String.length buffer)%nat → existsb failed rest = false →
  buffer +:+ received rest = whole +:+ received inner → (length rest < length inner)%nat ∨ rest = [] ∧ inner = [] ∧ n = String.length buffer ∧ whole ≠ "" →
  poll_ok patterns whole inner
    (let '(out, left_over) := flush_chunk patterns n buffer in (Ready (Some (inl out)), left_over, rest)).
Proof.
  intros Hn Hf Hw Hl. pose proof (flush_spec patterns n buffer Hn) as H.
  destruct (flush_chunk _ _ _) as [out left_over] eqn:Ef. destruct H as (segment&Hs&->&Hb). split; [done|].
  exists segment. split_and!; [done..| |].
  - by rewrite <- app_assoc_string, Hb.
  - destruct Hl as [Hl|(->&->&->&Hwh)]; unfold polls.
    + destruct inner; [cbn in Hl; lia|]. destruct rest; cbn in *; [destruct (String.eqb _ _)|]; lia.
    + unfold flush_chunk in Ef. injection Ef as _ <-. rewrite Nat.sub_diag.
      assert (String.substring (String.length buffer) 0 buffer = "") as -> by (clear; induction buffer; done).
      destruct (String.eqb_spec whole ""); [done|]. cbn. lia.
Qed.
Lemma poll_next_ok patterns inner : ∀ buffer,
  existsb failed inner = false → poll_ok patterns buffer inner (poll_next patterns buffer inner).
Proof.
  induction inner as [|i inner IH]; intros buffer Hf.
  - cbn [poll_next]. destruct (String.eqb_spec buffer "") as [->|Hb]; [done|].
    apply flush_ok; [|done|done|by right]. destruct buffer; [done|cbn; lia].
  - cbn [existsb] in Hf. apply orb_false_iff in Hf as [Hi Hf]. unfold STREAM_OVERLAP in *. destruct i as [b|e|]; [|done|].
    + cbn [poll_next]. unfold STREAM_OVERLAP.
      assert ((buffer +:+ b) +:+ received inner = buffer +:+ received (Chunk b :: inner)) as Hr by apply app_assoc_string.
      destruct (Nat.ltb_spec (256 * 2) (String.length (buffer +:+ b))) as [Hl|Hl].
      * apply flush_ok; [lia|done|done|left; cbn; lia].
      * specialize (IH (buffer +:+ b) Hf). destruct (poll_next _ _ _) as [[res buffer'] rest]. destruct IH as [H1 H2].
        assert (polls (buffer +:+ b) inner < polls buffer (Chunk b :: inner))%nat as Hp
          by (unfold polls; destruct inner; cbn; [destruct (String.eqb _ _)|]; lia).
        split; [done|]. destruct res as [[[out|e]|]|]; [|done| |].
        -- destruct H2 as (segment&?&?&?&?). exists segment. rewrite <- Hr. split_and!; [done..|lia].
        -- by rewrite <- Hr.
        -- rewrite <- Hr. destruct H2. split; [done|lia].
    + cbn [poll_next]. unfold STREAM_OVERLAP. destruct (Nat.ltb_spec 256 (String.length buffer)) as [Hl|Hl].
      * apply flush_ok; [lia|done|done|left; cbn; lia].
      * split; [done|]. split; [done|]. unfold polls. destruct inner; cbn; [destruct (String.eqb _ _)|]; lia.
Qed.

Lemma collect_partition patterns fuel : ∀ buffer inner,
  existsb failed inner = false → (polls buffer inner ≤ fuel)%nat →
  ∃ segments, collect fuel patterns buffer inner = Some (inl ∘ redacted patterns <$> segments) ∧
    joined segments = buffer +:+ received inner ∧ Forall (λ s, s ≠ "") segments.
Proof.
  induction fuel as [|fuel IH]; intros buffer inner Hf Hfuel.
  - unfold polls in Hfuel. destruct inner; [destruct (String.eqb _ _)|cbn in Hfuel]; lia.
  - cbn [collect]. pose proof (poll_next_ok patterns inner buffer Hf) as H.
    destruct (poll_next _ _ _) as [[res buffer'] rest]. destruct H as [Hf' H]. destruct res as [[[out|e]|]|]; [|done| |].
    + destruct H as (segment&Hs&->&Hw&Hp). destruct (IH buffer' rest Hf' ltac:(lia)) as (segments&->&Hj&Ha).
      exists (segment :: segments). split_and!; [done| |by constructor]. cbn [joined foldr]. fold (joined segments). by rewrite Hj.
    + exists []. split_and!; [done|by rewrite H|done].
    + destruct H as [Hw Hp]. destruct (IH buffer' rest Hf' ltac:(lia)) as (segments&->&Hj&Ha).
      exists segments. by rewrite <- Hw.
Qed.

Definition scans (config : SanitizerConfig) (content_type : option string) : Prop :=
  enabled config = true ∧ redact_secrets config = true ∧ scan_response config = true ∧
  ∃ t, content_type = Some t ∧ contains t "text/event-stream" = true.

Lemma sse_collects config content_type patterns inner :
  scans config content_type → compile_patterns compile config = Some patterns →
  sanitize_sse_response compile config content_type inner = Done (collect (length inner + 2) patterns "" inner).
Proof. intros (He&Hr&Hs&t&->&Ht) Hc. unfold sanitize_sse_response. by rewrite He, Hr, Hs, Ht, Hc. Qed.

(** C36. A screened stream of events comes to its end, and what the reader has got is the
    received bytes cut into pieces, none lost, none twice and none out of order, and
    each piece redacted by itself. *)
Theorem stream_redacted config content_type patterns inner :
  scans config content_type → compile_patterns compile config = Some patterns → existsb failed inner = false →
  ∃ segments,
    sanitize_sse_response compile config content_type inner = Done (Some (inl ∘ redacted patterns <$> segments)) ∧
    joined segments = received inner ∧ Forall (λ s, s ≠ "") segments.
Proof.
  intros Hs Hc Hf. rewrite (sse_collects _ _ _ _ Hs Hc).
  destruct (collect_partition patterns (length inner + 2) "" inner Hf) as (segments&->&Hj&Ha).
  - unfold polls. destruct inner; cbn; lia.
  - by exists segments.
Qed.

(** A text of single bytes no part of which matches comes through as it is. *)
Lemma ascii_valid s : all_bytes (λ c, Utf8.byte c <? 128) s = true → Utf8.from_utf8_lossy s = s.
Proof.
  unfold Utf8.from_utf8_lossy. induction s as [|c s IH]; [done|]. cbn [all_bytes]. intros [Hc Hs]%andb_true_iff.
  cbn [Utf8.decode Utf8.next Utf8.lead]. unfold Utf8.lead. rewrite Hc. specialize (IH Hs).
  destruct (Utf8.decode Utf8.Ready s) as [t ok]. cbn in *. by rewrite IH.
Qed.
Lemma stream_unchanged patterns inner :
  existsb failed inner = false → all_bytes (λ c, Utf8.byte c <? 128) (received inner) = true →
  (∀ u s v, received inner = u +:+ s +:+ v → clean patterns s) →
  ∃ items, collect (length inner + 2) patterns "" inner = Some (inl <$> items) ∧ joined items = received inner.
Proof.
  intros Hf Ha Hc. destruct (collect_partition patterns (length inner + 2) "" inner Hf) as (segments&->&Hj&_).
  { unfold polls. destruct inner; cbn; lia. }
  change ("" +:+ received inner) with (received inner) in Hj. exists segments. split; [|done]. f_equal.
  assert (∀ pre, joined (pre ++ segments) = joined pre +:+ joined segments) as Happ.
  { intros pre. induction pre as [|x pre IH]; [done|]. cbn. fold (joined (pre ++ segments)) (joined pre). by rewrite IH, app_assoc_string. }
  assert (∀ ss pre, segments = pre ++ ss → inl (B:=string) ∘ redacted patterns <$> ss = inl <$> ss) as H; [|by apply (H segments [])].
  induction ss as [|x ss IH]; intros pre Hpre; [done|]. cbn. f_equal.
  - unfold compose, redacted. assert (received inner = joined pre +:+ x +:+ joined ss) as Hx.
    { rewrite <- Hj, Hpre. clear. induction pre as [|y pre IH]; [done|]. cbn. fold (joined (pre ++ x :: ss)) (joined pre).
      by rewrite IH, app_assoc_string. }
    rewrite ascii_valid, clean_scan by (eapply Hc, Hx || (rewrite Hx, !all_bytes_app, !andb_true_iff in Ha; naive_solver)).
    done.
  - apply (IH (pre ++ [x])). by rewrite <- app_assoc.
Qed.
End props.

(** *** A literal, as an expression *)

Fixpoint occurrences (word : string) (s : string) : Z :=
  match s with EmptyString => 0 | String c s' => (if starts_with s word then 1 else 0) + occurrences word s' end.
Fixpoint replace_from (word by_ : string) (skip : nat) (s : string) : string :=
  match s with
  | EmptyString => ""
  | String c s' =>
      match skip with
      | S n => replace_from word by_ n s'
      | O => if starts_with s word then by_ +:+ replace_from word by_ (pred (String.length word)) s'
             else String c (replace_from word by_ O s')
      end
  end.
Definition literal (word : string) : Regex := mkRegex (occurrences word) (λ s r, replace_from word r O s).
(** Only the configured patterns are literals here; the built-in ones match nothing. *)
Definition sample_compile (source : string) : option Regex :=
  if bool_decide (source ∈ BUILTIN.*1.*1) then Some (mkRegex (λ _, 0) (λ s _, s)) else Some (literal source).
Definition sample_config : SanitizerConfig := mkConfig true true true [mkCustom "c" "#" ""].
Definition sample_patterns : list CompiledPattern := stdpp.option.default [] (compile_patterns sample_compile sample_config).

Lemma hash_gone s : occurrences "#" (replace_from "#" "" 0 s) = 0.
Proof.
  assert (∀ c s, starts_with (String c s) "#" = bool_decide (c = "#"%char)) as Hst.
  { intros c t. change (starts_with (String c t) "#") with (if ascii_dec "#" c then starts_with t "" else false).
    destruct (ascii_dec "#" c) as [<-|Hne].
    - rewrite bool_decide_eq_true_2 by done. by destruct t.
    - rewrite bool_decide_eq_false_2 by congruence. done. }
  induction s as [|c s IH]; [done|]. cbn [replace_from]. rewrite Hst. case_bool_decide as Hc; [exact IH|].
  cbn [occurrences]. rewrite Hst, bool_decide_eq_false_2 by done. by rewrite IH.
Qed.
Definition hash_pattern : CompiledPattern := mkPattern (literal "#") "" "custom".
Lemma hash_last : sample_patterns = take 10 sample_patterns ++ [hash_pattern] ∧ hash_pattern ∉ take 10 sample_patterns.
Proof.
  split; [vm_compute; reflexivity|]. assert (Forall (λ p, name p ≠ "custom") (take 10 sample_patterns)) as H.
  { vm_compute. repeat (apply Forall_cons; split; [discriminate|]). apply Forall_nil_2. }
  rewrite Forall_forall in H. intros Hin. by apply H in Hin.
Qed.
Lemma hash_gone_for_good : gone_for_good sample_patterns hash_pattern.
Proof.
  split; [intros t; cbn; by rewrite hash_gone|]. intros before after q t E Hq _.
  destruct hash_last as [Hs Hn]. exfalso.
  assert (length after ≤ 0)%nat; [|destruct after; [by apply not_elem_of_nil in Hq|cbn in *; lia]].
  apply Nat.le_ngt. intros Hl. apply Hn. rewrite Hs in E.
  assert (length (take 10 sample_patterns) = 10%nat) as H10 by (vm_compute; reflexivity).
  assert (length before + S (length after) = 11)%nat as Hlen.
  { change (S (length after)) with (length (hash_pattern :: after)). rewrite <- length_app, <- E, length_app, H10. done. }
  assert ((take 10 sample_patterns ++ [hash_pattern]) !! length before = Some hash_pattern) as Hb
    by (rewrite E; by apply list_lookup_middle).
  rewrite lookup_app_l in Hb by lia. by eapply list_elem_of_lookup_2.
Qed.
Lemma body_redacted_witness :
  ∃ text, sanitized_body sample_compile sample_config (Some "key #1") = Done (Some text) ∧ text = "key 1" ∧
    find_count (regex hash_pattern) text ≤ 0.
Proof.
  destruct (body_redacted sample_compile sample_config (Some "key #1") sample_patterns) as (text&H1&H2&_).
  - reflexivity.
  - reflexivity.
  - vm_compute. reflexivity.
  - exists text. split; [exact H1|]. assert (text = "key 1") as Ht by (vm_compute in H1; by injection H1 as <-).
    split; [exact Ht|]. destruct H2 as [He|H2]; [rewrite Ht in He; discriminate|]. apply H2; [|apply hash_gone_for_good].
    rewrite (proj1 hash_last). apply elem_of_app. right. by left.
Defined.
Lemma stream_redacted_witness :
  ∃ segments, joined segments = "a#bc#" ∧
    sanitize_sse_response sample_compile sample_config (Some "text/event-stream") [Chunk "a#b"; NotYet; Chunk "c#"] =
      Done (Some (inl ∘ redacted sample_patterns <$> segments)).
Proof.
  destruct (stream_redacted sample_compile sample_config (Some "text/event-stream") sample_patterns
    [Chunk "a#b"; NotYet; Chunk "c#"]) as (segments&H1&H2&_).
  - split_and!; [reflexivity..|]. by exists "text/event-stream".
  - vm_compute. reflexivity.
  - reflexivity.
  - exists segments. split; [exact H2|exact H1].
Defined.

(** *** Where the stream is cut *)

Fixpoint times (n : nat) (s : string) : string := match n with O => "" | S n => s +:+ times n s end.
Definition word_config : SanitizerConfig := mkConfig true true true [mkCustom "c" "sk_secret_key" "[REDACTED]"].
Definition screened (config : SanitizerConfig) (inner : list Inner) : option string :=
  match sanitize_sse_response sample_compile config (Some "text/event-stream") inner with
  | Done (Some items) => Some (joined (omap (λ i, match i with inl t => Some t | inr _ => None end) items))
  | _ => None
  end.

(** A secret is cut in two where the stream is flushed, 256 bytes before the end of what
    has arrived, and both halves go out. *)
Example straddling_secret_leaks :
  let text := times 250 "a" +:+ "sk_secret_key" +:+ times 250 "b" in
  scan_and_redact text [mkPattern (literal "sk_secret_key") "[REDACTED]" "c"] = (times 250 "a" +:+ "[REDACTED]" +:+ times 250 "b", 1) ∧
  screened word_config [Chunk text] = Some text.
Proof. vm_compute. split; reflexivity. Qed.

(** So is a character of more than one byte: both parts become replacement characters,
    though nothing was to be redacted. *)
Example cut_character_garbled :
  let e := String "195" (String "169" "") in
  let text := times 257 e +:+ "x" in
  screened word_config [Chunk text] ≠ Some text.
Proof. vm_compute. discriminate. Qed.

(** The last 256 bytes are held back for as long as the model is silent. *)
Example tail_held_back :
  poll_next [] "" [Chunk "data: hello"; NotYet; NotYet] = (Pending, "data: hello", [NotYet]).
Proof. reflexivity. Qed.
End SanitizerProps.
