(* ===== verification/Credentials.v ===== *)
(** The credential store (credential/mod.rs, credential/crypto.rs and
    credential/file_store.rs): secrets of channels in a TOML file, encrypted under
    keys derived from the administrator's token, and the trait through which
    [ChannelManager] reads them. *)

From S2P Require Import Prelude Provider Channel ChannelManager.

(** ** Encryption at rest (crypto.rs) *)
Module Crypto.

Definition PREFIX_V1 : string := "enc:v1:".
Definition PREFIX_V2 : string := "enc:v2:".
Record EncryptionKey := mkKey { v1 : string; v2 : string }.

(** The crates: digests, the 32 bytes of HKDF, AES-256-GCM with its two ways to fail,
    and base64. *)
Record Crates := mkCrates {
  sha256 : string → string;
  hkdf : string → string → string → string;
  seal : string → string → string → option string;
  open : string → string → string → option string;
  encode : string → string;
  decode : string → option string;
}.

Section crypto.
Context (X : Crates).

Definition derive_key_v1 (secret : string) : string :=
  sha256 X ("modelswitch-credential-encryption-v1" +:+ secret).
Definition derive_key_v2 (secret : string) : string :=
  hkdf X "modelswitch-credential-encryption-v2" secret "aes-256-gcm-key".
Definition derive (secret : string) : EncryptionKey := mkKey (derive_key_v1 secret) (derive_key_v2 secret).

(** [nonce] is the value of [rand::random]. *)
Definition encrypt (key : EncryptionKey) (nonce plaintext : string) : string + string :=
  match seal X (v2 key) nonce plaintext with
  | Some ciphertext => inl (PREFIX_V2 +:+ encode X (nonce +:+ ciphertext))
  | None => inr "AES-GCM encryption failed"
  end.

Definition open_payload (aes_key payload : string) : string + string :=
  match decode X payload with
  | None => inr "invalid base64 in encrypted value"
  | Some combined =>
      if (String.length combined <? 12)%nat then inr "encrypted value too short (missing nonce)"
      else
        let nonce := String.substring 0 12 combined in
        let ciphertext := String.substring 12 (String.length combined - 12) combined in
        match open X aes_key nonce ciphertext with
        | None => inr "AES-GCM decryption failed"
        | Some plaintext =>
            match Utf8.from_utf8 plaintext with
            | Some text => inl text
            | None => inr "decrypted value is not valid UTF-8"
            end
        end
  end.
Definition decrypt (key : EncryptionKey) (encoded : string) : string + string :=
  match strip_prefix PREFIX_V2 encoded, strip_prefix PREFIX_V1 encoded with
  | Some rest, _ => open_payload (v2 key) rest
  | None, Some rest => open_payload (v1 key) rest
  | None, None => inr "value is not encrypted (missing enc:v1:/enc:v2: prefix)"
  end.
Definition is_encrypted (value : string) : bool := starts_with value PREFIX_V1 || starts_with value PREFIX_V2.

(** What the crates promise: what was sealed is opened by the key that sealed it and
    by no other, and base64 is read back. *)
Record laws : Prop := {
  open_seal k n p c : seal X k n p = Some c → open X k n c = Some p;
  open_other k k' n p c : k ≠ k' → seal X k n p = Some c → open X k' n c = None;
  decode_encode b : decode X (encode X b) = Some b;
}.
End crypto.
End Crypto.

(** ** The trait (mod.rs) *)

(** A store over a world that answers its system calls. *)
Class CredentialStore (S W : Type) := {
  get : string → string → S → option string;
  set : W → string → string → string → S → S * option string;
  delete : W → string → string → S → S * option string;
}.

(** What a client relies on: within a service a name has the value last set for it,
    whatever the calls answer. *)
Class CredentialStoreLaws (S W : Type) `{CredentialStore S W} : Prop := {
  get_set (w : W) service u p s u' :
    get service u' (set w service u p s).1 = if String.eqb u u' then Some p else get service u' s;
  get_delete (w : W) service u s u' :
    get service u' (delete w service u s).1 = if String.eqb u u' then None else get service u' s;
}.

(** ** The store in a file (file_store.rs) *)
Module FileStore.
Import Crypto.

(** A file has contents and permission bits. *)
Record File := mkFile { content : string; mode : Z }.
Abbreviation Fs := (gmap string File) (only parsing).

Record FileCredentialStore := mkStore {
  path : string;
  cache : gmap string string;
  encryption_key : option EncryptionKey;
}.
Definition with_cache (c : gmap string string) (s : FileCredentialStore) : FileCredentialStore :=
  mkStore (path s) c (encryption_key s).

(** The toml crate: reading, the views [as_table] and [as_str], and the printing of a
    table of strings. *)
Record Toml := mkToml {
  doc : Type;
  from_str : string → option doc;
  as_table : doc → option (gmap string doc);
  as_str : doc → option string;
  to_string_pretty : gmap string string → option string;
}.

(** What the system answers in a [persist]: the value of [rand::random] drawn for an
    entry, whether the directory is there, whether the file is written (or which part
    of it) with the mask for new files, and whether its mode is set. *)
Record Calls := mkCalls {
  nonce : string → string;
  dir_ok : bool;
  umask : Z;
  write_ok : bool;
  written : option string;
  chmod_ok : bool;
}.

Section store.
Context (X : Crates) (T : Toml).

(** The value of an entry of the file; [None] skips it. *)
Definition loaded (encryption_key : option EncryptionKey) (s : string) : option string :=
  if is_encrypted s then
    match encryption_key with
    | Some key => match decrypt X key s with inl v => Some v | inr _ => None end
    | None => None
    end
  else Some s.

(** The file is read as a table or not at all. *)
Definition read_table (path : string) (fs : Fs) : option (gmap string (doc T)) :=
  match fs !! path with
  | None => None
  | Some f => match from_str T (content f) with Some data => as_table T data | None => None end
  end.
Definition build (app_config_dir : string) (encryption_key : option EncryptionKey) (fs : Fs) : FileCredentialStore :=
  let path := app_config_dir +:+ "/credentials.toml" in
  mkStore path
    (match read_table path fs with
     | Some table => omap (λ v, as_str T v ≫= loaded encryption_key) table
     | None => ∅
     end) encryption_key.
Definition new (app_config_dir : string) (fs : Fs) : FileCredentialStore := build app_config_dir None fs.
Definition with_encryption (app_config_dir admin_token : string) (fs : Fs) : FileCredentialStore :=
  build app_config_dir (Some (derive X admin_token)) fs.
Definition create_credential_store (app_config_dir : string) (admin_token : option string) (fs : Fs)
    : FileCredentialStore :=
  match admin_token with
  | Some token => with_encryption app_config_dir token fs
  | None => new app_config_dir fs
  end.

Definition key (service username : string) : string := service +:+ ":" +:+ username.

Definition stored_value (encryption_key : option EncryptionKey) (n v : string) : option string :=
  match encryption_key with
  | Some key => match encrypt X key n v with inl s => Some s | inr _ => None end
  | None => Some v
  end.
(** [?] in the loop over the cache: one failure is the failure of all. *)
Definition stored_table (c : Calls) (s : FileCredentialStore) : option (gmap string string) :=
  let stored := map_imap (λ k v, stored_value (encryption_key s) (nonce c k) v) (cache s) in
  if bool_decide (dom stored = dom (cache s)) then Some stored else None.

(** [fs::write] truncates a file and keeps its mode; a new one has the mode that the
    mask leaves of 0666. *)
Definition write (c : Calls) (p text : string) (fs : Fs) : Fs :=
  let m := match fs !! p with Some f => mode f | None => Z.land 438 (Z.lnot (umask c)) end in
  <[p := mkFile text m]> fs.
Definition set_permissions (p : string) (m : Z) (fs : Fs) : Fs := alter (λ f, mkFile (content f) m) p fs.

(** The states of the file system that [persist] goes through, and its error. *)
Definition persist_states (c : Calls) (s : FileCredentialStore) (fs : Fs) : list Fs * option string :=
  match stored_table c s with
  | None => ([], Some "encryption failed for credential key")
  | Some table =>
      if negb (dir_ok c) then ([], Some "create_dir_all") else
      match to_string_pretty T table with
      | None => ([], Some "to_string_pretty")
      | Some text =>
          if write_ok c then
            let fs1 := write c (path s) text fs in
            if chmod_ok c then ([fs1; set_permissions (path s) 384 fs1], None)
            else ([fs1], Some "set_permissions")
          else (match written c with Some part => [write c (path s) part fs] | None => [] end, Some "write")
      end
  end.
Definition persist (c : Calls) (s : FileCredentialStore) (fs : Fs) : Fs * option string :=
  let '(states, e) := persist_states c s fs in (default fs (last states), e).

(** The operations of the trait, on the store and its file system. *)
Definition get_credential (service username : string) (st : FileCredentialStore * Fs) : option string :=
  cache st.1 !! key service username.
Definition update (c : Calls) (f : gmap string string → gmap string string) (st : FileCredentialStore * Fs)
    : (FileCredentialStore * Fs) * option string :=
  let s := with_cache (f (cache st.1)) st.1 in
  let '(fs, e) := persist c s st.2 in ((s, fs), e).
Definition set_credential (c : Calls) (service username password : string)
    : FileCredentialStore * Fs → (FileCredentialStore * Fs) * option string :=
  update c <[key service username := password]>.
Definition delete_credential (c : Calls) (service username : string)
    : FileCredentialStore * Fs → (FileCredentialStore * Fs) * option string :=
  update c (base.delete (key service username)).

#[global] Instance file_store : CredentialStore (FileCredentialStore * Fs) Calls := {
  get := get_credential;
  set := set_credential;
  delete := delete_credential;
}.

(** What the toml crate promises of a table it has printed, and of every string. *)
Record toml_laws : Prop := {
  from_printed m text : to_string_pretty T m = Some text →
    ∃ d t, from_str T text = Some d ∧ as_table T d = Some t ∧ as_str T <$> t = Some <$> m;
  str_utf8 d s : as_str T d = Some s → Utf8.from_utf8 s = Some s;
}.
End store.
End FileStore.

Module CredentialFacts.
Import Crypto FileStore.

#[export] Instance file_store_laws X T : @CredentialStoreLaws _ _ (file_store X T).
Proof.
  assert (∀ service u u', key service u = key service u' ↔ u = u') as Hk.
  { intros service u u'. unfold key. split; [|by intros ->]. induction service as [|c s IH]; [by intros [= ?]|].
    intros [= H]. by apply IH. }
  split; intros; cbn; unfold get_credential, set_credential, delete_credential, update;
    destruct (persist _ _ _ _ _) as [fs e]; cbn.
  - destruct (String.eqb_spec u u') as [->|Hne]; [by rewrite lookup_insert_eq|].
    apply lookup_insert_ne. by rewrite Hk.
  - destruct (String.eqb_spec u u') as [->|Hne]; [by rewrite lookup_delete_eq|].
    apply lookup_delete_ne. by rewrite Hk.
Qed.

(** *** Sealing *)

Lemma substring_left n c : String.substring 0 (String.length n) (n +:+ c) = n.
Proof. induction n as [|a n IH]; [by destruct c|]. change (String a (String.substring 0 (String.length n) (n +:+ c)) = String a n). by rewrite IH. Qed.
Lemma substring_right n c : String.substring (String.length n) (String.length c) (n +:+ c) = c.
Proof.
  induction n as [|a n IH]; [|exact IH]. induction c as [|b c IH]; [done|].
  change (String b (String.substring 0 (String.length c) ("" +:+ c)) = String b c). by f_equal.
Qed.
Lemma sealed_payload X k n c : laws X → String.length n = 12%nat →
  open_payload X k (encode X (n +:+ c)) =
    match open X k n c with
    | None => inr "AES-GCM decryption failed"
    | Some p => match Utf8.from_utf8 p with Some t => inl t | None => inr "decrypted value is not valid UTF-8" end
    end.
Proof.
  intros L Hn. unfold open_payload. rewrite (decode_encode _ L), length_app_str, Hn.
  destruct (Nat.ltb_spec (12 + String.length c) 12); [lia|].
  replace (12 + String.length c - 12)%nat with (String.length c) by lia.
  pose proof (substring_left n c) as Hl. pose proof (substring_right n c) as Hr. rewrite Hn in Hl, Hr.
  by rewrite Hl, Hr.
Qed.

Definition sealed (X : Crates) (version k p s : string) : Prop :=
  ∃ n c, String.length n = 12%nat ∧ seal X k n p = Some c ∧ s = version +:+ encode X (n +:+ c).

Lemma sealed_encrypted X k p s :
  sealed X PREFIX_V1 k p s ∨ sealed X PREFIX_V2 k p s → is_encrypted s = true.
Proof.
  assert (∀ a b, starts_with (a +:+ b) a = true) as H by (intros a b; apply starts_with_spec; eauto).
  intros [(n&c&_&_&->)|(n&c&_&_&->)]; unfold is_encrypted; rewrite H; [done|]. apply orb_true_r.
Qed.
Lemma decrypt_v1 X k p s : laws X → Utf8.from_utf8 p = Some p → sealed X PREFIX_V1 (v1 k) p s → decrypt X k s = inl p.
Proof.
  intros L Hp (n&c&Hn&Hs&->). unfold decrypt.
  change (strip_prefix PREFIX_V2 (PREFIX_V1 +:+ encode X (n +:+ c))) with (@None string).
  rewrite strip_prefix_app, sealed_payload by done. by rewrite (open_seal _ L _ _ _ _ Hs), Hp.
Qed.
Lemma decrypt_v2 X k p s : laws X → Utf8.from_utf8 p = Some p → sealed X PREFIX_V2 (v2 k) p s → decrypt X k s = inl p.
Proof.
  intros L Hp (n&c&Hn&Hs&->). unfold decrypt.
  rewrite strip_prefix_app, sealed_payload by done. by rewrite (open_seal _ L _ _ _ _ Hs), Hp.
Qed.
Lemma decrypt_other X k k' p s : laws X → k ≠ v2 k' → sealed X PREFIX_V2 k p s → ∃ e, decrypt X k' s = inr e.
Proof.
  intros L Hne (n&c&Hn&Hs&->). unfold decrypt.
  rewrite strip_prefix_app, sealed_payload by done. rewrite (open_other _ L _ _ _ _ _ Hne Hs). eauto.
Qed.
Lemma encrypt_sealed X k n v s : String.length n = 12%nat → encrypt X k n v = inl s → sealed X PREFIX_V2 (v2 k) v s.
Proof.
  intros Hn. unfold encrypt. destruct (seal X (v2 k) n v) as [c|] eqn:E; [|done]. intros [= <-]. by exists n, c.
Qed.

(** *** What a store holds *)

(** A value that a store can keep: text, and in a store without a key text that does
    not look encrypted. *)
Definition keeps (ek : option EncryptionKey) (v : string) : Prop :=
  Utf8.from_utf8 v = Some v ∧ (ek = None → is_encrypted v = false).
Definition fit (s : FileCredentialStore) : Prop := map_Forall (λ _ v, keeps (encryption_key s) v) (cache s).
Definition nonces_ok (c : Calls) : Prop := ∀ k, String.length (nonce c k) = 12%nat.

Lemma stored_loaded X ek n v t :
  laws X → keeps ek v → String.length n = 12%nat → stored_value X ek n v = Some t → loaded X ek t = Some v.
Proof.
  intros L [Hv He] Hn. unfold stored_value, loaded. destruct ek as [k|].
  - destruct (encrypt X k n v) as [s|] eqn:E; [|done]. intros [= <-].
    apply encrypt_sealed in E; [|done]. rewrite (sealed_encrypted X (v2 k) v) by auto. by rewrite (decrypt_v2 X k v).
  - intros [= <-]. by rewrite He.
Qed.
Lemma from_utf8_same b s : Utf8.from_utf8 b = Some s → s = b.
Proof. unfold Utf8.from_utf8. destruct (_.2); by intros [= ->]. Qed.
Lemma open_payload_text X k p v : open_payload X k p = inl v → Utf8.from_utf8 v = Some v.
Proof.
  unfold open_payload. repeat case_match; try done. intros [= ->].
  match goal with H : Utf8.from_utf8 _ = Some _ |- _ => by pose proof (from_utf8_same _ _ H) as <- end.
Qed.
Lemma loaded_keeps X ek s v : Utf8.from_utf8 s = Some s → loaded X ek s = Some v → keeps ek v.
Proof.
  intros Hs. unfold loaded. destruct (is_encrypted s) eqn:E; [|by intros [= <-]].
  destruct ek as [k|]; [|done]. destruct (decrypt X k s) as [w|] eqn:Ed; [|done]. intros [= ->]. split; [|done].
  unfold decrypt in Ed. repeat case_match; try done; by eapply open_payload_text.
Qed.
Lemma build_fit X T dir ek fs : toml_laws T → fit (build X T dir ek fs).
Proof.
  intros HT k v. cbn. destruct (read_table _ _ _) as [table|]; [|by rewrite lookup_empty].
  rewrite lookup_omap. destruct (table !! k) as [d|]; [|done]. cbn.
  destruct (as_str T d) as [s|] eqn:Es; [|done]. cbn. apply loaded_keeps. by eapply str_utf8.
Qed.

(** *** What a [persist] that succeeds leaves *)

Lemma persist_done X T c s fs fs' :
  persist X T c s fs = (fs', None) →
  ∃ table text, stored_table X c s = Some table ∧ to_string_pretty T table = Some text ∧
    fs' !! path s = Some (mkFile text 384).
Proof.
  unfold persist, persist_states. repeat case_match; intros [= <-]; simplify_eq.
  do 2 eexists. split; [done|]. split; [done|]. cbn. unfold set_permissions, write.
  by rewrite lookup_alter_eq, lookup_insert_eq.
Qed.
Lemma stored_lookup X c s table k :
  stored_table X c s = Some table →
  table !! k = cache s !! k ≫= stored_value X (encryption_key s) (nonce c k) ∧ (table !! k = None ↔ cache s !! k = None).
Proof.
  unfold stored_table. case_bool_decide as E; [|done]. intros [= <-]. split; [exact (map_lookup_imap _ _ k)|].
  rewrite <- !not_elem_of_dom. by rewrite E.
Qed.
(** The file is a table of strings. *)
Definition file_reads (T : Toml) (p : string) (fs : gmap string File) (m : gmap string string) : Prop :=
  ∃ t, read_table T p fs = Some t ∧ as_str T <$> t = Some <$> m.
Lemma build_reads X T dir ek fs m :
  file_reads T (dir +:+ "/credentials.toml") fs m → cache (build X T dir ek fs) = omap (loaded X ek) m.
Proof.
  intros (t&Ht&E). cbn. rewrite Ht. apply map_eq. intros k. rewrite !lookup_omap.
  apply (f_equal (lookup k)) in E. rewrite !lookup_fmap in E.
  by destruct (t !! k), (m !! k); simplify_eq/=; rewrite ?E.
Qed.
Lemma persist_reads X T c s fs fs' :
  toml_laws T → persist X T c s fs = (fs', None) →
  ∃ table, stored_table X c s = Some table ∧ file_reads T (path s) fs' table ∧
    mode <$> fs' !! path s = Some 384.
Proof.
  intros HT (table&text&Ht&Htext&Hfs)%persist_done. exists table. split; [done|]. rewrite Hfs. split; [|done].
  destruct (from_printed _ HT _ _ Htext) as (d&t&Hd&Hat&E). exists t. split; [|done].
  unfold read_table. rewrite Hfs. cbn. by rewrite Hd.
Qed.
Lemma persisted_loads X T c s fs fs' dir :
  laws X → toml_laws T → nonces_ok c → fit s → path s = dir +:+ "/credentials.toml" →
  persist X T c s fs = (fs', None) → build X T dir (encryption_key s) fs' = s.
Proof.
  intros L HT Hn Hf Hp (table&Ht&Hr&_)%persist_reads; [|done]. destruct s as [p ca ek]. cbn in *. rewrite Hp in Hr.
  unfold build. rewrite Hp. f_equal. apply (build_reads X T dir ek) in Hr. cbn in Hr. rewrite Hr.
  apply map_eq. intros k. rewrite lookup_omap. destruct (stored_lookup _ _ _ _ k Ht) as [H1 H2]. cbn in *.
  destruct (ca !! k) as [v|] eqn:Ev.
  - destruct (table !! k) as [x|] eqn:Ex; [|by destruct H2 as [H2 _]; specialize (H2 eq_refl)].
    exact (stored_loaded X ek (nonce c k) v x L (Hf k v Ev) (Hn k) (eq_sym H1)).
  - by assert (table !! k = None) as -> by by apply H2.
Qed.

(** *** Requests *)

Inductive Request :=
  | SetCredential (c : Calls) (service username password : string)
  | DeleteCredential (c : Calls) (service username : string).
Definition perform (X : Crates) (T : Toml) (r : Request) (st : FileCredentialStore * gmap string File)
    : (FileCredentialStore * gmap string File) * option string :=
  match r with
  | SetCredential c service username password => set_credential X T c service username password st
  | DeleteCredential c service username => delete_credential X T c service username st
  end.
Definition run (X : Crates) (T : Toml) (rs : list Request) (st : FileCredentialStore * gmap string File)
    : FileCredentialStore * gmap string File := foldl (λ st r, (perform X T r st).1) st rs.
Definition acceptable (ek : option EncryptionKey) (r : Request) : Prop :=
  match r with
  | SetCredential c _ _ password => nonces_ok c ∧ keeps ek password
  | DeleteCredential c _ _ => nonces_ok c
  end.
Definition kept (dir : string) (ek : option EncryptionKey) (s : FileCredentialStore) : Prop :=
  fit s ∧ path s = dir +:+ "/credentials.toml" ∧ encryption_key s = ek.

Lemma perform_updates X T r st :
  ∃ c f, perform X T r st = update X T c f st ∧
    ∀ ek, acceptable ek r → nonces_ok c ∧
      ∀ m, map_Forall (λ _ v, keeps ek v) m → map_Forall (λ _ v, keeps ek v) (f m).
Proof.
  destruct r as [c service u p|c service u]; (eexists c, _; split; [reflexivity|]).
  - intros ek [Hn Hk]. split; [done|]. intros m Hm. by apply map_Forall_insert_2.
  - intros ek Hn. split; [done|]. intros m Hm. by apply map_Forall_delete.
Qed.
Lemma perform_kept X T dir ek r st :
  acceptable ek r → kept dir ek st.1 → kept dir ek (perform X T r st).1.1.
Proof.
  intros Ha (Hf&Hp&He). destruct (perform_updates X T r st) as (c&f&->&H). destruct (H ek Ha) as [_ Hm].
  unfold update. destruct (persist _ _ _ _ _) as [fs e]. split_and!; [|done|done].
  unfold fit in *. cbn in *. rewrite He in *. by apply Hm.
Qed.
Lemma run_kept X T dir ek rs st : Forall (acceptable ek) rs → kept dir ek st.1 → kept dir ek (run X T rs st).1.
Proof.
  intros Hrs. revert st. induction Hrs as [|r rs Hr _ IH]; intros st Hst; [done|]. by apply IH, perform_kept.
Qed.
Lemma perform_loads X T dir ek r st st' :
  laws X → toml_laws T → acceptable ek r → kept dir ek st.1 → perform X T r st = (st', None) →
  build X T dir ek st'.2 = st'.1 ∧ mode <$> st'.2 !! (dir +:+ "/credentials.toml") = Some 384.
Proof.
  intros L HT Ha Hk E. pose proof (perform_kept X T dir ek r st Ha Hk) as (Hf&Hp&He). rewrite E in Hf, Hp, He. cbn in *.
  destruct (perform_updates X T r st) as (c&f&Hu&H). destruct (H ek Ha) as [Hn _]. rewrite Hu in E. unfold update in E.
  destruct (persist _ _ _ _ _) as [fs e] eqn:Ep. injection E as <- ->. cbn in *. split.
  - pose proof (persisted_loads X T c _ _ _ dir L HT Hn Hf Hp Ep) as Hb. cbn in Hb. by rewrite He in Hb.
  - destruct (persist_reads _ _ _ _ _ _ HT Ep) as (_&_&_&Hm). cbn in Hm. by rewrite <- Hp.
Qed.
End CredentialFacts.

Module CredentialProps.
Import Crypto FileStore CredentialFacts.

Section props.
Context (X : Crates) (T : Toml) (L : laws X) (HT : toml_laws T).
Abbreviation file dir := (dir +:+ "/credentials.toml").
Abbreviation chosen token := (derive X <$> token).

Lemma create_build dir token fs : create_credential_store X T dir token fs = build X T dir (chosen token) fs.
Proof. by destruct token. Qed.

(** C31. Whatever acceptable secrets were set and deleted -- with a token any text, without
    one those that do not begin with enc:v1: or enc:v2: (they would be taken for sealed
    ones and skipped, [clear_prefix_lost]) -- and whichever of the writes failed on the way:
    once a request succeeds, the file can be read by its owner alone, and a start with the
    same token (or again without one) finds in it exactly the secrets that the
    running store has. *)
Theorem credentials_survive_restart dir token fs rs r st' :
  Forall (acceptable (chosen token)) rs → acceptable (chosen token) r →
  perform X T r (run X T rs (create_credential_store X T dir token fs, fs)) = (st', None) →
  create_credential_store X T dir token st'.2 = st'.1 ∧ mode <$> st'.2 !! file dir = Some 384.
Proof.
  intros Hrs Hr E. rewrite create_build in *.
  eapply (perform_loads X T dir (chosen token) r); [done..| |exact E].
  apply run_kept; [done|]. split; [by apply build_fit|done].
Qed.

(** A value of the file is a secret: in the clear, or sealed by either version. *)
Definition legacy (token p s : string) : Prop :=
  Utf8.from_utf8 p = Some p ∧
  ((s = p ∧ is_encrypted p = false) ∨
   sealed X PREFIX_V1 (derive_key_v1 X token) p s ∨ sealed X PREFIX_V2 (derive_key_v2 X token) p s).

Lemma legacy_loads token p s : legacy token p s → loaded X (Some (derive X token)) s = Some p.
Proof.
  intros [Hp [[-> He]|Hs]]; unfold loaded; [by rewrite He|].
  destruct Hs as [Hs|Hs].
  - rewrite (sealed_encrypted X (derive_key_v1 X token) p) by auto. by rewrite (decrypt_v1 X (derive X token) p).
  - rewrite (sealed_encrypted X (derive_key_v2 X token) p) by auto. by rewrite (decrypt_v2 X (derive X token) p).
Qed.

(** A file of any age is read, and brought up to date by the next request that
    succeeds: secrets in the clear and secrets sealed by the first version are found
    like those of the second, and afterwards every value in the file is sealed by the
    second version. *)
Theorem legacy_credentials_upgraded dir token fs secrets values r st' :
  file_reads T (file dir) fs values →
  dom values = dom secrets →
  (∀ k p s, secrets !! k = Some p → values !! k = Some s → legacy token p s) →
  acceptable (Some (derive X token)) r →
  let s := create_credential_store X T dir (Some token) fs in
  cache s = secrets ∧
  (perform X T r (s, fs) = (st', None) →
   ∃ values', file_reads T (file dir) st'.2 values' ∧ dom values' = dom (cache st'.1) ∧
     ∀ k p v, cache st'.1 !! k = Some p → values' !! k = Some v → sealed X PREFIX_V2 (derive_key_v2 X token) p v).
Proof.
  intros Hf Hd Hl Ha. cbn zeta. rewrite create_build. change (chosen (Some token)) with (Some (derive X token)). split.
  - rewrite (build_reads _ _ _ _ _ _ Hf). apply map_eq. intros k. rewrite lookup_omap.
    destruct (values !! k) as [s|] eqn:Es, (secrets !! k) as [p|] eqn:Ep; cbn; [| | |done].
    + by apply legacy_loads, (Hl k).
    + apply mk_is_Some, elem_of_dom in Es. rewrite Hd in Es. by apply elem_of_dom in Es as [? ?]; simplify_eq.
    + apply mk_is_Some, elem_of_dom in Ep. rewrite <- Hd in Ep. by apply elem_of_dom in Ep as [? ?]; simplify_eq.
  - destruct (perform_updates X T r (build X T dir (Some (derive X token)) fs, fs)) as (c&f&->&H). intros E. destruct (H _ Ha) as [Hn _].
    unfold update in E. destruct (persist _ _ _ _ _) as [fs' e] eqn:Ep. injection E as <- ->.
    destruct (persist_reads _ _ _ _ _ _ HT Ep) as (table&Ht&Hr&_). exists table. split; [done|]. split.
    + apply set_eq. intros k. rewrite !elem_of_dom, <- !not_eq_None_Some. by rewrite (proj2 (stored_lookup _ _ _ _ k Ht)).
    + intros k p v Hp Hv. destruct (stored_lookup _ _ _ _ k Ht) as [H1 _]. rewrite Hv in H1. cbn in Hp, H1. rewrite Hp in H1.
      cbn in H1. destruct (encrypt X _ (nonce c k) p) as [x|] eqn:Ex; [|done]. injection H1 as ->.
      by apply encrypt_sealed in Ex.
Qed.

(** What a store that came up empty saves is all that is left in the file. *)
Lemma set_on_empty dir ek c service u p s fs st' :
  path s = file dir → encryption_key s = ek → cache s = ∅ →
  nonces_ok c → keeps ek p → set_credential X T c service u p (s, fs) = (st', None) →
  cache (build X T dir ek st'.2) = {[key service u := p]} ∧
  ∃ v, file_reads T (file dir) st'.2 {[key service u := v]} ∧ stored_value X ek (nonce c (key service u)) p = Some v.
Proof.
  intros Hpath <- Hc Hn Hk. unfold set_credential, update. cbn [fst snd]. rewrite Hc. intros E.
  destruct (persist _ _ _ _ _) as [fs' e] eqn:Ep. injection E as <- ->.
  destruct (persist_reads _ _ _ _ _ _ HT Ep) as (table&Ht&Hr&_). cbn in Hr. rewrite Hpath in Hr.
  assert (∃ v, table = {[key service u := v]} ∧ stored_value X (encryption_key s) (nonce c (key service u)) p = Some v)
    as (v&->&Hv).
  { destruct (stored_lookup _ _ _ _ (key service u) Ht) as [H1 H2]. cbn in H1, H2. rewrite lookup_insert_eq in H1, H2.
    destruct (table !! key service u) as [v|] eqn:Ev; [|by destruct H2 as [H2 _]; specialize (H2 eq_refl)].
    exists v. split; [|done]. apply map_eq. intros k. destruct (decide (k = key service u)) as [->|Hne].
    - by rewrite Ev, lookup_singleton_eq.
    - rewrite lookup_singleton_ne by done. apply (stored_lookup _ _ _ _ k Ht). cbn. by rewrite lookup_insert_ne. }
  split; [|by exists v]. cbn [snd]. rewrite (build_reads _ _ _ _ _ _ Hr).
  rewrite (omap_singleton_Some _ _ _ p); [done|]. by eapply stored_loaded.
Qed.

(** A start with another administrator's token loses every secret for good. None of
    the sealed values opens; they are skipped, and the first secret saved afterwards
    replaces the file, so that a return to the old token finds nothing either. *)
Theorem changed_token_erases dir old token fs values c service u p st' :
  derive_key_v2 X old ≠ derive_key_v2 X token →
  file_reads T (file dir) fs values →
  (∀ k s, values !! k = Some s → ∃ secret, sealed X PREFIX_V2 (derive_key_v2 X old) secret s) →
  nonces_ok c → Utf8.from_utf8 p = Some p →
  let s := create_credential_store X T dir (Some token) fs in
  cache s = ∅ ∧
  (set_credential X T c service u p (s, fs) = (st', None) →
   cache (create_credential_store X T dir (Some token) st'.2) = {[key service u := p]} ∧
   cache (create_credential_store X T dir (Some old) st'.2) = ∅).
Proof.
  intros Hne Hf Hv Hn Hp. cbn zeta. rewrite !create_build. change (chosen (Some token)) with (Some (derive X token)).
  assert (∀ k k' s secret, k ≠ derive_key_v2 X k' → sealed X PREFIX_V2 k secret s → loaded X (Some (derive X k')) s = None) as Hno.
  { intros k k' s secret Hkk Hs. unfold loaded. rewrite (sealed_encrypted X k secret) by auto.
    by destruct (decrypt_other X k (derive X k') secret s L Hkk Hs) as [e ->]. }
  assert (cache (build X T dir (Some (derive X token)) fs) = ∅) as He.
  { rewrite (build_reads _ _ _ _ _ _ Hf). apply map_empty. intros k. rewrite lookup_omap.
    destruct (values !! k) as [s|] eqn:Es; [|done]. destruct (Hv _ _ Es) as [secret Hs]. by eapply Hno. }
  split; [done|]. intros E.
  destruct (set_on_empty dir (Some (derive X token)) c service u p
    (build X T dir (Some (derive X token)) fs) fs st' eq_refl eq_refl He Hn ltac:(done) E) as (H1&v&Hr&Hx).
  split; [exact H1|]. rewrite (build_reads _ _ _ _ _ _ Hr). apply map_empty. intros k. rewrite lookup_omap.
  destruct (decide (k = key service u)) as [->|Hk]; [|by rewrite lookup_singleton_ne].
  rewrite lookup_singleton_eq. cbn. unfold stored_value in Hx.
  destruct (encrypt _ _ _ _) as [w|] eqn:Ew; [|done]. injection Hx as ->. apply encrypt_sealed in Ew; [|done].
  by eapply (Hno (derive_key_v2 X token) old).
Qed.

(** A file that is not TOML counts as an empty one, and the next secret replaces it. *)
Theorem corrupt_credentials_replaced dir token fs f c service u p st' :
  fs !! file dir = Some f → from_str T (content f) = None → acceptable (chosen token) (SetCredential c service u p) →
  let s := create_credential_store X T dir token fs in
  cache s = ∅ ∧
  (set_credential X T c service u p (s, fs) = (st', None) →
   cache (create_credential_store X T dir token st'.2) = {[key service u := p]}).
Proof.
  intros Hf Hc [Hn Hk]. cbn zeta. rewrite !create_build.
  assert (cache (build X T dir (chosen token) fs) = ∅) as He by (cbn; unfold read_table; by rewrite Hf, Hc).
  split; [done|]. intros E.
  by apply (set_on_empty dir (chosen token) c service u p (build X T dir (chosen token) fs) fs st' eq_refl eq_refl He Hn Hk E).
Qed.

(** Once the file is its owner's alone it stays so at every step of a [persist],
    failed ones included. *)
Lemma file_stays_private c s fs :
  mode <$> fs !! path s = Some 384 → Forall (λ st, mode <$> st !! path s = Some 384) (persist_states X T c s fs).1.
Proof.
  intros Hm. assert (∀ text, mode <$> write c (path s) text fs !! path s = Some 384) as Hw.
  { intros text. unfold write. rewrite lookup_insert_eq. by destruct (fs !! path s) in Hm |- *. }
  unfold persist_states. repeat case_match; cbn; repeat constructor; try apply Hw.
  unfold set_permissions, write. by rewrite lookup_alter_eq, lookup_insert_eq.
Qed.
End props.

(** A channel whose configuration holds no key of its own is served the secret that was
    stored under its reference. Any implementation of the trait that keeps its laws
    serves it. *)
Lemma stored_key_reaches_channel {S W} `{CredentialStoreLaws S W} (w : W) (st : S) cid m ch p :
  ChannelManager.channels m !! cid = Some ch →
  Channel.api_keys ch = [] → Channel.api_key (Channel.credential ch) = None →
  let st' := (set w "modelswitch" (Channel.key_ref (Channel.credential ch)) p st).1 in
  ChannelManager.get_credential (λ service username, get service username st') cid m = (Done (Some p), m).
Proof.
  intros Hch Hks Hk. cbn zeta. unfold ChannelManager.get_credential. rewrite Hch, Hks, Hk.
  by rewrite get_set, String.eqb_refl.
Qed.
End CredentialProps.

(** ** A concrete cipher and a concrete format, at which the laws hold *)
Module CredentialSample.
Import Crypto FileStore CredentialFacts CredentialProps.

Fixpoint tag (k : string) : string :=
  match k with
  | EmptyString => "0"
  | String a k => String "1" (String a (tag k))
  end.
Definition crates : Crates :=
  mkCrates id (λ salt secret info, salt +:+ secret +:+ info) (λ k _ p, Some (tag k +:+ p))
    (λ k _ c, strip_prefix (tag k) c) id Some.
Lemma tags_differ k k' p : k ≠ k' → strip_prefix (tag k') (tag k +:+ p) = None.
Proof.
  assert (∀ b q a s, strip_prefix (String b q) (String a s) = if ascii_dec b a then strip_prefix q s else None) as E by done.
  revert k'. induction k as [|a k IH]; intros [|b k'] Hne; try done.
  change (strip_prefix (String "1" (String b (tag k'))) (String "1" (String a (tag k +:+ p))) = None).
  rewrite !E. destruct (ascii_dec "1" "1"); [|done]. destruct (ascii_dec b a) as [->|?]; [|done].
  apply IH. congruence.
Qed.
Lemma crates_laws : laws crates.
Proof.
  split; cbn; [| |done].
  - intros k n p c [= <-]. apply strip_prefix_app.
  - intros k k' n p c Hne [= <-]. by apply tags_differ.
Qed.

Fixpoint bits (p : positive) : string :=
  match p with xH => "" | xO p => String "0" (bits p) | xI p => String "1" (bits p) end.
Fixpoint unbits (s : string) : option positive :=
  match s with
  | EmptyString => Some xH
  | String "0" s => xO <$> unbits s
  | String "1" s => xI <$> unbits s
  | _ => None
  end.
Lemma unbits_bits p : unbits (bits p) = Some p.
Proof. induction p as [p IH|p IH|]; cbn; by rewrite ?IH. Qed.

Definition is_text (_ s : string) : Prop := Utf8.from_utf8 s = Some s.
#[local] Instance is_text_dec k s : Decision (is_text k s).
Proof. unfold is_text. apply _. Defined.
Definition toml : Toml :=
  mkToml (gmap string string + string)
    (λ s, inl <$> (unbits s ≫= countable.decode))
    (λ d, match d with inl m => Some (inr <$> m) | inr _ => None end)
    (λ d, match d with inr s => Utf8.from_utf8 s | inl _ => None end)
    (λ m, if decide (map_Forall is_text m) then Some (bits (countable.encode m)) else None).
Lemma reads_texts (m : gmap string string) :
  map_Forall is_text m → as_str toml <$> (inr <$> m : gmap string (doc toml)) = Some <$> m.
Proof.
  intros Hm. apply map_eq. intros k. rewrite !lookup_fmap. destruct (m !! k) as [s|] eqn:E; [|done].
  cbn. f_equal. apply (Hm k s E).
Qed.
Lemma toml_ok : toml_laws toml.
Proof.
  split.
  - intros m text. cbn. destruct (decide _) as [Hm|]; [|done]. intros [= <-]. rewrite unbits_bits. cbn.
    rewrite countable.decode_encode. eexists _, _. split; [reflexivity|]. split; [reflexivity|]. by apply reads_texts.
  - intros d s. cbn. destruct d as [m|t]; [done|]. unfold Utf8.from_utf8. destruct (_.2) eqn:E; [|done].
    intros [= ->]. by rewrite E.
Qed.

(** *** The theorems at work *)

Definition calls (ok : bool) : Calls := mkCalls (λ _, "nonce-nonce-") true 18 ok None true.
Definition a_file (m : gmap string string) : gmap string File :=
  {["/etc/credentials.toml" := mkFile (bits (countable.encode m)) 384]}.
Lemma a_file_reads m : bool_decide (map_Forall is_text m) = true → file_reads toml ("/etc" +:+ "/credentials.toml") (a_file m) m.
Proof.
  intros Hm%bool_decide_eq_true_1. exists (inr <$> m). split; [|by apply reads_texts].
  unfold read_table. change ("/etc" +:+ "/credentials.toml") with "/etc/credentials.toml".
  unfold a_file. rewrite lookup_singleton_eq. cbn. rewrite unbits_bits. cbn. by rewrite countable.decode_encode.
Qed.
Lemma answer {A B} (x : A * B) a b : x = (a, b) → b = x.2.
Proof. by intros ->. Qed.
Lemma reached {A B} (x : A * B) a b : x = (a, b) → a = x.1.
Proof. by intros ->. Qed.
Definition sample_requests : list Request :=
  [SetCredential (calls true) "modelswitch" "a" "key-a"; SetCredential (calls false) "modelswitch" "b" "key-b"].
Definition last_request : Request := DeleteCredential (calls true) "modelswitch" "a".
Lemma calls_nonces ok : nonces_ok (calls ok).
Proof. by intros k. Qed.

Lemma credentials_survive_restart_witness :
  ∃ st', perform crates toml last_request
      (run crates toml sample_requests (create_credential_store crates toml "/etc" (Some "token") ∅, ∅)) = (st', None) ∧
    cache st'.1 = {["modelswitch:b" := "key-b"]} ∧ create_credential_store crates toml "/etc" (Some "token") st'.2 = st'.1.
Proof.
  destruct (perform crates toml last_request (run crates toml sample_requests
    (create_credential_store crates toml "/etc" (Some "token") ∅, ∅))) as [st' e] eqn:E.
  assert (e = None) as -> by (rewrite (answer _ _ _ E); vm_compute; reflexivity).
  exists st'. split; [reflexivity|]. split; [rewrite (reached _ _ _ E); vm_compute; reflexivity|].
  apply (credentials_survive_restart crates toml crates_laws toml_ok "/etc" (Some "token") ∅ sample_requests last_request).
  - repeat constructor; try done.
  - apply calls_nonces.
  - exact E.
Defined.

Definition old_secrets : gmap string string := {["modelswitch:x" := "sk-x"; "modelswitch:y" := "sk-y"]}.
Definition old_values : gmap string string :=
  {["modelswitch:x" := "sk-x";
    "modelswitch:y" := PREFIX_V1 +:+ "nonce-nonce-" +:+ tag (derive_key_v1 crates "token") +:+ "sk-y"]}.
Lemma legacy_credentials_upgraded_witness :
  cache (create_credential_store crates toml "/etc" (Some "token") (a_file old_values)) = old_secrets ∧
  ∃ st', perform crates toml last_request (create_credential_store crates toml "/etc" (Some "token") (a_file old_values),
      a_file old_values) = (st', None) ∧
    ∃ values', file_reads toml ("/etc" +:+ "/credentials.toml") st'.2 values' ∧ dom values' = dom old_secrets.
Proof.
  destruct (perform crates toml last_request (create_credential_store crates toml "/etc" (Some "token") (a_file old_values),
      a_file old_values)) as [st' e] eqn:E.
  assert (e = None) as -> by (rewrite (answer _ _ _ E); vm_compute; reflexivity).
  assert (cache st'.1 = old_secrets) as Hc by (rewrite (reached _ _ _ E); vm_compute; reflexivity).
  destruct (legacy_credentials_upgraded crates toml crates_laws toml_ok "/etc" "token" (a_file old_values) old_secrets old_values
    last_request st') as [H1 H2].
  - apply a_file_reads. vm_compute. reflexivity.
  - vm_compute; reflexivity.
  - clear E Hc. intros k p s Hp Hs. destruct (decide (k = "modelswitch:x")) as [->|Hx].
    { vm_compute in Hp, Hs. injection Hp as <-. injection Hs as <-. split; [reflexivity|]. left. by split. }
    destruct (decide (k = "modelswitch:y")) as [->|Hy].
    { unfold old_secrets in Hp. rewrite lookup_insert_ne, lookup_singleton_eq in Hp by done. injection Hp as <-.
      unfold old_values in Hs. rewrite lookup_insert_ne, lookup_singleton_eq in Hs by done. injection Hs as <-.
      split; [reflexivity|]. right. left. by exists "nonce-nonce-", (tag (derive_key_v1 crates "token") +:+ "sk-y"). }
    unfold old_secrets in Hp. by rewrite lookup_insert_ne, lookup_singleton_ne in Hp by done.
  - apply calls_nonces.
  - split; [exact H1|]. exists st'. split; [reflexivity|]. destruct (H2 E) as (values'&Hr&Hd&_). exists values'. rewrite <- Hc.
    split; [exact Hr|exact Hd].
Defined.

Definition sealed_values : gmap string string :=
  {["modelswitch:x" := PREFIX_V2 +:+ "nonce-nonce-" +:+ tag (derive_key_v2 crates "old") +:+ "sk-x"]}.
Lemma changed_token_erases_witness :
  cache (create_credential_store crates toml "/etc" (Some "old") (a_file sealed_values)) = {["modelswitch:x" := "sk-x"]} ∧
  cache (create_credential_store crates toml "/etc" (Some "new") (a_file sealed_values)) = ∅ ∧
  ∃ st', set_credential crates toml (calls true) "modelswitch" "z" "sk-z"
      (create_credential_store crates toml "/etc" (Some "new") (a_file sealed_values), a_file sealed_values) = (st', None) ∧
    cache (create_credential_store crates toml "/etc" (Some "old") st'.2) = ∅.
Proof.
  destruct (set_credential crates toml (calls true) "modelswitch" "z" "sk-z"
    (create_credential_store crates toml "/etc" (Some "new") (a_file sealed_values), a_file sealed_values)) as [st' e] eqn:E.
  assert (e = None) as -> by (rewrite (answer _ _ _ E); vm_compute; reflexivity).
  destruct (changed_token_erases crates toml crates_laws toml_ok "/etc" "old" "new" (a_file sealed_values) sealed_values
    (calls true) "modelswitch" "z" "sk-z" st') as [H1 H2].
  - discriminate.
  - apply a_file_reads. vm_compute. reflexivity.
  - clear E. intros k s Hs. exists "sk-x". unfold sealed_values in Hs. apply lookup_singleton_Some in Hs as [_ <-].
    exists "nonce-nonce-", (tag (derive_key_v2 crates "old") +:+ "sk-x"). split_and!; vm_compute; reflexivity.
  - apply calls_nonces.
  - reflexivity.
  - split; [vm_compute; reflexivity|]. split; [exact H1|]. exists st'. split; [reflexivity|]. exact (proj2 (H2 E)).
Defined.

Lemma corrupt_credentials_replaced_witness :
  cache (create_credential_store crates toml "/etc" None {["/etc/credentials.toml" := mkFile "half a file" 384]}) = ∅.
Proof.
  by apply (corrupt_credentials_replaced crates toml crates_laws toml_ok "/etc" None
    {["/etc/credentials.toml" := mkFile "half a file" 384]} (mkFile "half a file" 384)
    (calls true) "modelswitch" "z" "sk-z" (create_credential_store crates toml "/etc" None ∅, ∅)).
Defined.

(** The first write leaves the file, with all its secrets, readable by everybody until
    its mode is set, and for good if that fails. *)
Example first_write_readable :
  let s := mkStore "/etc/credentials.toml" {["modelswitch:x" := "sk-x"]} None in
  match persist_states crates toml (calls true) s ∅ with
  | ([fs1; _], None) => mode <$> fs1 !! path s = Some 420
  | _ => False
  end.
Proof. vm_compute. reflexivity. Qed.

(** A request that is answered with an error has taken effect in memory. *)
Example failed_set_takes_effect :
  let st := (create_credential_store crates toml "/etc" None ∅, ∅) in
  let '(st', e) := set_credential crates toml (calls false) "modelswitch" "x" "sk-x" st in
  e = Some "write" ∧ get_credential "modelswitch" "x" st' = Some "sk-x" ∧ st'.2 = ∅.
Proof. vm_compute. split_and!; reflexivity. Qed.

(** A secret that begins like a sealed one is lost at the next start of a store without
    a token. *)
Example clear_prefix_lost :
  let st := (create_credential_store crates toml "/etc" None ∅, ∅) in
  let '(st', e) := set_credential crates toml (calls true) "modelswitch" "x" "enc:v2:sk" st in
  e = None ∧ get_credential "modelswitch" "x" st' = Some "enc:v2:sk" ∧
  cache (create_credential_store crates toml "/etc" None st'.2) = ∅.
Proof. vm_compute. split_and!; reflexivity. Qed.
End CredentialSample.
