(* ===== verification/Mcp.v ===== *)
(** The tools of MCP servers (mcp/aggregator.rs, mcp/translator.rs,
    mcp/manager.rs and proxy/mcp_tools.rs): the names under which the tools of
    several servers are offered, the translation of their schemas and of their
    results, the manager of the server processes, and the calls a model asks for.

    A server process is a client handle ([Client]); what its peer answers is an
    argument.  An operation of the manager that gives its lock up while it waits
    for a process is two steps. *)

From S2P Require Import Prelude Json Thinking.

Module Mcp.
Import Json.

(** ** aggregator.rs: names *)

Record AggregatedTool := mkTool {
  namespaced_name : string;
  original_name : string;
  server_id : string;
  description : option string;
  input_schema : value;
}.

Definition namespace_prefix (server_id : string) : string := "mcp__" +:+ server_id +:+ "__".
Definition make_namespaced_name (server_id original_name : string) : string :=
  namespace_prefix server_id +:+ original_name.

(** rmcp's [Tool], the fields that are read. *)
Record Tool := mkRmcpTool {
  tool_name : string;
  tool_description : option string;
  tool_schema : gmap string value;
}.
Definition aggregated (server_id : string) (t : Tool) : AggregatedTool :=
  mkTool (make_namespaced_name server_id (tool_name t)) (tool_name t) server_id
    (tool_description t) (Object (tool_schema t)).

(** [s.split("__").next()] *)
Fixpoint before_separator (s : string) : string :=
  match s with
  | EmptyString => EmptyString
  | String c r => if starts_with s "__" then EmptyString else String c (before_separator r)
  end.

(** [&s[n..]]; the separator is ASCII, so only the length matters. *)
Definition slice_from (n : nat) (s : string) : outcome string :=
  if (n <=? String.length s)%nat then Done (String.substring n (String.length s - n) s) else Panic.

Definition parse_namespaced (name : string) : outcome (option (string * string)) :=
  match strip_prefix "mcp__" name with
  | None => Done None
  | Some rest =>
      let server_id := before_separator rest in
      if String.eqb server_id "" then Done None
      else
        let! original := slice_from (String.length server_id + 2) rest in
        Done (if String.eqb original "" then None else Some (server_id, original))
  end.

(** ** translator.rs *)

Definition sanitize_schema (schema : value) : value :=
  let result := match schema with
                | Object m => m
                | _ => list_to_map [("type", Str "object"); ("properties", obj [])]
                end in
  let m := delete "title" (delete "$id" (delete "$schema" result)) in
  Object (match m !! "type" with Some _ => m | None => <["type" := Str "object"]> m end).

Definition to_openai_function (tool : AggregatedTool) : value :=
  obj [("type", Str "function");
       ("function", obj [("name", Str (namespaced_name tool));
                         ("description", Str (default "" (description tool)));
                         ("parameters", sanitize_schema (input_schema tool))])].
Definition to_anthropic_tool (tool : AggregatedTool) : value :=
  obj [("name", Str (namespaced_name tool));
       ("description", Str (default "" (description tool)));
       ("input_schema", sanitize_schema (input_schema tool))].

(** rmcp's [CallToolResult]: the blocks of its content, and [is_error]. *)
Inductive Content :=
  | TextContent (text : string)
  | ImageContent | AudioContent | ResourceContent | ResourceLink.
Record CallToolResult := mkResult { content : list Content; is_error : option bool }.

Definition content_text (c : Content) : string :=
  match c with
  | TextContent t => t
  | ImageContent => "[image content omitted]"
  | AudioContent => "[audio content omitted]"
  | ResourceContent => "[resource content]"
  | ResourceLink => "[resource link]"
  end.

Definition flatten_tool_result (result : CallToolResult) : string :=
  let body := match content_text <$> content result with
              | [] => "[empty result]"
              | parts => String.concat (String "010"%char EmptyString) parts
              end in
  if default false (is_error result) then "Error: " +:+ body else body.

(** ** mcp_tools.rs: the calls a response asks for *)

Record McpToolCall := mkCall {
  tool_call_id : string;
  call_server : string;
  call_tool_name : string;
  arguments : option (gmap string value);
}.

Section parse.
(** [serde_json::from_str] *)
Context (parse : string → option value).

Definition parse_arguments (arguments : string) : option (gmap string value) :=
  if String.eqb (trim arguments) "" || String.eqb (trim arguments) "null" then None
  else parse arguments ≫= as_object.

Definition parse_mcp_tool_call (name arguments : string)
    : outcome (option (string * string * option (gmap string value))) :=
  let! p := parse_namespaced name in
  Done ((λ '(server_id, original), (server_id, original, parse_arguments arguments)) <$> p).

(** One entry of [tool_calls]: the call, or nothing when it is skipped. *)
Definition detect_call (call : value) : outcome (option McpToolCall) :=
  let id := default "" (get call "id" ≫= as_str) in
  if String.eqb id "" then Done None
  else
    match get call "function" with
    | None => Done None
    | Some function =>
        match get function "name" ≫= as_str with
        | None => Done None
        | Some name =>
            let! p := parse_mcp_tool_call name (default "" (get function "arguments" ≫= as_str)) in
            Done ((λ '(server_id, tool, arguments), mkCall id server_id tool arguments) <$> p)
        end
    end.

Fixpoint detect_all (calls : list value) : outcome (list McpToolCall) :=
  match calls with
  | [] => Done []
  | call :: rest =>
      let! c := detect_call call in
      let! cs := detect_all rest in
      Done (match c with Some c => c :: cs | None => cs end)
  end.

(** The [tool_calls] of every choice's message. *)
Definition calls_of (choice : value) : list value :=
  default [] (get2 choice "message" "tool_calls" ≫= as_array).
Definition choices_of (response_body : value) : list value :=
  default [] (get response_body "choices" ≫= as_array).

Definition detect_mcp_tool_calls (response_body : value) : outcome (list McpToolCall) :=
  detect_all (concat (calls_of <$> choices_of response_body)).
End parse.

Definition inject_tools (body : value) (mcp_tools : list AggregatedTool)
    : outcome (value * list AggregatedTool) :=
  match mcp_tools with
  | [] => Done (body, [])
  | _ =>
      let tools := default [] (get body "tools" ≫= as_array) in
      let! new_body := Thinking.Thinking.index_set body "tools"
                         (Array (tools ++ (to_openai_function <$> mcp_tools))) in
      Done (new_body, mcp_tools)
  end.

(** The result message of a call: what the server answered, or why not. *)
Definition tool_result (call : McpToolCall) (outcome : CallToolResult + string) : value :=
  obj [("role", Str "tool"); ("tool_call_id", Str (tool_call_id call));
       ("content", Str (match outcome with
                        | inl r => flatten_tool_result r
                        | inr e => "Error: MCP tool call failed: " +:+ e
                        end))].

Definition build_followup_request (original_body response_body : value) (tool_results : list value)
    : outcome value :=
  let messages := default [] (get original_body "messages" ≫= as_array) in
  let assistant :=
    match choices_of response_body with
    | choice :: _ =>
        default (obj [("role", Str "assistant"); ("content", Str "")]) (get choice "message")
    | [] => obj [("role", Str "assistant"); ("content", Str "")]
    end in
  let! b := Thinking.Thinking.index_set original_body "messages"
              (Array (messages ++ assistant :: tool_results)) in
  Thinking.Thinking.index_set b "stream" (Bool false).
End Mcp.

(** ** manager.rs *)

Module Manager.
Import Json Mcp.

(** The handle of a running server process. *)
Abbreviation Client := N (only parsing).

(** config/mcp.rs *)
Record McpServerConfig := mkServerConfig {
  config_id : string;
  config_name : string;
  command : string;
  args : list string;
  env : gmap string string;
  cwd : option string;
  server_enabled : bool;
  expose_tools : bool;
}.

Inductive McpServerStatus := Stopped | Running (tool_count : Z) | Error (message : string).

Record McpServerHealth := mkHealth {
  health_name : string;
  healthy : bool;
  last_check : DateTime;
  health_error : option string;
  consecutive_failures : Z;
}.

Record McpServerEntry := mkEntry {
  config : McpServerConfig;
  client : option Client;
  last_error : option string;
  tool_count : option Z;
}.
Definition fresh_entry (c : McpServerConfig) : McpServerEntry := mkEntry c None None None.

Record McpManager := mkManager {
  entries : gmap string McpServerEntry;
  health_status : gmap string McpServerHealth;
}.
Definition new_manager : McpManager := mkManager ∅ ∅.
Definition on_entries (f : gmap string McpServerEntry → gmap string McpServerEntry)
    (m : McpManager) : McpManager := mkManager (f (entries m)) (health_status m).

Definition load_configs (configs : list McpServerConfig) : McpManager :=
  mkManager (foldl (λ es c, <[config_id c := fresh_entry c]> es) ∅ configs) ∅.

(** *** Starting: the check, then the commit once the process is up or not *)

Definition start_check (id : string) (m : McpManager) : McpServerConfig + string :=
  match entries m !! id with
  | None => inr ("Unknown MCP server: " +:+ id)
  | Some e =>
      match client e with
      | Some _ => inr ("MCP server " +:+ id +:+ " is already running")
      | None => inl (config e)
      end
  end.
Definition start_commit (id : string) (spawned : (Client * Z) + string) (m : McpManager)
    : McpManager :=
  on_entries (alter (λ e, match spawned with
    | inl (c, count) => mkEntry (config e) (Some c) None (Some count)
    | inr err => mkEntry (config e) (client e) (Some err) (tool_count e)
    end) id) m.

(** *** Stopping: the client is taken; it is cancelled; then the count goes *)

Definition drop_client (e : McpServerEntry) : McpServerEntry :=
  mkEntry (config e) None (last_error e) (tool_count e).
Definition drop_count (e : McpServerEntry) : McpServerEntry :=
  mkEntry (config e) (client e) (last_error e) None.

Definition stop_take (id : string) (m : McpManager) : McpManager * (option Client + string) :=
  match entries m !! id with
  | None => (m, inr ("Unknown MCP server: " +:+ id))
  | Some e => (on_entries (alter drop_client id) m, inl (client e))
  end.
Definition stop_server (id : string) (m : McpManager) : McpManager :=
  match stop_take id m with
  | (m, inl (Some _)) => on_entries (alter drop_count id) m
  | (m, _) => m
  end.
Definition stop_all (m : McpManager) : McpManager := on_entries (fmap drop_client) m.

(** *** Reloading the configuration *)

Definition to_remove (order : list string) (configs : list McpServerConfig) : list string :=
  List.filter (λ id, negb (bool_decide (id ∈ config_id <$> configs))) order.
Definition put_config (es : gmap string McpServerEntry) (c : McpServerConfig)
    : gmap string McpServerEntry :=
  <[config_id c := match es !! config_id c with
                   | Some e => mkEntry c (client e) (last_error e) (tool_count e)
                   | None => fresh_entry c
                   end]> es.
Definition reload_apply (removed : list string) (configs : list McpServerConfig) (m : McpManager)
    : McpManager :=
  mkManager (foldl put_config (foldl (λ es id, delete id es) (entries m) removed) configs)
    (foldl (λ hs id, delete id hs) (health_status m) removed).
(** [order] is the order in which the map's keys are seen. *)
Definition reload_configs (order : list string) (configs : list McpServerConfig) (m : McpManager)
    : McpManager :=
  let removed := to_remove order configs in
  reload_apply removed configs (foldl (λ m id, stop_server id m) m removed).

(** *** Reading and calling *)

Definition status_of (e : McpServerEntry) : McpServerStatus :=
  match client e, last_error e with
  | Some _, _ => Running (default 0 (tool_count e))
  | None, Some err => Error err
  | None, None => Stopped
  end.
Definition list_status (iter : gmap string McpServerEntry → list (string * McpServerEntry))
    (m : McpManager) : list (string * string * McpServerStatus) :=
  (λ '(id, e), (id, config_name (config e), status_of e)) <$> iter (entries m).

(** The peer [list_tools] and [call_tool] talk to. *)
Definition peer_of (id : string) (m : McpManager) : Client + string :=
  match entries m !! id with
  | None => inr ("Unknown MCP server: " +:+ id)
  | Some e =>
      match client e with
      | None => inr ("MCP server " +:+ id +:+ " is not running")
      | Some c => inl c
      end
  end.
Definition set_tool_count (id : string) (count : Z) (m : McpManager) : McpManager :=
  on_entries (alter (λ e, mkEntry (config e) (client e) (last_error e) (Some count)) id) m.
Definition get_config (id : string) (m : McpManager) : option McpServerConfig :=
  config <$> entries m !! id.

(** *** Health: [result] is what listing the tools gave *)

Definition record_health (name : string) (now : DateTime) (result : option string) (m : McpManager)
    : McpManager :=
  let prev := match health_status m !! name with
              | Some h => if healthy h then 0 else consecutive_failures h
              | None => 0
              end in
  let h := match result with
           | None => mkHealth name true now None 0
           | Some e => mkHealth name false now (Some e) (add_u32 prev 1)
           end in
  mkManager (entries m) (<[name := h]> (health_status m)).
Definition get_health_status (order : list string) (m : McpManager) : list McpServerHealth :=
  omap (λ id, health_status m !! id) order.
End Manager.

Module McpFacts.
Import Mcp.

Lemma contains_cons c r p : contains (String c r) p = starts_with (String c r) p || contains r p.
Proof. done. Qed.

Lemma starts_separator c d r :
  starts_with (String c (String d r)) "__" = bool_decide (c = "_"%char ∧ d = "_"%char).
Proof.
  unfold starts_with. cbn [String.prefix]. destruct (ascii_dec "_" c) as [<-|].
  - destruct (ascii_dec "_" d) as [<-|]; symmetry; [|apply bool_decide_eq_false; naive_solver].
    rewrite bool_decide_eq_true_2 by done. by destruct r.
  - symmetry. apply bool_decide_eq_false. naive_solver.
Qed.

(** The piece before the first separator. *)
Lemma before_separator_none r : contains r "__" = false → before_separator r = r.
Proof.
  induction r as [|c r IH]; [done|]. rewrite contains_cons. cbn [before_separator].
  intros [-> H]%orb_false_elim. by rewrite IH.
Qed.

Lemma before_separator_app s t :
  contains (s +:+ "_") "__" = false → before_separator (s +:+ "__" +:+ t) = s.
Proof.
  induction s as [|c s IH].
  { intros _. change ("" +:+ "__" +:+ t) with (String "_" (String "_" t)). cbn [before_separator].
    by rewrite starts_separator, bool_decide_eq_true_2. }
  change (String c s +:+ ?x) with (String c (s +:+ x)). rewrite contains_cons.
  cbn [before_separator]. intros [H1 H2]%orb_false_elim. rewrite (IH H2).
  enough (starts_with (String c (s +:+ "__" +:+ t)) "__" = false) as -> by done.
  destruct s as [|d s]; change ("" +:+ ?x) with x in *; [|change (String d s +:+ ?x) with (String d (s +:+ x)) in *].
  - change "_" with (String "_" "") in H1. change ("__" +:+ t) with (String "_" (String "_" t)).
    rewrite starts_separator in *. done.
  - rewrite starts_separator in *. done.
Qed.

Lemma before_separator_found r :
  contains r "__" = true →
  ∃ t, r = before_separator r +:+ "__" +:+ t ∧ contains (before_separator r +:+ "_") "__" = false.
Proof.
  induction r as [|c r IH]; [done|]. rewrite contains_cons. cbn [before_separator].
  destruct (starts_with (String c r) "__") eqn:E; cbn [orb].
  - intros _. apply starts_with_spec in E as [t E]. exists t. by split; [exact E|].
  - intros H. destruct (IH H) as (t&Ht&Hc). exists t.
    change (String c ?x +:+ ?y) with (String c (x +:+ y)). split; [by rewrite <- Ht|].
    rewrite contains_cons, Hc, orb_false_r.
    destruct r as [|d r]; [done|].
    rewrite starts_separator in E. cbn [before_separator] in Ht |- *.
    destruct (starts_with (String d r) "__") eqn:Ed.
    + change ("" +:+ "_") with (String "_" ""). destruct r as [|f r]; [done|].
      rewrite starts_separator in *. apply bool_decide_eq_true in Ed as [-> _]. done.
    + change (String d ?x +:+ ?y) with (String d (x +:+ y)). by rewrite starts_separator.
Qed.

Lemma substring_all s : String.substring 0 (String.length s) s = s.
Proof. induction s as [|c s IH]; [done|]. cbn. by rewrite IH. Qed.

Lemma slice_from_app (a b : string) n :
  n = String.length a → slice_from n (a +:+ b) = Done b.
Proof.
  intros ->. unfold slice_from. rewrite length_app_str.
  destruct (Nat.leb_spec (String.length a) (String.length a + String.length b)); [|lia].
  f_equal. replace (String.length a + String.length b - String.length a)%nat
    with (String.length b) by lia.
  induction a as [|c a IH]; [apply substring_all|]. apply IH. cbn in *. lia.
Qed.

(** The three ways to read a name. *)
Lemma parse_namespaced_found s t :
  contains (s +:+ "_") "__" = false →
  parse_namespaced ("mcp__" +:+ s +:+ "__" +:+ t) =
    Done (if String.eqb s "" || String.eqb t "" then None else Some (s, t)).
Proof.
  intros Hs. unfold parse_namespaced. rewrite strip_prefix_app. cbn zeta.
  rewrite before_separator_app by done. destruct (String.eqb_spec s "") as [|Hne]; [done|].
  rewrite <- app_assoc_string, slice_from_app by (by rewrite length_app_str). done.
Qed.

Lemma parse_namespaced_plain r :
  contains r "__" = false →
  parse_namespaced ("mcp__" +:+ r) = if String.eqb r "" then Done None else Panic.
Proof.
  intros Hr. unfold parse_namespaced. rewrite strip_prefix_app. cbn zeta.
  rewrite before_separator_none by done. destruct (String.eqb_spec r "") as [|Hne]; [done|].
  unfold slice_from. by destruct (Nat.leb_spec (String.length r + 2) (String.length r)); [lia|].
Qed.

(** A server and a tool whose name leads back to them. *)
Definition routable (s t : string) : Prop :=
  s ≠ "" ∧ t ≠ "" ∧ contains (s +:+ "_") "__" = false.

Lemma parse_namespaced_routable s t :
  parse_namespaced (make_namespaced_name s t) = Done (Some (s, t)) ↔ routable s t.
Proof.
  unfold routable.
  unfold make_namespaced_name, namespace_prefix. rewrite !app_assoc_string. split.
  - intros H. assert (contains (s +:+ "__" +:+ t) "__" = true) as Hc
      by (apply contains_spec; by exists s, t).
    destruct (before_separator_found _ Hc) as (t'&E&Hb).
    revert E Hb. generalize (before_separator (s +:+ "__" +:+ t)). intros b E Hb.
    rewrite E, parse_namespaced_found in H by done.
    destruct (String.eqb_spec b ""), (String.eqb_spec t' ""); try done.
    injection H as -> ->. done.
  - intros (H1&H2&H3). rewrite parse_namespaced_found by done.
    destruct (String.eqb_spec s ""), (String.eqb_spec t ""); done.
Qed.
End McpFacts.

Module ManagerFacts.
Import Manager.

Lemma lookup_fold_delete {A} (l : list string) (m : gmap string A) id :
  foldl (λ m i, delete i m) m l !! id = if bool_decide (id ∈ l) then None else m !! id.
Proof.
  revert m. induction l as [|i l IH]; intros m; [done|]. cbn [foldl]. rewrite IH.
  destruct (decide (id = i)) as [->|Hne].
  - rewrite lookup_delete_eq, (bool_decide_eq_true_2 (i ∈ i :: l)) by set_solver. by case_match.
  - rewrite lookup_delete_ne by done. by rewrite (bool_decide_ext (id ∈ i :: l) (id ∈ l)) by set_solver.
Qed.

(** The last configuration of a name. *)
Definition config_for (configs : list McpServerConfig) (id : string) : option McpServerConfig :=
  last (List.filter (λ c, String.eqb (config_id c) id) configs).

Lemma config_for_cons c configs id :
  config_for (c :: configs) id =
    match config_for configs id with
    | Some d => Some d
    | None => if String.eqb (config_id c) id then Some c else None
    end.
Proof.
  unfold config_for. cbn [List.filter]. destruct (String.eqb (config_id c) id); [|by case_match].
  rewrite last_cons. done.
Qed.

Lemma config_for_None configs id : config_for configs id = None ↔ id ∉ config_id <$> configs.
Proof.
  induction configs as [|c configs IH]; [set_solver|]. rewrite config_for_cons, fmap_cons.
  destruct (config_for configs id), (String.eqb_spec (config_id c) id); naive_solver set_solver.
Qed.

Definition with_config (e : option McpServerEntry) (c : McpServerConfig) : McpServerEntry :=
  match e with Some e => mkEntry c (client e) (last_error e) (tool_count e) | None => fresh_entry c end.

Lemma lookup_fold_put configs es id :
  foldl put_config es configs !! id =
    match config_for configs id with
    | Some c => Some (with_config (es !! id) c)
    | None => es !! id
    end.
Proof.
  revert es. induction configs as [|c configs IH]; intros es; [done|]. cbn [foldl].
  rewrite IH, config_for_cons. unfold put_config at 1 2. destruct (String.eqb_spec (config_id c) id) as [<-|Hne].
  - rewrite lookup_insert_eq. destruct (config_for configs _); [|done].
    by destruct (es !! config_id c).
  - rewrite lookup_insert_ne by done. by destruct (config_for configs id).
Qed.

Lemma stop_server_other id j m :
  j ≠ id → entries (stop_server id m) !! j = entries m !! j.
Proof.
  intros Hj. unfold stop_server, stop_take.
  destruct (entries m !! id) as [e|]; [|done]. destruct (client e); cbn [on_entries entries];
    by rewrite ?lookup_alter_ne.
Qed.
Lemma stop_server_health id m : health_status (stop_server id m) = health_status m.
Proof.
  unfold stop_server, stop_take. destruct (entries m !! id) as [e|]; [|done].
  by destruct (client e).
Qed.

Lemma stop_servers_other ids j m :
  j ∉ ids → entries (foldl (λ m id, stop_server id m) m ids) !! j = entries m !! j.
Proof.
  revert m. induction ids as [|i ids IH]; intros m Hj; [done|]. cbn [foldl].
  rewrite IH, stop_server_other; set_solver.
Qed.
Lemma stop_servers_health ids m :
  health_status (foldl (λ m id, stop_server id m) m ids) = health_status m.
Proof.
  revert m. induction ids as [|i ids IH]; intros m; [done|]. cbn [foldl].
  by rewrite IH, stop_server_health.
Qed.

Lemma elem_of_to_remove order configs id :
  id ∈ to_remove order configs ↔ id ∈ order ∧ id ∉ config_id <$> configs.
Proof.
  unfold to_remove. rewrite list_elem_of_In, filter_In, <- list_elem_of_In.
  rewrite negb_true_iff, bool_decide_eq_false. done.
Qed.
(** The servers and their health after a reload. *)
Lemma reload_lookup_entries order configs m id :
  (∀ i, i ∈ order ↔ is_Some (entries m !! i)) →
  let m' := reload_configs order configs m in
  entries m' !! id = with_config (entries m !! id) <$> config_for configs id ∧
  health_status m' !! id =
    (if bool_decide (is_Some (entries m !! id) ∧ config_for configs id = None) then None
     else health_status m !! id).
Proof.
  intros Hord m'. subst m'. unfold reload_configs, reload_apply. cbn [entries health_status].
  rewrite lookup_fold_put, !lookup_fold_delete, stop_servers_health. split.
  - destruct (config_for configs id) as [c|] eqn:E; cbn [fmap option_fmap option_map].
    + assert (id ∉ to_remove order configs) as Hid.
      { rewrite elem_of_to_remove. intros [_ Hid]. apply config_for_None in Hid. congruence. }
      rewrite bool_decide_eq_false_2, stop_servers_other by done. done.
    + apply config_for_None in E. destruct (decide (id ∈ to_remove order configs)) as [Hid|Hid].
      * by rewrite bool_decide_eq_true_2.
      * rewrite bool_decide_eq_false_2, stop_servers_other by done.
        rewrite elem_of_to_remove, Hord in Hid. apply eq_None_not_Some. naive_solver.
  - erewrite bool_decide_ext; [reflexivity|]. by rewrite elem_of_to_remove, Hord, config_for_None.
Qed.
End ManagerFacts.

Module McpProps.
Import Json Mcp Manager McpFacts ManagerFacts.

(** The name under which a tool is offered leads back to its server and its
    name exactly when both are non-empty and the server's name neither contains
    two underscores in a row nor ends with one; and reading a name panics
    exactly when nothing but one piece follows the prefix. *)
Theorem mcp_names :
  (∀ s t, parse_namespaced (make_namespaced_name s t) = Done (Some (s, t)) ↔ routable s t) ∧
  (∀ name, parse_namespaced name = Panic ↔
     ∃ rest, name = "mcp__" +:+ rest ∧ rest ≠ "" ∧ contains rest "__" = false).
Proof.
  split.
  - apply parse_namespaced_routable.
  - intros name. split.
    + intros H. unfold parse_namespaced in H. destruct (strip_prefix "mcp__" name) as [rest|] eqn:E;
        [|done]. assert (name = "mcp__" +:+ rest) as ->.
      { revert E. generalize "mcp__". intros p. revert name. induction p as [|c p IH]; intros name E.
        - destruct name; injection E as <-; done.
        - destruct name as [|d name]; [done|]. cbn in E. destruct (ascii_dec c d) as [->|]; [|done].
          change (String d p +:+ rest) with (String d (p +:+ rest)). by rewrite <- (IH _ E). }
      exists rest. destruct (String.eqb_spec rest "") as [->|Hne]; [done|].
      destruct (contains rest "__") eqn:Hc; [|done]. exfalso. cbn zeta in H.
      destruct (before_separator_found _ Hc) as (t&Et&_). revert Et H.
      generalize (before_separator rest). intros b -> H. destruct (String.eqb b ""); [done|].
      by rewrite <- app_assoc_string, slice_from_app in H by (by rewrite length_app_str).
    + intros (rest&->&Hne&Hc). rewrite parse_namespaced_plain by done.
      by rewrite (proj2 (String.eqb_neq _ _) Hne).
Qed.

(** So a server called "fs_" gets the calls of another one. *)
Example trailing_underscore_misroutes :
  parse_namespaced (make_namespaced_name "fs_" "read") = Done (Some ("fs", "_read")).
Proof. reflexivity. Qed.

(** Reloading the configuration keeps what runs: afterwards the servers are
    those of the new configuration, with their last entry in it; a server that
    was there keeps its process, its error and its tool count, and is not
    stopped on the way; the health of the removed servers is forgotten and that
    of all others kept. *)
Theorem reload_keeps_running order configs m id :
  (∀ i, i ∈ order ↔ is_Some (entries m !! i)) →
  let m' := reload_configs order configs m in
  entries m' !! id = with_config (entries m !! id) <$> config_for configs id ∧
  health_status m' !! id =
    (if bool_decide (is_Some (entries m !! id) ∧ config_for configs id = None) then None
     else health_status m !! id).
Proof. apply reload_lookup_entries. Qed.

Definition sample_config (id name : string) : McpServerConfig :=
  mkServerConfig id name "npx" [] ∅ None true true.
Definition sample_manager : McpManager :=
  mkManager {["fs" := mkEntry (sample_config "fs" "files") (Some 7%N) None (Some 3);
              "db" := mkEntry (sample_config "db" "data") (Some 8%N) None (Some 5)]}
    {["db" := mkHealth "db" true 0 None 0]}.

Lemma reload_keeps_running_witness :
  let m := reload_configs ["db"; "fs"] [sample_config "fs" "renamed"] sample_manager in
  entries m !! "fs" = Some (mkEntry (sample_config "fs" "renamed") (Some 7%N) None (Some 3)) ∧
  health_status m !! "db" = None.
Proof.
  assert (∀ i, i ∈ ["db"; "fs"] ↔ is_Some (entries sample_manager !! i)) as Hord.
  { intros i. unfold sample_manager. cbn [entries]. rewrite <- elem_of_dom. set_solver. }
  split.
  - exact (proj1 (reload_keeps_running ["db"; "fs"] [sample_config "fs" "renamed"] sample_manager "fs" Hord)).
  - exact (proj2 (reload_keeps_running ["db"; "fs"] [sample_config "fs" "renamed"] sample_manager "db" Hord)).
Defined.

(** Two starts that both find the server stopped each bring a process up; the
    handle of the first is overwritten by the second. *)
Example start_race_replaces_client c :
  let m := load_configs [sample_config "fs" "files"] in
  start_check "fs" m = inl c → start_check "fs" m = inl c ∧
  peer_of "fs" (start_commit "fs" (inl (2%N, 3)) (start_commit "fs" (inl (1%N, 3)) m)) = inl 2%N.
Proof. done. Qed.
End McpProps.
