(* ===== verification/Watcher.v ===== *)
(** Hot reload (config/watcher.rs): the difference between the channels that run
    and the configuration that was read, and its application to the channel
    manager, the MCP servers, the rate limiter and the payload rules. *)

From Stdlib Require Import DecimalString DecimalN.
From S2P Require Import Prelude F64 Json PayloadRules Channel ChannelManager RateLimiter Mcp.

Module Watcher.
Import Channel.

(** config.rs, [AppConfig], what a reload applies. *)
Record AppConfig := mkAppConfig {
  config_channels : list ChannelConfig;
  mcp_servers : list Mcp.Manager.McpServerConfig;
}.

Definition config_changed {T} `{EqDecision T} (old new : T) : bool := negb (bool_decide (old = new)).

Record ChannelDiff := mkDiff {
  added : list ChannelConfig;
  removed : list string;
  updated : list ChannelConfig;
}.

Definition channel_config_changed (old new : ChannelConfig) : bool :=
  config_changed (c_name old) (c_name new)
  || config_changed (c_provider old) (c_provider new)
  || config_changed (c_priority old) (c_priority new)
  || config_changed (c_weight old) (c_weight new)
  || config_changed (c_enabled old) (c_enabled new)
  || config_changed (c_base_url old) (c_base_url new)
  || config_changed (c_model_mapping old) (c_model_mapping new)
  || config_changed (c_api_keys old) (c_api_keys new)
  || config_changed (c_excluded_models old) (c_excluded_models new)
  || config_changed (c_rpm_limit old) (c_rpm_limit new)
  || config_changed (c_tpm_limit old) (c_tpm_limit new)
  || config_changed (c_proxy_url old) (c_proxy_url new)
  || config_changed (c_credential_ref old) (c_credential_ref new)
  || config_changed (c_api_key old) (c_api_key new)
  || config_changed (c_max_concurrent old) (c_max_concurrent new)
  || config_changed (c_headers old) (c_headers new)
  || config_changed (c_max_retries old) (c_max_retries new)
  || config_changed (c_models_endpoint old) (c_models_endpoint new)
  || config_changed (c_models_refresh_interval_secs old) (c_models_refresh_interval_secs new).

(** The last configuration of an identifier, as in the collected hash map. *)
Definition find_config (configs : list ChannelConfig) (cid : string) : option ChannelConfig :=
  last (List.filter (λ c, String.eqb (c_id c) cid) configs).

Definition diff_channels (old new : list ChannelConfig) : ChannelDiff :=
  mkDiff
    (List.filter (λ c, match find_config old (c_id c) with None => true | Some _ => false end) new)
    (c_id <$> List.filter (λ c, match find_config new (c_id c) with None => true | Some _ => false end) old)
    (List.filter (λ c, match find_config old (c_id c) with
                       | Some old_c => channel_config_changed old_c c
                       | None => false
                       end) new).

Definition channel_to_config (show_uuid : Uuid → string) (ch : Channel) : ChannelConfig :=
  mkChannelConfig (show_uuid (id ch)) (name ch) (as_str (provider ch)) (priority ch) (weight ch)
    (cost_per_token ch) (input_cost_per_mtok ch) (output_cost_per_mtok ch)
    (match cred_type (credential ch) with ApiKey => "api_key" | WebSession => "web_session" end)
    (key_ref (credential ch)) (api_key (credential ch)) (base_url ch) (enabled ch)
    (model_mapping ch) (cooldown_minutes ch) (rpm_limit ch) (tpm_limit ch) None None
    (account_group ch) (max_concurrent ch) (api_keys ch) (excluded_models ch) (proxy_url ch)
    (if bool_decide (headers ch = ∅) then None else Some (headers ch)) (max_retries ch)
    (models_endpoint ch) (models_refresh_interval_secs ch) (tags ch).

Definition numbered {A} (l : list A) : list (nat * A) := imap pair l.

(** The stores a reload writes. *)
Record Stores := mkStores {
  channel_mgr : ChannelManager.ChannelManager.ChannelManager;
  mcp_mgr : Mcp.Manager.McpManager;
  rate_limiter : RateLimiter.RateLimiter.RateLimiter;
  payload_rules : gmap Uuid Rules.ChannelRules;
}.

Section reload.
(** [Uuid::parse_str] and [to_string]; what [Uuid::new_v4] draws, at each place
    and for each position in a list; the orders in which the hash maps are
    iterated; the time. *)
Context (parse_uuid : string → option Uuid) (show_uuid : Uuid → string).
Context (fresh_added fresh_updated fresh_limits : nat → Uuid).
Context (order : gmap Uuid Channel → list Channel) (server_order : list string).
Context (now : DateTime).

Definition old_configs (mgr : ChannelManager.ChannelManager.ChannelManager) : list ChannelConfig :=
  channel_to_config show_uuid
    <$> (recover_if_expired now <$> order (ChannelManager.channels mgr)).

Definition create_added (s : Stores) '((i, cc) : nat * ChannelConfig) : Stores :=
  mkStores (ChannelManager.ChannelManager.create (from_config parse_uuid (fresh_added i) now cc)
              (channel_mgr s)) (mcp_mgr s) (rate_limiter s) (payload_rules s).
Definition delete_removed (s : Stores) (id_str : string) : Stores :=
  match parse_uuid id_str with
  | Some u =>
      mkStores (ChannelManager.ChannelManager.delete_channel u (channel_mgr s)).2 (mcp_mgr s)
        (rate_limiter s) (Rules.remove (payload_rules s) u)
  | None => s
  end.
Definition replace_updated (s : Stores) '((i, cc) : nat * ChannelConfig) : Stores :=
  let ch := from_config parse_uuid (fresh_updated i) now cc in
  mkStores (ChannelManager.ChannelManager.update (id ch) ch (channel_mgr s)).2 (mcp_mgr s)
    (rate_limiter s) (payload_rules s).

(** The limits and the rules of one configured channel. *)
Definition reload_limits (s : Stores) '((i, cc) : nat * ChannelConfig) : Stores :=
  let u := default (fresh_limits i) (parse_uuid (c_id cc)) in
  let l := match c_rpm_limit cc with
           | Some rpm => RateLimiter.RateLimiter.set_channel_rpm_limit (rate_limiter s) u rpm now
           | None => rate_limiter s
           end in
  let l := match c_tpm_limit cc with
           | Some tpm => RateLimiter.RateLimiter.set_channel_tpm_limit l u tpm now
           | None => l
           end in
  let rules :=
    match c_payload_rules cc with
    | Some r =>
        let m := Rules.add (payload_rules s) u
                   (Rules.mkPayloadRules (pc_defaults r) (pc_overrides r) (pc_strip r)) in
        match pc_model_rules r with
        | [] => m
        | rs => Rules.set_model_rules m u rs
        end
    | None => payload_rules s
    end in
  mkStores (channel_mgr s) (mcp_mgr s) l rules.

Definition apply_config_reload (new_config : AppConfig) (s : Stores) : Stores :=
  let diff := diff_channels (old_configs (channel_mgr s)) (config_channels new_config) in
  let s := foldl create_added s (numbered (added diff)) in
  let s := foldl delete_removed s (removed diff) in
  let s := foldl replace_updated s (numbered (updated diff)) in
  let s := mkStores (channel_mgr s)
             (Mcp.Manager.reload_configs server_order (mcp_servers new_config) (mcp_mgr s))
             (rate_limiter s) (payload_rules s) in
  foldl reload_limits s (numbered (config_channels new_config)).

(** *** The loop: a check of the file every two seconds

    [modified] is its modification time when that can be read, [loaded] what
    parsing it then gives. *)
Definition tick (modified : option Z) (loaded : option AppConfig) (w : Z * Stores) : Z * Stores :=
  let '(last_mod, s) := w in
  match modified with
  | Some t =>
      if last_mod <? t
      then (t, match loaded with Some c => apply_config_reload c s | None => s end)
      else w
  | None => w
  end.
End reload.
End Watcher.

Module WatcherFacts.
Import Channel Watcher.

(** *** The phases of a reload *)

Section reload.
Context (parse_uuid : string → option Uuid) (show_uuid : Uuid → string).
Context (fresh_added fresh_updated fresh_limits : nat → Uuid).
Context (order : gmap Uuid Channel → list Channel) (server_order : list string) (now : DateTime).
Context (parse_show : ∀ u, parse_uuid (show_uuid u) = Some u).
Context (order_perm : ∀ m, order m ≡ₚ map_values m).

(** The identifier is written the way [Uuid] prints it. *)
Definition canonical (cc : ChannelConfig) : Prop := ∃ u, c_id cc = show_uuid u.
Definition key (cc : ChannelConfig) : Uuid := default 0%N (parse_uuid (c_id cc)).
Definition made (cc : ChannelConfig) : Channel := from_config parse_uuid 0%N now cc.

#[local] Abbreviation table s := (ChannelManager.channels (channel_mgr s)).

Lemma show_inj u v : show_uuid u = show_uuid v → u = v.
Proof using parse_show. intros H%(f_equal parse_uuid). rewrite !parse_show in H. congruence. Qed.

Lemma canonical_key cc : canonical cc → c_id cc = show_uuid (key cc).
Proof using parse_show. intros [u Hu]. unfold key. by rewrite Hu, parse_show. Qed.

Lemma made_fresh cc f : canonical cc → from_config parse_uuid f now cc = made cc.
Proof using parse_show. intros [u Hu]. unfold made, from_config. by rewrite Hu, parse_show. Qed.
Lemma create_step s i cc : canonical cc →
  table (create_added parse_uuid fresh_added now s (i, cc)) = <[key cc := made cc]> (table s).
Proof using parse_show.
  intros Hc. unfold create_added, ChannelManager.ChannelManager.create. by rewrite made_fresh.
Qed.
Lemma update_step s i cc : canonical cc →
  table (replace_updated parse_uuid fresh_updated now s (i, cc)) =
  match table s !! key cc with Some _ => <[key cc := made cc]> (table s) | None => table s end.
Proof using parse_show.
  intros Hc. unfold replace_updated, ChannelManager.ChannelManager.update.
  rewrite made_fresh by done. change (id (made cc)) with (key cc). cbn. by destruct (table s !! key cc).
Qed.

Lemma numbered_snoc {A} (l : list A) x : numbered (l ++ [x]) = numbered l ++ [(length l, x)].
Proof. unfold numbered. rewrite imap_app. cbn. by rewrite Nat.add_0_r. Qed.

Lemma created l s :
  Forall canonical l →
  let s' := foldl (create_added parse_uuid fresh_added now) s (numbered l) in
  table s' = foldl (λ m x, <[key x := made x]> m) (table s) l ∧
  payload_rules s' = payload_rules s.
Proof using parse_show.
  intros Hl. induction l as [|x l IH] using rev_ind; [done|].
  apply Forall_app in Hl as [Hl Hx]. inversion Hx as [|? ? Hc _]; subst.
  destruct (IH Hl) as [H1 H2]. rewrite numbered_snoc, !foldl_app. cbn [foldl].
  by rewrite create_step, H1.
Qed.

Lemma replaced l s :
  Forall canonical l →
  let s' := foldl (replace_updated parse_uuid fresh_updated now) s (numbered l) in
  table s' = foldl (λ m x, match m !! key x with Some _ => <[key x := made x]> m | None => m end)
               (table s) l ∧
  payload_rules s' = payload_rules s.
Proof using parse_show.
  intros Hl. induction l as [|x l IH] using rev_ind; [done|].
  apply Forall_app in Hl as [Hl Hx]. inversion Hx as [|? ? Hc _]; subst.
  destruct (IH Hl) as [H1 H2]. rewrite numbered_snoc, !foldl_app. cbn [foldl].
  by rewrite update_step, H1.
Qed.

Lemma removed_gone l s u :
  let s' := foldl (delete_removed parse_uuid) s (show_uuid <$> l) in
  table s' !! u = (if bool_decide (u ∈ l) then None else table s !! u) ∧
  payload_rules s' !! u = (if bool_decide (u ∈ l) then None else payload_rules s !! u).
Proof using parse_show.
  clear order_perm order.
  induction l as [|v l IH] using rev_ind; [done|]. rewrite fmap_app, foldl_app. cbn.
  unfold delete_removed at 1 3. rewrite parse_show. cbn. destruct IH as [H1 H2].
  destruct (decide (v = u)) as [<-|Hne].
  - unfold Rules.remove. rewrite !lookup_delete_eq, bool_decide_eq_true_2 by set_solver. done.
  - unfold Rules.remove. rewrite !lookup_delete_ne, H1, H2 by done.
    by rewrite (bool_decide_ext (u ∈ l ++ [v]) (u ∈ l)) by set_solver.
Qed.

Lemma limits_kept l s :
  let s' := foldl (reload_limits parse_uuid fresh_limits now) s (numbered l) in
  channel_mgr s' = channel_mgr s ∧
  (Forall canonical l → ∀ u, u ∉ key <$> l → payload_rules s' !! u = payload_rules s !! u).
Proof using parse_show.
  clear order_perm order.
  induction l as [|x l [H1 H2]] using rev_ind; [done|]. rewrite numbered_snoc, foldl_app.
  cbn [foldl]. unfold reload_limits at 1 3. cbn [channel_mgr payload_rules]. split; [done|].
  intros [Hl Hx]%Forall_app u Hu. inversion Hx as [|? ? [v Hv] _]; subst.
  rewrite fmap_app in Hu. assert (u ≠ v) as Hne.
  { intros ->. apply Hu. apply elem_of_app. right. cbn. unfold key. rewrite Hv, parse_show. cbn. set_solver. }
  rewrite Hv, parse_show. cbn. specialize (H2 Hl u ltac:(set_solver)).
  repeat case_match; unfold Rules.set_model_rules, Rules.add; rewrite ?lookup_insert_ne; done.
Qed.

(** *** The difference *)

Lemma config_of_recovered ch :
  channel_to_config show_uuid (recover_if_expired now ch) = channel_to_config show_uuid ch.
Proof using. unfold recover_if_expired. by repeat case_match. Qed.

Section old.
Context (mgr : ChannelManager.ChannelManager.ChannelManager).
Context (own : map_Forall (λ u c, id c = u) (ChannelManager.channels mgr)).
#[local] Abbreviation old := (old_configs show_uuid order now mgr).

Lemma old_in cc :
  cc ∈ old ↔ ∃ u ch, ChannelManager.channels mgr !! u = Some ch ∧ cc = channel_to_config show_uuid ch.
Proof using order_perm.
  unfold old_configs. rewrite <- list_fmap_compose. setoid_rewrite list_elem_of_fmap. split.
  - intros (ch&->&Hch). cbn. rewrite config_of_recovered, order_perm in *.
    apply list_elem_of_fmap in Hch as ([u d]&->&Hin%elem_of_map_to_list). eauto.
  - intros (u&ch&Hch&->). exists ch. cbn. rewrite config_of_recovered. split; [done|].
    rewrite order_perm. apply list_elem_of_fmap. exists (u, ch). by rewrite elem_of_map_to_list.
Qed.

Lemma find_old u :
  find_config old (show_uuid u) = channel_to_config show_uuid <$> ChannelManager.channels mgr !! u.
Proof using order_perm own parse_show.
  unfold find_config. fold (chosen String.eqb c_id old (show_uuid u)).
  destruct (ChannelManager.channels mgr !! u) as [ch|] eqn:E; cbn.
  - destruct (chosen String.eqb c_id old (show_uuid u)) as [cc|] eqn:Ec.
    + apply (chosen_in String.eqb String.eqb_spec) in Ec as [Hin Hid].
      apply old_in in Hin as (v&d&Hd&->). cbn in Hid. apply show_inj in Hid.
      pose proof (own v d Hd) as Hv. cbn in Hv. congruence.
    + apply (chosen_none String.eqb String.eqb_spec) with (x := channel_to_config show_uuid ch) in Ec.
      * destruct Ec. cbn. f_equal. exact (own u ch E).
      * apply old_in. eauto.
  - apply (chosen_none String.eqb String.eqb_spec). intros cc (v&d&Hd&->)%old_in Hid. cbn in Hid.
    apply show_inj in Hid. pose proof (own v d Hd) as Hv. cbn in Hv. congruence.
Qed.

Section new.
Context (cs : list ChannelConfig).
Context (Hcan : Forall canonical cs) (Hnd : NoDup (c_id <$> cs)).
#[local] Abbreviation diff := (diff_channels old cs).
#[local] Abbreviation had u := (ChannelManager.channels mgr !! u).

Lemma config_key cc : cc ∈ cs → c_id cc = show_uuid (key cc).
Proof. rewrite Forall_forall in Hcan. intros H. by apply canonical_key, Hcan. Qed.

Lemma keys_distinct : NoDup (key <$> cs).
Proof.
  apply (NoDup_fmap_1 show_uuid). rewrite <- list_fmap_compose.
  rewrite (list_fmap_ext _ c_id); [done|]. intros i cc Hi. symmetry.
  apply config_key. by eapply list_elem_of_lookup_2.
Qed.

Lemma in_removed : ∃ l, removed diff = show_uuid <$> l ∧
  ∀ u, u ∈ l ↔ is_Some (had u) ∧ u ∉ key <$> cs.
Proof.
  exists (key <$> List.filter (λ c, match find_config cs (c_id c) with None => true | Some _ => false end) old).
  split.
  - cbn. rewrite <- list_fmap_compose. apply list_fmap_ext. intros i c Hi%list_elem_of_lookup_2.
    rewrite list_elem_of_In, filter_In, <- list_elem_of_In in Hi. destruct Hi as [(u&ch&Hch&->)%old_in _].
    cbn. unfold key. cbn. by rewrite parse_show.
  - assert (∀ u, find_config cs (show_uuid u) = None ↔ u ∉ key <$> cs) as Hfind.
    { intros u. unfold find_config. fold (chosen String.eqb c_id cs (show_uuid u)).
      rewrite (chosen_none String.eqb String.eqb_spec), list_elem_of_fmap. split.
      - intros H (cc&->&Hcc). apply (H cc Hcc). by apply config_key.
      - intros H cc Hcc Hid. apply H. exists cc. split; [|done]. rewrite config_key in Hid by done.
        by apply show_inj in Hid. }
    assert (∀ u ch, had u = Some ch → id ch = u) as Hid by (intros u ch; apply own).
    intros u. rewrite list_elem_of_fmap. split.
    + intros (c&->&Hc). rewrite list_elem_of_In, filter_In, <- list_elem_of_In in Hc.
      destruct Hc as [(v&ch&Hch&->)%old_in Hf]. unfold key in *. cbn in *. rewrite parse_show. cbn.
      rewrite (Hid v ch Hch) in *. split; [by eexists|]. apply Hfind.
      by destruct (find_config cs (show_uuid v)).
    + intros [[ch Hch] Hu%Hfind]. exists (channel_to_config show_uuid ch). unfold key. cbn.
      rewrite parse_show. cbn. split; [by rewrite (Hid u ch Hch)|].
      rewrite list_elem_of_In, filter_In, <- list_elem_of_In. cbn. rewrite (Hid u ch Hch), Hu.
      split; [|done]. apply old_in. eauto.
Qed.

(** Which configuration of a phase bears an identifier. *)
Lemma added_at u :
  chosen N.eqb key (added diff) u =
  match had u with Some _ => None | None => chosen N.eqb key cs u end.
Proof.
  cbn [added diff_channels]. rewrite (chosen_filter N.eqb N.eqb_spec) by apply keys_distinct.
  destruct (chosen N.eqb key cs u) as [cc|] eqn:E; [|by destruct (had u)].
  apply (chosen_in N.eqb N.eqb_spec) in E as [Hcc <-]. rewrite (config_key cc Hcc), find_old.
  by destruct (had (key cc)).
Qed.
Lemma updated_at u :
  chosen N.eqb key (updated diff) u =
  match had u, chosen N.eqb key cs u with
  | Some ch, Some cc =>
      if channel_config_changed (channel_to_config show_uuid ch) cc then Some cc else None
  | _, _ => None
  end.
Proof.
  cbn [updated diff_channels]. rewrite (chosen_filter N.eqb N.eqb_spec) by apply keys_distinct.
  destruct (chosen N.eqb key cs u) as [cc|] eqn:E; [|by destruct (had u)].
  apply (chosen_in N.eqb N.eqb_spec) in E as [Hcc <-]. rewrite (config_key cc Hcc), find_old.
  by destruct (had (key cc)).
Qed.
Lemma canonical_parts : Forall canonical (added diff) ∧ Forall canonical (updated diff).
Proof.
  rewrite Forall_forall in Hcan.
  split; apply Forall_forall; intros cc Hcc; cbn in Hcc;
    rewrite list_elem_of_In, filter_In, <- list_elem_of_In in Hcc; apply Hcan, Hcc.
Qed.
End new.
End old.
End reload.

(** The tables after a reload. *)
Lemma reload_lookup parse show fa fu fl order servers now config s u :
  (∀ u, parse (show u) = Some u) → (∀ m, order m ≡ₚ map_values m) →
  map_Forall (λ u c, id c = u) (ChannelManager.channels (channel_mgr s)) →
  Forall (canonical show) (config_channels config) → NoDup (c_id <$> config_channels config) →
  let s' := apply_config_reload parse show fa fu fl order servers now config s in
  let old := ChannelManager.channels (channel_mgr s) !! u in
  ChannelManager.channels (channel_mgr s') !! u =
    match chosen N.eqb (key parse) (config_channels config) u with
    | Some cc => Some match old with
                      | Some ch => if channel_config_changed (channel_to_config show ch) cc
                                   then made parse now cc else ch
                      | None => made parse now cc
                      end
    | None => None
    end ∧
  (u ∉ key parse <$> config_channels config → is_Some old → payload_rules s' !! u = None).
Proof.
  intros Hps Hord Hown Hcan Hnd s' old. subst s'. unfold apply_config_reload. cbn zeta.
  set (cs := config_channels config) in *. set (mgr := channel_mgr s) in *.
  set (diff := diff_channels _ cs).
  destruct (canonical_parts show order now mgr cs Hcan) as [Hadd Hupd]. fold diff in Hadd, Hupd.
  set (s1 := foldl (create_added _ _ _) s _).
  destruct (created parse show fa now Hps _ s Hadd) as [T1 R1]. fold s1 in T1, R1.
  destruct (in_removed parse show order now Hps Hord mgr Hown cs Hcan) as (gone&Hgone&Hin).
  fold diff in Hgone. rewrite Hgone.
  destruct (removed_gone parse show Hps gone s1 u) as [T2 R2].
  set (s2 := foldl (delete_removed _) s1 _) in *.
  destruct (replaced parse show fu now Hps _ s2 Hupd) as [T3 R3].
  set (s3 := foldl (replace_updated _ _ _) s2 _) in *.
  match goal with |- context [foldl (reload_limits parse fl now) ?x _] => set (s4 := x) end.
  destruct (limits_kept parse show fl now Hps cs s4) as [T4 R4]. specialize (R4 Hcan u).
  rewrite T4. change (channel_mgr s4) with (channel_mgr s3). change (payload_rules s4) with (payload_rules s3) in R4.
  split.
  - rewrite T3, (fold_replace (key parse) (made parse now)), T2, T1,
      (fold_insert (key parse) (made parse now)),
      (added_at parse show order now Hps Hord mgr Hown cs Hcan Hnd),
      (updated_at parse show order now Hps Hord mgr Hown cs Hcan Hnd).
    fold mgr. fold old. destruct (chosen N.eqb (key parse) cs u) as [cc|] eqn:Ec.
    + apply (chosen_in N.eqb N.eqb_spec) in Ec as [Hcc Hk].
      rewrite bool_decide_eq_false_2; [destruct old; [by destruct (channel_config_changed _ cc)|done]|].
      intros [_ Hu]%Hin. apply Hu. rewrite <- Hk. by apply list_elem_of_fmap_2.
    + case_bool_decide as Hg; [done|]. destruct old as [ch|] eqn:Eo; [|done].
      destruct Hg. apply Hin. split; [by eexists|]. intros (cc&->&Hcc)%list_elem_of_fmap.
      by apply (proj1 (chosen_none N.eqb N.eqb_spec (key parse) cs _) Ec cc).
  - intros Hu Hold. rewrite (R4 Hu), R3, R2, bool_decide_eq_true_2; [done|]. by apply Hin.
Qed.
End WatcherFacts.

Module WatcherProps.
Import Channel Watcher WatcherFacts.

(** C20. If the identifiers of the configuration are distinct and written the way [Uuid]
    prints them (a channel whose identifier is written otherwise is removed,
    [uncanonical_id_removed]), then after a reload the table of channels is that of the
    configuration.  A configured channel that was there is kept with all its run-time
    state, or, when one of the compared fields differs, made anew; one that was not there
    is made; and all others are gone, with their payload rules. *)
Theorem reload_table parse show fa fu fl order servers now config s :
  (∀ u, parse (show u) = Some u) → (∀ m, order m ≡ₚ map_values m) →
  map_Forall (λ u c, id c = u) (ChannelManager.channels (channel_mgr s)) →
  Forall (canonical show) (config_channels config) → NoDup (c_id <$> config_channels config) →
  let s' := apply_config_reload parse show fa fu fl order servers now config s in
  let old u := ChannelManager.channels (channel_mgr s) !! u in
  let new u := ChannelManager.channels (channel_mgr s') !! u in
  (∀ cc, cc ∈ config_channels config →
     new (key parse cc) = Some
       match old (key parse cc) with
       | Some ch => if channel_config_changed (channel_to_config show ch) cc
                    then made parse now cc else ch
       | None => made parse now cc
       end) ∧
  (∀ u, u ∉ key parse <$> config_channels config →
     new u = None ∧ (is_Some (old u) → payload_rules s' !! u = None)).
Proof.
  intros Hps Hord Hown Hcan Hnd s' old new.
  assert (∀ u, _) as H by (intros u; exact (reload_lookup parse show fa fu fl order servers now config s u
    Hps Hord Hown Hcan Hnd)). cbn zeta in H. split.
  - intros cc Hcc. unfold new, s', old. rewrite (proj1 (H _)).
    erewrite (chosen_unique N.eqb N.eqb_spec); [done| |done|done]. by eapply keys_distinct.
  - intros u Hu. split; [|by apply H]. unfold new, s'. rewrite (proj1 (H u)).
    rewrite (proj2 (chosen_none N.eqb N.eqb_spec _ _ u)); [done|].
    intros cc Hcc <-. apply Hu. by apply list_elem_of_fmap_2.
Qed.

(** *** What a reload does not notice, and what it does too much *)

(** Prices, the kind of credential, the minutes of the circuit breaker, the
    account group and the tags are not compared: a channel whose configuration
    changes in these alone keeps the old values. *)
Lemma unnoticed_changes old price ip op kind minutes group tags rules quota :
  channel_config_changed old
    (mkChannelConfig (c_id old) (c_name old) (c_provider old) (c_priority old) (c_weight old) price ip op
       kind (c_credential_ref old) (c_api_key old) (c_base_url old) (c_enabled old)
       (c_model_mapping old) minutes (c_rpm_limit old) (c_tpm_limit old) rules quota group
       (c_max_concurrent old) (c_api_keys old) (c_excluded_models old) (c_proxy_url old)
       (c_headers old) (c_max_retries old) (c_models_endpoint old)
       (c_models_refresh_interval_secs old) tags) = false.
Proof. unfold channel_config_changed, config_changed. cbn. by rewrite !bool_decide_eq_true_2. Qed.

(** Identifiers in decimal; "X" stands for another way to write 10, as upper-case
    hexadecimal digits are for [Uuid]. *)
Definition show (u : Uuid) : string := NilEmpty.string_of_uint (N.to_uint u).
Definition parse (s : string) : option Uuid :=
  if String.eqb s "X" then Some 10%N else N.of_uint <$> NilEmpty.uint_of_string s.

Lemma parse_show u : parse (show u) = Some u.
Proof.
  unfold parse, show. destruct (String.eqb_spec (NilEmpty.string_of_uint (N.to_uint u)) "X") as [E|_].
  - exfalso. destruct (N.to_uint u); cbn in E; done.
  - rewrite NilEmpty.usu. cbn. by rewrite DecimalN.Unsigned.of_to.
Qed.

Definition stores (cs : list Channel) : Stores :=
  mkStores (ChannelManager.mkManager (ChannelManager.ChannelManager.collect_channels cs) 5 ∅ false)
    Mcp.Manager.new_manager (RateLimiter.RateLimiter.new None 0) ∅.
Definition reload (configs : list ChannelConfig) (s : Stores) : Stores :=
  apply_config_reload parse show (λ n, N.of_nat (100 + n)) (λ n, N.of_nat (200 + n))
    (λ n, N.of_nat (300 + n)) map_values [] 50 (mkAppConfig configs []) s.
Definition running (cid : string) : Channel :=
  Channel.mark_circuit_open 5 7 (from_config parse 0%N 0 (sample_config cid "a" 1 100)).

Lemma reload_table_witness :
  let s := reload [sample_config "1" "a" 1 100; sample_config "3" "c" 1 100] (stores [running "1"; running "2"]) in
  ChannelManager.channels (channel_mgr s) !! 1%N = Some (running "1") ∧
  ChannelManager.channels (channel_mgr s) !! 2%N = None.
Proof.
  assert (Forall (canonical show) [sample_config "1" "a" 1 100; sample_config "3" "c" 1 100]) as Hcan.
  { repeat constructor; [by exists 1%N|by exists 3%N]. }
  assert (NoDup (c_id <$> [sample_config "1" "a" 1 100; sample_config "3" "c" 1 100])) as Hnd.
  { repeat constructor; set_solver. }
  assert (map_Forall (λ u c, id c = u)
    (ChannelManager.channels (channel_mgr (stores [running "1"; running "2"])))) as Hown.
  { cbn. repeat (apply map_Forall_insert_2; [done|]). apply map_Forall_empty. }
  pose proof (reload_table parse show (λ n, N.of_nat (100 + n)) (λ n, N.of_nat (200 + n))
    (λ n, N.of_nat (300 + n)) map_values [] 50
    (mkAppConfig [sample_config "1" "a" 1 100; sample_config "3" "c" 1 100] [])
    (stores [running "1"; running "2"]) parse_show (λ m, Permutation_refl _) Hown Hcan Hnd) as [H1 H2].
  split.
  - specialize (H1 (sample_config "1" "a" 1 100) ltac:(by left)).
    change (key parse (sample_config "1" "a" 1 100)) with 1%N in H1. cbv zeta. unfold reload. rewrite H1.
    vm_compute. reflexivity.
  - assert (2%N ∉ key parse <$> [sample_config "1" "a" 1 100; sample_config "3" "c" 1 100]) as Hout
      by (clear; apply (bool_decide_unpack _); vm_compute; done).
    exact (proj1 (H2 2%N Hout)).
Defined.

(** An identifier written in another way: the channel is created and then
    removed, so it is gone after the reload. *)
Example uncanonical_id_removed :
  is_Some (ChannelManager.channels (channel_mgr (stores [running "X"])) !! 10%N) ∧
  ChannelManager.channels (channel_mgr (reload [sample_config "X" "a" 1 100] (stores [running "X"])))
    !! 10%N = None.
Proof. split; [by eexists|done]. Qed.
End WatcherProps.
