(* ===== verification/AdminChannels.v ===== *)
(** The administration of the channels: admin/channels/ (creating, updating,
    deleting, batches, payload rules) and the reload of the configuration on
    request (admin/system.rs). *)

From S2P Require Import Prelude F64 Json PayloadRules Channel ChannelManager RateLimiter Trackers Quota AuditTrail Notification Mcp Watcher.
From Stdlib Require Import DecimalString DecimalN.

Module AdminChannels.
Import Json Channel.
Import Notification(IpAddr(..), is_link_local, is_unspecified, v6_is_loopback, V6_LOCALHOST).

(** ** What may be stored *)

Definition STORED_HEADER_DENYLIST : list string :=
  ["host"; "transfer-encoding"; "content-length"; "connection"; "x-forwarded-for";
   "x-forwarded-host"; "x-forwarded-proto"; "authorization"; "x-api-key"; "cookie"; "forwarded"].

(** What the [url] crate reads in a URL. *)
Inductive Host := Ipv4 (a : Z) | Ipv6 (a : Z) | Domain (d : string).
Record Url := mkUrl { scheme : string; host : option Host; port_or_known_default : option Z }.

(** An [ApiError]: its status, and its message without the text of the input. *)
Inductive reason :=
  | InvalidUrl | UnsupportedScheme | MissingHost | ResolutionFailed
  | LinkLocal | Unspecified | Loopback | Metadata | Crlf
  | CredentialNotStored | CredentialNotUpdated | ChannelNotFound | ReloadFailed.
Record ApiError := mkError { status_code : Z; why : reason; field : string }.
Definition bad_request (r : reason) (field_name : string) : option ApiError :=
  Some (mkError 400 r field_name).
Definition not_found : ApiError := mkError 404 ChannelNotFound "".

(** fd00:ec2::254 *)
Definition AWS_METADATA : Z := Z.shiftl 64768 112 + Z.shiftl 3778 96 + 596.

Definition check_metadata_ip (ip : IpAddr) (field_name : string) : option ApiError :=
  match ip with
  | V4 v4 =>
      if is_link_local v4 then bad_request LinkLocal field_name
      else if is_unspecified v4 then bad_request Unspecified field_name
      else None
  | V6 v6 =>
      if v6_is_loopback v6 && negb (v6 =? V6_LOCALHOST) then bad_request Loopback field_name
      else if v6 =? AWS_METADATA then bad_request Metadata field_name
      else None
  end.

Definition line_feed : string := String "010"%char "".
Definition carriage_return : string := String "013"%char "".
Definition breaks_line (s : string) : bool := contains s line_feed || contains s carriage_return.

Definition name_kept (name : string) : bool :=
  negb (bool_decide (to_lowercase name ∈ STORED_HEADER_DENYLIST)) && negb (breaks_line name).
Definition filter_dangerous_headers (headers : gmap string string) : gmap string string :=
  filter (λ kv, breaks_line kv.2 = false) (filter (λ kv, name_kept kv.1 = true) headers).

Section validation.
Context (parse_url : string → option Url) (lookup_host : string → Z → option (list IpAddr)).

Fixpoint check_addresses (ips : list IpAddr) (field_name : string) : option ApiError :=
  match ips with
  | [] => None
  | ip :: rest =>
      match check_metadata_ip ip field_name with
      | Some e => Some e
      | None => check_addresses rest field_name
      end
  end.

Definition validate_channel_url (url_str field_name : string) : option ApiError :=
  match parse_url url_str with
  | None => bad_request InvalidUrl field_name
  | Some parsed =>
      if negb (String.eqb (scheme parsed) "http" || String.eqb (scheme parsed) "https")
      then bad_request UnsupportedScheme field_name
      else
        let port := default 80 (port_or_known_default parsed) in
        match host parsed with
        | Some (Ipv4 ip) => check_metadata_ip (V4 ip) field_name
        | Some (Ipv6 ip) => check_metadata_ip (V6 ip) field_name
        | Some (Domain domain) =>
            match lookup_host domain port with
            | None => bad_request ResolutionFailed field_name
            | Some ips => check_addresses ips field_name
            end
        | None => bad_request MissingHost field_name
        end
  end.

Definition validate_quota_config (q : QuotaConfig) : option ApiError :=
  match (match balance_url q with
         | Some url => if String.eqb url "" then None else validate_channel_url url "quota.balance_url"
         | None => None
         end) with
  | Some e => Some e
  | None =>
      match auth_prefix q with
      | Some prefix => if breaks_line prefix then bad_request Crlf "quota.auth_prefix" else None
      | None => None
      end
  end.

(** The checks that creating and updating share, in their order. *)
Definition validate_fields (proxy models : option string) (q : option QuotaConfig) : option ApiError :=
  match proxy ≫= λ u, validate_channel_url u "proxy_url" with
  | Some e => Some e
  | None =>
      match models ≫= λ u, validate_channel_url u "models_endpoint" with
      | Some e => Some e
      | None => q ≫= validate_quota_config
      end
  end.
End validation.

(** ** Requests *)

Record CreateChannelRequest := mkCreate {
  n_name : string;
  n_provider : string;
  n_priority : Z;
  n_weight : Z;
  n_cost_per_token : option F64.f64;
  n_input_cost_per_mtok : option F64.f64;
  n_output_cost_per_mtok : option F64.f64;
  n_credential_type : string;
  n_credential_value : string;
  n_base_url : string;
  n_model_mapping : gmap string string;
  n_cooldown_minutes : option Z;
  n_rpm_limit : option Z;
  n_tpm_limit : option Z;
  n_account_group : option string;
  n_max_concurrent : option Z;
  n_excluded_models : list string;
  n_tags : list string;
  n_models_endpoint : option string;
  n_models_refresh_interval_secs : option Z;
  n_max_retries : option Z;
  n_proxy_url : option string;
  n_headers : gmap string string;
  n_api_keys : list string;
  n_quota : option QuotaConfig;
}.

Record UpdateChannelRequest := mkUpdate {
  u_name : string;
  u_provider : string;
  u_priority : Z;
  u_weight : Z;
  u_cost_per_token : option F64.f64;
  u_base_url : string;
  u_enabled : bool;
  u_model_mapping : gmap string string;
  u_cooldown_minutes : option Z;
  u_credential_value : option string;
  u_input_cost_per_mtok : option F64.f64;
  u_output_cost_per_mtok : option F64.f64;
  u_rpm_limit : option Z;
  u_tpm_limit : option Z;
  u_account_group : option string;
  u_max_concurrent : option Z;
  u_excluded_models : list string;
  u_api_keys : list string;
  u_proxy_url : option string;
  u_headers : gmap string string;
  u_max_retries : option Z;
  u_models_endpoint : option string;
  u_models_refresh_interval_secs : option Z;
  u_tags : list string;
  u_quota : option QuotaConfig;
}.

(** What serde fills in for a missing field of the first. *)
Definition default_priority : Z := 1.
Definition default_weight : Z := 100.
Definition default_credential_type : string := "api_key".

(** ** The stores the handlers share *)

Record Stores := mkStores {
  channel_mgr : ChannelManager.ChannelManager.ChannelManager;
  credentials : gmap string string;
  quota_store : gmap Uuid Quota.Quota.QuotaInfo;
  cooldown_tracker : Trackers.Cooldown.CooldownTracker;
  payload_rules : gmap Uuid Rules.ChannelRules;
  rate_limiter : RateLimiter.RateLimiter.RateLimiter;
  audit_log : AuditTrail.Audit.AuditLog;
  config_file : list ChannelConfig;
}.

Definition with_mgr m (s : Stores) : Stores :=
  mkStores m (credentials s) (quota_store s) (cooldown_tracker s) (payload_rules s) (rate_limiter s)
    (audit_log s) (config_file s).
Definition with_credentials c (s : Stores) : Stores :=
  mkStores (channel_mgr s) c (quota_store s) (cooldown_tracker s) (payload_rules s) (rate_limiter s)
    (audit_log s) (config_file s).
Definition with_rules r (s : Stores) : Stores :=
  mkStores (channel_mgr s) (credentials s) (quota_store s) (cooldown_tracker s) r (rate_limiter s)
    (audit_log s) (config_file s).
Definition with_limiter l (s : Stores) : Stores :=
  mkStores (channel_mgr s) (credentials s) (quota_store s) (cooldown_tracker s) (payload_rules s) l
    (audit_log s) (config_file s).
Definition with_audit a (s : Stores) : Stores :=
  mkStores (channel_mgr s) (credentials s) (quota_store s) (cooldown_tracker s) (payload_rules s)
    (rate_limiter s) a (config_file s).
Definition with_file f (s : Stores) : Stores :=
  mkStores (channel_mgr s) (credentials s) (quota_store s) (cooldown_tracker s) (payload_rules s)
    (rate_limiter s) (audit_log s) f.
(** What a deletion forgets besides the channel. *)
Definition forget (u : Uuid) (s : Stores) : Stores :=
  mkStores (channel_mgr s) (credentials s) (Quota.Quota.delete_quota (quota_store s) u)
    (Trackers.Cooldown.remove (cooldown_tracker s) u) (payload_rules s) (rate_limiter s)
    (audit_log s) (config_file s).

(** *** Readings of a handler

    [r_clock i] is its [i]-th reading of the clock. *)
Record Reading := mkReading {
  r_fresh : Uuid;
  r_clock : nat → DateTime;
  r_stored : bool;
  r_deleted : bool;
  r_saved : bool;
}.

Section handlers.
Context (parse_url : string → option Url) (lookup_host : string → Z → option (list IpAddr)).
(** [Uuid::to_string], the debug text of a provider; for the audit log the text
    of a time and of its details, and SHA-256. *)
Context (show_uuid : Uuid → string) (debug : Provider → string).
Context (rfc3339 : DateTime → string) (to_string : value → string) (sha256 : string → list Z).

Definition persist (r : Reading) (s : Stores) : Stores :=
  if r_saved r then with_file (ChannelManager.ChannelManager.persisted_channels show_uuid (channel_mgr s)) s
  else s.
Definition audit (now : DateTime) (action : string) (u : Uuid) (details : list (string * value))
    (s : Stores) : Stores :=
  with_audit (AuditTrail.Audit.record rfc3339 to_string sha256 now action "admin-api" (show_uuid u)
                (obj details) (audit_log s)) s.

(** *** Creating *)

Definition created_channel (u : Uuid) (key : string) (t1 t2 : DateTime) (req : CreateChannelRequest)
    : Channel :=
  {| id := u; name := n_name req; provider := from_str (n_provider req); priority := n_priority req;
     weight := n_weight req; cost_per_token := n_cost_per_token req;
     input_cost_per_mtok := n_input_cost_per_mtok req;
     output_cost_per_mtok := n_output_cost_per_mtok req;
     credential := mkCredential
       (if String.eqb (n_credential_type req) "web_session" then WebSession else ApiKey) key None None;
     enabled := true; status := Healthy; circuit_open_until := None; base_url := n_base_url req;
     model_mapping := n_model_mapping req; created_at := t1; updated_at := t2; avg_latency_ms := 0;
     consecutive_failures := 0; cooldown_minutes := n_cooldown_minutes req; rpm_limit := n_rpm_limit req;
     tpm_limit := n_tpm_limit req; account_group := n_account_group req;
     max_concurrent := n_max_concurrent req; api_keys := n_api_keys req;
     excluded_models := n_excluded_models req; model_cooldowns := ∅; proxy_url := n_proxy_url req;
     headers := filter_dangerous_headers (n_headers req); max_retries := n_max_retries req;
     models_endpoint := n_models_endpoint req;
     models_refresh_interval_secs := default 300 (n_models_refresh_interval_secs req);
     tags := n_tags req; quota := n_quota req |}.

(** The credential is stored before anything is validated. *)
Definition create_channel (r : Reading) (req : CreateChannelRequest) (s : Stores)
    : Stores * (Channel + ApiError) :=
  let u := r_fresh r in
  let key := n_provider req +:+ "_" +:+ show_uuid u in
  if negb (r_stored r) then (s, inr (mkError 500 CredentialNotStored "")) else
  let s := with_credentials (<[key := n_credential_value req]> (credentials s)) s in
  match validate_fields parse_url lookup_host (n_proxy_url req) (n_models_endpoint req) (n_quota req) with
  | Some e => (s, inr e)
  | None =>
      let ch := created_channel u key (r_clock r 0) (r_clock r 1) req in
      let s := with_mgr (ChannelManager.ChannelManager.create ch (channel_mgr s)) s in
      let s := persist r s in
      (audit (r_clock r 2) "channel.create" u
         [("name", Str (name ch)); ("provider", Str (debug (provider ch)))] s, inl ch)
  end.

(** *** Updating: a copy is read, changed and written back *)

Definition next_status (req_enabled : bool) (c : Channel) : ChannelStatus :=
  if negb req_enabled && enabled c then Disabled
  else if req_enabled && negb (enabled c) then Healthy
  else status c.
Definition updated_channel (now : DateTime) (req : UpdateChannelRequest) (c : Channel) : Channel :=
  {| id := id c; name := u_name req; provider := from_str (u_provider req); priority := u_priority req;
     weight := u_weight req; cost_per_token := u_cost_per_token req;
     input_cost_per_mtok := u_input_cost_per_mtok req;
     output_cost_per_mtok := u_output_cost_per_mtok req; credential := credential c;
     enabled := u_enabled req; status := next_status (u_enabled req) c;
     circuit_open_until := circuit_open_until c; base_url := u_base_url req;
     model_mapping := u_model_mapping req; created_at := created_at c; updated_at := now;
     avg_latency_ms := avg_latency_ms c; consecutive_failures := consecutive_failures c;
     cooldown_minutes := u_cooldown_minutes req; rpm_limit := u_rpm_limit req;
     tpm_limit := u_tpm_limit req; account_group := u_account_group req;
     max_concurrent := u_max_concurrent req; api_keys := u_api_keys req;
     excluded_models := u_excluded_models req; model_cooldowns := model_cooldowns c;
     proxy_url := u_proxy_url req; headers := filter_dangerous_headers (u_headers req);
     max_retries := u_max_retries req; models_endpoint := u_models_endpoint req;
     models_refresh_interval_secs := default 300 (u_models_refresh_interval_secs req);
     tags := u_tags req; quota := u_quota req |}.

(** The part up to the last lock: what is to be written. *)
Definition update_read (r : Reading) (u : Uuid) (req : UpdateChannelRequest) (s : Stores)
    : Channel + ApiError :=
  match ChannelManager.ChannelManager.get (channel_mgr s) u with
  | None => inr not_found
  | Some existing =>
      match validate_fields parse_url lookup_host (u_proxy_url req) (u_models_endpoint req) (u_quota req) with
      | Some e => inr e
      | None => inl (updated_channel (r_clock r 0) req existing)
      end
  end.
Definition update_credential (r : Reading) (req : UpdateChannelRequest) (c : Channel) (s : Stores)
    : Stores * option ApiError :=
  match u_credential_value req with
  | Some new_key =>
      if String.eqb new_key "" then (s, None)
      else if r_stored r
      then (with_credentials (<[key_ref (credential c) := new_key]> (credentials s)) s, None)
      else (s, Some (mkError 500 CredentialNotUpdated ""))
  | None => (s, None)
  end.
Definition update_write (r : Reading) (u : Uuid) (c : Channel) (s : Stores)
    : Stores * (Channel + ApiError) :=
  match ChannelManager.ChannelManager.update u c (channel_mgr s) with
  | (Some ch, m) =>
      let s := persist r (with_mgr m s) in
      (audit (r_clock r 1) "channel.update" u
         [("name", Str (name ch)); ("provider", Str (debug (provider ch))); ("enabled", Bool (enabled ch));
          ("api_keys_count", num (Z.of_nat (length (api_keys ch))))] s, inl ch)
  | (None, _) => (s, inr not_found)
  end.
Definition update_channel (r : Reading) (u : Uuid) (req : UpdateChannelRequest) (s : Stores)
    : Stores * (Channel + ApiError) :=
  match update_read r u req s with
  | inr e => (s, inr e)
  | inl c =>
      match update_credential r req c s with
      | (s, Some e) => (s, inr e)
      | (s, None) => update_write r u c s
      end
  end.

(** *** Deleting *)

Definition drop_credential (r : Reading) (u : Uuid) (s : Stores) : Stores :=
  match ChannelManager.ChannelManager.get (channel_mgr s) u with
  | Some ch =>
      if r_deleted r then with_credentials (delete (key_ref (credential ch)) (credentials s)) s else s
  | None => s
  end.
Definition name_of (u : Uuid) (s : Stores) : string :=
  default "" (name <$> ChannelManager.ChannelManager.get (channel_mgr s) u).

(** Whether the channel was there. *)
Definition delete_channel (r : Reading) (u : Uuid) (s : Stores) : Stores * bool :=
  let channel_name := name_of u s in
  let s := drop_credential r u s in
  match ChannelManager.ChannelManager.delete_channel u (channel_mgr s) with
  | (true, m) =>
      let s := persist r (forget u (with_mgr m s)) in
      (audit (r_clock r 0) "channel.delete" u [("name", Str channel_name)] s, true)
  | (false, _) => (s, false)
  end.

(** *** Batches *)

Record BatchResult := mkBatch { b_total : nat; b_success : nat; b_failed : nat; b_errors : list (Uuid * string) }.
Definition new_result (total : nat) : BatchResult := mkBatch total 0 0 [].
Definition succeeded (b : BatchResult) : BatchResult :=
  mkBatch (b_total b) (S (b_success b)) (b_failed b) (b_errors b).
Definition failed (u : Uuid) (error : string) (b : BatchResult) : BatchResult :=
  mkBatch (b_total b) (b_success b) (S (b_failed b)) (b_errors b ++ [(u, error)]).

(** One channel of a batch that changes channels: the copy, changed, is written
    back; the clock is read twice. *)
Definition batch_edit (change : DateTime → Channel → Channel) (action : string)
    (details : Channel → list (string * value)) (r : Reading) (acc : Stores * BatchResult)
    '((i, u) : nat * Uuid) : Stores * BatchResult :=
  let '(s, b) := acc in
  match ChannelManager.ChannelManager.get (channel_mgr s) u with
  | Some ch =>
      let ch := change (r_clock r (2 * i)) ch in
      match ChannelManager.ChannelManager.update u ch (channel_mgr s) with
      | (Some _, m) =>
          (audit (r_clock r (2 * i + 1)) action u (details ch) (with_mgr m s), succeeded b)
      | (None, _) => (s, failed u "Update failed" b)
      end
  | None => (s, failed u "Channel not found" b)
  end.
Definition batch_drop (r : Reading) (acc : Stores * BatchResult) '((i, u) : nat * Uuid)
    : Stores * BatchResult :=
  let '(s, b) := acc in
  let channel_name := name_of u s in
  let s := drop_credential r u s in
  match ChannelManager.ChannelManager.delete_channel u (channel_mgr s) with
  | (true, m) =>
      (audit (r_clock r i) "channel.batch_delete" u [("name", Str channel_name)] (forget u (with_mgr m s)),
       succeeded b)
  | (false, _) => (s, failed u "Channel not found" b)
  end.
Definition batch (one : Stores * BatchResult → nat * Uuid → Stores * BatchResult) (r : Reading)
    (ids : list Uuid) (s : Stores) : Stores * BatchResult :=
  let '(s, b) := foldl one (s, new_result (length ids)) (imap pair ids) in
  (if (0 <? b_success b)%nat then persist r s else s, b).

Definition enable (now : DateTime) (c : Channel) : Channel :=
  {| id := id c; name := name c; provider := provider c; priority := priority c; weight := weight c;
     cost_per_token := cost_per_token c; input_cost_per_mtok := input_cost_per_mtok c;
     output_cost_per_mtok := output_cost_per_mtok c; credential := credential c; enabled := true;
     status := if bool_decide (status c = Disabled) then Healthy else status c;
     circuit_open_until := circuit_open_until c; base_url := base_url c; model_mapping := model_mapping c;
     created_at := created_at c; updated_at := now; avg_latency_ms := avg_latency_ms c;
     consecutive_failures := consecutive_failures c; cooldown_minutes := cooldown_minutes c;
     rpm_limit := rpm_limit c; tpm_limit := tpm_limit c; account_group := account_group c;
     max_concurrent := max_concurrent c; api_keys := api_keys c; excluded_models := excluded_models c;
     model_cooldowns := model_cooldowns c; proxy_url := proxy_url c; headers := headers c;
     max_retries := max_retries c; models_endpoint := models_endpoint c;
     models_refresh_interval_secs := models_refresh_interval_secs c; tags := tags c; quota := quota c |}.
Definition disable (now : DateTime) (c : Channel) : Channel :=
  {| id := id c; name := name c; provider := provider c; priority := priority c; weight := weight c;
     cost_per_token := cost_per_token c; input_cost_per_mtok := input_cost_per_mtok c;
     output_cost_per_mtok := output_cost_per_mtok c; credential := credential c; enabled := false;
     status := Disabled;
     circuit_open_until := circuit_open_until c; base_url := base_url c; model_mapping := model_mapping c;
     created_at := created_at c; updated_at := now; avg_latency_ms := avg_latency_ms c;
     consecutive_failures := consecutive_failures c; cooldown_minutes := cooldown_minutes c;
     rpm_limit := rpm_limit c; tpm_limit := tpm_limit c; account_group := account_group c;
     max_concurrent := max_concurrent c; api_keys := api_keys c; excluded_models := excluded_models c;
     model_cooldowns := model_cooldowns c; proxy_url := proxy_url c; headers := headers c;
     max_retries := max_retries c; models_endpoint := models_endpoint c;
     models_refresh_interval_secs := models_refresh_interval_secs c; tags := tags c; quota := quota c |}.

Definition add_tag (tags : list string) (t : string) : list string :=
  if bool_decide (t ∈ tags) then tags else tags ++ [t].
Definition new_tags (add_tags remove_tags tags : list string) : list string :=
  foldl add_tag (List.filter (λ t, negb (bool_decide (t ∈ remove_tags))) tags) add_tags.
Definition retag (add_tags remove_tags : list string) (now : DateTime) (c : Channel) : Channel :=
  {| id := id c; name := name c; provider := provider c; priority := priority c; weight := weight c;
     cost_per_token := cost_per_token c; input_cost_per_mtok := input_cost_per_mtok c;
     output_cost_per_mtok := output_cost_per_mtok c; credential := credential c; enabled := enabled c;
     status := status c;
     circuit_open_until := circuit_open_until c; base_url := base_url c; model_mapping := model_mapping c;
     created_at := created_at c; updated_at := now; avg_latency_ms := avg_latency_ms c;
     consecutive_failures := consecutive_failures c; cooldown_minutes := cooldown_minutes c;
     rpm_limit := rpm_limit c; tpm_limit := tpm_limit c; account_group := account_group c;
     max_concurrent := max_concurrent c; api_keys := api_keys c; excluded_models := excluded_models c;
     model_cooldowns := model_cooldowns c; proxy_url := proxy_url c; headers := headers c;
     max_retries := max_retries c; models_endpoint := models_endpoint c;
     models_refresh_interval_secs := models_refresh_interval_secs c;
     tags := new_tags add_tags remove_tags (tags c); quota := quota c |}.

Definition just_name (c : Channel) : list (string * value) := [("name", Str (name c))].
Definition strings (l : list string) : value := Array (Str <$> l).
Definition batch_enable_channels (r : Reading) : list Uuid → Stores → Stores * BatchResult :=
  batch (batch_edit enable "channel.batch_enable" just_name r) r.
Definition batch_disable_channels (r : Reading) : list Uuid → Stores → Stores * BatchResult :=
  batch (batch_edit disable "channel.batch_disable" just_name r) r.
Definition batch_delete_channels (r : Reading) : list Uuid → Stores → Stores * BatchResult :=
  batch (batch_drop r) r.
Definition batch_update_tags (r : Reading) (add_tags remove_tags : list string)
    : list Uuid → Stores → Stores * BatchResult :=
  batch (batch_edit (retag add_tags remove_tags) "channel.batch_update_tags"
           (λ c, [("name", Str (name c)); ("tags", strings (tags c)); ("added", strings add_tags);
                  ("removed", strings remove_tags)]) r) r.
End handlers.

(** *** Payload rules *)

Definition set_payload_rules (u : Uuid) (rules : PayloadRulesConfig) (s : Stores)
    : Stores * option ApiError :=
  match ChannelManager.ChannelManager.get (channel_mgr s) u with
  | None => (s, Some not_found)
  | Some _ =>
      let m := Rules.add (payload_rules s) u
                 (Rules.mkPayloadRules (pc_defaults rules) (pc_overrides rules) (pc_strip rules)) in
      let m := match pc_model_rules rules with [] => m | rs => Rules.set_model_rules m u rs end in
      (with_rules m s, None)
  end.
Definition get_payload_rules (u : Uuid) (s : Stores) : PayloadRulesConfig + ApiError :=
  match ChannelManager.ChannelManager.get (channel_mgr s) u with
  | None => inr not_found
  | Some _ =>
      inl match Rules.get_full (payload_rules s) u with
          | Some full =>
              let c := Rules.channel full in
              mkPayloadRulesConfig (Rules.defaults c) (Rules.overrides c) (Rules.strip c)
                (Rules.model_rules full)
          | None => mkPayloadRulesConfig ∅ ∅ [] []
          end
  end.

(** ** The reload on request (admin/system.rs)

    [load] is what reading the configuration file gives. *)

Definition reconfigured (now : DateTime) (cc : ChannelConfig) (c : Channel) : Channel :=
  {| id := id c; name := c_name cc; provider := from_str (c_provider cc); priority := c_priority cc;
     weight := c_weight cc; cost_per_token := c_cost_per_token cc;
     input_cost_per_mtok := c_input_cost_per_mtok cc; output_cost_per_mtok := c_output_cost_per_mtok cc;
     credential := credential c; enabled := c_enabled cc; status := status c;
     circuit_open_until := circuit_open_until c; base_url := c_base_url cc;
     model_mapping := c_model_mapping cc; created_at := created_at c; updated_at := now;
     avg_latency_ms := avg_latency_ms c; consecutive_failures := consecutive_failures c;
     cooldown_minutes := c_cooldown_minutes cc; rpm_limit := c_rpm_limit cc; tpm_limit := c_tpm_limit cc;
     account_group := account_group c; max_concurrent := max_concurrent c; api_keys := api_keys c;
     excluded_models := excluded_models c; model_cooldowns := model_cooldowns c; proxy_url := proxy_url c;
     headers := headers c; max_retries := max_retries c; models_endpoint := models_endpoint c;
     models_refresh_interval_secs := models_refresh_interval_secs c; tags := tags c; quota := quota c |}.

Record Counts := mkCounts { n_updated : Z; n_created : Z; n_removed : Z }.

Section reload.
Context (parse_uuid : string → option Uuid) (order : gmap Uuid Channel → list Channel).

Definition reload_one (now : DateTime) (acc : Stores * Counts) (cc : ChannelConfig) : Stores * Counts :=
  let '(s, n) := acc in
  match parse_uuid (c_id cc) with
  | None => acc
  | Some u =>
      match ChannelManager.ChannelManager.get (channel_mgr s) u with
      | Some ch =>
          (with_mgr (ChannelManager.ChannelManager.update u (reconfigured now cc ch) (channel_mgr s)).2 s,
           mkCounts (add_u32 (n_updated n) 1) (n_created n) (n_removed n))
      | None =>
          (with_mgr (ChannelManager.ChannelManager.create (from_config parse_uuid 0%N now cc) (channel_mgr s)) s,
           mkCounts (n_updated n) (add_u32 (n_created n) 1) (n_removed n))
      end
  end.
Definition remove_one (config_ids : list Uuid) (acc : Stores * Counts) (c : Channel) : Stores * Counts :=
  let '(s, n) := acc in
  if bool_decide (id c ∈ config_ids) then acc
  else (forget (id c) (with_mgr (ChannelManager.ChannelManager.delete_channel (id c) (channel_mgr s)).2 s),
        mkCounts (n_updated n) (n_created n) (add_u32 (n_removed n) 1)).
Definition limit_one (now : DateTime) (s : Stores) (cc : ChannelConfig) : Stores :=
  match parse_uuid (c_id cc) with
  | None => s
  | Some u =>
      let l := match c_rpm_limit cc with
               | Some rpm => RateLimiter.RateLimiter.set_channel_rpm_limit (rate_limiter s) u rpm now
               | None => rate_limiter s
               end in
      let l := match c_tpm_limit cc with
               | Some tpm => RateLimiter.RateLimiter.set_channel_tpm_limit l u tpm now
               | None => l
               end in
      with_limiter l s
  end.
Definition reload_config (now : DateTime) (load : option (list ChannelConfig)) (s : Stores)
    : Stores * (Counts + ApiError) :=
  match load with
  | None => (s, inr (mkError 500 ReloadFailed ""))
  | Some configs =>
      let channels := order (ChannelManager.ChannelManager.channels (channel_mgr s)) in
      let acc := foldl (reload_one now) (s, mkCounts 0 0 0) configs in
      let config_ids := omap (λ cc, parse_uuid (c_id cc)) configs in
      let '(s, n) := foldl (remove_one config_ids) acc channels in
      (foldl (limit_one now) s configs, inl n)
  end.
End reload.
End AdminChannels.

Module AdminFacts.
Import Json Channel AdminChannels.
Import Notification(IpAddr(..)).

Abbreviation table s := (ChannelManager.ChannelManager.channels (channel_mgr s)).

(** *** Addresses and URLs *)

(** The first two bytes are not 169.254, and the address is not 0.0.0.0; it is
    not that of the metadata service. *)
Definition reachable (ip : IpAddr) : Prop :=
  match ip with
  | V4 a => a / 2 ^ 16 mod 2 ^ 16 ≠ 169 * 256 + 254 ∧ a ≠ 0
  | V6 a => a ≠ AWS_METADATA
  end.

Lemma check_metadata_ip_spec ip f : check_metadata_ip ip f = None ↔ reachable ip.
Proof.
  destruct ip as [a|a]; cbn [check_metadata_ip reachable]; unfold bad_request.
  - unfold Notification.is_link_local, Notification.is_unspecified.
    rewrite !Notification.NotificationFacts.octet_div by lia.
    replace (a / 2 ^ 16 mod 2 ^ 16) with
      (256 * (a / 2 ^ (8 * (3 - 0)) mod 256) + a / 2 ^ (8 * (3 - 1)) mod 256).
    2: { cbn. Z.to_euclidean_division_equations. lia. }
    assert (0 ≤ a / 2 ^ (8 * (3 - 0)) mod 256 < 256) by (apply Z.mod_pos_bound; lia).
    assert (0 ≤ a / 2 ^ (8 * (3 - 1)) mod 256 < 256) by (apply Z.mod_pos_bound; lia).
    revert H H0. generalize (a / 2 ^ (8 * (3 - 0)) mod 256), (a / 2 ^ (8 * (3 - 1)) mod 256). intros x y Hx Hy.
    destruct (Z.eqb_spec x 169), (Z.eqb_spec y 254), (Z.eqb_spec a 0); cbn; split; try done; lia.
  - unfold Notification.v6_is_loopback, Notification.V6_LOCALHOST. rewrite andb_negb_r.
    by destruct (Z.eqb_spec a AWS_METADATA).
Qed.

Lemma check_addresses_spec ips f : check_addresses ips f = None ↔ ∀ ip, ip ∈ ips → reachable ip.
Proof.
  induction ips as [|ip ips IH]; cbn; [split; [intros _ ip []%not_elem_of_nil|done]|].
  pose proof (check_metadata_ip_spec ip f) as Hip. destruct (check_metadata_ip ip f).
  - split; [done|]. intros H. discriminate (proj2 Hip (H ip ltac:(left))).
  - rewrite IH. split; [|intros H i Hi; apply H; by right].
    intros H i [->|Hi]%elem_of_cons; [by apply Hip|auto].
Qed.

Section urls.
Context (parse_url : string → option Url) (lookup_host : string → Z → option (list IpAddr)).

(** A URL of the web whose host is reachable. *)
Definition url_ok (url : string) : Prop :=
  ∃ p, parse_url url = Some p ∧ (scheme p = "http" ∨ scheme p = "https") ∧
    match host p with
    | Some (Ipv4 a) => reachable (V4 a)
    | Some (Ipv6 a) => reachable (V6 a)
    | Some (Domain d) =>
        ∃ ips, lookup_host d (default 80 (port_or_known_default p)) = Some ips ∧
          ∀ ip, ip ∈ ips → reachable ip
    | None => False
    end.

Lemma validate_channel_url_spec url f :
  validate_channel_url parse_url lookup_host url f = None ↔ url_ok url.
Proof.
  unfold validate_channel_url, url_ok, bad_request.
  destruct (parse_url url) as [p|]; [|by split; [|intros (?&?&_)]].
  assert (∀ A : Url → Prop, (∃ p0, Some p = Some p0 ∧ A p0) ↔ A p) as Hex.
  { intros A. split; [by intros (?&[= <-]&?)|by exists p]. }
  etransitivity; [|symmetry; apply Hex]. cbv beta.
  assert (String.eqb (scheme p) "http" || String.eqb (scheme p) "https" = true ↔
          scheme p = "http" ∨ scheme p = "https") as Hs by by rewrite orb_true_iff, !String.eqb_eq.
  rewrite <- Hs. destruct (_ || _); cbn [negb]; [|by split; [|intros []]].
  destruct (host p) as [[a|a|d]|].
  - rewrite check_metadata_ip_spec. tauto.
  - rewrite check_metadata_ip_spec. tauto.
  - destruct (lookup_host _ _) as [ips|]; [rewrite (check_addresses_spec ips)|].
    + split; [intros H; split; [done|by exists ips]|by intros (_&?&[= <-]&?)].
    + by split; [|intros (_&?&?&_)].
  - by split; [|intros []].
Qed.

(** What the console may store in a channel. *)
Record guarded (c : Channel) : Prop := {
  guarded_headers : ∀ n v, headers c !! n = Some v →
    (to_lowercase n ∉ STORED_HEADER_DENYLIST) ∧ breaks_line n = false ∧ breaks_line v = false;
  guarded_proxy : ∀ u, proxy_url c = Some u → url_ok u;
  guarded_models : ∀ u, models_endpoint c = Some u → url_ok u;
  guarded_balance : ∀ q u, quota c = Some q → balance_url q = Some u → u ≠ "" → url_ok u;
  guarded_prefix : ∀ q p, quota c = Some q → auth_prefix q = Some p → breaks_line p = false;
}.

Lemma filter_headers_ok m n v :
  filter_dangerous_headers m !! n = Some v →
  (to_lowercase n ∉ STORED_HEADER_DENYLIST) ∧ breaks_line n = false ∧ breaks_line v = false.
Proof.
  unfold filter_dangerous_headers. rewrite !map_lookup_filter_Some. cbn. unfold name_kept.
  intros [[_ [H1 H2]%andb_true_iff] Hv]. apply negb_true_iff, bool_decide_eq_false in H1.
  by apply negb_true_iff in H2.
Qed.

Lemma validate_fields_ok proxy models q :
  validate_fields parse_url lookup_host proxy models q = None →
  (∀ u, proxy = Some u → url_ok u) ∧ (∀ u, models = Some u → url_ok u) ∧
  (∀ q' u, q = Some q' → balance_url q' = Some u → u ≠ "" → url_ok u) ∧
  (∀ q' p, q = Some q' → auth_prefix q' = Some p → breaks_line p = false).
Proof.
  unfold validate_fields. intros H. destruct (proxy ≫= _) eqn:H1; [done|].
  destruct (models ≫= _) eqn:H2; [done|]. split_and!.
  - intros u ->. by apply (validate_channel_url_spec u "proxy_url").
  - intros u ->. by apply (validate_channel_url_spec u "models_endpoint").
  - intros q' u -> Hu Hne. cbn in H. unfold validate_quota_config in H. rewrite Hu in H.
    destruct (String.eqb_spec u ""); [done|]. apply (validate_channel_url_spec u "quota.balance_url").
    by destruct (validate_channel_url _ _ _ _).
  - intros q' p -> Hp. cbn in H. unfold validate_quota_config in H. rewrite Hp in H.
    destruct (match balance_url q' with Some _ => _ | None => _ end); [done|].
    by destruct (breaks_line p).
Qed.
End urls.
End AdminFacts.

Module AdminProps.
Import Json Channel AdminChannels AdminFacts.
Import Notification(IpAddr(..)).

(** The requests that change channels. *)
Inductive Op :=
  | Create (req : CreateChannelRequest)
  | Update (u : Uuid) (req : UpdateChannelRequest)
  | Delete (u : Uuid)
  | Enable (ids : list Uuid)
  | Disable (ids : list Uuid)
  | DeleteAll (ids : list Uuid)
  | Retag (add_tags remove_tags : list string) (ids : list Uuid).

Section admin.
Context (parse_url : string → option Url) (lookup_host : string → Z → option (list IpAddr)).
Context (show_uuid : Uuid → string) (debug : Provider → string).
Context (rfc3339 : DateTime → string) (to_string : value → string) (sha256 : string → list Z).

Abbreviation audit := (audit show_uuid rfc3339 to_string sha256).
Abbreviation batch_edit := (batch_edit show_uuid rfc3339 to_string sha256).
Abbreviation batch_drop := (batch_drop show_uuid rfc3339 to_string sha256).

Definition apply_op (s : Stores) '((r, op) : Reading * Op) : Stores :=
  match op with
  | Create req => (create_channel parse_url lookup_host show_uuid debug rfc3339 to_string sha256 r req s).1
  | Update u req =>
      (update_channel parse_url lookup_host show_uuid debug rfc3339 to_string sha256 r u req s).1
  | Delete u => (delete_channel show_uuid rfc3339 to_string sha256 r u s).1
  | Enable ids => (batch_enable_channels show_uuid rfc3339 to_string sha256 r ids s).1
  | Disable ids => (batch_disable_channels show_uuid rfc3339 to_string sha256 r ids s).1
  | DeleteAll ids => (batch_delete_channels show_uuid rfc3339 to_string sha256 r ids s).1
  | Retag a d ids => (batch_update_tags show_uuid rfc3339 to_string sha256 r a d ids s).1
  end.

(** *** How an operation changes the table and the audit log

    The log is extended by records; an entry of the table that differs is in their
    targets; and what holds of all channels before holds of all after. *)
Definition recorded (es : list (DateTime * string * Uuid * list (string * value))) (s : Stores)
    : AuditTrail.Audit.AuditLog :=
  foldl (λ l '(t, action, u, details),
     AuditTrail.Audit.record rfc3339 to_string sha256 t action "admin-api" (show_uuid u) (obj details) l)
    (audit_log s) es.
Definition targets (es : list (DateTime * string * Uuid * list (string * value))) : list Uuid :=
  (λ e, e.1.2) <$> es.
Definition all (P : Channel → Prop) (s : Stores) : Prop := ∀ u c, table s !! u = Some c → P c.
Definition changed (P : Channel → Prop) (s s' : Stores) : Prop :=
  (∃ es, audit_log s' = recorded es s ∧ ∀ u, table s' !! u = table s !! u ∨ u ∈ targets es) ∧
  (all P s → all P s').

Lemma changed_refl P s s' : table s' = table s → audit_log s' = audit_log s → changed P s s'.
Proof.
  intros Ht Ha. split; [|unfold all; by rewrite Ht]. exists []. split; [done|]. intros u. left. by rewrite Ht.
Qed.

Lemma changed_trans P s1 s2 s3 : changed P s1 s2 → changed P s2 s3 → changed P s1 s3.
Proof.
  intros [(e1&A1&T1) H1] [(e2&A2&T2) H2]. split; [|auto]. exists (e1 ++ e2).
  unfold recorded in *. rewrite foldl_app, <- A1. split; [done|].
  intros u. unfold targets in *. rewrite fmap_app.
  destruct (T2 u) as [->|Hu]; [destruct (T1 u) as [->|Hu]; [by left|]|]; right; set_solver.
Qed.

(** One entry written and recorded; saving and credentials do not matter. *)
Lemma changed_put P (s s' : Stores) t action u details o :
  table s' = partial_alter (λ _, o) u (table s) → (all P s → ∀ c, o = Some c → P c) →
  audit_log s' = recorded [(t, action, u, details)] s → changed P s s'.
Proof.
  intros Ht Ho Ha. split.
  - eexists. split; [exact Ha|]. intros v. destruct (decide (u = v)) as [<-|Hne]; [right; by left|].
    left. rewrite Ht. by rewrite lookup_partial_alter_ne.
  - intros HP v c. rewrite Ht. destruct (decide (u = v)) as [<-|Hne].
    + rewrite lookup_partial_alter_eq. by apply Ho.
    + rewrite lookup_partial_alter_ne by done. apply HP.
Qed.

Lemma persist_parts r s :
  table (persist show_uuid r s) = table s ∧ audit_log (persist show_uuid r s) = audit_log s.
Proof. unfold persist. by destruct (r_saved r). Qed.

Lemma drop_credential_parts r u s :
  channel_mgr (drop_credential r u s) = channel_mgr s ∧
  audit_log (drop_credential r u s) = audit_log s.
Proof. unfold drop_credential. destruct (ChannelManager.ChannelManager.get _ _); [|done]. by destruct (r_deleted r). Qed.

Lemma changed_batch P one r ids s :
  (∀ acc iu, changed P acc.1 (one acc iu).1) → changed P s (batch show_uuid one r ids s).1.
Proof.
  intros Hone. unfold batch. destruct (foldl one _ _) as [s' b] eqn:E.
  assert (changed P s s') as Hs'.
  { change s' with (s', b).1. rewrite <- E. change s with (s, new_result (length ids)).1 at 1.
    generalize (s, new_result (length ids)). generalize (imap pair ids). clear E.
    intros l. induction l as [|iu l IH]; intros acc; [by apply changed_refl|]. cbn.
    eapply changed_trans; [apply Hone|apply IH]. }
  cbn [fst]. eapply changed_trans; [exact Hs'|]. destruct (0 <? b_success b)%nat; cbn; [|by apply changed_refl].
  destruct (persist_parts r s'). by apply changed_refl.
Qed.

Lemma changed_edit (P : Channel → Prop) change action details r acc iu :
  (∀ t c, P c → P (change t c)) → changed P acc.1 (batch_edit change action details r acc iu).1.
Proof.
  destruct acc as [s b], iu as [i u]. cbn. intros Hch. unfold ChannelManager.ChannelManager.get.
  destruct (table s !! u) as [c|] eqn:E; [|by apply changed_refl].
  unfold ChannelManager.ChannelManager.update. rewrite E. cbn.
  eapply (changed_put P _ _ _ _ u _ (Some (change (r_clock r (2 * i)) c))); [done| |done].
  intros HP c' [= <-]. eapply Hch, HP, E.
Qed.

Lemma changed_drop P r acc iu : changed P acc.1 (batch_drop r acc iu).1.
Proof.
  destruct acc as [s b], iu as [i u]. cbn. destruct (drop_credential_parts r u s) as [Hm Ha]. rewrite Hm.
  unfold ChannelManager.ChannelManager.delete_channel. destruct (bool_decide _) eqn:E; cbn.
  - eapply (changed_put P _ _ _ _ u _ None); [done|done|]. cbn. by rewrite Ha.
  - apply changed_refl; [by rewrite Hm|done].
Qed.

Lemma changed_delete P r u s :
  changed P s (delete_channel show_uuid rfc3339 to_string sha256 r u s).1.
Proof.
  unfold delete_channel. destruct (drop_credential_parts r u s) as [Hm Ha]. rewrite Hm.
  unfold ChannelManager.ChannelManager.delete_channel. destruct (bool_decide _) eqn:E; cbn.
  - destruct (persist_parts r (forget u (with_mgr (ChannelManager.ChannelManager.set_channels (channel_mgr s)
      (delete u (table s))) (drop_credential r u s)))) as [Ht Hl].
    eapply (changed_put P _ _ _ _ u _ None); [cbn; by rewrite Ht|done|]. cbn. rewrite Hl. cbn. by rewrite Ha.
  - apply changed_refl; [by rewrite Hm|done].
Qed.

Lemma changed_create P r req s :
  (∀ k t1 t2, validate_fields parse_url lookup_host (n_proxy_url req) (n_models_endpoint req) (n_quota req) = None →
     P (created_channel (r_fresh r) k t1 t2 req)) →
  changed P s (create_channel parse_url lookup_host show_uuid debug rfc3339 to_string sha256 r req s).1.
Proof.
  intros HP. unfold create_channel. destruct (r_stored r); cbn [negb]; [|by apply changed_refl].
  destruct (validate_fields _ _ _ _ _) eqn:E; [by apply changed_refl|]. cbn.
  match goal with |- context [persist show_uuid r ?x] => destruct (persist_parts r x) as [Ht Hl] end.
  eapply (changed_put P _ _ _ _ (r_fresh r) _ (Some _)); [cbn; by rewrite Ht| |cbn; by rewrite Hl].
  intros _ c [= <-]. by apply HP.
Qed.

Lemma changed_update P r u req s :
  (∀ c, validate_fields parse_url lookup_host (u_proxy_url req) (u_models_endpoint req) (u_quota req) = None →
     P (updated_channel (r_clock r 0) req c)) →
  changed P s (update_channel parse_url lookup_host show_uuid debug rfc3339 to_string sha256 r u req s).1.
Proof.
  intros HP. unfold update_channel, update_read, ChannelManager.ChannelManager.get.
  destruct (table s !! u) as [c|] eqn:E; [|by apply changed_refl].
  destruct (validate_fields _ _ _ _ _) eqn:Ev; [by apply changed_refl|].
  assert (∃ cs, (update_credential r req (updated_channel (r_clock r 0) req c) s).1 = with_credentials cs s)
    as [cs Hcs].
  { unfold update_credential. destruct (u_credential_value req) as [k|]; [|by exists (credentials s); destruct s].
    destruct (String.eqb k ""); [by exists (credentials s); destruct s|].
    destruct (r_stored r); cbn; [by eexists|by exists (credentials s); destruct s]. }
  destruct (update_credential _ _ _ _) as [s1 [e|]]; cbn [fst] in Hcs; subst s1; [by apply changed_refl|].
  unfold update_write, ChannelManager.ChannelManager.update. cbn. rewrite E. cbn.
  match goal with |- context [persist show_uuid r ?x] => destruct (persist_parts r x) as [Ht Hl] end.
  eapply (changed_put P _ _ _ _ u _ (Some _)); [cbn; by rewrite Ht| |cbn; by rewrite Hl].
  intros _ c' [= <-]. by apply HP.
Qed.

Lemma edit_guarded t c (f : DateTime → Channel → Channel) :
  (f = enable ∨ f = disable ∨ ∃ a d, f = retag a d) →
  guarded parse_url lookup_host c → guarded parse_url lookup_host (f t c).
Proof. intros [->|[->|(a&d&->)]] []; by split. Qed.

Lemma changed_op s ro : changed (guarded parse_url lookup_host) s (apply_op s ro).
Proof.
  destruct ro as [r []]; cbn [apply_op].
  - apply changed_create. intros k t1 t2 (H1&H2&H3&H4)%validate_fields_ok.
    split; try done. intros n v. apply filter_headers_ok.
  - apply changed_update. intros c (H1&H2&H3&H4)%validate_fields_ok.
    split; try done. intros n v. apply filter_headers_ok.
  - apply changed_delete.
  - apply changed_batch. intros. apply changed_edit. intros t c. apply edit_guarded. by left.
  - apply changed_batch. intros. apply changed_edit. intros t c. apply edit_guarded. by right; left.
  - apply changed_batch. intros. apply changed_drop.
  - apply changed_batch. intros. apply changed_edit. intros t c. apply edit_guarded. right; right. by do 2 eexists.
Qed.

(** C27. Every change of a channel is in the audit log. After any sequence of
    requests the log is that of before extended by records made by the
    administrator, and a channel whose entry differs is the target of one. *)
Theorem channel_changes_audited s ops :
  ∃ es, audit_log (foldl apply_op s ops) = recorded es s ∧
    ∀ u, table (foldl apply_op s ops) !! u = table s !! u ∨ u ∈ targets es.
Proof.
  assert (changed (λ _, True) s (foldl apply_op s ops)) as [H _]; [|done].
  revert s. induction ops as [|ro ops IH]; intros s; [by apply changed_refl|]. cbn.
  eapply changed_trans; [|apply IH]. destruct (changed_op s ro) as [H _]. by split.
Qed.

(** *** With reloads in between *)

(** A reload keeps the fields that are guarded of the channels it finds, and makes the
    others as the file has them, which it does not check. *)
Section reloads.
Context (parse_uuid : string → option Uuid) (order : gmap Uuid Channel → list Channel).
Abbreviation safe := (all (guarded parse_url lookup_host)).



End reloads.

(** *** Deleting many *)

Lemma drop_step r s b i u :
  let s' := (batch_drop r (s, b) (i, u)).1 in
  let b' := (batch_drop r (s, b) (i, u)).2 in
  table s' = delete u (table s) ∧
  quota_store s' = (if decide (is_Some (table s !! u)) then delete u (quota_store s) else quota_store s) ∧
  (size (table s) + b_success b = size (table s') + b_success b')%nat ∧
  (b_success b' + b_failed b' = S (b_success b + b_failed b))%nat.
Proof.
  cbn. assert (∀ x, quota_store (drop_credential r x s) = quota_store s) as Hq.
  { intros x. unfold drop_credential. destruct (ChannelManager.ChannelManager.get _ _); [|done]. by destruct (r_deleted r). }
  destruct (drop_credential_parts r u s) as [Hm _]. rewrite Hm.
  unfold ChannelManager.ChannelManager.delete_channel. case_bool_decide as E; cbn [fst snd].
  - cbn. rewrite Hq, decide_True by done. split_and!; [done|done| |lia].
    rewrite map_size_delete_Some by done.
    assert (size (table s) ≠ 0%nat) by (by eapply map_size_ne_0_lookup_2). lia.
  - rewrite Hm, Hq, decide_False by done. apply eq_None_not_Some in E. cbn.
    split_and!; [by rewrite delete_id|done|lia..].
Qed.

Lemma drop_fold r l acc :
  let acc' := foldl (batch_drop r) acc l in
  (∀ u, table acc'.1 !! u = if decide (u ∈ l.*2) then None else table acc.1 !! u) ∧
  (∀ u, quota_store acc'.1 !! u =
     if decide (u ∈ l.*2 ∧ is_Some (table acc.1 !! u)) then None else quota_store acc.1 !! u) ∧
  (size (table acc.1) + b_success acc.2 = size (table acc'.1) + b_success acc'.2)%nat ∧
  (b_success acc'.2 + b_failed acc'.2 = length l + (b_success acc.2 + b_failed acc.2))%nat.
Proof.
  revert acc. induction l as [|[i v] l IH]; intros acc; cbn zeta; cbn [foldl].
  - split_and!; try done; intros u; cbn; by rewrite decide_False by set_solver.
  - destruct acc as [s b]. destruct (drop_step r s b i v) as (T&Q&S1&S2).
    destruct (IH (batch_drop r (s, b) (i, v))) as (IT&IQ&IS1&IS2).
    split_and!.
    + intros u. rewrite IT, T. destruct (decide (u ∈ l.*2)); [by rewrite decide_True by set_solver|].
      destruct (decide (u = v)) as [->|]; [by rewrite lookup_delete_eq, decide_True by set_solver|].
      by rewrite lookup_delete_ne, decide_False by set_solver.
    + intros u. rewrite IQ, T, Q. destruct (decide (u = v)) as [->|Hne].
      * rewrite lookup_delete_eq, (decide_False (P:=_ ∧ is_Some None)) by (by intros [_ []]).
        destruct (decide (is_Some (table s !! v))) as [Hs|Hs].
        -- rewrite lookup_delete_eq. by rewrite decide_True by (split; [by left|done]).
        -- by rewrite decide_False by (by intros [_ ?]).
      * rewrite lookup_delete_ne by done.
        assert ((if decide (is_Some (table s !! v)) then delete v (quota_store s) else quota_store s) !! u =
                quota_store s !! u) as -> by (case_decide; [by rewrite lookup_delete_ne|done]).
        apply decide_ext. set_solver.
    + cbn [fst snd] in *. lia.
    + cbn [fst snd length] in *. lia.
Qed.

(** Deleting many deletes exactly those. The channels of the list are gone, with
    their quotas, and all others are as before; the number of successes is that of
    the channels that are gone, so an identifier given twice fails the second
    time, and successes and failures add up to the length of the list. *)
Theorem batch_delete_exact r ids s :
  let '(s', b) := batch_delete_channels show_uuid rfc3339 to_string sha256 r ids s in
  (∀ u, table s' !! u = if decide (u ∈ ids) then None else table s !! u) ∧
  (∀ u, quota_store s' !! u =
     if decide (u ∈ ids ∧ is_Some (table s !! u)) then None else quota_store s !! u) ∧
  (size (table s) = size (table s') + b_success b)%nat ∧
  (b_success b + b_failed b = length ids)%nat.
Proof.
  unfold batch_delete_channels, batch.
  pose proof (drop_fold r (imap pair ids) (s, new_result (length ids))) as H. cbn zeta in H.
  assert ((imap pair ids).*2 = ids) as Hi by 
    (by apply list_eq; intros i; rewrite list_lookup_fmap, list_lookup_imap; destruct (ids !! i)).
  rewrite length_imap, Hi in H. revert H.
  destruct (foldl (batch_drop r) _ _) as [s' b]. cbn [fst snd]. intros H. destruct H as (H1&H2&H3&H4).
  assert (∀ x, quota_store (persist show_uuid r x) = quota_store x) as Hq
    by (intros x; unfold persist; by destruct (r_saved r)).
  destruct (persist_parts r s') as [Ht _]. split_and!.
  - intros u. destruct (0 <? _)%nat; by rewrite ?Ht.
  - intros u. destruct (0 <? _)%nat; by rewrite ?Hq.
  - destruct (0 <? _)%nat; rewrite ?Ht; cbn in H3; lia.
  - cbn in H4. lia.
Qed.
End admin.

(** *** Saving and reloading *)

Lemma saved_ids show_uuid (m : gmap Uuid Channel) :
  (∀ u v, show_uuid u = show_uuid v → u = v) → map_Forall (λ u c, id c = u) m →
  NoDup (c_id <$> map (ChannelManager.ChannelManager.to_config show_uuid) (map_values m)).
Proof.
  intros Hinj Hown.
  replace (c_id <$> map (ChannelManager.ChannelManager.to_config show_uuid) (map_values m))
    with (show_uuid <$> (map_to_list m).*1).
  { apply (NoDup_fmap_2 show_uuid (Inj0:=Hinj)), NoDup_fst_map_to_list. }
  unfold map_values. change (map (ChannelManager.ChannelManager.to_config show_uuid)) with
    (fmap (M:=list) (ChannelManager.ChannelManager.to_config show_uuid)).
  rewrite <- !list_fmap_compose. apply list_fmap_ext. intros i [u c] Hi%list_elem_of_lookup_2.
  apply elem_of_map_to_list in Hi. cbn. by rewrite (Hown _ _ Hi).
Qed.

Lemma saved_unchanged show c :
  Watcher.Watcher.channel_config_changed (Watcher.Watcher.channel_to_config show c)
    (ChannelManager.ChannelManager.to_config show c) = false.
Proof.
  assert (∀ {T} `{EqDecision T} (x : T), Watcher.Watcher.config_changed x x = false) as Hx
    by (intros; unfold Watcher.Watcher.config_changed; by rewrite bool_decide_eq_true_2).
  unfold Watcher.Watcher.channel_config_changed.
  cbn -[Watcher.Watcher.config_changed bool_decide]. by rewrite !Hx.
Qed.

(** A save and the reload that it triggers change nothing: when the watcher reads
    the file that the console has just written, every channel keeps its entry with
    all run-time state, whatever the orders of iteration. *)
Theorem saved_config_reloads parse show fa fu fl order servers now mcps mcp r s :
  (∀ u, parse (show u) = Some u) → (∀ m, order m ≡ₚ map_values m) →
  map_Forall (λ u c, id c = u) (table s) → r_saved r = true →
  let file := Watcher.Watcher.mkAppConfig (config_file (persist show r s)) mcps in
  let w := Watcher.Watcher.mkStores (channel_mgr s) mcp (rate_limiter s) (payload_rules s) in
  ∀ u, ChannelManager.ChannelManager.channels (Watcher.Watcher.channel_mgr
         (Watcher.Watcher.apply_config_reload parse show fa fu fl order servers now file w)) !! u = table s !! u.
Proof.
  intros Hps Hord Hown Hr file w u.
  assert (∀ a b, show a = show b → a = b) as Hinj by (intros a b H; apply (f_equal parse) in H; rewrite !Hps in H; congruence).
  set (cs := map (ChannelManager.ChannelManager.to_config show) (map_values (table s))).
  assert (Watcher.Watcher.config_channels file = cs) as Hcs by (unfold file, persist; by rewrite Hr).
  assert (∀ cc, cc ∈ cs → ∃ c, cc = ChannelManager.ChannelManager.to_config show c ∧ table s !! id c = Some c) as Hin.
  { intros cc (c&->&Hc)%list_elem_of_fmap. exists c. split; [done|].
    apply list_elem_of_fmap in Hc as ([v c']&->&Hc%elem_of_map_to_list). cbn. by rewrite (Hown _ _ Hc). }
  assert (NoDup (c_id <$> cs)) as Hnd by by apply saved_ids.
  destruct (Watcher.WatcherFacts.reload_lookup parse show fa fu fl order servers now file w u Hps Hord Hown)
    as [-> _]; rewrite ?Hcs; [|done|].
  { apply Forall_forall. intros cc (c&->&_)%Hin. by exists (id c). }
  change (ChannelManager.ChannelManager.channels (Watcher.Watcher.channel_mgr w)) with (table s).
  destruct (chosen _ _ _ u) as [cc|] eqn:E.
  - apply (chosen_in N.eqb N.eqb_spec) in E as [(c&->&Hc)%Hin Hk].
    unfold Watcher.WatcherFacts.key in Hk. cbn in Hk. rewrite Hps in Hk. cbn in Hk. subst u. rewrite Hc.
    by rewrite saved_unchanged.
  - destruct (table s !! u) as [c|] eqn:Hc; [|done]. exfalso.
    eapply (proj1 (chosen_none N.eqb N.eqb_spec _ _ _) E (ChannelManager.ChannelManager.to_config show c)).
    + apply list_elem_of_fmap_2, list_elem_of_fmap. exists (u, c). split; [done|]. by apply elem_of_map_to_list.
    + unfold Watcher.WatcherFacts.key. cbn. rewrite Hps. cbn. by apply Hown.
Qed.

(** *** A concrete gateway *)

(** Identifiers in decimal; one host that resolves to a public address and one
    to the metadata service. *)
Definition show (u : Uuid) : string := NilEmpty.string_of_uint (N.to_uint u).
Definition no_debug (_ : Provider) : string := "provider".
Definition day (_ : DateTime) : string := "t".
Definition no_json (_ : value) : string := "{}".
Definition digest (s : string) : list Z := [].
Definition urls (url : string) : option Url :=
  if String.eqb url "http://proxy" then Some (mkUrl "http" (Some (Domain "proxy")) (Some 80))
  else if String.eqb url "http://metadata" then Some (mkUrl "http" (Some (Domain "metadata")) (Some 80))
  else None.
Definition resolver (host : string) (_ : Z) : option (list IpAddr) :=
  if String.eqb host "proxy" then Some [V4 134744072]
  else if String.eqb host "metadata" then Some [V4 2852039166]
  else None.
Definition reading (fresh : Uuid) : Reading := mkReading fresh (λ _, 5) true true true.
Definition running (u : Uuid) : Channel := sample_channel (show u) "a" 1 100.
Definition stores (cs : list Channel) : Stores :=
  mkStores (ChannelManager.ChannelManager.mkManager (ChannelManager.ChannelManager.collect_channels cs) 5 ∅ false)
    ∅ ∅ Trackers.Cooldown.new ∅ (RateLimiter.RateLimiter.new None 0) (AuditTrail.Audit.new 10) [].
Definition proxied (proxy : string) : CreateChannelRequest :=
  mkCreate "b" "openai" 1 100 None None None "api_key" "secret" "http://metadata" ∅ None None None None
    None [] [] None None None (Some proxy) {["Cookie" := "x"; "X-Team" := "y"]} [] None.
Definition request (enabled : bool) : UpdateChannelRequest :=
  mkUpdate "renamed" "openai" 1 100 None "https://api.openai.com" enabled ∅ None None None None None None
    None None [] [] None ∅ None None None [] None.
Definition run := apply_op urls resolver show no_debug day no_json digest.
Definition create := create_channel urls resolver show no_debug day no_json digest.



Lemma saved_config_reloads_witness :
  let s := stores [running 1; running 2] in
  let parse := λ s, NilEmpty.uint_of_string s ≫= λ d, Some (N.of_uint d) in
  ChannelManager.ChannelManager.channels (Watcher.Watcher.channel_mgr
    (Watcher.Watcher.apply_config_reload parse show (λ _, 0%N) (λ _, 0%N) (λ _, 0%N) map_values [] 7
       (Watcher.Watcher.mkAppConfig (config_file (persist show (reading 0) s)) [])
       (Watcher.Watcher.mkStores (channel_mgr s) Mcp.Manager.new_manager (rate_limiter s) (payload_rules s))))
    !! 1%N = Some (running 1).
Proof.
  intros s parse. rewrite (saved_config_reloads parse show); [done|..|done].
  - intros u. unfold parse, show. rewrite NilEmpty.usu. cbn. by rewrite DecimalN.Unsigned.of_to.
  - done.
  - apply map_Forall_lookup. intros u c Hc. apply map_to_list_complete in Hc || idtac.
    cbn in Hc. apply lookup_insert_Some in Hc as [[<- <-]|[_ Hc]]; [done|].
    apply lookup_insert_Some in Hc as [[<- <-]|[_ Hc]]; [done|by rewrite lookup_empty in Hc].
Defined.

(** *** What escapes *)

(** The base URL is not looked at: the channel is created although its requests
    go to the metadata service, and a denylisted header is silently dropped. *)
Example base_url_unchecked :
  match (create (reading 2) (proxied "http://proxy") (stores [])).2 with
  | inl c => base_url c = "http://metadata" ∧ headers c = {["X-Team" := "y"]}
  | inr _ => False
  end.
Proof. vm_compute. done. Qed.

(** A request that is refused has stored its credential. *)
Example refused_credential_stays :
  let '(s, answer) := create (reading 2) (proxied "http://metadata") (stores []) in
  answer = inr (mkError 400 LinkLocal "proxy_url") ∧ credentials s !! "openai_2" = Some "secret".
Proof. vm_compute. done. Qed.

(** ::ffff:169.254.169.254 *)
Example mapped_metadata_allowed :
  check_metadata_ip (V6 (65535 * 2 ^ 32 + 2852039166)) "proxy_url" = None.
Proof. vm_compute. done. Qed.

(** A reload on request takes from the file what the console would refuse. *)
Example reload_unchecked :
  let cc := mkChannelConfig "4" "a" "openai" 1 100 None None None "api_key" "ref" None "https://a" true ∅ None None None
              None None None None [] [] (Some "http://metadata") (Some {["Host" := "x"]}) None None 0 [] in
  let s := (reload_config sample_parse map_values 7 (Some [cc]) (stores [])).1 in
  validate_channel_url urls resolver "http://metadata" "proxy_url" ≠ None ∧
  (λ c, (proxy_url c, headers c)) <$> table s !! 4%N = Some (Some "http://metadata", {["Host" := "x"]}).
Proof. vm_compute. split; [discriminate|reflexivity]. Qed.

(** An update writes back a copy: a failure recorded in between is undone. *)
Example concurrent_failure_lost :
  let s := stores [running 1] in
  match update_read urls resolver (reading 0) 1 (request true) s with
  | inr _ => False
  | inl c =>
      let s := with_mgr (ChannelManager.ChannelManager.mark_circuit_open 1 6 (channel_mgr s)) s in
      (status <$> table s !! 1%N) = Some CircuitOpen ∧
      (status <$> table (update_write show no_debug day no_json digest (reading 0) 1 c s).1 !! 1%N) = Some Healthy
  end.
Proof. vm_compute. done. Qed.

(** A channel disabled in the console and enabled in the file stays disabled when
    the file is reloaded on request. *)
Example enabled_stays_disabled :
  let s := (batch_disable_channels show day no_json digest (reading 0) [1%N] (stores [running 1])).1 in
  let s := (reload_config sample_parse map_values 7 (Some [sample_config "1" "a" 1 100]) s).1 in
  (λ c, (enabled c, is_available c 100)) <$> table s !! 1%N = Some (true, false).
Proof. vm_compute. done. Qed.

(** The reload on request deletes a channel without a record in the audit log. *)
Example reload_not_audited :
  let s := (reload_config sample_parse map_values 7 (Some []) (stores [running 1])).1 in
  table s !! 1%N = None ∧ AuditTrail.Audit.entries (audit_log s) = [].
Proof. vm_compute. done. Qed.

(** Rules that are set without rules per model keep the old ones per model, so
    what is read back is not what was set. *)
Lemma payload_rules_readback u rules s :
  is_Some (table s !! u) →
  get_payload_rules u (set_payload_rules u rules s).1 =
  inl (mkPayloadRulesConfig (pc_defaults rules) (pc_overrides rules) (pc_strip rules)
         (match pc_model_rules rules with
          | [] => match payload_rules s !! u with Some full => Rules.model_rules full | None => [] end
          | rs => rs
          end)).
Proof.
  intros [c Hc]. unfold set_payload_rules, get_payload_rules, ChannelManager.ChannelManager.get. rewrite Hc.
  cbn. rewrite Hc. unfold Rules.get_full, Rules.add, Rules.set_model_rules, Rules.set, Rules.entry.
  destruct (pc_model_rules rules); by rewrite !lookup_insert_eq; destruct (payload_rules s !! u).
Qed.
End AdminProps.
