(* ===== verification/AdminKeys.v ===== *)
(** The administration of the virtual keys (admin/virtual_keys/) and what the
    holder of a key sees (admin/portal.rs). *)

From stdpp Require Import pretty.
From Stdlib Require Import DecimalString.
From S2P Require Import Prelude F64 Json PersistedStore VirtualKey Access Logs.

Module AdminKeys.
Import Json VirtualKey.

(** The store, and the table that the last write to its file saved. *)
Record Stores := mkStores { key_store : VirtualKeyStore; saved : gmap Uuid VirtualKey }.

(** [persist_virtual_keys]; [ok] tells whether the write succeeds, a failure is
    only logged. *)
Definition persist_virtual_keys (ok : bool) (s : Stores) : Stores :=
  if ok then mkStores (key_store s) (keys (key_store s)) else s.

Inductive reason := NameRequired | BudgetOrder | KeyNotFound | CountZero | CountTooLarge
  | MissingHeader | InvalidScheme | EmptyToken | InvalidKey.
Record ApiError := mkError { status_code : Z; why : reason }.

(** ** crud.rs *)

(** *** The body of an update: an absent field and [null] are both read as [None],
    also by the double options. (A body that is an array is not modelled.) *)

Definition read_str (v : value) : option string := as_str v.
Definition read_bool (v : value) : option bool := as_bool v.
Definition read_uint (max : Z) (v : value) : option Z :=
  match v with Number (PosInt n) => if n <=? max then Some n else None | _ => None end.
Definition read_strings (v : value) : option (list string) :=
  match v with Array l => mapM as_str l | _ => None end.

Definition read_option {T} (read : value → option T) (field : option value) : option (option T) :=
  match field with
  | None | Some Null => Some None
  | Some v => Some <$> read v
  end.
Definition read_double {T} (read : value → option T) (field : option value)
    : option (option (option T)) := fmap (M:=option) Some <$> read_option read field.

Section updates.
(** The RFC 3339 reader of chrono. *)
Context (parse_time : string → option DateTime).

Definition read_time (v : value) : option DateTime := as_str v ≫= parse_time.

Definition read_update (body : value) : option Update :=
  match as_object body with
  | None => None
  | Some m =>
      n ← read_option read_str (m !! "name");
      daily ← read_double (read_uint u64_max) (m !! "daily_budget_cents");
      monthly ← read_double (read_uint u64_max) (m !! "monthly_budget_cents");
      en ← read_option read_bool (m !! "enabled");
      allowed ← read_double read_strings (m !! "allowed_models");
      denied ← read_option read_strings (m !! "denied_models");
      ips ← read_option read_strings (m !! "allowed_ips");
      rpm ← read_double (read_uint u32_max) (m !! "rpm_limit");
      tpm ← read_double (read_uint u32_max) (m !! "tpm_limit");
      expires ← read_double read_time (m !! "expires_at");
      g ← read_double read_str (m !! "group");
      Some (mkUpdate n daily monthly en allowed denied ips rpm tpm expires g)
  end.
End updates.

(** *** What is shown of a key: all but its hash *)

Record VirtualKeyResponse := mkResponse {
  r_id : Uuid;
  r_name : string;
  r_key_prefix : string;
  r_daily_budget_cents : option Z;
  r_monthly_budget_cents : option Z;
  r_enabled : bool;
  r_created_at : DateTime;
  r_spend : VirtualKeySpend;
  r_allowed_models : option (list string);
  r_denied_models : list string;
  r_allowed_ips : list string;
  r_rpm_limit : option Z;
  r_tpm_limit : option Z;
  r_expires_at : option DateTime;
  r_group : option string;
}.
Definition response_of (k : VirtualKey) : VirtualKeyResponse :=
  mkResponse (id k) (name k) (key_prefix k) (daily_budget_cents k) (monthly_budget_cents k) (enabled k)
    (created_at k) (spend k) (allowed_models k) (denied_models k) (allowed_ips k) (rpm_limit k)
    (tpm_limit k) (expires_at k) (group k).

Definition MAX_PAGE_LIMIT : Z := 200.
Definition DEFAULT_PAGE_LIMIT : Z := 50.
Definition default_page : Z := 1.

Record ListVirtualKeysParams := mkParams {
  p_page : Z;
  p_limit : Z;
  p_search : option string;
  p_group : option string;
}.
Record ListVirtualKeysResponse := mkPage {
  l_data : list VirtualKeyResponse;
  l_total : nat;
  l_page : Z;
  l_limit : Z;
}.

Definition found (search group_filter : option string) (k : VirtualKey) : bool :=
  match search with Some s => starts_with (to_lowercase (name k)) (to_lowercase s) | None => true end
  && match group_filter with Some g => bool_decide (group k = Some g) | None => true end.

(** [listed] are the keys of the store in the order of its iteration. *)
Definition list_virtual_keys (params : ListVirtualKeysParams) (listed : list VirtualKey)
    : ListVirtualKeysResponse :=
  let page := Z.max (p_page params) 1 in
  let limit := clamp 1 MAX_PAGE_LIMIT (p_limit params) in
  let ks := List.filter (found (p_search params) (p_group params)) listed in
  let total := length ks in
  let offset := Nat.min (Z.to_nat ((page - 1) * limit)) total in
  mkPage (response_of <$> take (Z.to_nat limit) (drop offset ks)) total page limit.

Section creation.
Context (sha256 : string → list Z) (simple : Uuid → string).

Definition budgets_ordered (daily monthly : option Z) : bool :=
  match daily, monthly with Some d, Some m => negb (m <? d) | _, _ => true end.

(** [secret] and [new_id] are the identifiers drawn. *)
Definition create_virtual_key (req : NewKey) (secret new_id : Uuid) (now : DateTime) (ok : bool)
    (s : Stores) : outcome (Stores * (VirtualKey * string + ApiError)) :=
  if String.eqb (trim (n_name req)) "" then Done (s, inr (mkError 400 NameRequired))
  else if negb (budgets_ordered (n_daily_budget_cents req) (n_monthly_budget_cents req))
  then Done (s, inr (mkError 400 BudgetOrder))
  else match create sha256 simple (key_store s) req secret new_id now with
       | Panic => Panic
       | Done (st, vk, plaintext) =>
           Done (persist_virtual_keys ok (mkStores st (saved s)), inl (vk, plaintext))
       end.

Definition update_virtual_key (i : Uuid) (u : Update) (ok : bool) (s : Stores)
    : Stores * (VirtualKeyResponse + ApiError) :=
  match update (key_store s) i u with
  | (st, Some vk) => (persist_virtual_keys ok (mkStores st (saved s)), inl (response_of vk))
  | (_, None) => (s, inr (mkError 404 KeyNotFound))
  end.

Definition delete_virtual_key (i : Uuid) (ok : bool) (s : Stores) : Stores * option ApiError :=
  match delete_key (key_store s) i with
  | (st, true) => (persist_virtual_keys ok (mkStores st (saved s)), None)
  | (_, false) => (s, Some (mkError 404 KeyNotFound))
  end.

(** ** batch.rs *)

Record BatchCreateRequest := mkBatch {
  b_count : Z;
  b_name_prefix : string;
  b_daily_budget_cents : option Z;
  b_monthly_budget_cents : option Z;
  b_allowed_models : option (list string);
  b_allowed_ips : list string;
  b_rpm_limit : option Z;
  b_tpm_limit : option Z;
  b_expires_at : option DateTime;
  b_group : option string;
}.
Definition MAX_BATCH : Z := 500.

(** [{:0width$}] *)
Fixpoint zeros (n : nat) : string :=
  match n with O => "" | S n' => String "0"%char (zeros n') end.
Definition padded (width : nat) (s : string) : string := zeros (width - String.length s) +:+ s.
Definition width_of (count : Z) : nat := Nat.max (String.length (pretty count)) 3.
Definition numbered_name (req : BatchCreateRequest) (i : Z) : string :=
  b_name_prefix req +:+ "-" +:+ padded (width_of (b_count req)) (pretty i).
Definition nth_key (req : BatchCreateRequest) (i : Z) : NewKey :=
  mkNewKey (numbered_name req i) (b_daily_budget_cents req) (b_monthly_budget_cents req)
    (b_allowed_models req) [] (b_allowed_ips req) (b_rpm_limit req) (b_tpm_limit req)
    (b_expires_at req) (b_group req).

(** [draws] gives, for each key, its secret, its identifier and the time. *)
Fixpoint create_each (req : BatchCreateRequest) (draws : Z → Uuid * Uuid * DateTime) (ns : list Z)
    (st : VirtualKeyStore) : outcome (VirtualKeyStore * list (VirtualKey * string)) :=
  match ns with
  | [] => Done (st, [])
  | i :: rest =>
      let '(secret, new_id, now) := draws i in
      match create sha256 simple st (nth_key req i) secret new_id now with
      | Panic => Panic
      | Done (st, vk, plaintext) =>
          match create_each req draws rest st with
          | Panic => Panic
          | Done (st, created) => Done (st, (vk, plaintext) :: created)
          end
      end
  end.
Definition one_to (count : Z) : list Z := (λ n, Z.of_nat n) <$> seq 1 (Z.to_nat count).

Definition batch_create_virtual_keys (req : BatchCreateRequest) (draws : Z → Uuid * Uuid * DateTime)
    (ok : bool) (s : Stores) : outcome (Stores * (list (VirtualKey * string) + ApiError)) :=
  if String.eqb (trim (b_name_prefix req)) "" then Done (s, inr (mkError 400 NameRequired))
  else if b_count req =? 0 then Done (s, inr (mkError 400 CountZero))
  else if MAX_BATCH <? b_count req then Done (s, inr (mkError 400 CountTooLarge))
  else if negb (budgets_ordered (b_daily_budget_cents req) (b_monthly_budget_cents req))
  then Done (s, inr (mkError 400 BudgetOrder))
  else match create_each req draws (one_to (b_count req)) (key_store s) with
       | Panic => Panic
       | Done (st, created) => Done (persist_virtual_keys ok (mkStores st (saved s)), inl created)
       end.
End creation.

(** ** groups.rs *)

Record GroupSummary := mkGroup {
  g_group : string;
  g_key_count : Z;
  g_daily_spent_cents : Z;
  g_monthly_spent_cents : Z;
}.
Definition labelled (k : VirtualKey) : bool :=
  match group k with Some g => negb (String.eqb (trim g) "") | None => false end.
Definition label_of (k : VirtualKey) : string := default "" (group k).
Definition empty_group (k : VirtualKey) : GroupSummary := mkGroup (label_of k) 0 0 0.
Definition count_key (d : LocalDate) (k : VirtualKey) (g : GroupSummary) : GroupSummary :=
  mkGroup (g_group g) (g_key_count g + 1)
    (if String.eqb (date (today (spend k))) (d_today d)
     then add_u64 (g_daily_spent_cents g) (d_cents (today (spend k))) else g_daily_spent_cents g)
    (if String.eqb (month (this_month (spend k))) (d_month d)
     then add_u64 (g_monthly_spent_cents g) (m_cents (this_month (spend k))) else g_monthly_spent_cents g).
Definition into_group (d : LocalDate) (m : gmap string GroupSummary) (k : VirtualKey)
    : gmap string GroupSummary :=
  <[label_of k := count_key d k (default (empty_group k) (m !! label_of k))]> m.
Definition list_virtual_key_groups (d : LocalDate) (listed : list VirtualKey) : list GroupSummary :=
  in_order (λ a b, bool_decide (String.le a b))
    (foldl (into_group d) ∅ (List.filter labelled listed)).

(** ** portal.rs *)

Record PortalUsage := mkUsage {
  u_key_name : string;
  u_key_prefix : string;
  u_daily_budget : option Z;
  u_monthly_budget : option Z;
  u_daily_spent_cents : Z;
  u_monthly_spent_cents : Z;
  u_total_spent_cents : Z;
  u_rpm : option Z;
  u_tpm : option Z;
  u_expires : option DateTime;
  u_models : option (list string);
  u_is_active : bool;
  u_is_expired : bool;
}.

Section portal.
Context (sha256 : string → list Z) (show_uuid : Uuid → string).

(** [header] is the Authorization header when it is printable. *)
Definition authenticate_portal (header : option string) (s : VirtualKeyStore) : VirtualKey + ApiError :=
  match header with
  | None => inr (mkError 401 MissingHeader)
  | Some auth_header =>
      match strip_prefix "Bearer " auth_header with
      | None => inr (mkError 401 InvalidScheme)
      | Some token =>
          if String.eqb (trim token) "" then inr (mkError 401 EmptyToken)
          else match validate_any sha256 s (trim token) with
               | Some vk => inl vk
               | None => inr (mkError 401 InvalidKey)
               end
      end
  end.

Definition portal_usage (header : option string) (d : LocalDate) (now : DateTime) (s : VirtualKeyStore)
    : PortalUsage + ApiError :=
  match authenticate_portal header s with
  | inr e => inr e
  | inl vk =>
      inl (mkUsage (name vk) (key_prefix vk) (daily_budget_cents vk) (monthly_budget_cents vk)
             (current_daily vk d) (current_monthly vk d) (total_cents (spend vk)) (rpm_limit vk)
             (tpm_limit vk) (expires_at vk) (allowed_models vk) (enabled vk) (is_expired vk now))
  end.

Definition default_limit : Z := 10.
Definition portal_logs (header : option string) (limit : Z) (s : VirtualKeyStore)
    (l : Logs.Logs.DispatchLogger) : list Logs.Logs.DispatchLog + ApiError :=
  match authenticate_portal header s with
  | inr e => inr e
  | inl vk => inl (Logs.Logs.list_by_key (show_uuid (id vk)) 0 (Z.to_nat (clamp 1 100 limit)) l)
  end.

Definition portal_test (header : option string) (s : VirtualKeyStore) : option ApiError :=
  match authenticate_portal header s with inr e => Some e | inl _ => None end.
End portal.
End AdminKeys.

Module KeysProps.
Import Json VirtualKey AdminKeys.

(** *** Updates *)

Lemma read_double_some {T} (read : value → option T) f o :
  read_double read f = Some (Some o) → is_Some o.
Proof.
  unfold read_double, read_option. destruct f as [[]|]; cbn; try done;
    destruct (read _); cbn; intros [= <-]; by eexists.
Qed.
Lemma read_double_default {T} (read : value → option T) f x (old : option T) :
  read_double read f = Some x → is_Some old → is_Some (default old x).
Proof. intros H Hold. destruct x as [o|]; [|done]. cbn. by eapply read_double_some. Qed.

(** An update never lifts a restriction. Whatever body is sent for a key, a
    budget, a rate limit, an expiry, a list of allowed models or a group that the
    key has is still there afterwards: it can be replaced but not removed, since
    [null] is read like an absent field. *)
Theorem update_never_lifts parse_time body u k :
  read_update parse_time body = Some u →
  let k' := apply_update u k in
  (is_Some (daily_budget_cents k) → is_Some (daily_budget_cents k')) ∧
  (is_Some (monthly_budget_cents k) → is_Some (monthly_budget_cents k')) ∧
  (is_Some (rpm_limit k) → is_Some (rpm_limit k')) ∧
  (is_Some (tpm_limit k) → is_Some (tpm_limit k')) ∧
  (is_Some (expires_at k) → is_Some (expires_at k')) ∧
  (is_Some (allowed_models k) → is_Some (allowed_models k')) ∧
  (is_Some (group k) → is_Some (group k')).
Proof.
  unfold read_update. destruct (as_object body) as [m|]; [|done]. intros H.
  repeat match type of H with
         | _ ≫= _ = Some _ => apply bind_Some in H as (?&?&H)
         end.
  injection H as <-. cbn. split_and!; intros; eapply read_double_default; eassumption.
Qed.

Definition sample_body : value := obj [("daily_budget_cents", Null); ("rpm_limit", num 5)].
Definition sample : VirtualKey :=
  mkKey 1 "hash" "ms-vk-000000000" "team" (Some 10) (Some 20) true 0 default_spend None [] [] None None None None.

Lemma update_never_lifts_witness :
  match read_update (λ _, None) sample_body with
  | Some u => daily_budget_cents (apply_update u sample) = Some 10 ∧ rpm_limit (apply_update u sample) = Some 5 ∧
              is_Some (daily_budget_cents (apply_update u sample))
  | None => False
  end.
Proof.
  destruct (read_update (λ _, None) sample_body) as [u|] eqn:E; [|vm_compute in E; discriminate].
  pose proof (update_never_lifts (λ _, None) sample_body u sample E) as [H _].
  assert (Hu : Some u = read_update (λ _, None) sample_body) by (by rewrite E).
  vm_compute in Hu. injection Hu as ->.
  split; [reflexivity|]. split; [reflexivity|]. apply H. exists 10. reflexivity.
Defined.

(** The order of the budgets is checked when a key is made, not when it is
    changed. *)
Example update_breaks_budget_order :
  budgets_ordered (daily_budget_cents sample) (monthly_budget_cents sample) = true ∧
  match read_update (λ _, None) (obj [("monthly_budget_cents", num 3)]) with
  | Some u => budgets_ordered (daily_budget_cents (apply_update u sample))
                (monthly_budget_cents (apply_update u sample)) = false
  | None => False
  end.
Proof. vm_compute. done. Qed.

(** *** Pages *)

Lemma page_of n l s g listed :
  l_data (list_virtual_keys (mkParams (Z.of_nat n + 1) l s g) listed) =
  response_of <$> take (Z.to_nat (clamp 1 200 l))
    (drop (n * Z.to_nat (clamp 1 200 l)) (List.filter (found s g) listed)).
Proof.
  unfold list_virtual_keys. cbn [l_data p_page p_limit p_search p_group]. change MAX_PAGE_LIMIT with 200.
  set (ks := List.filter _ _). set (lim := clamp 1 200 l).
  replace (Z.to_nat ((Z.max (Z.of_nat n + 1) 1 - 1) * lim)) with (n * Z.to_nat lim)%nat.
  - f_equal. destruct (Nat.le_ge_cases (n * Z.to_nat lim) (length ks)) as [H|H]; [by rewrite Nat.min_l by lia|].
    rewrite Nat.min_r, !drop_ge by lia. by rewrite !take_nil.
  - rewrite Z.max_l by lia. rewrite Z2Nat.inj_mul; [|lia|unfold lim, clamp; lia]. f_equal. lia.
Qed.

Lemma chunks {A} (k n : nat) (l : list A) :
  (length l ≤ n * k)%nat → concat ((λ i, take k (drop (i * k) l)) <$> seq 0 n) = l.
Proof.
  revert l. induction n as [|n IH]; intros l Hl; [by destruct l; cbn in *; [|lia]|].
  transitivity (take k l ++ drop k l); [|by apply take_drop]. cbn [seq fmap list_fmap concat]. f_equal.
  rewrite <- (IH (drop k l)) by (rewrite length_drop; cbn in Hl; lia).
  rewrite <- fmap_S_seq, <- list_fmap_compose. f_equal. apply list_fmap_ext.
  intros i x _. cbn. by rewrite drop_drop.
Qed.

(** Paging through the keys shows each key that the filters let pass once, in the
    order of the store, and nothing else: the first pages together are the whole list
    as soon as there are enough of them. No page has more than 200 keys, and each
    tells the right total. *)
Theorem key_pages_complete n l s g listed :
  (length (List.filter (found s g) listed) ≤ n * Z.to_nat (clamp 1 200 l))%nat →
  let pages := (λ i, list_virtual_keys (mkParams (Z.of_nat i + 1) l s g) listed) <$> seq 0 n in
  concat (l_data <$> pages) = response_of <$> List.filter (found s g) listed ∧
  Forall (λ p, (length (l_data p) ≤ 200)%nat ∧ l_total p = length (List.filter (found s g) listed)) pages.
Proof.
  intros Hn pages. split.
  - unfold pages. rewrite <- (chunks (Z.to_nat (clamp 1 200 l)) n (List.filter (found s g) listed) Hn).
    etransitivity; [|symmetry; apply concat_map]. f_equal. rewrite <- list_fmap_compose.
    etransitivity; [|symmetry; apply map_map]. apply map_ext. intros i. unfold compose. by rewrite page_of.
  - apply Forall_forall. intros p (i&->&_)%list_elem_of_fmap. rewrite page_of, length_fmap, length_take.
    split; [unfold clamp; lia|done].
Qed.

Lemma key_pages_complete_witness :
  concat (l_data <$> [list_virtual_keys (mkParams 1 1 (Some "TE") None) [sample; sample];
                      list_virtual_keys (mkParams 2 1 (Some "TE") None) [sample; sample]]) =
  [response_of sample; response_of sample].
Proof. apply (key_pages_complete 2 1 (Some "TE") None [sample; sample]). vm_compute. lia. Defined.

(** *** The holder of a key *)

(** The portal shows a holder only what is their own. An answer of the portal to a
    request for logs means that the token's digest is that of a stored key, and every
    entry of the answer is one of the log that was made under this key; disabled and
    expired keys are served too, and at most 100 entries are shown. *)
Theorem portal_sees_own sha256 show header limit s l ls :
  portal_logs sha256 show header limit s l = inl ls →
  ∃ token vk, header = Some ("Bearer " +:+ token) ∧
    key_hash vk = sha256_hex sha256 (trim token) ∧
    (∃ i, keys s !! i = Some vk) ∧ (length ls ≤ 100)%nat ∧
    Forall (λ x, Logs.virtual_key_id x = Some (show (id vk)) ∧ x ∈ Logs.logs l) ls.
Proof.
  unfold portal_logs, authenticate_portal. destruct header as [h|]; [|done].
  destruct (strip_prefix "Bearer " h) as [token|] eqn:Eh; [|done].
  destruct (String.eqb _ _); [done|]. unfold validate_any, matching_key.
  destruct (prefix_index s !! _) as [i|]; [|done]. destruct (keys s !! i) as [vk|] eqn:Ek; [|done].
  destruct (String.eqb_spec (key_hash vk) (sha256_hex sha256 (trim token))) as [E|]; [|done].
  intros [= <-]. exists token, vk. split_and!; [|done|by exists i| |].
  - f_equal. by apply strip_prefix_Some in Eh.
  - unfold Logs.list_by_key. rewrite length_take. unfold clamp. lia.
  - apply Forall_forall. intros x Hx. unfold Logs.list_by_key in Hx. apply elem_of_take in Hx as (j&Hx&_).
    apply list_elem_of_lookup_2 in Hx. rewrite drop_0 in Hx.
    apply list_elem_of_In, filter_In in Hx as [Hx Hk]. split.
    + unfold Logs.of_key in Hk. destruct (Logs.virtual_key_id x) as [k|]; [|done].
      by apply String.eqb_eq in Hk as ->.
    + apply list_elem_of_In. by apply in_rev.
Qed.

Definition sample_hash (_ : string) : list Z := [].
Definition sample_store : VirtualKeyStore :=
  let k := mkKey 1 "" "ms-vk-000000000" "team" None None false 0 default_spend None [] [] None None None None in
  mkStore (Persisted.set_data {[1%N := k]} (Persisted.new "keys")) {["ms-vk-0000000000" := 1%N]}.
Definition sample_log (key : option string) : Logs.DispatchLog :=
  Logs.mkDispatchLog 7%N 0 "m" 1%N "c" 0 0 None 5 true None None None None None None key.

Lemma portal_sees_own_witness :
  match portal_logs sample_hash (λ _, "one") (Some "Bearer ms-vk-0000000000") 10 sample_store
          (Logs.with_logs [sample_log (Some "one"); sample_log (Some "two")] (Logs.new 5)) with
  | inl ls => ls = [sample_log (Some "one")] ∧ Forall (λ x, Logs.virtual_key_id x = Some "one") ls
  | inr _ => False
  end.
Proof.
  destruct (portal_logs _ _ _ _ _ _) as [ls|e] eqn:E; [|vm_compute in E; discriminate].
  destruct (portal_sees_own sample_hash (λ _, "one") _ 10 sample_store _ ls E) as (token&vk&_&_&_&_&H).
  split; [vm_compute in E; injection E as <-; reflexivity|].
  eapply Forall_impl; [exact H|]. intros x [Hx _]. exact Hx.
Defined.

(** *** Groups *)

Definition summary (d : LocalDate) (g : string) (ks : list VirtualKey) : GroupSummary :=
  mkGroup g (Z.of_nat (length ks)) (wrap64 (sumZ ((λ k, current_daily k d) <$> ks)))
    (wrap64 (sumZ ((λ k, current_monthly k d) <$> ks))).

Lemma summary_step d g k ks : count_key d k (summary d g ks) = summary d g (ks ++ [k]).
Proof.
  unfold count_key, summary. cbn [g_group g_key_count g_daily_spent_cents g_monthly_spent_cents].
  rewrite length_app, !fmap_app, !sumZ_app. cbn [length fmap list_fmap]. rewrite !sumZ_cons. cbn [sumZ foldr].
  rewrite !Z.add_0_r. unfold current_daily, current_monthly. f_equal; [lia|..];
    (case_match; [unfold add_u64, wrap64; by rewrite Zplus_mod_idemp_l|by rewrite Z.add_0_r]).
Qed.
Lemma summary_fold d g ks ks' :
  foldl (λ b k, count_key d k b) (summary d g ks') ks = summary d g (ks' ++ ks).
Proof.
  revert ks'. induction ks as [|k ks IH]; intros ks'; cbn; [by rewrite app_nil_r|].
  by rewrite summary_step, IH, <- app_assoc.
Qed.

(** The summary by group is exact. There is one row for each group of which some
    key is a member, blank labels apart, and it gives the number of its keys and
    what they have spent today and this month, modulo the width of the counters. *)
Theorem group_rows_exact d listed :
  let kept := List.filter labelled listed in
  let rows := list_virtual_key_groups d listed in
  NoDup (g_group <$> rows) ∧
  ∀ r, r ∈ rows ↔ ∃ g ks, ks = List.filter (λ k, bool_decide (label_of k = g)) kept ∧ ks ≠ [] ∧
                          r = summary d g ks.
Proof.
  cbn zeta. set (kept := List.filter labelled listed).
  assert (∀ g, foldl (into_group d) ∅ kept !! g =
    let ks := List.filter (λ k, bool_decide (label_of k = g)) kept in
    if decide (ks = []) then None else Some (summary d g ks)) as Hl.
  { intros g. change (foldl (into_group d) ∅ kept) with (foldl (into label_of empty_group (count_key d)) ∅ kept).
    rewrite group_lookup. cbn zeta. destruct (List.filter _ kept) as [|x rest] eqn:E; [done|].
    assert (label_of x = g) as <-.
    { apply (bool_decide_eq_true_1 (label_of x = g)).
      apply (proj1 (filter_In (λ k, bool_decide (label_of k = g)) x kept)). rewrite E. by left. }
    destruct (decide _); [done|]. f_equal. change (empty_group x) with (summary d (label_of x) []).
    rewrite summary_step. apply summary_fold. }
  cbn zeta in Hl. unfold list_virtual_key_groups. fold kept. split.
  - rewrite in_order_perm.
    assert (g_group <$> (map_to_list (foldl (into_group d) ∅ kept)).*2 = (map_to_list (foldl (into_group d) ∅ kept)).*1)
      as ->; [|apply NoDup_fst_map_to_list].
    rewrite <- list_fmap_compose. apply list_fmap_ext. intros i [g r] Hi%list_elem_of_lookup_2.
    apply elem_of_map_to_list in Hi. rewrite Hl in Hi. case_decide; [done|]. by injection Hi as <-.
  - intros r. rewrite in_order_perm, list_elem_of_fmap. split.
    + intros ([g r']&->&Hr%elem_of_map_to_list). rewrite Hl in Hr. case_decide; [done|].
      exists g. eexists. split_and!; [done..|]. by injection Hr.
    + intros (g&ks&->&Hne&->). eexists (g, _). split; [done|]. rewrite elem_of_map_to_list, Hl.
      by rewrite decide_False.
Qed.

(** *** Batches *)

Lemma create_parts sha256 simple s n secret new_id now s' vk p :
  create sha256 simple s n secret new_id now = Done (s', vk, p) →
  keys s' = <[new_id := vk]> (keys s) ∧ id vk = new_id ∧ name vk = n_name n ∧ enabled vk = true ∧
  spend vk = default_spend ∧ key_hash vk = sha256_hex sha256 p.
Proof. unfold create. destruct (get_16 _); [|done]. by intros [= <- <- <-]. Qed.

Lemma create_each_spec sha256 simple req draws ns st st' created :
  create_each sha256 simple req draws ns st = Done (st', created) →
  (name ∘ fst) <$> created = numbered_name req <$> ns ∧ (id ∘ fst) <$> created = (λ i, (draws i).1.2) <$> ns ∧
  keys st' = foldl (λ m c, <[id c.1 := c.1]> m) (keys st) created ∧
  Forall (λ c, enabled c.1 = true ∧ spend c.1 = default_spend ∧ key_hash c.1 = sha256_hex sha256 c.2) created.
Proof.
  revert st st' created. induction ns as [|i ns IH]; intros st st' created H; cbn in H.
  { by injection H as <- <-. }
  destruct (draws i) as [[secret new_id] now] eqn:Ed.
  destruct (create _ _ _ _ _ _ _) as [[[s1 vk] p]|] eqn:Ec; [|done].
  destruct (create_each _ _ _ _ ns s1) as [[s2 rest]|] eqn:Er; [|done]. injection H as <- <-.
  apply create_parts in Ec as (K&I&N&E&S&P). destruct (IH _ _ _ Er) as (H1&H2&H3&H4). cbn.
  unfold compose in *. rewrite H1, H2, H3, K, N, I, Ed. split_and!; try done. constructor; [done|exact H4].
Qed.

(** A batch makes exactly the keys that were asked for. When it succeeds, the
    number is between 1 and 500, the keys bear the numbered names in order, are
    enabled, have spent nothing and match their plaintexts, and the table is the
    old one with them; with distinct identifiers each is found in it. *)
Theorem batch_keys_made sha256 simple req draws ok s s' created :
  batch_create_virtual_keys sha256 simple req draws ok s = Done (s', inl created) → 0 ≤ b_count req →
  1 ≤ b_count req ≤ 500 ∧
  (name ∘ fst) <$> created = numbered_name req <$> one_to (b_count req) ∧
  Forall (λ c, enabled c.1 = true ∧ spend c.1 = default_spend ∧ key_hash c.1 = sha256_hex sha256 c.2) created ∧
  (NoDup ((λ i, (draws i).1.2) <$> one_to (b_count req)) →
   ∀ c, c ∈ created → keys (key_store s') !! id c.1 = Some c.1) ∧
  (∀ u, u ∉ (λ i, (draws i).1.2) <$> one_to (b_count req) → keys (key_store s') !! u = keys (key_store s) !! u).
Proof.
  unfold batch_create_virtual_keys. destruct (String.eqb _ _); [done|].
  destruct (Z.eqb_spec (b_count req) 0); [done|]. destruct (Z.ltb_spec MAX_BATCH (b_count req)) as [|Hmax]; [done|].
  destruct (budgets_ordered _ _); [|done]. cbn [negb].
  destruct (create_each _ _ _ _ _ _) as [[st cs]|] eqn:E; [|done]. intros [= <- <-] Hpos.
  apply create_each_spec in E as (H1&H2&H3&H4). unfold MAX_BATCH in Hmax.
  assert (keys (key_store (persist_virtual_keys ok (mkStores st (saved s)))) =
          foldl (λ m c, <[(id ∘ fst) c := c.1]> m) (keys (key_store s)) cs) as Hk by (by destruct ok).
  rewrite Hk, <- H2. clear - H1 H4 n Hmax Hpos. split_and!; [lia..|done|done| |].
  - intros Hnd c Hc. rewrite (fold_insert (id ∘ fst) fst).
    by rewrite (chosen_unique N.eqb N.eqb_spec (id ∘ fst) cs (id c.1) c).
  - intros u Hu. rewrite (fold_insert (id ∘ fst) fst).
    rewrite (proj2 (chosen_none N.eqb N.eqb_spec (id ∘ fst) cs u)); [done|].
    intros c Hc <-. apply Hu. by apply list_elem_of_fmap_2.
Qed.

Definition sample_simple (u : Uuid) : string := zeros 31 +:+ NilEmpty.string_of_uint (N.to_uint u).
Definition sample_request : BatchCreateRequest :=
  mkBatch 2 "team" (Some 10) (Some 20) None [] None None None None.
Definition sample_draws (i : Z) : Uuid * Uuid * DateTime := (Z.to_N i, Z.to_N (10 + i), 0).

Lemma batch_keys_made_witness :
  match batch_create_virtual_keys sample_hash sample_simple sample_request sample_draws true
          (mkStores sample_store ∅) with
  | Done (s', inl created) =>
      (name ∘ fst) <$> created = ["team-001"; "team-002"] ∧
      ∀ c, c ∈ created → keys (key_store s') !! id c.1 = Some c.1
  | _ => False
  end.
Proof.
  destruct (batch_create_virtual_keys _ _ _ _ _ _) as [[s' [created|e]]|] eqn:E;
    [|vm_compute in E; discriminate|vm_compute in E; discriminate].
  destruct (batch_keys_made sample_hash sample_simple sample_request sample_draws true _ s' created E
    ltac:(discriminate)) as (_&Hn&_&Hk&_).
  split; [rewrite Hn; vm_compute; reflexivity|]. apply Hk. apply (bool_decide_unpack _). vm_compute. exact I.
Defined.
End KeysProps.
