(* ===== verification/AdminSettings.v ===== *)
(** The administration of what is not a channel or a key (admin/mcp.rs,
    admin/provider_budgets.rs, and of admin/system.rs and admin/features.rs the modes, the
    redemption codes, the model list and the displays): the tool servers of the
    configuration file, the budgets of providers, and the settings that take effect at
    once. *)

From stdpp Require Import pretty.
From S2P Require Import Prelude F64 Json Channel RateLimiter VirtualKey ProviderBudget Quota Cache Router AuditTrail ModelRegistry Mcp.

(** An answer of the administration: a value, or a status and a message. *)
Abbreviation Answer A := (A + (Z * string))%type (only parsing).

(** ** Tool servers (admin/mcp.rs) *)
Module ServerAdmin.
Import Manager.

(** The configuration file, as [AppConfig::load] finds it: its tool servers; and the
    manager. *)
Inductive ConfigFile := NoFile | Broken | Holds (mcp_servers : list McpServerConfig).
Record Stores := mkStores { file : ConfigFile; manager : McpManager }.

(** [AppConfig::load]: a file that is missing is written with the defaults. *)
Definition load (writable : bool) (f : ConfigFile) : ConfigFile * option (list McpServerConfig) :=
  match f with
  | NoFile => if writable then (Holds [], Some []) else (NoFile, None)
  | Broken => (Broken, None)
  | Holds l => (Holds l, Some l)
  end.
Definition save (writable : bool) (l : list McpServerConfig) (f : ConfigFile) : ConfigFile * bool :=
  if writable then (Holds l, true) else (f, false).

Definition McpServerResponse : Type := McpServerConfig * McpServerStatus.

(** The order in which the keys of the manager's map are seen. *)
Section handlers.
Context (order : gmap string McpServerEntry → list string).





(** [ChannelManager::persist_to_config], with which every change of a channel ends, of
    the servers: it saves those of the file, and none if the file cannot be loaded. *)
Definition persist_to_config (loads saves : bool) (s : Stores) : Stores :=
  let '(f, config) := load loads (file s) in
  mkStores (save saves (default [] config) f).1 (manager s).
End handlers.

(** [mcp_error_to_response] *)
Definition mcp_error_to_response (msg : string) : Z * string :=
  if contains msg "Unknown" then (404, msg)
  else if contains msg "already running" || contains msg "not running" then (409, msg)
  else (500, msg).
(** [spawned] is what starting the process comes to; meanwhile nothing else happens. *)
Definition start_mcp_server (id : string) (spawned : (N * Z) + string) (m : McpManager) : McpManager * Answer unit :=
  match start_check id m with
  | inr e => (m, inr (mcp_error_to_response e))
  | inl _ =>
      (start_commit id spawned m, match spawned with inl _ => inl tt | inr e => inr (mcp_error_to_response e) end)
  end.
Definition stop_mcp_server (id : string) (m : McpManager) : McpManager * Answer unit :=
  (stop_server id m, match stop_take id m with (_, inr e) => inr (mcp_error_to_response e) | _ => inl tt end).
(** [tools] is what the process answers; their number is kept. *)
Definition list_mcp_server_tools (id : string) (tools : list Mcp.Tool + string) (m : McpManager)
    : McpManager * Answer (list (string * option string)) :=
  match peer_of id m with
  | inr e => (m, inr (mcp_error_to_response e))
  | inl _ =>
      match tools with
      | inr e => (m, inr (mcp_error_to_response e))
      | inl l => (set_tool_count id (Z.of_nat (length l)) m, inl ((λ t, (Mcp.tool_name t, Mcp.tool_description t)) <$> l))
      end
  end.
Definition list_mcp_servers (iter : gmap string McpServerEntry → list (string * McpServerEntry)) (m : McpManager)
    : list McpServerResponse :=
  omap (λ '(id, _, status), (λ c, (c, status)) <$> get_config id m) (list_status iter m).
End ServerAdmin.

(** ** Budgets of providers (admin/provider_budgets.rs) *)
Module BudgetAdmin.
Import ProviderBudget.

Record ProviderBudgetResponse := mkResponse {
  provider : string;
  daily_budget_cents : option Z;
  monthly_budget_cents : option Z;
  r_spend : ProviderSpend;
}.
Definition by_provider (a b : ProviderBudgetResponse) : bool := String.leb (provider a) (provider b).

(** The two tables in the orders in which they are seen. *)
Definition list_provider_budgets (budgets : list (string * ProviderBudgetConfig)) (spends : list (string * ProviderSpend))
    : list ProviderBudgetResponse :=
  let spend_by_provider : gmap string ProviderSpend := list_to_map (reverse spends) in
  let limited := (λ '(p, c), mkResponse p (b_daily c) (b_monthly c)
                               (default default_provider_spend (spend_by_provider !! p))) <$> budgets in
  let others := omap (λ '(p, e), if existsb (λ b, String.eqb b.1 p) budgets then None
                                 else Some (mkResponse p None None e)) spends in
  stable_sort by_provider (limited ++ others).

(** The spend table is then saved. *)
Definition set_provider_budget (p : string) (daily monthly : option Z) (s : ProviderBudgetStore)
    : ProviderBudgetStore * Answer ProviderBudgetResponse :=
  if String.eqb (trim p) "" then (s, inr (400, "Provider name is required"))
  else if match daily, monthly with Some d, Some m => m <? d | _, _ => false end
  then (s, inr (400, "Monthly budget must be >= daily budget"))
  else
    let s := set_budget s p (mkBudget daily monthly) in
    (s, inl (mkResponse p daily monthly (default default_provider_spend (get_spend s p)))).
Definition delete_provider_budget (p : string) (s : ProviderBudgetStore) : ProviderBudgetStore * Answer unit :=
  let '(s, found) := delete_budget s p in (s, if found : bool then inl tt else inr (404, "Provider budget not found")).

(** What a restart finds: the spend that was saved, and the limits of the file. *)
Definition restarted (configured : list (string * ProviderBudgetConfig)) (saved : gmap string ProviderSpend)
    : ProviderBudgetStore :=
  foldl (λ s '(p, c), set_budget s p c) (mkBudgetStore ∅ saved) configured.
End BudgetAdmin.

(** ** Settings in force at once (admin/system.rs, admin/features.rs) *)
Module LiveSettings.
Import Router.Router.

Definition parse_cache_mode (mode : string) : option Cache.CacheMode :=
  let m := to_lowercase mode in
  if bool_decide (m ∈ ["on"; "enabled"; "true"]) then Some Cache.On
  else if bool_decide (m ∈ ["off"; "disabled"; "false"]) then Some Cache.Off
  else if bool_decide (m ∈ ["readonly"; "read-only"; "ro"]) then Some Cache.ReadOnly
  else if bool_decide (m ∈ ["writeonly"; "write-only"; "wo"]) then Some Cache.WriteOnly
  else None.
Definition parse_strategy (s : string) : option RoutingStrategyType :=
  if String.eqb s "weighted_random" then Some WeightedRandom
  else if String.eqb s "latency" then Some Latency
  else if String.eqb s "least_busy" then Some LeastBusy
  else if String.eqb s "usage" then Some Usage
  else if String.eqb s "lowest_cost" then Some LowestCost
  else None.
(** [Display] of the strategies, [Debug] of the modes. *)
Definition show_strategy (t : RoutingStrategyType) : string :=
  match t with
  | WeightedRandom => "weighted_random" | Latency => "latency" | LeastBusy => "least_busy"
  | Usage => "usage" | LowestCost => "lowest_cost"
  end.
Definition show_mode (m : Cache.CacheMode) : string :=
  match m with Cache.On => "On" | Cache.Off => "Off" | Cache.ReadOnly => "ReadOnly" | Cache.WriteOnly => "WriteOnly" end.

Record Stores := mkStores {
  cache : Cache.RequestCache;
  routing_strategy : RoutingStrategyType;
  codes : gmap string Redemption.RedemptionCode;
  audit_log : Audit.AuditLog;
}.

Section handlers.
(** For the audit log the text of a time and of its details, and SHA-256. *)
Context (rfc3339 : DateTime → string) (to_string : Json.value → string) (sha256 : string → list Z).
Definition audit (now : DateTime) (action target : string) (details : list (string * Json.value)) (l : Audit.AuditLog)
    : Audit.AuditLog :=
  Audit.record rfc3339 to_string sha256 now action "admin-api" target (Json.obj details) l.

Definition update_cache_mode (now : DateTime) (mode : string) (s : Stores) : Stores * Answer (string * string) :=
  match parse_cache_mode mode with
  | None => (s, inr (400, "Unknown cache mode '" +:+ mode +:+ "'. Valid options: on, off, readonly, writeonly"))
  | Some m =>
      let old := Cache.mode (cache s) in
      (mkStores (Cache.set_mode (cache s) m) (routing_strategy s) (codes s)
         (audit now "cache_mode.update" "cache"
            [("old", Json.Str (show_mode old)); ("new", Json.Str (show_mode m))] (audit_log s)),
       inl (show_mode m, show_mode old))
  end.
Definition update_routing_strategy (now : DateTime) (strategy : string) (s : Stores) : Stores * Answer string :=
  match parse_strategy strategy with
  | None => (s, inr (400, "Unknown routing strategy '" +:+ strategy +:+
                          "'. Valid options: weighted_random, latency, least_busy, usage, lowest_cost"))
  | Some t =>
      (mkStores (cache s) t (codes s)
         (audit now "routing_strategy.update" "gateway"
            [("old", Json.Str (show_strategy (routing_strategy s))); ("new", Json.Str (show_strategy t))] (audit_log s)),
       inl (show_strategy t))
  end.
Definition flush_cache (s : Stores) : Stores * nat :=
  let c := Cache.flush (cache s) in (mkStores c (routing_strategy s) (codes s) (audit_log s), Cache.len c).

Definition with_codes (m : gmap string Redemption.RedemptionCode) (l : Audit.AuditLog) (s : Stores) : Stores :=
  mkStores (cache s) (routing_strategy s) m l.
Definition create_redemption_code (fresh : string) (now : DateTime) (credits_cents : Z) (expires_at : option DateTime)
    (s : Stores) : Stores * Redemption.RedemptionCode :=
  let '(m, c) := Redemption.generate (codes s) fresh credits_cents expires_at now in
  (with_codes m (audit now "redemption_code.create" (Redemption.code c)
     [("credits_cents", Json.Number (Json.PosInt (Redemption.credits_cents c)))] (audit_log s)) s, c).
Definition redemption_message (e : Redemption.RedemptionError) : string :=
  match e with
  | Redemption.NotFound => "code not found"
  | Redemption.AlreadyUsed => "code already used"
  | Redemption.Expired => "code expired"
  end.
Definition redeem_code (now : DateTime) (c : string) (s : Stores) : Stores * Answer Z :=
  match Redemption.redeem (codes s) c "admin-api" now with
  | (m, inl credits) =>
      (with_codes m (audit now "redemption_code.redeem" c
         [("credits_cents", Json.Number (Json.PosInt credits)); ("redeemed_by", Json.Str "admin-api")] (audit_log s)) s, inl credits)
  | (m, inr e) => (with_codes m (audit_log s) s, inr (400, redemption_message e))
  end.
Definition delete_redemption_code (now : DateTime) (c : string) (s : Stores) : Stores * Answer unit :=
  let '(m, found) := Redemption.delete_code (codes s) c in
  if found : bool
  then (with_codes m (audit now "redemption_code.delete" c [] (audit_log s)) s, inl tt)
  else (with_codes m (audit_log s) s, inr (404, "Redemption code not found")).
End handlers.

(** *** Displays *)

Definition format_uptime (secs : Z) : string :=
  let days := secs / 86400 in
  let hours := secs mod 86400 / 3600 in
  let minutes := secs mod 3600 / 60 in
  let seconds := secs mod 60 in
  if 0 <? days then pretty days +:+ "d " +:+ pretty hours +:+ "h " +:+ pretty minutes +:+ "m"
  else if 0 <? hours then pretty hours +:+ "h " +:+ pretty minutes +:+ "m " +:+ pretty seconds +:+ "s"
  else if 0 <? minutes then pretty minutes +:+ "m " +:+ pretty seconds +:+ "s"
  else pretty seconds +:+ "s".

(** [line.split_whitespace().last()] *)
Fixpoint after_space (s word : string) : string :=
  match s with
  | EmptyString => word
  | String c s' => after_space s' (if is_space c then s' else word)
  end.
Definition last_word (line : string) : option string :=
  let t := trim_end line in if String.eqb t "" then None else Some (after_space t t).
(** The lines of the metrics' text. *)
Fixpoint parse_counter_value (lines : list string) (metric_name : string) : Z :=
  match lines with
  | [] => 0
  | line :: rest =>
      if starts_with line metric_name && negb (contains line "_bucket") && negb (contains line "_sum") &&
         negb (contains line "_count")
      then match last_word line ≫= parse_uint u64_max with
           | Some v => v
           | None => parse_counter_value rest metric_name
           end
      else parse_counter_value rest metric_name
  end.
(** [f64::round] and the conversion to [u64]: halves go away from zero. *)
Definition round_u64 (f : F64.f64) : Z :=
  match f with
  | S754_finite false m e =>
      Z.min u64_max (if 0 <=? e then Zpos m * 2 ^ e else (2 * Zpos m + 2 ^ (- e)) / 2 ^ (1 - e))
  | S754_infinity false => u64_max
  | _ => 0
  end.
Definition hit_rate (hits misses : Z) : Z :=
  let total := add_u64 hits misses in
  if 0 <? total then round_u64 (F64.mul (F64.div (F64.of_Z hits) (F64.of_Z total)) (F64.of_Z 100)) else 0.

(** *** The list of models *)

Record ModelRegistryItem := mkItem {
  i_name : string;
  source_type : string;
  i_source : option string;
  i_channel : option (Uuid * string);
  last_refreshed_secs : option Z;
  i_capabilities : ModelRegistry.ModelCapabilities;
}.
Definition by_name (a b : ModelRegistryItem) : bool := String.leb (i_name a) (i_name b).
(** [channels] in the order in which the map is seen: of two with the same endpoint the
    later counts. *)
Definition endpoint_channel (channels : list Channel.Channel) (endpoint : string) : option (Uuid * string) :=
  last (omap (λ ch, if bool_decide (Channel.models_endpoint ch = Some endpoint)
                    then Some (Channel.id ch, Channel.name ch) else None) channels).
Definition list_all (r : ModelRegistry.ModelRegistry) : list ModelRegistryItem :=
  stable_sort by_name
    ((λ '(n, c), mkItem n (match ModelRegistry.source c with Some _ => "discovered" | None => "builtin" end)
        (ModelRegistry.source c) None (ModelRegistry.source c ≫= λ s, ModelRegistry.refresh_times r !! s) c)
      <$> map_to_list (ModelRegistry.models r)).
Definition get_model_registry (channels : list Channel.Channel) (r : ModelRegistry.ModelRegistry) : list ModelRegistryItem * nat :=
  let items := (λ e, mkItem (i_name e) (source_type e) (i_source e) (i_source e ≫= endpoint_channel channels)
                       (last_refreshed_secs e) (i_capabilities e)) <$> list_all r in
  (items, length items).
End LiveSettings.

Module ServerAdminProps.
Import Manager ManagerFacts ServerAdmin.


Section props.
Context (order : gmap string McpServerEntry → list string).
Context (order_keys : ∀ m i, i ∈ order m ↔ is_Some (m !! i)).






End props.
End ServerAdminProps.

Module ServerAdminSample.
Import Manager ManagerFacts ServerAdmin ServerAdminProps.
Local Abbreviation keys := (λ m : gmap string McpServerEntry, (map_to_list m).*1).
Definition server (id : string) : McpServerConfig := mkServerConfig id id "npx" [] ∅ None true true.
(** Started with another file than the default one, which is missing. *)
Definition elsewhere : Stores :=
  mkStores NoFile (mkManager {["fs" := mkEntry (server "fs") (Some 7%N) None (Some 3)]} ∅).

(** A change of a channel while the file cannot be read writes it without servers; the
    manager keeps its own. *)
Example damaged_file_forgets :
  let s := persist_to_config true true (mkStores Broken (manager elsewhere)) in
  file s = Holds [] ∧ is_Some (get_config "fs" (manager s)).
Proof. vm_compute. split; [reflexivity|by eexists]. Qed.
End ServerAdminSample.

Module BudgetAdminProps.
Import ProviderBudget BudgetAdmin.

Lemma by_provider_total a b : by_provider a b = true ∨ by_provider b a = true.
Proof. apply String.leb_total. Qed.
Lemma by_provider_trans a b c : by_provider a b = true → by_provider b c = true → by_provider a c = true.
Proof. apply string_leb_trans. Qed.

Lemma listed_limit (budgets : gmap string ProviderBudgetConfig) p :
  existsb (λ b, String.eqb b.1 p) (map_to_list budgets) = bool_decide (is_Some (budgets !! p)).
Proof.
  destruct (bool_decide_reflect (is_Some (budgets !! p))) as [[c Hc]|Hn].
  - apply existsb_exists. exists (p, c). split; [apply list_elem_of_In; by apply elem_of_map_to_list|apply String.eqb_refl].
  - apply not_true_is_false. intros ([q c]&Hin&Hq)%existsb_exists. apply String.eqb_eq in Hq. cbn in Hq. subst q.
    apply list_elem_of_In, elem_of_map_to_list in Hin. by destruct Hn; exists c.
Qed.
Lemma spend_collected (m : gmap string ProviderSpend) : (list_to_map (reverse (map_to_list m)) : gmap string ProviderSpend) = m.
Proof.
  transitivity (list_to_map (map_to_list m) : gmap string ProviderSpend); [|apply list_to_map_to_list].
  apply list_to_map_proper; [|apply reverse_Permutation].
  rewrite reverse_Permutation. apply NoDup_fst_map_to_list.
Qed.
Section rows.
Context (s : ProviderBudgetStore).
Definition limited : list ProviderBudgetResponse :=
  (λ '(p, c), mkResponse p (b_daily c) (b_monthly c) (default default_provider_spend (spend s !! p))) <$> map_to_list (configs s).
Definition others : list ProviderBudgetResponse :=
  omap (λ '(p, e), if bool_decide (is_Some (configs s !! p)) then None else Some (mkResponse p None None e)) (map_to_list (spend s)).
Lemma rows_perm : list_provider_budgets (map_to_list (configs s)) (map_to_list (spend s)) ≡ₚ limited ++ others.
Proof.
  unfold list_provider_budgets. rewrite stable_sort_perm, spend_collected. unfold limited, others.
  apply reflexive_eq. f_equal. apply list_omap_ext. apply Forall_Forall2_diag, Forall_true. intros [p e]. by rewrite listed_limit.
Qed.
Lemma in_limited r : r ∈ limited ↔ ∃ c, configs s !! provider r = Some c ∧
  r = mkResponse (provider r) (b_daily c) (b_monthly c) (default default_provider_spend (spend s !! provider r)).
Proof.
  unfold limited. rewrite list_elem_of_fmap. split.
  - intros ([p c]&->&H%elem_of_map_to_list). by exists c.
  - intros (c&H&E). exists (provider r, c). split; [done|by apply elem_of_map_to_list].
Qed.
Lemma in_others r : r ∈ others ↔ ∃ e, spend s !! provider r = Some e ∧ configs s !! provider r = None ∧
  r = mkResponse (provider r) None None e.
Proof.
  unfold others. rewrite list_elem_of_omap. split.
  - intros ([p e]&H%elem_of_map_to_list&E). case_bool_decide as Hc; [done|]. injection E as <-. cbn. exists e.
    split_and!; [done|by apply eq_None_not_Some|done].
  - intros (e&H&Hc&E). exists (provider r, e). split; [by apply elem_of_map_to_list|]. rewrite bool_decide_eq_false_2; [by f_equal|].
    rewrite Hc. by intros [? ?].
Qed.
Lemma rows_distinct : NoDup (provider <$> limited ++ others).
Proof.
  rewrite fmap_app. apply NoDup_app. split_and!.
  - unfold limited. rewrite <- list_fmap_compose. erewrite list_fmap_ext; [apply (NoDup_fst_map_to_list (configs s))|]. by intros ? [p c] _.
  - intros p (r&->&(c&H&_)%in_limited)%list_elem_of_fmap (r2&E&(e&_&H2&_)%in_others)%list_elem_of_fmap. congruence.
  - unfold others. pose proof (NoDup_fst_map_to_list (spend s)) as H. induction (map_to_list (spend s)) as [|[p e] l IH]; [constructor|].
    cbn in H |- *. inversion H as [|? ? Hp Hl]; subst. case_bool_decide; [by apply IH|]. cbn. constructor; [|by apply IH].
    intros (r&E&Hr)%list_elem_of_fmap. apply list_elem_of_omap in Hr as ([q f]&Hq&Ef). case_bool_decide; [done|]. injection Ef as <-. cbn in E.
    subst q. apply Hp, list_elem_of_fmap. by exists (p, f).
Qed.
End rows.

(** The list has one row for each provider that has a limit or has spent, in the order
    of their names, with the limit that is checked and what was spent. *)
Theorem budgets_listed (s : ProviderBudgetStore) :
  let rows := list_provider_budgets (map_to_list (configs s)) (map_to_list (spend s)) in
  StronglySorted (λ a b, by_provider a b = true) rows ∧ NoDup (provider <$> rows) ∧
  ∀ r, r ∈ rows ↔
    (is_Some (configs s !! provider r) ∨ is_Some (spend s !! provider r)) ∧
    daily_budget_cents r = (configs s !! provider r ≫= b_daily) ∧
    monthly_budget_cents r = (configs s !! provider r ≫= b_monthly) ∧
    r_spend r = default default_provider_spend (spend s !! provider r).
Proof.
  cbv zeta. split_and!.
  - apply stable_sort_sorted; [apply by_provider_total|apply by_provider_trans].
  - rewrite (rows_perm s). apply rows_distinct.
  - intros r. rewrite (rows_perm s), elem_of_app, in_limited, in_others. split.
    + intros [(c&Hc&E)|(e&He&Hc&E)]; rewrite E; cbn [provider daily_budget_cents monthly_budget_cents r_spend].
      * rewrite Hc. split_and!; [left; by eexists|done..].
      * rewrite Hc, He. split_and!; [right; by eexists|done..].
    + intros (Hp&Hd&Hm&Hs). destruct (configs s !! provider r) as [c|] eqn:Ec.
      * left. exists c. split; [done|]. destruct r; cbn in *; by subst.
      * right. destruct Hp as [[? ?]|[e He]]; [done|]. exists e. split_and!; [done|done|]. rewrite He in Hs. destruct r; cbn in *; by subst.
Qed.

Definition spent_today (s : ProviderBudgetStore) (p : string) (d : VirtualKey.LocalDate) : Z :=
  match spend s !! p with
  | Some e => if String.eqb (VirtualKey.date (today e)) (VirtualKey.d_today d) then VirtualKey.d_cents (today e) else 0
  | None => 0
  end.
Definition spent_this_month (s : ProviderBudgetStore) (p : string) (d : VirtualKey.LocalDate) : Z :=
  match spend s !! p with
  | Some e => if String.eqb (VirtualKey.month (this_month e)) (VirtualKey.d_month d) then VirtualKey.m_cents (this_month e) else 0
  | None => 0
  end.
Definition below (limit : option Z) (spent : Z) : Prop := match limit with Some l => spent < l | None => True end.
Lemma below_reached limit spent : negb (reached limit spent) = true ↔ below limit spent.
Proof. unfold reached, below. destruct limit; [|done]. rewrite negb_true_iff, Z.leb_gt. done. Qed.

(** A limit that was set is checked from then on against all that was spent, before it
    or after; one that was refused changes nothing; and a restart forgets those that
    the file does not have, although the spending is kept. *)
Theorem budget_set_checked p daily monthly s d :
  let '(s', r) := set_provider_budget p daily monthly s in
  spend s' = spend s ∧
  match r with
  | inl _ =>
      (check_budget s' p d = true ↔ below daily (spent_today s p d) ∧ below monthly (spent_this_month s p d)) ∧
      check_budget (restarted [] (spend s')) p d = true
  | inr _ => s' = s
  end.
Proof.
  unfold set_provider_budget. destruct (String.eqb (trim p) ""); [done|]. destruct (match daily, monthly with Some _, Some _ => _ | _, _ => _ end); [done|].
  cbn [spend set_budget]. split; [done|]. split; [|done]. unfold check_budget. cbn [configs set_budget spend]. rewrite lookup_insert_eq.
  cbn [b_daily b_monthly]. rewrite <- !below_reached. unfold spent_today, spent_this_month.
  destruct (bool_decide_reflect (daily = None)) as [->|], (bool_decide_reflect (monthly = None)) as [->|];
    cbn [andb]; rewrite ?andb_true_iff; done.
Qed.
End BudgetAdminProps.

Module LiveSettingsProps.
Import LiveSettings.

(** A mode is accepted exactly when it has a name of its own, and then it is the one
    that the configuration file would give; every other text the file takes for "on". *)
Theorem cache_mode_names mode :
  match parse_cache_mode mode with
  | Some m => Cache.parse_mode mode = m
  | None => Cache.parse_mode mode = Cache.On
  end.
Proof.
  unfold parse_cache_mode, Cache.parse_mode. cbv zeta. generalize (to_lowercase mode). intros m.
  case_bool_decide as H1; [by apply list_elem_of_In in H1 as [<-|[<-|[<-|[]]]]|].
  case_bool_decide as H2; [by apply list_elem_of_In in H2 as [<-|[<-|[<-|[]]]]|].
  case_bool_decide as H3; [by apply list_elem_of_In in H3 as [<-|[<-|[<-|[]]]]|].
  case_bool_decide as H4; [by apply list_elem_of_In in H4 as [<-|[<-|[<-|[]]]]|].
  repeat match goal with |- context [String.eqb m ?x] => destruct (String.eqb_spec m x); [subst; exfalso; set_solver|] end. done.
Qed.

Section handlers.
Context (rfc3339 : DateTime → string) (to_string : Json.value → string) (sha256 : string → list Z).

(** A strategy is taken over exactly when it has a name, and is printed under it; an
    unknown one changes nothing. *)
Theorem strategy_names now strategy s :
  (∀ t, parse_strategy (show_strategy t) = Some t) ∧
  let '(s', r) := update_routing_strategy rfc3339 to_string sha256 now strategy s in
  match r with
  | inl shown => shown = strategy ∧ parse_strategy strategy = Some (routing_strategy s')
  | inr (status, _) => status = 400 ∧ parse_strategy strategy = None ∧ s' = s
  end.
Proof.
  split; [by intros []|]. unfold update_routing_strategy. destruct (parse_strategy strategy) as [t|] eqn:E; [|done]. split; [|done].
  revert E. unfold parse_strategy.
  repeat match goal with |- context [String.eqb strategy ?x] =>
    destruct (String.eqb_spec strategy x) as [->|]; [intros [= <-]; done|] end. done.
Qed.
End handlers.

Lemma by_name_total a b : by_name a b = true ∨ by_name b a = true.
Proof. apply String.leb_total. Qed.
Lemma by_name_trans a b c : by_name a b = true → by_name b c = true → by_name a c = true.
Proof. apply string_leb_trans. Qed.
Lemma endpoint_channel_Some channels endpoint u n : endpoint_channel channels endpoint = Some (u, n) →
  ∃ ch, ch ∈ channels ∧ Channel.models_endpoint ch = Some endpoint ∧ Channel.id ch = u ∧ Channel.name ch = n.
Proof.
  unfold endpoint_channel. intros H%last_Some_elem_of%list_elem_of_omap. destruct H as (ch&Hin&E).
  case_bool_decide; [|done]. injection E as <- <-. by exists ch.
Qed.

(** The list of models has each known one once, in order, with its own capabilities,
    and names a channel only for a model that was found at that channel's endpoint. *)
Theorem models_listed channels r :
  let '(items, total) := get_model_registry channels r in
  total = size (ModelRegistry.models r) ∧
  StronglySorted (λ a b, String.leb a b = true) (i_name <$> items) ∧ NoDup (i_name <$> items) ∧
  (∀ name, name ∈ i_name <$> items ↔ is_Some (ModelRegistry.models r !! name)) ∧
  ∀ i, i ∈ items → ModelRegistry.models r !! i_name i = Some (i_capabilities i) ∧
    ∀ u n, i_channel i = Some (u, n) → ∃ ch, ch ∈ channels ∧ Channel.id ch = u ∧ Channel.name ch = n ∧
      Channel.models_endpoint ch = ModelRegistry.source (i_capabilities i) ∧ ModelRegistry.source (i_capabilities i) ≠ None.
Proof.
  unfold get_model_registry, list_all. set (f := λ '(n, c), mkItem n _ _ None _ c). set (g := λ e, mkItem (i_name e) _ _ _ _ _).
  set (l := map_to_list (ModelRegistry.models r)). assert (i_name <$> (f <$> l) = l.*1) as Hn.
  { rewrite <- list_fmap_compose. apply list_fmap_ext. by intros ? [n c] _. }
  assert (∀ l, i_name <$> (g <$> l) = i_name <$> l) as Hg by (intros k; rewrite <- list_fmap_compose; by apply list_fmap_ext).
  split_and!.
  - rewrite length_fmap, stable_sort_length, length_fmap. apply map_to_list_length || (unfold l; by rewrite length_map_to_list).
  - rewrite Hg. pose proof (stable_sort_sorted by_name by_name_total by_name_trans (f <$> l)) as Hs.
    induction Hs as [|x k _ IH Hx]; [constructor|]. cbn. constructor; [done|]. apply Forall_fmap. exact Hx.
  - rewrite Hg. rewrite (stable_sort_perm by_name), Hn. apply NoDup_fst_map_to_list.
  - intros name. rewrite Hg, (stable_sort_perm by_name), Hn, list_elem_of_fmap. split.
    + intros ([k c]&->&H%elem_of_map_to_list). by exists c.
    + intros [c H]. exists (name, c). split; [done|by apply elem_of_map_to_list].
  - intros i (e&->&He)%list_elem_of_fmap. rewrite (stable_sort_perm by_name) in He. apply list_elem_of_fmap in He as ([n c]&->&H%elem_of_map_to_list).
    cbn. split; [done|]. intros u m Hc. destruct (ModelRegistry.source c) as [src|]; [|done]. cbn in Hc.
    apply endpoint_channel_Some in Hc as (ch&H1&H2&H3&H4). exists ch. by split_and!.
Qed.

Example uptimes :
  format_uptime 59 = "59s" ∧ format_uptime 3600 = "1h 0m 0s" ∧ format_uptime 90061 = "1d 1h 1m" ∧
  format_uptime (2 ^ 64 - 1) = "213503982334601d 7h 0m".
Proof. split_and!; reflexivity. Qed.
Example counters :
  parse_counter_value ["# TYPE hits counter"; "hits 42"; "hits 43"] "hits" = 42 ∧
  parse_counter_value ["hits_total 7"; "hits 42"] "hits" = 7 ∧ parse_counter_value ["hits -1"] "hits" = 0.
Proof. split_and!; reflexivity. Qed.
(** A half is rounded by what the floats make of it. *)
Example hit_rates : hit_rate 1 7 = 13 ∧ hit_rate 29 171 = 14 ∧ hit_rate 0 0 = 0.
Proof. split_and!; reflexivity. Qed.
End LiveSettingsProps.
