(* ===== verification/Login.v ===== *)
(** Logging in through an identity provider: auth/oidc.rs, auth/ldap.rs, the
    escaping of names in config/auth.rs, and the endpoints of admin/auth.rs that
    make a virtual key for who has logged in. *)

From stdpp Require Import pretty.
From S2P Require Import Prelude Json PersistedStore VirtualKey.

(** ** auth/mod.rs *)

Module Auth.

Inductive AuthSource := Ldap | Oidc.
Record AuthUserInfo := mkUser {
  user_id : string;
  username : string;
  email : option string;
  groups : list string;
  source : AuthSource;
}.

(** What the [url] crate reads: an IPv6 host keeps its brackets. *)
Record Url := mkUrl { scheme : string; host_str : option string }.
Definition is_localhost (u : Url) : bool :=
  match host_str u with
  | Some h => String.eqb h "localhost" || String.eqb h "127.0.0.1" || String.eqb h "::1"
  | None => false
  end.
End Auth.

(** ** LDAP *)

Module Ldap.
Import Auth.

Record LdapConfig := mkConfig {
  url : string;
  bind_dn_template : string;
  starttls : bool;
  default_group : string;
  timeout_secs : Z;
}.
Definition default_ldap_starttls : bool := false.
Definition default_ldap_group : string := "ldap".
Definition default_ldap_timeout_secs : Z := 10.

Definition backslash : ascii := "\"%char.
Definition quote : ascii := "034"%char.
Definition nul : ascii := "000"%char.
Definition special (c : ascii) : bool :=
  bool_decide (c ∈ [","%char; "+"%char; quote; backslash; "<"%char; ">"%char; ";"%char]).

(** The character at the head of a text, first of all or not. *)
Definition escape_char (first last : bool) (c : ascii) : string :=
  if special c then String backslash (String c "")
  else if ascii_dec c "#" then if first then "\#" else "#"
  else if ascii_dec c " " then if first || last then "\ " else " "
  else if ascii_dec c nul then "\00"
  else String c "".
Fixpoint escape_from (first : bool) (s : string) : string :=
  match s with
  | EmptyString => ""
  | String c s' => escape_char first (String.eqb s' "") c +:+ escape_from false s'
  end.
Definition escape_ldap_dn (input : string) : string := escape_from true input.

Definition build_bind_dn (cfg : LdapConfig) (username : string) : string :=
  replace "{username}" (escape_ldap_dn username) (bind_dn_template cfg).

Inductive LdapAuthError :=
  | BindFailed (rc : Z) (text : string)
  | Connection
  | InsecureConnection (m : string)
  | Driver (m : string).

(** What the directory answers to a bind: a result code with a text, or the
    connection fails. *)
Definition Answer : Type := option (Z * string).

Section ldap.
Context (parse_url : string → option Url).

Definition validate_tls_requirement (cfg : LdapConfig) : option LdapAuthError :=
  match parse_url (url cfg) with
  | None => Some (InsecureConnection "Invalid LDAP URL")
  | Some parsed =>
      let is_encrypted := starttls cfg || String.eqb (scheme parsed) "ldaps" in
      if negb is_encrypted && negb (is_localhost parsed)
      then Some (InsecureConnection "LDAP connection must use TLS (ldaps:// or starttls=true) for non-localhost hosts")
      else None
  end.

(** [bind] answers a distinguished name and a password. *)
Definition authenticate (bind : string → string → Answer) (cfg : LdapConfig) (user password : string)
    : AuthUserInfo + LdapAuthError :=
  match validate_tls_requirement cfg with
  | Some e => inr e
  | None =>
      let bind_dn := build_bind_dn cfg user in
      match bind bind_dn password with
      | Some (rc, text) =>
          if rc =? 0 then inl (mkUser bind_dn user None [default_group cfg] Auth.Ldap)
          else inr (BindFailed rc text)
      | None => inr Connection
      end
  end.
End ldap.
End Ldap.

(** ** OpenID Connect *)

Module Oidc.
Import Json Auth.

Record OidcConfig := mkConfig {
  issuer : string;
  client_id : string;
  client_secret : option string;
  redirect_uri : string;
  scopes : list string;
}.
Definition default_oidc_scopes : list string := ["openid"; "email"; "profile"].

Inductive OidcError :=
  | Authorization (m : string)
  | TokenExchange
  | UserInfo (m : string)
  | Config
  | InvalidIssuer
  | Discovery (m : string).

Record TokenSet := mkTokens {
  access_token : string;
  id_token : option string;
  token_type : string;
  expires_in : option Z;
  refresh_token : option string;
}.
Record DiscoveryDocument := mkDocument {
  authorization_endpoint : string;
  token_endpoint : string;
  jwks_uri : string;
  userinfo_endpoint : option string;
}.
Record TokenResponse := mkTokenResponse {
  t_access_token : string;
  t_id_token : option string;
  t_token_type : option string;
  t_expires_in : option Z;
  t_refresh_token : option string;
}.
Record Jwk := mkJwk { kid : option string; kty : string; modulus : option string; exponent : option string }.
Record Header := mkHeader { h_kid : option string; h_alg : string }.

(** *** State tokens *)

(** [parse::<i64>] *)
Definition parse_i64 (s : string) : option Z :=
  match s with
  | String "-" (String _ _ as digits) => Z.opp <$> parse_digits (2 ^ 63) digits 0
  | _ => parse_uint (2 ^ 63 - 1) s
  end.

Section state.
(** HMAC-SHA256 in hexadecimal, and the hexadecimal form of an identifier. *)
Context (compute_hmac : string → string → string) (simple : Uuid → string).

(** [now] in seconds. *)
Definition build_state_token (secret : string) (nonce : Uuid) (now : Z) : string :=
  let expiry := pretty (now + 600) in
  let mac := compute_hmac secret (simple nonce +:+ "." +:+ expiry) in
  simple nonce +:+ "." +:+ expiry +:+ "." +:+ mac.

Definition verify_state_token (secret token : string) (now : Z) : option OidcError :=
  match split_on "." token with
  | [nonce; expiry_str; provided_mac] =>
      match parse_i64 expiry_str with
      | None => Some (Authorization "malformed state expiry")
      | Some expiry =>
          if expiry <? now then Some (Authorization "state token expired")
          else if String.eqb (compute_hmac secret (nonce +:+ "." +:+ expiry_str)) provided_mac then None
          else Some (Authorization "state token HMAC mismatch")
      end
  | _ => Some (Authorization "malformed state token")
  end.
End state.

(** *** The flow *)

(** A request sent to the provider, and what comes back: nothing, or a status
    with the body when that can be read. *)
Inductive Sent :=
  | Get (url : string) (bearer : option string)
  | Post (url : string) (form : list (string * string)).
Definition Reply (T : Type) : Type := option (Z * option T).
Definition is_success (status : Z) : bool := (200 <=? status) && (status <? 300).

(** What the provider answers, in the order of the requests: the documents of the
    exchange and of the second half, the tokens, the keys or the claims. *)
Record Provider := mkProvider {
  p_discovery1 : Reply DiscoveryDocument;
  p_tokens : Reply TokenResponse;
  p_discovery2 : Reply DiscoveryDocument;
  p_keys : Reply (list Jwk);
  p_userinfo : Reply value;
}.

Section flow.
Context (parse_url : string → option Url) (url_encode : string → string).
(** The [jsonwebtoken] crate: the header of a token; an RSA key of its modulus
    and exponent; the claims of a token whose signature is that of the key under
    the algorithm, for the audience and the issuer. *)
Context {RsaKey : Type} (decode_header : string → option Header)
  (from_rsa_components : string → string → option RsaKey)
  (decode : string → RsaKey → string → string → string → option value).

Definition new (c : OidcConfig) : option OidcError :=
  match parse_url (issuer c) with
  | None => Some InvalidIssuer
  | Some parsed =>
      if negb (String.eqb (scheme parsed) "https") && negb (is_localhost parsed)
      then Some InvalidIssuer else None
  end.

Definition authorization_url (c : OidcConfig) (state : string) : string :=
  let scope := match scopes c with [] => "openid" | l => String.concat " " l end in
  let params := [("response_type", "code"); ("client_id", client_id c);
                 ("redirect_uri", redirect_uri c); ("scope", scope); ("state", state)] in
  let query := String.concat "&" ((λ '(k, v), k +:+ "=" +:+ url_encode v) <$> params) in
  trim_end_slashes (issuer c) +:+ "/authorize?" +:+ query.

Definition validate_endpoint_host (url_str issuer_host : string) : option OidcError :=
  match parse_url url_str with
  | None => Some (Discovery "discovery endpoint URL malformed")
  | Some parsed =>
      if bool_decide (host_str parsed = Some issuer_host) then None
      else Some (Discovery "discovery endpoint host mismatch")
  end.

Definition discover (c : OidcConfig) (reply : Reply DiscoveryDocument)
    : list Sent * (DiscoveryDocument + OidcError) :=
  let sent := [Get (trim_end_slashes (issuer c) +:+ "/.well-known/openid-configuration") None] in
  (sent,
   match reply with
   | None => inr (Discovery "discovery request failed")
   | Some (status, body) =>
       if negb (is_success status) then inr (Discovery "discovery returned HTTP") else
       match body with
       | None => inr (Discovery "discovery parse failed")
       | Some doc =>
           match parse_url (issuer c) with
           | None => inr Config
           | Some issuer_url =>
               let issuer_host := default "" (host_str issuer_url) in
               match validate_endpoint_host (token_endpoint doc) issuer_host with
               | Some e => inr e
               | None =>
                   match userinfo_endpoint doc ≫= λ u, validate_endpoint_host u issuer_host with
                   | Some e => inr e
                   | None => inl doc
                   end
               end
           end
       end
   end).

Definition exchange_code (c : OidcConfig) (code : string) (p : Provider)
    : list Sent * (TokenSet + OidcError) :=
  match discover c (p_discovery1 p) with
  | (sent, inr e) => (sent, inr e)
  | (sent, inl doc) =>
      let form := [("grant_type", "authorization_code"); ("code", code);
                   ("redirect_uri", redirect_uri c); ("client_id", client_id c)]
                  ++ match client_secret c with Some s => [("client_secret", s)] | None => [] end in
      (sent ++ [Post (token_endpoint doc) form],
       match p_tokens p with
       | None => inr TokenExchange
       | Some (status, body) =>
           if negb (is_success status) then inr TokenExchange else
           match body with
           | None => inr TokenExchange
           | Some t =>
               inl (mkTokens (t_access_token t) (t_id_token t) (default "Bearer" (t_token_type t))
                      (t_expires_in t) (t_refresh_token t))
           end
       end)
  end.

Definition matches_key (h : Header) (k : Jwk) : bool :=
  match h_kid h with
  | Some wanted => bool_decide (kid k = Some wanted)
  | None => String.eqb (kty k) "RSA"
  end.
Definition verify_id_token (c : OidcConfig) (token : string) (p : Provider)
    : list Sent * (value + OidcError) :=
  match discover c (p_discovery2 p) with
  | (sent, inr e) => (sent, inr e)
  | (sent, inl doc) =>
      match decode_header token with
      | None => (sent, inr (UserInfo "failed to decode JWT header"))
      | Some h =>
          (sent ++ [Get (jwks_uri doc) None],
           match p_keys p with
           | None => inr (Discovery "JWKS fetch failed")
           | Some (status, body) =>
               if negb (is_success status) then inr (Discovery "JWKS endpoint returned HTTP") else
               match body with
               | None => inr (Discovery "JWKS parse failed")
               | Some keys =>
                   match List.find (matches_key h) keys with
                   | None => inr (UserInfo "no matching JWKS key found for ID token")
                   | Some k =>
                       if String.eqb (kty k) "RSA" then
                         match modulus k, exponent k with
                         | Some n, Some e =>
                             match from_rsa_components n e with
                             | None => inr (UserInfo "failed to build RSA key")
                             | Some key =>
                                 match decode token key (h_alg h) (client_id c) (issuer c) with
                                 | Some claims => inl claims
                                 | None => inr (UserInfo "ID token verification failed")
                                 end
                             end
                         | None, _ => inr (UserInfo "JWKS RSA key missing modulus 'n'")
                         | _, None => inr (UserInfo "JWKS RSA key missing exponent 'e'")
                         end
                       else inr (UserInfo "unsupported JWKS key type")
                   end
               end
           end)
      end
  end.

Definition get_str (claims : value) (k : string) : option string := get claims k ≫= as_str.
Definition claims_to_user_info (claims : value) : AuthUserInfo :=
  let id := default "" (get_str claims "sub") in
  let name := match get_str claims "preferred_username" with
              | Some s => s
              | None => match get_str claims "name" with
                        | Some s => s
                        | None => default id (get_str claims "sub")
                        end
              end in
  mkUser id name (get_str claims "email") [] Auth.Oidc.

Definition extract_user_info (c : OidcConfig) (tokens : TokenSet) (p : Provider)
    : list Sent * (AuthUserInfo + OidcError) :=
  match id_token tokens with
  | Some t =>
      match verify_id_token c t p with
      | (sent, inl claims) => (sent, inl (claims_to_user_info claims))
      | (sent, inr e) => (sent, inr e)
      end
  | None =>
      match discover c (p_discovery2 p) with
      | (sent, inr e) => (sent, inr e)
      | (sent, inl doc) =>
          match userinfo_endpoint doc with
          | None | Some "" => (sent, inr (UserInfo "no ID token present and IdP discovery omitted userinfo_endpoint"))
          | Some url =>
              (sent ++ [Get url (Some (access_token tokens))],
               match p_userinfo p with
               | None => inr (UserInfo "userinfo request failed")
               | Some (status, body) =>
                   if negb (is_success status) then inr (UserInfo "userinfo endpoint returned HTTP") else
                   match body with
                   | None => inr (UserInfo "userinfo parse failed")
                   | Some claims => inl (claims_to_user_info claims)
                   end
               end)
          end
      end
  end.
End flow.
End Oidc.

(** ** admin/auth.rs *)

Module Endpoints.
Import Json Auth VirtualKey.

Record LoginResponse := mkLogin {
  l_key : string;
  l_key_prefix : string;
  l_username : string;
  l_group : string;
  l_email : option string;
}.
Inductive Answer :=
  | LoggedIn (r : LoginResponse)
  | Refused (status : Z) (message : string).

Section endpoints.
Context (sha256 : string → list Z) (simple : Uuid → string).

(** What both logins do once the user is known. [listed] are the keys in the order
    of the store's iteration; [secret] and [new_id] are drawn. *)
Definition new_user_key (key_name group : string) : NewKey :=
  mkNewKey key_name None None None [] [] None None None (Some group).
Definition provision (listed : list VirtualKey) (key_name : string) (group : string)
    (secret new_id : Uuid) (now : DateTime) (s : VirtualKeyStore)
    : outcome (VirtualKeyStore * VirtualKey * string) :=
  let existing := List.find (λ k, String.eqb (name k) key_name) listed in
  let s := match existing with Some old_key => (delete_key s (id old_key)).1 | None => s end in
  create sha256 simple s (new_user_key key_name group) secret new_id now.

Definition ldap_login (parse_url : string → option Url) (bind : string → string → Ldap.Answer)
    (config : option Ldap.LdapConfig) (user password : string) (listed : list VirtualKey)
    (secret new_id : Uuid) (now : DateTime) (s : VirtualKeyStore) : outcome (VirtualKeyStore * Answer) :=
  match config with
  | None => Done (s, Refused 503 "LDAP authentication is not configured")
  | Some cfg =>
      if String.eqb user "" || String.eqb password ""
      then Done (s, Refused 400 "Username and password are required")
      else match Ldap.authenticate parse_url bind cfg user password with
      | inl info =>
          let group := default "" (head (groups info)) in
          match provision listed ("ldap:" +:+ username info) group secret new_id now s with
          | Panic => Panic
          | Done (s, new_key, plaintext) =>
              Done (s, LoggedIn (mkLogin plaintext (key_prefix new_key) (username info) group None))
          end
      | inr (Ldap.BindFailed _ _) => Done (s, Refused 401 "Invalid credentials")
      | inr (Ldap.InsecureConnection _) =>
          Done (s, Refused 503 "Authentication service configuration error")
      | inr _ => Done (s, Refused 500 "Authentication service temporarily unavailable")
      end
  end.

(** The query of a callback; without a code the request does not get here. *)
Record OidcCallbackParams := mkParams { code : string; state : string; error : option string }.

Section oidc.
Context (parse_url : string → option Url) (compute_hmac : string → string → string).
Context {RsaKey : Type} (decode_header : string → option Oidc.Header)
  (from_rsa_components : string → string → option RsaKey)
  (decode : string → RsaKey → string → string → string → option value).

Definition oidc_login (url_encode : string → string) (config : option Oidc.OidcConfig) (state_secret : string)
    (nonce : Uuid) (secs : Z) : string + Answer :=
  match config with
  | None => inr (Refused 503 "OIDC authentication is not configured")
  | Some cfg =>
      match Oidc.new parse_url cfg with
      | Some _ => inr (Refused 500 "Authentication service configuration error")
      | None =>
          inl (Oidc.authorization_url url_encode cfg
                 (Oidc.build_state_token compute_hmac simple state_secret nonce secs))
      end
  end.

(** [secs] is the time at which the state is checked. *)
Definition oidc_callback (config : option Oidc.OidcConfig) (state_secret : string) (q : OidcCallbackParams)
    (p : Oidc.Provider) (secs : Z) (listed : list VirtualKey) (secret new_id : Uuid) (now : DateTime)
    (s : VirtualKeyStore) : list Oidc.Sent * outcome (VirtualKeyStore * Answer) :=
  match config with
  | None => ([], Done (s, Refused 503 "OIDC authentication is not configured"))
  | Some cfg =>
      match error q with
      | Some _ => ([], Done (s, Refused 400 "Authorization failed"))
      | None =>
          match Oidc.verify_state_token compute_hmac state_secret (state q) secs with
          | Some _ => ([], Done (s, Refused 400 "Invalid state parameter"))
          | None =>
              match Oidc.new parse_url cfg with
              | Some _ => ([], Done (s, Refused 500 "Authentication service configuration error"))
              | None =>
                  match Oidc.exchange_code parse_url cfg (code q) p with
                  | (sent, inr _) =>
                      (sent, Done (s, Refused 502 "Authentication service temporarily unavailable"))
                  | (sent, inl tokens) =>
                      match Oidc.extract_user_info parse_url decode_header from_rsa_components decode
                              cfg tokens p with
                      | (sent', inr _) =>
                          (sent ++ sent', Done (s, Refused 502 "Authentication service temporarily unavailable"))
                      | (sent', inl info) =>
                          let group := default "" (head (groups info)) in
                          (sent ++ sent',
                           match provision listed ("oidc:" +:+ username info) group secret new_id now s with
                           | Panic => Panic
                           | Done (s, new_key, plaintext) =>
                               Done (s, LoggedIn (mkLogin plaintext (key_prefix new_key) (username info)
                                                    group (email info)))
                           end)
                      end
                  end
              end
          end
      end
  end.
End oidc.
End endpoints.
End Endpoints.

Module LoginFacts.
Import Json Auth Oidc.

(** *** Numbers in state tokens *)

Definition digit (c : ascii) : Prop := is_ascii_digit c = true.
Lemma digit_char y : (y < 10)%N → digit (pretty_N_char y) ∧ digit_value (pretty_N_char y) = Z.of_N y.
Proof.
  intros Hy. unfold digit.
  destruct (decide (y = 0 ∨ y = 1 ∨ y = 2 ∨ y = 3 ∨ y = 4 ∨ y = 5 ∨ y = 6 ∨ y = 7 ∨ y = 8 ∨ y = 9)%N) as [H|]; [|lia].
  by repeat (destruct H as [->|H]; [done|]); subst.
Qed.

Lemma parse_go max x s :
  Z.of_N x ≤ max → parse_digits max (pretty_N_go x s) 0 = parse_digits max s (Z.of_N x).
Proof.
  revert s. induction (N.lt_wf_0 x) as [x _ IH]. intros s Hx.
  destruct (decide (x = 0%N)) as [->|Hne]; [by rewrite pretty_N_go_0|].
  rewrite pretty_N_go_step by lia. rewrite IH; [|apply N.div_lt; lia|].
  2: { rewrite N2Z.inj_div. pose proof (Z.div_le_upper_bound (Z.of_N x) (Z.of_N 10) (Z.of_N x)). lia. }
  cbn [parse_digits]. destruct (digit_char (x mod 10)) as [-> ->]; [apply N.mod_lt; lia|].
  replace (10 * Z.of_N (x / 10) + Z.of_N (x mod 10)) with (Z.of_N x).
  - by destruct (Z.leb_spec (Z.of_N x) max); [|lia].
  - rewrite (N.div_mod x 10) at 1 by lia. lia.
Qed.

Lemma go_shape x s :
  (0 < x)%N → dotless s → ∃ d t, pretty_N_go x s = String d t ∧ digit d ∧ dotless (pretty_N_go x s).
Proof.
  revert s. induction (N.lt_wf_0 x) as [x _ IH]. intros s Hx Hs.
  rewrite pretty_N_go_step by lia.
  assert (digit (pretty_N_char (x mod 10))) as Hd by (apply digit_char, N.mod_lt; lia).
  assert (dotless (String (pretty_N_char (x mod 10)) s)) as Hs'.
  { apply dotless_cons; [|done]. by intros E; rewrite E in Hd. }
  destruct (decide (x `div` 10 = 0)%N) as [E|Hne].
  - rewrite E, pretty_N_go_0. by do 2 eexists.
  - apply IH; [apply N.div_lt; lia| |done]. apply N.neq_0_lt_0. exact Hne.
Qed.

(** The decimal text of a number is read as it. *)
Lemma parse_pretty max z : 0 < z ≤ max → parse_uint max (pretty z) = Some z ∧ ∃ d t, pretty z = String d t ∧ digit d ∧ dotless (pretty z).
Proof.
  intros Hz. destruct z as [|x|x]; [lia| |lia].
  change (pretty (Zpos x)) with (pretty (Npos x)). unfold pretty, pretty_N.
  destruct (decide (Npos x = 0%N)); [done|].
  destruct (go_shape (Npos x) "") as (d&t&E&Hd&Hdot); [done|done|].
  pose proof (parse_go max (Npos x) "" ltac:(cbn; lia)) as Hp. rewrite E in Hp |- *. split; [|by exists d, t; rewrite <- E].
  unfold parse_uint. destruct (ascii_dec d "+") as [->|]; [done|]. exact Hp.
Qed.
Lemma pretty_shape z :
  0 < z ≤ 2 ^ 63 - 1 → dotless (pretty z) ∧ parse_i64 (pretty z) = Some z.
Proof.
  intros Hz. destruct (parse_pretty (2 ^ 63 - 1) z Hz) as (Hu&d&t&E&Hd&Hdot). split; [done|]. rewrite E in Hu |- *.
  unfold parse_i64. destruct (ascii_dec d "-") as [->|Hm]; [done|].
  destruct d as [[] [] [] [] [] [] [] []]; try exact Hu. done.
Qed.

(** *** State tokens *)

Section state.
Context (compute_hmac : string → string → string) (simple : Uuid → string).

(** What is accepted: a token of three parts whose last is the code of the first
    two, not after the time the second gives. *)
Lemma verify_iff secret token now :
  verify_state_token compute_hmac secret token now = None ↔
  ∃ nonce expiry_str expiry,
    split_on "." token = [nonce; expiry_str; compute_hmac secret (nonce +:+ "." +:+ expiry_str)] ∧
    parse_i64 expiry_str = Some expiry ∧ now ≤ expiry.
Proof.
  unfold verify_state_token. destruct (split_on "." token) as [|nonce [|ex [|mac [|]]]]; try naive_solver.
  destruct (parse_i64 ex) as [expiry|] eqn:E; [|naive_solver].
  destruct (Z.ltb_spec expiry now) as [|Hle]; [split; [done|intros (?&?&?&[= <- <- _]&?&?); simplify_eq; lia]|].
  destruct (String.eqb_spec (compute_hmac secret (nonce +:+ "." +:+ ex)) mac) as [<-|Hne].
  - split; [|done]. intros _. by exists nonce, ex, expiry.
  - split; [done|]. by intros (?&?&?&[= <- <- ->]&_).
Qed.

Lemma token_parts a b c : dotless a → dotless b → dotless c →
  split_on "." (a +:+ "." +:+ b +:+ "." +:+ c) = [a; b; c].
Proof.
  unfold dotless. intros Ha Hb Hc. change ("." +:+ (b +:+ "." +:+ c)) with (String "." (b +:+ String "." c)).
  by rewrite !split_on_app, Ha, Hb, Hc.
Qed.
End state.

(** *** Distinguished names

    A reader of attribute values as RFC 4514 has them: up to a separator that is
    not escaped, with escaped characters and pairs of hexadecimal digits, no
    quotes, angle brackets or nulls, no number sign or space at the start and no
    space at the end that is not escaped.  [space] tells whether the last character
    was such a space. *)
Definition separator (c : ascii) : bool := bool_decide (c ∈ [","%char; "+"%char; ";"%char]).
Definition hex_value (c : ascii) : option Z :=
  if is_ascii_digit c then Some (digit_value c) else None.
Fixpoint read_value (first space : bool) (s : string) : option (string * string) :=
  match s with
  | EmptyString => if space then None else Some ("", "")
  | String c s' =>
      if ascii_dec c Ldap.backslash then
        match s' with
        | EmptyString => None
        | String d s'' =>
            if Ldap.special d || bool_decide (d ∈ ["#"%char; " "%char; "="%char])
            then prod_map (String d) (λ r, r) <$> read_value false false s''
            else match s'' with
                 | EmptyString => None
                 | String e s3 =>
                     match hex_value d, hex_value e with
                     | Some x, Some y =>
                         prod_map (String (ascii_of_N (Z.to_N (16 * x + y)))) (λ r, r)
                           <$> read_value false false s3
                     | _, _ => None
                     end
                 end
        end
      else if separator c then if space then None else Some ("", s)
      else if Ldap.special c || bool_decide (c = Ldap.nul) then None
      else if first && bool_decide (c ∈ ["#"%char; " "%char]) then None
      else prod_map (String c) (λ r, r) <$> read_value false (bool_decide (c = " "%char)) s'
  end.

Definition starts_apart (post : string) : Prop :=
  match post with EmptyString => True | String c _ => separator c = true end.

Lemma read_separator first post : starts_apart post → read_value first false post = Some ("", post).
Proof.
  destruct post as [|c s]; [done|]. intros H. cbn in *. rewrite H.
  destruct (ascii_dec c Ldap.backslash) as [->|]; [by vm_compute in H|done].
Qed.

Lemma read_char first space last c rest :
  read_value first space (Ldap.escape_char first last c +:+ rest) =
  prod_map (String c) (λ r, r) <$>
    read_value false (bool_decide (c = " "%char) && negb (first || last)) rest.
Proof.
  unfold Ldap.escape_char. destruct (Ldap.special c) eqn:Es.
  - change (String Ldap.backslash (String c "") +:+ rest) with (String Ldap.backslash (String c rest)).
    cbn [read_value]. destruct (ascii_dec Ldap.backslash Ldap.backslash); [|done]. rewrite Es. cbn [orb].
    rewrite (bool_decide_eq_false_2 (c = _)); [done|]. by intros ->.
  - destruct (ascii_dec c "#") as [->|H1].
    { destruct first; cbn; by destruct (read_value false false rest). }
    destruct (ascii_dec c " ") as [->|H2].
    { destruct first, last; cbn; try done; by destruct (read_value false _ rest). }
    destruct (ascii_dec c Ldap.nul) as [->|H3]; [done|].
    change (String c "" +:+ rest) with (String c rest). cbn [read_value].
    assert (c ≠ Ldap.backslash) as H4 by (by intros ->).
    assert (separator c = false) as Hs.
    { unfold Ldap.special, separator in *. apply bool_decide_eq_false in Es. apply bool_decide_eq_false.
      set_solver. }
    destruct (ascii_dec c Ldap.backslash); [done|]. rewrite Hs, Es.
    rewrite !(bool_decide_eq_false_2 (c = _)) by done.
    rewrite (bool_decide_eq_false_2 (c ∈ _)) by set_solver. by rewrite andb_false_r.
Qed.

Lemma read_escaped first s post :
  starts_apart post → (∀ sp, (s = "" → sp = false) →
  read_value first sp (Ldap.escape_from first s +:+ post) = Some (s, post)).
Proof.
  intros Hp. revert first. induction s as [|c s IH]; intros first sp Hsp; cbn [Ldap.escape_from].
  - rewrite (Hsp eq_refl). by apply read_separator.
  - assert (∀ a b d : string, (a +:+ b) +:+ d = a +:+ (b +:+ d)) as Happ.
    { intros a b' d. induction a as [|x a IHa]; [done|]. exact (f_equal (String x) IHa). }
    rewrite Happ, read_char, IH; [done|].
    intros ->. cbn. by rewrite orb_true_r, andb_false_r.
Qed.

(** *** The placeholder *)

Fixpoint braceless (s : string) : Prop :=
  match s with EmptyString => True | String c s' => c ≠ "{"%char ∧ braceless s' end.
Abbreviation user_pattern := "{username}".

Lemma other_head a b s p : a ≠ b → starts_with (String a s) (String b p) = false.
Proof. intros H. unfold starts_with. cbn [String.prefix]. destruct (ascii_dec b a); congruence. Qed.

Lemma replace_braceless v s : braceless s → replace user_pattern v s = s.
Proof.
  unfold replace. induction s as [|c s IH]; [done|]. intros [Hc Hs]. cbn [replace_from].
  rewrite (other_head c "{" s "username}") by done. by rewrite IH.
Qed.
Lemma replace_placeholder v pre post :
  braceless pre → braceless post →
  replace user_pattern v (pre +:+ user_pattern +:+ post) = pre +:+ v +:+ post.
Proof.
  intros Hpre Hpost. induction pre as [|c pre IH].
  - change ("" +:+ (user_pattern +:+ post)) with ("{username}" +:+ post). unfold replace.
    assert (replace_from user_pattern v 0 ("{username}" +:+ post) = v +:+ replace user_pattern v post)
      as -> by (destruct post; reflexivity). by rewrite replace_braceless.
  - destruct Hpre as [Hc Hpre]. specialize (IH Hpre). unfold replace in *.
    change (String c pre +:+ ?x) with (String c (pre +:+ x)). cbn [replace_from].
    rewrite (other_head c "{" _ "username}") by done. by rewrite IH.
Qed.
(** *** Where the exchange sends *)

(** A secret goes out with a [Post] (the client's secret and the code) or with a
    bearer token; both only to the host of the issuer. *)
Definition guarded_sent (parse_url : string → option Url) (c : OidcConfig) (x : Sent) : Prop :=
  match x with
  | Get _ None => True
  | Get url (Some _) | Post url _ =>
      ∃ i u, parse_url (issuer c) = Some i ∧ parse_url url = Some u ∧
             host_str u = Some (default "" (host_str i))
  end.

Section sent.
Context (parse_url : string → option Url) (c : OidcConfig).

Lemma endpoint_host url_str host :
  validate_endpoint_host parse_url url_str host = None →
  ∃ u, parse_url url_str = Some u ∧ host_str u = Some host.
Proof.
  unfold validate_endpoint_host. destruct (parse_url url_str) as [u|]; [|done].
  case_bool_decide as H; [|done]. intros _. by exists u.
Qed.

Lemma discover_sent reply sent res :
  discover parse_url c reply = (sent, res) → Forall (guarded_sent parse_url c) sent.
Proof. intros [= <- _]. by repeat constructor. Qed.

Lemma discover_hosts reply sent doc :
  discover parse_url c reply = (sent, inl doc) →
  (∀ form, guarded_sent parse_url c (Post (token_endpoint doc) form)) ∧
  ∀ url bearer, userinfo_endpoint doc = Some url → guarded_sent parse_url c (Get url bearer).
Proof.
  unfold discover. intros [= _ H]. destruct reply as [[status [body|]]|]; [|by destruct (negb _)|done].
  destruct (negb _); [done|]. destruct (parse_url (issuer c)) as [i|] eqn:Ei; [|done].
  destruct (validate_endpoint_host _ (token_endpoint body) _) eqn:Et; [done|].
  destruct (userinfo_endpoint body ≫= _) eqn:Eu; [done|]. injection H as <-.
  split; [intros form|intros url [b|] Hu; [|done]]; cbn.
  - apply endpoint_host in Et as (u&?&?). by exists i, u.
  - rewrite Hu in Eu. apply endpoint_host in Eu as (u&?&?). by exists i, u.
Qed.

Lemma exchange_sent cd p sent res :
  exchange_code parse_url c cd p = (sent, res) → Forall (guarded_sent parse_url c) sent.
Proof.
  unfold exchange_code. destruct (discover parse_url c _) as [l [doc|e]] eqn:E; intros [= <- _].
  - apply Forall_app. split; [by eapply discover_sent|].
    constructor; [|constructor]. by apply discover_hosts in E as [? _].
  - by eapply discover_sent.
Qed.

Context {RsaKey : Type} (decode_header : string → option Header)
  (from_rsa_components : string → string → option RsaKey)
  (decode : string → RsaKey → string → string → string → option value).

Lemma verify_sent t p sent res :
  verify_id_token parse_url decode_header from_rsa_components decode c t p = (sent, res) →
  Forall (guarded_sent parse_url c) sent.
Proof.
  unfold verify_id_token. destruct (discover parse_url c _) as [l [doc|e]] eqn:E.
  - apply discover_sent in E. destruct (decode_header t); intros [= <- _]; [|done].
    apply Forall_app. by repeat constructor.
  - intros [= <- _]. by eapply discover_sent.
Qed.

(** Claims that are accepted are those of a token that one of the provider's keys
    has signed for this client and this issuer. *)
Lemma verified_claims t p sent claims :
  verify_id_token parse_url decode_header from_rsa_components decode c t p = (sent, inl claims) →
  ∃ h status ks k n e key,
    decode_header t = Some h ∧ p_keys p = Some (status, Some ks) ∧ k ∈ ks ∧ modulus k = Some n ∧
    exponent k = Some e ∧ from_rsa_components n e = Some key ∧
    decode t key (h_alg h) (client_id c) (issuer c) = Some claims.
Proof.
  unfold verify_id_token. destruct (discover parse_url c _) as [l [doc|e]]; [|done].
  destruct (decode_header t) as [h|]; [|done]. intros [= _ H].
  destruct (p_keys p) as [[status [ks|]]|]; [|by destruct (negb _)|done].
  destruct (negb _); [done|]. destruct (List.find _ ks) as [k|] eqn:Ef; [|done].
  apply find_some in Ef as [Hk _]. destruct (String.eqb _ _); [|done].
  destruct (modulus k) as [n|] eqn:En; [|done]. destruct (exponent k) as [e|] eqn:Ee; [|done].
  destruct (from_rsa_components n e) as [key|] eqn:Ek; [|done].
  destruct (decode _ _ _ _ _) as [cl|] eqn:Ed; [|done]. injection H as <-.
  exists h, status, ks, k, n, e, key. by rewrite list_elem_of_In.
Qed.

Lemma extract_sent tokens p sent res :
  extract_user_info parse_url decode_header from_rsa_components decode c tokens p = (sent, res) →
  Forall (guarded_sent parse_url c) sent.
Proof.
  unfold extract_user_info. destruct (id_token tokens) as [t|].
  - destruct (verify_id_token _ _ _ _ _ _ _) as [l [cl|e]] eqn:E; intros [= <- _]; by eapply verify_sent.
  - destruct (discover parse_url c _) as [l [doc|e]] eqn:E; [|intros [= <- _]; by eapply discover_sent].
    pose proof (discover_sent _ _ _ E). apply discover_hosts in E as [_ Hu].
    destruct (userinfo_endpoint doc) as [[|x url]|]; intros [= <- _]; try done.
    apply Forall_app. split; [done|]. constructor; [by apply Hu|constructor].
Qed.
End sent.
End LoginFacts.

Module LoginProps.
Import Json Auth VirtualKey LoginFacts Endpoints.

(** A state token is good for ten minutes and cannot be made up. The token made at a
    time is accepted exactly up to 600 seconds later; and whatever token is accepted
    consists of two parts and their code under the secret, the second part a time
    that has not passed. (The codes are hexadecimal, so they have no dot.) *)
Theorem state_token_lifetime hmac simple secret nonce made now :
  (∀ d, dotless (hmac secret d)) → dotless (simple nonce) → 0 ≤ made ≤ 2 ^ 63 - 601 →
  (Oidc.verify_state_token hmac secret (Oidc.build_state_token hmac simple secret nonce made) now = None ↔
   now ≤ made + 600) ∧
  ∀ token, Oidc.verify_state_token hmac secret token now = None →
    ∃ nonce expiry_str expiry,
      split_on "." token = [nonce; expiry_str; hmac secret (nonce +:+ "." +:+ expiry_str)] ∧
      Oidc.parse_i64 expiry_str = Some expiry ∧ now ≤ expiry.
Proof.
  intros Hh Hs Hm. split; [|by intros token H%verify_iff].
  destruct (pretty_shape (made + 600)) as [Hd Hp]; [lia|].
  rewrite verify_iff. unfold Oidc.build_state_token. rewrite token_parts by done. split.
  - intros (n&e&t&[= <- <-]&Ht&Hle). rewrite Hp in Ht. by injection Ht as <-.
  - intros Hle. by exists (simple nonce), (pretty (made + 600)), (made + 600).
Qed.

Definition sample_hmac (secret d : string) : string := "c0de".
Definition sample_simple (u : Uuid) : string := "00000000000000000000000000000001".
Lemma state_token_lifetime_witness :
  Oidc.verify_state_token sample_hmac "s" (Oidc.build_state_token sample_hmac sample_simple "s" 7 1000) 1600 = None.
Proof.
  apply (state_token_lifetime sample_hmac sample_simple "s" 7 1000 1600);
    [intros d; vm_compute; reflexivity|vm_compute; reflexivity|lia|lia].
Defined.

(** A user name cannot reach outside its place in the distinguished name. For a
    template with one placeholder that a separator or the end follows, the name that
    is bound is the template with the escaped user in its place, and a reader of
    RFC 4514 reads there exactly the user as given and then the rest of the template. *)
Theorem bind_dn_names_user cfg pre post user :
  Ldap.bind_dn_template cfg = pre +:+ "{username}" +:+ post →
  braceless pre → braceless post → starts_apart post →
  Ldap.build_bind_dn cfg user = pre +:+ Ldap.escape_ldap_dn user +:+ post ∧
  read_value true false (Ldap.escape_ldap_dn user +:+ post) = Some (user, post).
Proof.
  intros Ht Hpre Hpost Hsep. split.
  - unfold Ldap.build_bind_dn. rewrite Ht. by apply replace_placeholder.
  - by apply read_escaped.
Qed.

Definition sample_ldap : Ldap.LdapConfig :=
  Ldap.mkConfig "ldaps://dc" "cn={username},ou=users,dc=corp" false "staff" 10.
Lemma bind_dn_names_user_witness :
  Ldap.build_bind_dn sample_ldap " x,dc=evil " = "cn=\ x\,dc=evil\ ,ou=users,dc=corp" ∧
  read_value true false (Ldap.escape_ldap_dn " x,dc=evil " +:+ ",ou=users,dc=corp") =
    Some (" x,dc=evil ", ",ou=users,dc=corp").
Proof.
  destruct (bind_dn_names_user sample_ldap "cn=" ",ou=users,dc=corp" " x,dc=evil ") as [H1 H2];
    [reflexivity|repeat split; discriminate|repeat split; discriminate|reflexivity|].
  split; [rewrite H1; reflexivity|exact H2].
Defined.

(** *** What a login gives *)

Section provision.
Context (sha256 : string → list Z) (simple : Uuid → string).

Lemma provision_keys listed n g secret new_id now s s' vk p :
  provision sha256 simple listed n g secret new_id now s = Done (s', vk, p) →
  keys s' !! new_id = Some vk ∧ name vk = n ∧ enabled vk = true ∧ daily_budget_cents vk = None ∧
  monthly_budget_cents vk = None ∧ allowed_models vk = None ∧ denied_models vk = [] ∧ allowed_ips vk = [] ∧
  rpm_limit vk = None ∧ tpm_limit vk = None ∧ expires_at vk = None ∧ spend vk = default_spend ∧
  (∀ u, u ≠ new_id → keys s' !! u =
     match List.find (λ k, String.eqb (name k) n) listed with
     | Some old => if decide (id old = u) then None else keys s !! u
     | None => keys s !! u
     end).
Proof.
  unfold provision, create. destruct (get_16 _); [|done]. intros [= <- <- <-]. cbn.
  unfold keys at 1, set_keys. cbn. rewrite lookup_insert_eq. split_and!; try done.
  intros u Hu. unfold keys at 1. cbn. rewrite lookup_insert_ne by done.
  destruct (List.find _ listed) as [old|]; [|done]. unfold delete_key.
  destruct (keys s !! id old) as [k|] eqn:E; cbn.
  - unfold keys at 1. cbn. case_decide as Hd; [subst; apply lookup_delete_eq|]. by rewrite lookup_delete_ne.
  - case_decide as Hd; [by subst|done].
Qed.
End provision.

Lemma in_find {A} (f : A → bool) l x : List.find f l = Some x → x ∈ l ∧ f x = true.
Proof. intros H. apply find_some in H as [H1 H2]. by rewrite list_elem_of_In. Qed.

(** A login leaves one key of the user, without any restriction. If the table had
    at most one key of the name, then afterwards the new key is the only one, it is
    enabled and has no budget, limit, expiry or list of models or addresses, whatever
    the old one had; all keys of other names are as before. *)
Theorem login_replaces_key sha256 simple listed n g secret new_id now s s' vk p :
  listed ≡ₚ map_values (keys s) → map_Forall (λ u k, id k = u) (keys s) → keys s !! new_id = None →
  (∀ u v k k', keys s !! u = Some k → keys s !! v = Some k' → name k = n → name k' = n → u = v) →
  provision sha256 simple listed n g secret new_id now s = Done (s', vk, p) →
  (∀ u k, keys s' !! u = Some k → name k = n → u = new_id ∧ k = vk) ∧
  keys s' !! new_id = Some vk ∧ enabled vk = true ∧ daily_budget_cents vk = None ∧
  monthly_budget_cents vk = None ∧ allowed_models vk = None ∧ denied_models vk = [] ∧ allowed_ips vk = [] ∧
  rpm_limit vk = None ∧ tpm_limit vk = None ∧ expires_at vk = None ∧
  (∀ u k, keys s !! u = Some k → name k ≠ n → keys s' !! u = Some k).
Proof.
  intros Hl Hown Hfresh Huniq H. apply provision_keys in H as (H1&H2&H3&H4&H5&H6&H7&H8&H9&H10&H11&_&Hrest).
  assert (∀ k, k ∈ listed ↔ keys s !! id k = Some k) as Hin.
  { intros k. rewrite Hl. unfold map_values. rewrite list_elem_of_fmap. split.
    - intros ([u k']&->&Hk%elem_of_map_to_list). cbn. by rewrite (Hown _ _ Hk).
    - intros Hk. exists (id k, k). by rewrite elem_of_map_to_list. }
  split_and!; try done.
  - intros u k Hk Hn. destruct (decide (u = new_id)) as [->|Hne]; [by rewrite H1 in Hk; simplify_eq|].
    rewrite Hrest in Hk by done. exfalso. destruct (List.find _ listed) as [old|] eqn:Ef.
    + apply in_find in Ef as [Ho%Hin E%String.eqb_eq]. case_decide as Hd; [done|].
      apply Hd. by eapply Huniq.
    + assert (k ∈ listed) as Hkl by (apply Hin; by rewrite (Hown _ _ Hk)).
      apply list_elem_of_In in Hkl. pose proof (find_none _ _ Ef k Hkl) as E. cbn in E.
      by rewrite Hn, String.eqb_refl in E.
  - intros u k Hk Hn. rewrite Hrest by (intros ->; congruence).
    destruct (List.find _ listed) as [old|] eqn:Ef; [|done].
    apply in_find in Ef as [Ho%Hin E%String.eqb_eq]. case_decide as Hd; [|done]. subst u. congruence.
Qed.
Definition sample_sha (_ : string) : list Z := [].
Definition sample_empty : VirtualKeyStore := with_store_path "f".
Lemma login_replaces_key_witness :
  match provision sample_sha sample_simple [] "ldap:u" "staff" 3%N 9%N 0 sample_empty with
  | Done (s', vk, p) => keys s' !! 9%N = Some vk ∧ enabled vk = true ∧ daily_budget_cents vk = None
  | Panic => False
  end.
Proof.
  destruct (provision _ _ _ _ _ _ _ _ _) as [[[s' vk] p]|] eqn:E; [|vm_compute in E; discriminate].
  destruct (login_replaces_key sample_sha sample_simple [] "ldap:u" "staff" 3 9 0 sample_empty s' vk p)
    as (_&H1&H2&H3&_); [reflexivity|apply map_Forall_empty|reflexivity| |exact E|by split_and!].
  intros u v k k' H. vm_compute in H. discriminate.
Defined.

(** A key that the administrator has disabled and given a budget: the next login of
    its user removes it, and the user has an enabled key without a budget. *)
Definition sample_disabled : VirtualKey :=
  mkKey 1 "" "ms-vk-0000000000" "ldap:u" (Some 100) (Some 1000) false 0 default_spend None ["m"] [] None None None None.
Definition sample_keys : VirtualKeyStore := set_keys {[1%N := sample_disabled]} sample_empty.

Example login_lifts_restrictions :
  match provision sample_sha sample_simple [sample_disabled] "ldap:u" "staff" 3 9 0 sample_keys with
  | Done (s', vk, _) =>
      keys s' !! 1%N = None ∧ keys s' !! 9%N = Some vk ∧ name vk = name sample_disabled ∧ enabled vk = true ∧
      daily_budget_cents vk = None ∧ denied_models vk = []
  | Panic => False
  end.
Proof. vm_compute. by split_and!. Qed.

(** *** Who is logged in *)

Section callback.
Context (sha256 : string → list Z) (simple : Uuid → string).
Context (parse_url : string → option Url) (hmac : string → string → string).
Context {RsaKey : Type} (decode_header : string → option Oidc.Header)
  (rsa : string → string → option RsaKey)
  (decode : string → RsaKey → string → string → string → option value).

(** Claims of the provider about the user: those of a token it has signed for this
    client, or those the user-info endpoint gives when there is no such token. *)
Definition vouched (c : Oidc.OidcConfig) (p : Oidc.Provider) (claims : value) : Prop :=
  (∃ t h status ks k n e key,
     decode_header t = Some h ∧ Oidc.p_keys p = Some (status, Some ks) ∧ k ∈ ks ∧ Oidc.modulus k = Some n ∧
     Oidc.exponent k = Some e ∧ rsa n e = Some key ∧
     decode t key (Oidc.h_alg h) (Oidc.client_id c) (Oidc.issuer c) = Some claims) ∨
  (∃ status, Oidc.p_userinfo p = Some (status, Some claims) ∧ Oidc.is_success status = true).

Lemma extract_vouched c tokens p sent info :
  Oidc.extract_user_info parse_url decode_header rsa decode c tokens p = (sent, inl info) →
  ∃ claims, info = Oidc.claims_to_user_info claims ∧ vouched c p claims.
Proof.
  unfold Oidc.extract_user_info. destruct (Oidc.id_token tokens) as [t|].
  - destruct (Oidc.verify_id_token _ _ _ _ _ _ _) as [l [cl|e]] eqn:E; [|done]. intros [= _ <-].
    apply verified_claims in E. exists cl. split; [done|]. left. by exists t.
  - destruct (Oidc.discover _ _ _) as [l [doc|e]]; [|done].
    destruct (Oidc.userinfo_endpoint doc) as [[|x url]|]; [done| |done]. intros [= _ H].
    destruct (Oidc.p_userinfo p) as [[status [cl|]]|] eqn:Ep; [|by destruct (negb _)|done].
    destruct (Oidc.is_success status) eqn:Es; [|done]. injection H as <-. exists cl. split; [done|].
    right. by exists status.
Qed.
End callback.

(** C26. A callback logs in only who the provider vouches for. It answers with a login
    only if the state token is good, the issuer is reached over https or on this
    machine, and the user is the one of claims that a key of the provider signed for
    this client or that the user-info endpoint answered; any other callback leaves
    the keys as they were. Whatever the outcome, the client's secret, the code and
    the access token are sent to no host but that of the issuer. *)
Theorem oidc_login_verified sha256 simple parse_url hmac {RsaKey : Type} decode_header rsa decode
    config secret q p secs listed drawn new_id now s :
  let '(sent, o) := oidc_callback sha256 simple parse_url hmac (RsaKey := RsaKey) decode_header rsa decode
                      config secret q p secs listed drawn new_id now s in
  Forall (λ x, ∃ c, config = Some c ∧ guarded_sent parse_url c x) sent ∧
  match o with
  | Panic => True
  | Done (s', Refused _ _) => s' = s
  | Done (_, LoggedIn r) =>
      ∃ c claims, config = Some c ∧ error q = None ∧
        Oidc.verify_state_token hmac secret (state q) secs = None ∧ Oidc.new parse_url c = None ∧
        vouched decode_header rsa decode c p claims ∧ l_username r = username (Oidc.claims_to_user_info claims)
  end.
Proof.
  unfold oidc_callback. destruct config as [c|]; [|by split].
  destruct (error q) eqn:Eq; [by split|].
  destruct (Oidc.verify_state_token _ _ _ _) eqn:Ev; [by split|].
  destruct (Oidc.new parse_url c) eqn:En; [by split|].
  assert (∀ l, Forall (guarded_sent parse_url c) l →
    Forall (λ x, ∃ c', Some c = Some c' ∧ guarded_sent parse_url c' x) l) as Hf.
  { intros l Hl. eapply Forall_impl; [exact Hl|]. intros x Hx. by exists c. }
  destruct (Oidc.exchange_code _ _ _ _) as [l [tokens|e]] eqn:Ex; apply exchange_sent in Ex; [|by split; [apply Hf|]].
  destruct (Oidc.extract_user_info _ _ _ _ _ _ _) as [l' [info|e]] eqn:Ei.
  - pose proof (extract_sent _ _ _ _ _ _ _ _ _ Ei). apply extract_vouched in Ei as (claims&->&Hv).
    split; [apply Hf, Forall_app; by split|].
    destruct (provision _ _ _ _ _ _ _ _ _) as [[[s' vk] pl]|]; [|done]. by exists c, claims.
  - apply extract_sent in Ei. split; [apply Hf, Forall_app; by split|done].
Qed.

End LoginProps.
