(* ===== verification/Console.v ===== *)
(** What the console asks for and only reads (of admin/channels/actions.rs,
    admin/system.rs, admin/features.rs, mcp/manager.rs and middleware/error.rs): the ping
    of a channel, its state, the summaries of the gateway and of its authentication, and
    the rounds over all tool servers. *)

From S2P Require Import Prelude Json Channel Trackers Router Access Login Mcp ModelFetch AdminSettings.

Module Views.
Import Json.

(** [ApiError::new]: the code next to the message. *)
Definition error_code (status : Z) : string :=
  match status with
  | 401 => "invalid_api_key"
  | 403 => "permission_denied"
  | 404 => "not_found"
  | 400 => "bad_request"
  | 429 => "rate_limit_exceeded"
  | 409 => "conflict"
  | 500 => "internal_error"
  | 503 => "service_unavailable"
  | _ => "unknown_error"
  end.
Definition api_error (status : Z) (message : string) : Z * value :=
  (status, obj [("error", obj [("message", Str message); ("code", Str (error_code status))])]).

(** *** A channel *)

(** The address, and the headers that go with it. *)
Definition ping_request (ch : Channel.Channel) (api_key : string) : string * list (string * string) :=
  let base := trim_end_slashes (Channel.base_url ch) in
  match Channel.provider ch with
  | Channel.Anthropic => (base +:+ "/v1/messages", [("x-api-key", api_key); ("anthropic-version", "2023-06-01")])
  | _ => (base +:+ "/v1/models", [("Authorization", "Bearer " +:+ api_key)])
  end.
(** [found] and [credential] are what the manager has; [ask] sends a GET and gives the
    status and the milliseconds it took, or why there was none. *)
Definition ping_channel (found : option Channel.Channel) (credential : option string)
    (ask : string → list (string * string) → (Z * Z) + string) : value + Z * value :=
  match found with
  | None => inr (api_error 404 "Channel not found")
  | Some ch =>
      match credential with
      | None => inr (api_error 500 "Failed to retrieve credential")
      | Some api_key =>
          let '(url, auth_headers) := ping_request ch api_key in
          inl match ask url auth_headers with
              | inl (status, latency) =>
                  obj [("success", Bool (ModelFetch.is_success status)); ("status", num status); ("latency_ms", num latency)]
              | inr e => obj [("success", Bool false); ("error", Str e)]
              end
      end
  end.

(** Identifiers, statuses and times as they are shown. *)
Section shown.
Context (show_uuid : Uuid → string) (show_status : Channel.ChannelStatus → string) (show_time : DateTime → string).
Definition time_or_null (t : option DateTime) : value := match t with Some t => Str (show_time t) | None => Null end.
Definition channel_status (found : option Channel.Channel) : value + Z * value :=
  match found with
  | None => inr (api_error 404 "Channel not found")
  | Some ch =>
      inl (obj [("id", Str (show_uuid (Channel.id ch))); ("name", Str (Channel.name ch)); ("status", Str (show_status (Channel.status ch)));
                ("enabled", Bool (Channel.enabled ch)); ("circuit_open_until", time_or_null (Channel.circuit_open_until ch))])
  end.
(** The clock of the tracker is read twice. *)
Definition get_channel_cooldown (u : Uuid) (found : option Channel.Channel) (tracker : Cooldown.CooldownTracker) (now now' : Instant)
    : value + Z * value :=
  match found with
  | None => inr (api_error 404 "Channel not found")
  | Some ch =>
      inl (obj [("channel_id", Str (show_uuid u)); ("channel_name", Str (Channel.name ch));
                ("in_cooldown", Bool (Cooldown.is_in_cooldown tracker u now));
                ("cooldown_remaining_secs", num (Cooldown.cooldown_remaining_secs tracker u now'));
                ("circuit_open_until", time_or_null (Channel.circuit_open_until ch));
                ("model_cooldowns", Object ((λ t, Str (show_time t)) <$> Channel.model_cooldowns ch))])
  end.
(** [strategy] is the one of the file as it is shown. *)
Definition gateway_info (version : string) (uptime_secs : Z) (channels : list Channel.Channel) (active_requests cache_entries : Z)
    (strategy : string) (max_retries : Z) : value :=
  let healthy := List.filter (λ c, Channel.enabled c && bool_decide (Channel.status c = Channel.Healthy)) channels in
  obj [("version", Str version); ("uptime_seconds", num uptime_secs); ("uptime_formatted", Str (LiveSettings.format_uptime uptime_secs));
       ("total_channels", num (Z.of_nat (length channels))); ("healthy_channels", num (Z.of_nat (length healthy)));
       ("active_requests", num active_requests); ("cache_entries", num cache_entries);
       ("routing_strategy", Str strategy); ("max_retries", num max_retries)].
End shown.

(** *** Authentication *)

Definition role_count (role : Rbac.Role) (roles : list (string * Rbac.Role)) : value :=
  num (Z.of_nat (length (List.filter (λ x, bool_decide (x.2 = role)) roles))).
Definition auth_status (s : Gate.Security) (ldap : option Ldap.LdapConfig) (oidc : option Oidc.OidcConfig) : value :=
  let roles := Gate.admin_roles s in
  obj [("admin_token_set", Bool (match Gate.admin_token s with Some _ => true | None => false end));
       ("rbac", obj [("enabled", Bool (match roles with [] => false | _ => true end));
                     ("super_admin_count", role_count Rbac.SuperAdmin roles);
                     ("key_manager_count", role_count Rbac.KeyManager roles);
                     ("auditor_count", role_count Rbac.Auditor roles)]);
       ("ldap", match ldap with
                | Some c => obj [("url", Str (Ldap.url c)); ("starttls", Bool (Ldap.starttls c)); ("default_group", Str (Ldap.default_group c))]
                | None => Null
                end);
       ("oidc", match oidc with
                | Some c => obj [("issuer", Str (Oidc.issuer c)); ("client_id", Str (Oidc.client_id c));
                                 ("redirect_uri", Str (Oidc.redirect_uri c)); ("scopes", Array (Str <$> Oidc.scopes c))]
                | None => Null
                end)].
End Views.

(** ** All tool servers (mcp/manager.rs) *)
Module Rounds.
Import Mcp Manager.

Record McpToolInfo := mkToolInfo { info_server : string; info_name : string; info_description : option string }.

Section rounds.
(** What the process behind a client answers when it is asked for its tools. *)
Context (answers : Client → list Tool + string).

Definition list_tools (id : string) (m : McpManager) : McpManager * (list Tool + string) :=
  match peer_of id m with
  | inr e => (m, inr e)
  | inl c =>
      match answers c with
      | inr e => (m, inr ("Failed to list tools from '" +:+ id +:+ "': " +:+ e))
      | inl tools => (set_tool_count id (Z.of_nat (length tools)) m, inl tools)
      end
  end.
Definition running (m : McpManager) (id : string) : bool :=
  match entries m !! id with Some e => match client e with Some _ => true | None => false end | None => false end.
Definition tool_info (id : string) (t : Tool) : McpToolInfo := mkToolInfo id (tool_name t) (tool_description t).
(** [order] enumerates the table. *)
Definition list_all_tools (order : list string) (m : McpManager) : McpManager * list McpToolInfo :=
  foldl (λ '(m, all), λ id,
    match list_tools id m with
    | (m, inl tools) => (m, all ++ map (tool_info id) tools)
    | (m, inr _) => (m, all)
    end) (m, []) (List.filter (running m) order).

Definition check_server_health (id : string) (now : DateTime) (m : McpManager) : McpManager :=
  let '(m, r) := list_tools id m in record_health id now (match r with inl _ => None | inr e => Some e end) m.
(** [now] gives the time of each check. *)
Definition check_all_health (order : list string) (now : string → DateTime) (m : McpManager) : McpManager * list McpServerHealth :=
  foldl (λ '(m, results), λ id,
    let m := check_server_health id (now id) m in
    (m, results ++ match health_status m !! id with Some h => [h] | None => [] end)) (m, []) order.
End rounds.
End Rounds.

Module ViewsProps.
Import Json Views.

(** A ping goes to the channel's own base address and nowhere else, with the channel's
    credential in the header of its provider, and only if there are both; it succeeds
    exactly if the answer has a status of success. *)
Theorem ping_own_address found credential ask ask' v :
  ping_channel found credential ask = inl v →
  ∃ ch key, found = Some ch ∧ credential = Some key ∧
    let '(url, hs) := ping_request ch key in
    starts_with url (trim_end_slashes (Channel.base_url ch)) = true ∧
    (hs = [("x-api-key", key); ("anthropic-version", "2023-06-01")] ∨ hs = [("Authorization", "Bearer " +:+ key)]) ∧
    (get v "success" = Some (Bool true) ↔ ∃ status latency, ask url hs = inl (status, latency) ∧ 200 ≤ status < 300) ∧
    (ask' url hs = ask url hs → ping_channel found credential ask' = inl v).
Proof.
  unfold ping_channel. destruct found as [ch|]; [|done]. destruct credential as [key|]; [|done]. intros E. exists ch, key.
  split_and!; [done|done|]. destruct (ping_request ch key) as [url hs] eqn:Ep. injection E as <-. split_and!.
  - unfold ping_request in Ep. apply starts_with_spec. destruct (Channel.provider ch); injection Ep as <- _; by eexists.
  - unfold ping_request in Ep. destruct (Channel.provider ch); injection Ep as _ <-; auto.
  - destruct (ask url hs) as [[status latency]|e]; cbn [get obj]; read_obj.
    + unfold ModelFetch.is_success. split.
      * intros [= H]. apply andb_true_iff in H as [H1%Z.leb_le H2%Z.ltb_lt]. eauto.
      * intros (st&lat&[= <- <-]&H1&H2). by rewrite (proj2 (Z.leb_le 200 status)), (proj2 (Z.ltb_lt status 300)) by done.
    + split; [done|]. by intros (?&?&?&_).
  - by intros ->.
Qed.

(** Two settings of the authentication that differ in nothing but the texts of their
    tokens, the template for names of LDAP and the client's secret look the same. *)
Theorem auth_status_hides s s' ldap ldap' oidc oidc' :
  is_Some (Gate.admin_token s) ↔ is_Some (Gate.admin_token s') →
  (Gate.admin_roles s).*2 = (Gate.admin_roles s').*2 →
  (λ c, (Ldap.url c, Ldap.starttls c, Ldap.default_group c)) <$> ldap =
    (λ c, (Ldap.url c, Ldap.starttls c, Ldap.default_group c)) <$> ldap' →
  (λ c, (Oidc.issuer c, Oidc.client_id c, Oidc.redirect_uri c, Oidc.scopes c)) <$> oidc =
    (λ c, (Oidc.issuer c, Oidc.client_id c, Oidc.redirect_uri c, Oidc.scopes c)) <$> oidc' →
  auth_status s ldap oidc = auth_status s' ldap' oidc'.
Proof.
  intros Ht Hr Hl Ho. unfold auth_status. set (l := Gate.admin_roles s) in *. set (l' := Gate.admin_roles s') in *.
  assert (∀ role, role_count role l = role_count role l') as Hc.
  { intros role. unfold role_count. do 2 f_equal. clearbody l l'. revert l' Hr.
    induction l as [|[t r] l IH]; intros [|[t' r'] l'] E; try done. cbn in E. injection E as -> E. cbn.
    destruct (bool_decide _); cbn; by rewrite (IH l' E). }
  assert (match l with [] => false | _ => true end = match l' with [] => false | _ => true end) as -> by by destruct l, l'.
  assert (match Gate.admin_token s with Some _ => true | None => false end =
          match Gate.admin_token s' with Some _ => true | None => false end) as ->.
  { destruct (Gate.admin_token s), (Gate.admin_token s'); try done;
      (exfalso; apply (is_Some_None (A := string)); apply Ht; eauto). }
  rewrite !Hc. f_equal. repeat f_equal.
  - destruct ldap, ldap'; try done. by injection Hl as -> -> ->.
  - destruct oidc, oidc'; try done. by injection Ho as -> -> -> ->.
Qed.
End ViewsProps.

Module RoundsProps.
Import Mcp Manager Rounds.

Section rounds.
Context (answers : Client → list Tool + string).

(** What a server answers, if it is running. *)
Definition tools_of (m : McpManager) (id : string) : option (list Tool) :=
  match peer_of id m with inl c => match answers c with inl l => Some l | inr _ => None end | inr _ => None end.
(** Listing tools changes counts of tools and nothing else. *)
Definition same_servers (m m' : McpManager) : Prop :=
  (∀ id, (λ e, (config e, client e, last_error e)) <$> entries m' !! id = (λ e, (config e, client e, last_error e)) <$> entries m !! id).
Lemma same_peer m m' id : same_servers m m' → peer_of id m' = peer_of id m.
Proof.
  intros Hs. specialize (Hs id). unfold peer_of. destruct (entries m !! id), (entries m' !! id); try done. cbn in Hs. by injection Hs as _ -> _.
Qed.
Lemma same_trans m m' m'' : same_servers m m' → same_servers m' m'' → same_servers m m''.
Proof. intros H1 H2 id. by rewrite (H2 id). Qed.
Lemma list_tools_spec id m :
  let '(m', r) := list_tools answers id m in
  same_servers m m' ∧ health_status m' = health_status m ∧
  match tools_of m id with Some l => r = inl l | None => ∃ e, r = inr e end.
Proof.
  unfold list_tools, tools_of. destruct (peer_of id m) as [c|e]; [|split_and!; [done|done|eauto]].
  destruct (answers c) as [l|e]; split_and!; try done; [|eauto]. intros i. unfold set_tool_count. cbn.
  destruct (decide (i = id)) as [->|Hne]; [|by rewrite lookup_alter_ne].
  rewrite lookup_alter_eq. by destruct (entries m !! id).
Qed.

(** The tools of all servers are those of each that runs and answers, in order, under
    its name; one that does not answer takes nothing from the others. *)
Theorem all_tools_listed order m :
  let '(m', tools) := list_all_tools answers order m in
  same_servers m m' ∧ health_status m' = health_status m ∧
  tools = flat_map (λ id, map (tool_info id) (default [] (tools_of m id))) order.
Proof.
  unfold list_all_tools.
  assert (flat_map (λ id, map (tool_info id) (default [] (tools_of m id))) order =
          flat_map (λ id, map (tool_info id) (default [] (tools_of m id))) (List.filter (running m) order)) as ->.
  { induction order as [|id order IH]; [done|]. cbn. rewrite IH. destruct (running m id) eqn:Er; [done|].
    assert (tools_of m id = None) as ->; [|done]. unfold tools_of, peer_of. unfold running in Er.
    destruct (entries m !! id) as [e|]; [|done]. by destruct (client e). }
  generalize (List.filter (running m) order). clear order. intros order.
  induction order as [|id order IH] using rev_ind; [done|]. rewrite foldl_app. cbn [foldl].
  destruct (foldl _ (m, []) order) as [m1 all]. destruct IH as (Hs&Hh&->).
  pose proof (list_tools_spec id m1) as H. destruct (list_tools answers id m1) as [m2 r]. destruct H as (Hs'&Hh'&Hr).
  assert (tools_of m1 id = tools_of m id) as E by (unfold tools_of; by rewrite (same_peer m m1 id Hs)). rewrite E in Hr.
  rewrite flat_map_app. cbn [flat_map]. rewrite app_nil_r.
  destruct (tools_of m id) as [l|]; [subst r|destruct Hr as [e ->]]; cbn [default from_option Datatypes.id map].
  - split_and!; [by eapply same_trans|by rewrite Hh'|done].
  - rewrite app_nil_r. split_and!; [by eapply same_trans|by rewrite Hh'|done].
Qed.

(** What a check at its time finds of a server, after the health that was known. *)
Definition finds (now : string → DateTime) (m : McpManager) (id : string) (h : McpServerHealth) : Prop :=
  health_name h = id ∧ last_check h = now id ∧ (healthy h = true ↔ is_Some (tools_of m id)) ∧
  consecutive_failures h =
    if healthy h then 0
    else add_u32 (match health_status m !! id with Some p => if healthy p then 0 else consecutive_failures p | None => 0 end) 1.
Lemma check_spec now m id :
  let m' := check_server_health answers id (now id) m in
  same_servers m m' ∧ (∀ i, i ≠ id → health_status m' !! i = health_status m !! i) ∧
  ∃ h, health_status m' !! id = Some h ∧ finds now m id h.
Proof.
  cbn zeta. unfold check_server_health. pose proof (list_tools_spec id m) as H. destruct (list_tools answers id m) as [m2 r].
  destruct H as (Hs&Hh&Hr). cbn [health_status record_health]. split_and!; [done| |].
  - intros i Hi. by rewrite lookup_insert_ne, Hh by done.
  - rewrite lookup_insert_eq. eexists. split; [done|]. unfold finds. rewrite Hh.
    destruct (tools_of m id) as [l|]; [subst r|destruct Hr as [e ->]]; cbn; split_and!; try done; eauto.
Qed.
Lemma finds_same now m m' id h : same_servers m m' → health_status m' !! id = health_status m !! id → finds now m' id h → finds now m id h.
Proof. intros Hs Hh. unfold finds, tools_of. by rewrite Hh, (same_peer m m' id Hs). Qed.

(** After a round over the servers the health that is shown is that of the round, in
    which every server is there once: healthy exactly if it runs and answers, and
    otherwise with one more failure in a row than before. *)
Theorem health_round order now m :
  NoDup order →
  let '(m', results) := check_all_health answers order now m in
  same_servers m m' ∧ get_health_status order m' = results ∧ Forall2 (finds now m) order results.
Proof.
  unfold check_all_health. intros Hnd. set (round := foldl _ (m, []) order).
  assert (let '(m', results) := round in same_servers m m' ∧ (∀ id, id ∉ order → health_status m' !! id = health_status m !! id) ∧
    Forall2 (λ id h, health_status m' !! id = Some h ∧ finds now m id h) order results) as H.
  { subst round. induction order as [|id order IH] using rev_ind; [done|]. rewrite foldl_app. cbn [foldl].
    apply NoDup_app in Hnd as (Hnd&Hni&_). specialize (IH Hnd). destruct (foldl _ (m, []) order) as [m1 results].
    destruct IH as (Hs&Ho&Hf). assert (id ∉ order) as Hid by (intros H; apply (Hni id H); by left). cbn zeta.
    destruct (check_spec now m1 id) as (Hs'&Ho'&h&Hh&Hc). rewrite Hh. split_and!; [by eapply same_trans| |].
    - intros i Hi. apply not_elem_of_app in Hi as [Hi Hne]. rewrite Ho' by set_solver. by apply Ho.
    - apply Forall2_app; [|constructor; [|constructor]; split; [done|]; by apply (finds_same now m m1); auto].
      apply Forall2_lookup. intros k. pose proof (proj1 (Forall2_lookup _ _ _) Hf k) as Hk.
      destruct (order !! k) as [i|] eqn:Ei; inversion Hk as [? g (H1&H2)|]; constructor. split; [|done].
      by rewrite Ho' by (intros ->; by apply Hid, (list_elem_of_lookup_2 _ k)). }
  destruct round as [m' results]. destruct H as (Hs&_&Hf). split_and!; [done| |].
  - clear Hnd Hs. unfold get_health_status. induction Hf as [|id h order results [H _] _ IH]; [done|]. cbn. by rewrite H, IH.
  - eapply Forall2_impl; [exact Hf|]. by intros ? ? (_&H).
Qed.
End rounds.
End RoundsProps.

Module ConsoleSample.
Import Json Views ViewsProps Mcp Manager Rounds RoundsProps.

(** The diagnosis and the ping of a channel ask different addresses for its models. *)
Definition channel : Channel.Channel := Channel.from_config (λ _, Some 7%N) 7%N 0 (Channel.sample_config "k" "a" 1 100).
Example addresses_disagree :
  (ping_request channel "sk").1 = "https://api.openai.com/v1/models" ∧
  Diagnostics.available_models (Diagnostics.run_channel_diagnostics
    (λ url _, if String.eqb url "https://api.openai.com/v1/models"
              then Some (200, Some (obj [("data", Array [obj [("id", Str "gpt-4")]])])) else Some (404, None))
    7%N (Some channel) 5 0) = [].
Proof. split; reflexivity. Qed.
Lemma ping_own_address_witness :
  ∃ v, ping_channel (Some channel) (Some "sk") (λ _ _, inl (204, 5)) = inl v ∧ get v "success" = Some (Bool true).
Proof.
  eexists. split; [reflexivity|].
  destruct (ping_own_address (Some channel) (Some "sk") (λ _ _, inl (204, 5)) (λ _ _, inr "") _ eq_refl) as (ch&key&_&_&H).
  destruct (ping_request ch key) as [url hs]. destruct H as (_&_&H&_). apply H. exists 204, 5. split; [reflexivity|lia].
Defined.
Lemma auth_status_hides_witness :
  auth_status (Gate.mkSecurity (Some "secret") [("a", Rbac.Auditor)] false) None None =
  auth_status (Gate.mkSecurity (Some "other") [("b", Rbac.Auditor)] true) None None.
Proof. apply auth_status_hides; [split; eauto|reflexivity|reflexivity|reflexivity]. Defined.

Definition answers (c : Client) : list Tool + string := if (c =? 1)%N then inl [mkRmcpTool "read" None ∅] else inr "gone".
Definition server (id : string) (c : option Client) : string * McpServerEntry :=
  (id, mkEntry (mkServerConfig id id "npx" [] ∅ None true true) c None None).
Definition manager : McpManager :=
  mkManager (list_to_map [server "fs" (Some 1%N); server "db" (Some 2%N); server "off" None])
    {["db" := mkHealth "db" false 3 (Some "gone") 4]}.
Example tools : (list_all_tools answers ["off"; "db"; "fs"] manager).2 = [mkToolInfo "fs" "read" None].
Proof. vm_compute. reflexivity. Qed.
Lemma health_round_witness :
  let '(m, results) := check_all_health answers ["off"; "db"; "fs"] (λ _, 9) manager in
  get_health_status ["off"; "db"; "fs"] m = results ∧
  map (λ h, (healthy h, consecutive_failures h)) results = [(false, 1); (false, 5); (true, 0)].
Proof.
  assert (map (λ h, (healthy h, consecutive_failures h)) (check_all_health answers ["off"; "db"; "fs"] (λ _, 9) manager).2 =
    [(false, 1); (false, 5); (true, 0)]) as E by (vm_compute; reflexivity).
  pose proof (health_round answers ["off"; "db"; "fs"] (λ _, 9) manager ltac:(repeat constructor; set_solver)) as H.
  destruct (check_all_health _ _ _ _) as [m results]. destruct H as (_&H&_). split; [exact H|exact E].
Defined.
End ConsoleSample.
