(* ===== verification/Server.v ===== *)
(** The assembled server (server/routes.rs, server.rs, server/tls.rs and the
    small middlewares): which handler a request reaches and through which layers,
    when the gateway starts, binds and stops serving, and when it takes up a renewed
    certificate. *)

From S2P Require Import Prelude Channel VirtualKey RateLimiter RedisRateLimit Access Provider Sanitizer.

(** ** The routers of axum *)
Module Axum.

(** The calls of its builder that the source makes. *)
Inductive Router (Handler Layer : Type) :=
  | New
  | Route (r : Router Handler Layer) (path : string) (ms : list (string * Handler))
  | Merge (r1 r2 : Router Handler Layer)
  | WithLayer (r : Router Handler Layer) (l : Layer)
  | NestService (r : Router Handler Layer) (path : string) (h : Handler)
  | FallbackService (r : Router Handler Layer) (h : Handler).
Arguments New {_ _}.
Arguments Route {_ _}.
Arguments Merge {_ _}.
Arguments WithLayer {_ _}.
Arguments NestService {_ _}.
Arguments FallbackService {_ _}.

(** *** What its documentation says of them *)

Inductive Segment := Static (text : string) | Param (name : string) | Rest (name : string).
Definition segment (s : string) : Segment :=
  match s with
  | String "{" (String "*" name) => Rest name
  | String "{" name => Param name
  | _ => Static s
  end.
Definition segments (path : string) : list string := split_on "/" path.
Definition pattern (path : string) : list Segment := segment <$> segments path.

(** A parameter stands for a segment that is not empty, a rest for what is left of the
    path if there is anything. *)
Fixpoint matches (p : list Segment) (path : list string) : bool :=
  match p, path with
  | [], [] => true
  | Static t :: p, s :: path => String.eqb t s && matches p path
  | Param _ :: p, s :: path => negb (String.eqb s "") && matches p path
  | [Rest _], s :: path => negb (String.eqb s "" && bool_decide (path = []))
  | _, _ => false
  end.

Section router.
Context {Handler Layer : Type} (not_found method_not_allowed : Handler).

(** A method ("*" for any) of a path, its handler, and the layers around it, the
    outermost first. A layer goes around what has been registered before it. *)
Record Endpoint := mkEndpoint { at_path : string; method : string; handler : Handler; layers : list Layer }.
Definition wrap (l : Layer) (e : Endpoint) : Endpoint := mkEndpoint (at_path e) (method e) (handler e) (l :: layers e).
Fixpoint registered (r : Router Handler Layer) : list Endpoint :=
  match r with
  | New => []
  | Route r path ms => registered r ++ ((λ m, mkEndpoint path m.1 m.2 []) <$> ms)
  | Merge r1 r2 => registered r1 ++ registered r2
  | WithLayer r l => wrap l <$> registered r
  | NestService r path h =>
      registered r ++ ((λ p, mkEndpoint p "*" h []) <$> [path; path +:+ "/"; path +:+ "/{*rest}"])
  | FallbackService r _ => registered r
  end.
(** What may answer a request for a path that is not registered: merging leaves open
    which of two default answers is kept. *)
Fixpoint fallbacks (r : Router Handler Layer) : list (Handler * list Layer) :=
  match r with
  | New => [(not_found, [])]
  | Route r _ _ | NestService r _ _ => fallbacks r
  | Merge r1 r2 => fallbacks r1 ++ fallbacks r2
  | WithLayer r l => (λ f, (f.1, l :: f.2)) <$> fallbacks r
  | FallbackService _ h => [(h, [])]
  end.
Definition answers (e : Endpoint) (verb : string) : Prop :=
  method e = verb ∨ verb = "HEAD" ∧ method e = "GET" ∨ method e = "*".

(** A request is answered by an endpoint of a path that matches and for its method, or,
    inside the same layers, by a refusal of the method, or by a fallback. *)
Definition dispatch_laws (dispatch : Router Handler Layer → string → string → Handler * list Layer) : Prop :=
  ∀ r verb path, let '(h, ls) := dispatch r verb path in
    (∃ e, e ∈ registered r ∧ matches (pattern (at_path e)) (segments path) = true ∧ ls = layers e ∧
       (handler e = h ∧ answers e verb ∨ h = method_not_allowed)) ∨
    (h, ls) ∈ fallbacks r.
End router.
Arguments Endpoint : clear implicits.
End Axum.

(** ** The routes (server/routes.rs) *)
Module Routes.
Import Axum.

(** The functions of the module admin that are mounted, those of proxy, of
    admin::portal and of admin::auth that are not the administrator's. *)
Inductive AdminHandler :=
  | list_channels | create_channel | update_channel | delete_channel | ping_channel | channel_status
  | batch_enable_channels | batch_disable_channels | batch_delete_channels | batch_update_tags | get_logs
  | get_stats | get_cost_stats | get_usage_history | get_quota | receive_login_cookies | get_pending_cookies
  | reset_circuit | get_payload_rules | set_payload_rules | flush_cache | cache_stats | update_cache_mode
  | reload_config | list_mcp_servers | create_mcp_server | update_mcp_server | delete_mcp_server
  | start_mcp_server | stop_mcp_server | list_mcp_server_tools | list_all_mcp_tools | list_virtual_keys
  | create_virtual_key | batch_create_virtual_keys | update_virtual_key | delete_virtual_key
  | list_virtual_key_groups | list_provider_budgets | set_provider_budget | delete_provider_budget
  | gateway_info | model_routing_info | update_routing_strategy | get_audit_log | get_guardrails_config
  | update_guardrails_config | list_redemption_codes | create_redemption_code | redeem_code
  | delete_redemption_code | get_notification_config | update_notification_config | test_channel
  | test_all_channels | channel_diagnostics | get_channel_cooldown | get_mcp_health | get_completion_ratios
  | update_completion_ratios | get_model_registry | get_usage_report | get_usage_report_csv
  | get_sanitizer_config | update_sanitizer_config | auth_me | auth_status.
Inductive ProxyHandler :=
  | handle_chat_completions | handle_responses | handle_embeddings | handle_image_generation | handle_image_edits
  | handle_list_models | handle_get_model | handle_list_tools | handle_messages | handle_gemini | health_check.
Inductive PortalHandler := portal_usage | portal_logs | portal_test.
Inductive LoginHandler := ldap_login | oidc_login | oidc_callback.
Inductive Handler :=
  | Admin (h : AdminHandler) | metrics_handler
  | Proxy (h : ProxyHandler)
  | Portal (h : PortalHandler)
  | Login (h : LoginHandler)
  | ready_handler | healthz_handler
  | McpGateway
  | api_json_not_found | ServeDir
  | NotFound | MethodNotAllowed.

#[global] Instance AdminHandler_eq_dec : EqDecision AdminHandler.
Proof. solve_decision. Defined.
#[global] Instance ProxyHandler_eq_dec : EqDecision ProxyHandler.
Proof. solve_decision. Defined.
#[global] Instance PortalHandler_eq_dec : EqDecision PortalHandler.
Proof. solve_decision. Defined.
#[global] Instance LoginHandler_eq_dec : EqDecision LoginHandler.
Proof. solve_decision. Defined.
#[global] Instance Handler_eq_dec : EqDecision Handler.
Proof. solve_decision. Defined.

Inductive Layer :=
  | virtual_key_middleware | sanitizer_middleware
  | rbac_middleware | admin_auth_middleware
  | auth_rate_limit_middleware
  | request_id_middleware | security_headers_middleware
  | CompressionLayer | CorsLayer | TraceLayer | DefaultBodyLimit.

#[global] Instance Layer_eq_dec : EqDecision Layer.
Proof. solve_decision. Defined.

Definition table : list (string * list (string * AdminHandler)) :=
  [("/channels", [("GET", list_channels)]);
   ("/channels", [("POST", create_channel)]);
   ("/channels/{id}", [("PUT", update_channel)]);
   ("/channels/{id}", [("DELETE", delete_channel)]);
   ("/channels/{id}/ping", [("POST", ping_channel)]);
   ("/channels/{id}/status", [("GET", channel_status)]);
   ("/channels/batch/enable", [("POST", batch_enable_channels)]);
   ("/channels/batch/disable", [("POST", batch_disable_channels)]);
   ("/channels/batch/delete", [("POST", batch_delete_channels)]);
   ("/channels/batch/tags", [("PUT", batch_update_tags)]);
   ("/logs", [("GET", get_logs)]);
   ("/stats", [("GET", get_stats)]);
   ("/stats/cost", [("GET", get_cost_stats)]);
   ("/stats/usage", [("GET", get_usage_history)]);
   ("/quota", [("GET", get_quota)]);
   ("/auth/cookies", [("POST", receive_login_cookies)]);
   ("/auth/pending-cookies", [("GET", get_pending_cookies)]);
   ("/channels/{id}/reset-circuit", [("POST", reset_circuit)]);
   ("/channels/{id}/payload-rules", [("GET", get_payload_rules); ("PUT", set_payload_rules)]);
   ("/cache/flush", [("POST", flush_cache)]);
   ("/cache/stats", [("GET", cache_stats)]);
   ("/cache/mode", [("PUT", update_cache_mode)]);
   ("/config/reload", [("POST", reload_config)]);
   ("/mcp/servers", [("GET", list_mcp_servers)]);
   ("/mcp/servers", [("POST", create_mcp_server)]);
   ("/mcp/servers/{id}", [("PUT", update_mcp_server)]);
   ("/mcp/servers/{id}", [("DELETE", delete_mcp_server)]);
   ("/mcp/servers/{id}/start", [("POST", start_mcp_server)]);
   ("/mcp/servers/{id}/stop", [("POST", stop_mcp_server)]);
   ("/mcp/servers/{id}/tools", [("GET", list_mcp_server_tools)]);
   ("/mcp/tools", [("GET", list_all_mcp_tools)]);
   ("/virtual-keys", [("GET", list_virtual_keys)]);
   ("/virtual-keys", [("POST", create_virtual_key)]);
   ("/virtual-keys/batch", [("POST", batch_create_virtual_keys)]);
   ("/virtual-keys/{id}", [("PUT", update_virtual_key)]);
   ("/virtual-keys/{id}", [("DELETE", delete_virtual_key)]);
   ("/virtual-keys/groups", [("GET", list_virtual_key_groups)]);
   ("/provider-budgets", [("GET", list_provider_budgets)]);
   ("/provider-budgets/{provider}", [("PUT", set_provider_budget)]);
   ("/provider-budgets/{provider}", [("DELETE", delete_provider_budget)]);
   ("/gateway/info", [("GET", gateway_info)]);
   ("/gateway/model-routing", [("GET", model_routing_info)]);
   ("/gateway/routing-strategy", [("PUT", update_routing_strategy)]);
   ("/audit-log", [("GET", get_audit_log)]);
   ("/guardrails", [("GET", get_guardrails_config)]);
   ("/guardrails", [("PUT", update_guardrails_config)]);
   ("/redemption-codes", [("GET", list_redemption_codes)]);
   ("/redemption-codes", [("POST", create_redemption_code)]);
   ("/redemption-codes/redeem", [("POST", redeem_code)]);
   ("/redemption-codes/{code}", [("DELETE", delete_redemption_code)]);
   ("/notifications", [("GET", get_notification_config)]);
   ("/notifications", [("PUT", update_notification_config)]);
   ("/channels/{id}/test", [("POST", test_channel)]);
   ("/channels/test-all", [("POST", test_all_channels)]);
   ("/channels/{id}/diagnostics", [("POST", channel_diagnostics)]);
   ("/channels/{id}/cooldown", [("GET", get_channel_cooldown)]);
   ("/mcp/health", [("GET", get_mcp_health)]);
   ("/completion-ratios", [("GET", get_completion_ratios)]);
   ("/completion-ratios", [("PUT", update_completion_ratios)]);
   ("/model-registry", [("GET", get_model_registry)]);
   ("/reports/usage", [("GET", get_usage_report)]);
   ("/reports/usage/csv", [("GET", get_usage_report_csv)]);
   ("/sanitizer", [("GET", get_sanitizer_config)]);
   ("/sanitizer", [("PUT", update_sanitizer_config)]);
   ("/auth/me", [("GET", auth_me)]);
   ("/auth/status", [("GET", auth_status)])].
Definition admin_routes (prefix : string) : Router Handler Layer :=
  foldl (λ r '(path, ms), Route r (prefix +:+ path) (prod_map id Admin <$> ms)) New table.

Definition portal_routes : Router Handler Layer :=
  let r := Route New "/api/portal/usage" [("GET", Portal portal_usage)] in
  let r := Route r "/api/portal/logs" [("GET", Portal portal_logs)] in
  Route r "/api/portal/test" [("GET", Portal portal_test)].

Definition auth_routes : Router Handler Layer :=
  let r := Route New "/api/auth/ldap/login" [("POST", Login ldap_login)] in
  let r := Route r "/api/auth/oidc/login" [("GET", Login oidc_login)] in
  let r := Route r "/api/auth/oidc/callback" [("GET", Login oidc_callback)] in
  WithLayer r auth_rate_limit_middleware.

Definition proxy_table : list (string * string * ProxyHandler) :=
  [("POST", "/v1/chat/completions", handle_chat_completions);
   ("POST", "/v1/responses", handle_responses);
   ("POST", "/v1/embeddings", handle_embeddings);
   ("POST", "/v1/images/generations", handle_image_generation);
   ("POST", "/v1/images/edits", handle_image_edits);
   ("GET", "/v1/models", handle_list_models);
   ("GET", "/v1/models/{model_id}", handle_get_model);
   ("GET", "/v1/tools", handle_list_tools);
   ("POST", "/v1/messages", handle_messages);
   ("POST", "/v1beta/models/{*path}", handle_gemini);
   ("GET", "/health", health_check);
   ("POST", "/api/provider/{provider}/v1/chat/completions", handle_chat_completions);
   ("POST", "/api/provider/{provider}/v1/embeddings", handle_embeddings);
   ("POST", "/api/provider/{provider}/v1/messages", handle_messages);
   ("GET", "/api/provider/{provider}/v1/models", handle_list_models);
   ("GET", "/api/provider/{provider}/v1/models/{model_id}", handle_get_model)].
Definition proxy_router : Router Handler Layer :=
  let r := foldl (λ r '(m, path, h), Route r path [(m, Proxy h)]) New proxy_table in
  WithLayer (WithLayer r virtual_key_middleware) sanitizer_middleware.
Definition admin_router : Router Handler Layer :=
  let r := Merge (admin_routes "/api") (admin_routes "/v1/api") in
  let r := Route (Route r "/metrics" [("GET", metrics_handler)]) "/v1/metrics" [("GET", metrics_handler)] in
  WithLayer (WithLayer r rbac_middleware) admin_auth_middleware.

Definition build_router (mcp_gateway_enabled web_console : bool) : Router Handler Layer :=
  let ready_router := Route New "/ready" [("GET", ready_handler)] in
  let r := Merge (Merge (Merge (Merge New proxy_router) admin_router) portal_routes) auth_routes in
  let r := Route (Merge r ready_router) "/healthz" [("GET", healthz_handler)] in
  let r := if mcp_gateway_enabled then NestService r "/mcp" McpGateway else r in
  let r := foldl WithLayer r [request_id_middleware; security_headers_middleware; CompressionLayer; CorsLayer; TraceLayer;
                              DefaultBodyLimit] in
  if web_console then
    let r := Route r "/api/{*rest}" [("*", api_json_not_found)] in
    FallbackService (Route r "/v1/api/{*rest}" [("*", api_json_not_found)]) ServeDir
  else r.
End Routes.

(** ** A request through the layers *)
Module Serve.
Import Axum Routes.

Record Request := mkRequest {
  verb : string;
  uri_path : string;
  sent : Gate.Request;
  payload : option string;             (** the body; [None] if it cannot be read *)
}.

(** What the layers leave in the request for the handler. *)
Record Context := mkContext {
  role : option Rbac.Role;
  key : option Uuid;
  contents : option string;            (** the body that the handler reads *)
  request_id : option string;
}.
Definition no_context (req : Request) : Context := mkContext None None (payload req) None.

(** Status 0 stands for no response: the task has panicked and the connection is closed. *)
Record Response := mkResponse {
  status : Z;
  ran : option (Handler * Context);
  headers : gmap string string;
}.
Definition refusal (status : Z) : Response := mkResponse status None ∅.
Definition with_headers (hs : gmap string string) (r : Response) : Response :=
  mkResponse (status r) (ran r) (hs ∪ headers r).

(** What the middlewares keep between requests. *)
Record World := mkWorld {
  attempts : gmap string Lockout.AuthAttemptInfo;
  limiter : KeyRateLimiter.KeyRateLimiter;
  db : Redis.Db;
}.
Definition with_attempts a (w : World) : World := mkWorld a (limiter w) (db w).

(** middleware/security_headers.rs *)
Definition security_headers : gmap string string := list_to_map
  [("X-Content-Type-Options", "nosniff");
   ("X-Frame-Options", "DENY");
   ("Referrer-Policy", "strict-origin-when-cross-origin");
   ("Strict-Transport-Security", "max-age=31536000; includeSubDomains");
   ("Content-Security-Policy",
    "default-src 'self'; script-src 'self'; style-src 'self' 'unsafe-inline'; connect-src 'self'; img-src 'self' data:; font-src 'self'; frame-ancestors 'none'; base-uri 'self'; object-src 'none'");
   ("Permissions-Policy", "camera=(), microphone=(), geolocation=(), payment=()")].
Definition REQUEST_ID_HEADER : string := "x-request-id".

Section serve.
Context (dispatch : Router Handler Layer → string → string → Handler * list Layer).
Context (sha256 : string → list Z) (show_uuid : Uuid → string) (link : string → bool).
Context (sec : Gate.Security) (compile : string → option Sanitizer.Regex) (guardrail : Sanitizer.SanitizerConfig)
  (store : VirtualKey.VirtualKeyStore) (d : VirtualKey.LocalDate) (date : DateTime).
(** The arrival of the request and the answer of its handler, a fresh identifier, the
    requests that the CORS layer answers itself, and the statuses of the handlers. *)
Context (now later : Instant) (fresh : string) (preflight : Request → bool) (answer : Handler → Context → Z).

(** middleware/request_id.rs *)
Definition request_id_of (req : Request) : string :=
  match Gate.header (sent req) REQUEST_ID_HEADER with Some id => id | None => fresh end.

Fixpoint through (req : Request) (h : Handler) (ls : list Layer) (w : World) (c : Context) : World * Response :=
  match ls with
  | [] =>
      (w, mkResponse match h with NotFound => 404 | MethodNotAllowed => 405 | _ => answer h c end (Some (h, c)) ∅)
  | admin_auth_middleware :: ls =>
      let '(a, v) := Gate.admin_auth_middleware sec (attempts w) (sent req) now in
      match v with
      | Gate.Next r => through req h ls (with_attempts a w) (mkContext r (key c) (contents c) (request_id c))
      | Gate.TooManyRequests => (with_attempts a w, refusal 429)
      | Gate.Unauthorized => (with_attempts a w, refusal 401)
      end
  | rbac_middleware :: ls =>
      if Rbac.rbac_middleware (role c) (verb req) (uri_path req) then through req h ls w c else (w, refusal 403)
  | virtual_key_middleware :: ls =>
      let '(l, db, v) := Gate.virtual_key_middleware sha256 show_uuid link store (limiter w) (db w)
                           (Gate.trust_forwarded_headers sec) (sent req) d date now in
      match v with
      | Gate.Forward u => through req h ls (mkWorld (attempts w) l db) (mkContext (role c) u (contents c) (request_id c))
      | Gate.Reject s => (mkWorld (attempts w) l db, refusal s)
      end
  | auth_rate_limit_middleware :: ls =>
      if Lockout.is_rate_limited (attempts w) (Gate.extract_client_ip (sent req) (Gate.trust_forwarded_headers sec)) now
      then (w, refusal 429)
      else
        let '(w, r) := through req h ls w c in
        (with_attempts (Gate.auth_rate_limit_middleware sec (attempts w) (sent req) (status r) now later).1 w, r)
  | sanitizer_middleware :: ls =>
      match Sanitizer.sanitized_body compile guardrail (contents c) with
      | Done body => through req h ls w (mkContext (role c) (key c) body (request_id c))
      | Panic => (w, refusal 0)
      end
  | request_id_middleware :: ls =>
      let id := request_id_of req in
      let '(w, r) := through req h ls w (mkContext (role c) (key c) (contents c) (Some id)) in
      (w, with_headers {[REQUEST_ID_HEADER := id]} r)
  | security_headers_middleware :: ls =>
      let '(w, r) := through req h ls w c in (w, with_headers security_headers r)
  | CorsLayer :: ls => if preflight req then (w, refusal 200) else through req h ls w c
  | CompressionLayer :: ls | TraceLayer :: ls | DefaultBodyLimit :: ls => through req h ls w c
  end.

Definition serve (r : Router Handler Layer) (w : World) (req : Request) : World * Response :=
  let '(h, ls) := dispatch r (verb req) (uri_path req) in through req h ls w (no_context req).
End serve.
End Serve.

Module ServeFacts.
Import Axum Routes Serve.

(** *** The layers of every endpoint *)

(** Around all routes that the gateway has before the console is added. *)
Definition global : list Layer :=
  [DefaultBodyLimit; TraceLayer; CorsLayer; CompressionLayer; security_headers_middleware; request_id_middleware].
Definition inner (h : Handler) : list Layer :=
  match h with
  | Admin _ | metrics_handler => [admin_auth_middleware; rbac_middleware]
  | Proxy _ => [sanitizer_middleware; virtual_key_middleware]
  | Login _ => [auth_rate_limit_middleware]
  | _ => []
  end.
Definition all_layers (h : Handler) : list Layer :=
  match h with api_json_not_found | ServeDir => [] | _ => global ++ inner h end.

Lemma routes_layered mcp console :
  Forall (λ e, layers e = all_layers (handler e)) (registered (build_router mcp console)).
Proof. refine (bool_decide_eq_true_1 _ _). by destruct mcp, console; vm_compute. Qed.
Lemma fallback_layered (mcp console : bool) :
  Forall (λ f : Handler * list Layer, f.1 = if console then ServeDir else NotFound) (fallbacks NotFound (build_router mcp console)).
Proof. refine (bool_decide_eq_true_1 _ _). by destruct mcp, console; vm_compute. Qed.

Section serve.
Context (dispatch : Router Handler Layer → string → string → Handler * list Layer).
Context (Hsel : dispatch_laws NotFound MethodNotAllowed dispatch).
Context (sha256 : string → list Z) (show_uuid : Uuid → string) (link : string → bool).
Context (sec : Gate.Security) (compile : string → option Sanitizer.Regex) (guardrail : Sanitizer.SanitizerConfig)
  (store : VirtualKey.VirtualKeyStore) (d : VirtualKey.LocalDate) (date : DateTime).
Context (now later : Instant) (fresh : string) (preflight : Request → bool) (answer : Handler → Context → Z).
Abbreviation through := (through sha256 show_uuid link sec compile guardrail store d date now later fresh preflight answer).
Abbreviation serve := (serve dispatch sha256 show_uuid link sec compile guardrail store d date now later fresh preflight answer).

(** An endpoint of the handler that the request matches. *)
Definition found (r : Router Handler Layer) (req : Request) (h : Handler) : Prop :=
  ∃ e, e ∈ registered r ∧ matches (pattern (at_path e)) (segments (uri_path req)) = true ∧ handler e = h ∧ answers e (verb req).

Lemma through_runs req h ls w c w' r h' c' :
  through req h ls w c = (w', r) → ran r = Some (h', c') → h' = h.
Proof.
  revert w c w' r. induction ls as [|l ls IH]; intros w c w' r; cbn.
  - intros. by simplify_eq/=.
  - destruct l; repeat case_match; intros; simplify_eq/=; try done; by eapply IH.
Qed.

Lemma serve_through mcp console w req w' r :
  serve (build_router mcp console) w req = (w', r) →
  (∃ h, found (build_router mcp console) req h ∧ through req h (all_layers h) w (no_context req) = (w', r)) ∨
  ∃ h ls, (h = MethodNotAllowed ∨ h = if console then ServeDir else NotFound) ∧ through req h ls w (no_context req) = (w', r).
Proof.
  unfold Serve.serve. pose proof (Hsel (build_router mcp console) (verb req) (uri_path req)) as H.
  destruct (dispatch _ _ _) as [h ls]. intros E. destruct H as [(e&Hin&Hm&->&[[<- Ha]| ->])|H].
  - left. exists (handler e). split; [by exists e|]. pose proof (routes_layered mcp console) as Hl.
    rewrite Forall_forall in Hl. by rewrite <- (Hl e Hin).
  - right. by exists MethodNotAllowed, (layers e); auto.
  - right. exists h, ls. split; [|done]. right. pose proof (fallback_layered mcp console) as Hl.
    rewrite Forall_forall in Hl. apply (Hl _ H).
Qed.

(** The context of a request that has come through the outer layers. *)
Definition outer_context (req : Request) : Context :=
  mkContext None None (payload req) (Some (request_id_of fresh req)).
Lemma through_global req h ls w :
  through req h (global ++ ls) w (no_context req) =
    if preflight req then (w, refusal 200) else
    let '(w', r) := through req h ls w (outer_context req) in
    (w', with_headers security_headers (with_headers {[REQUEST_ID_HEADER := request_id_of fresh req]} r)).
Proof.
  cbn [global app Serve.through]. destruct (preflight req); [done|]. cbn [key role contents no_context].
  by destruct (through _ _ _ _ _).
Qed.

(** The identifier is given once. *)
Lemma through_keeps_id req h ls w c w' r h' c' :
  request_id_middleware ∉ ls → through req h ls w c = (w', r) → ran r = Some (h', c') → request_id c' = request_id c.
Proof.
  revert w c w' r. induction ls as [|l ls IH]; intros w c w' r Hl; cbn; [intros; by simplify_eq/=|].
  apply not_elem_of_cons in Hl as [Hne Hl].
  destruct l; try done; repeat case_match; intros; simplify_eq/=; try done;
    match goal with H : through _ _ _ _ _ = _ |- _ => by apply (IH _ _ _ _ Hl H) end.
Qed.
Definition wrapped (ls : list Layer) : bool :=
  bool_decide (take 6 ls = global ∧ request_id_middleware ∉ drop 6 ls).
Lemma routes_wrapped mcp :
  Forall (λ e, wrapped (layers e) = true) (registered (build_router mcp false)) ∧
  Forall (λ f : Handler * list Layer, wrapped f.2 = true) (fallbacks NotFound (build_router mcp false)).
Proof. refine (bool_decide_eq_true_1 _ _). by destruct mcp; vm_compute. Qed.
Lemma wrapped_global ls : wrapped ls = true → ∃ ls', ls = global ++ ls' ∧ request_id_middleware ∉ ls'.
Proof.
  intros [H1 H2]%bool_decide_eq_true. exists (drop 6 ls). split; [|done]. by rewrite <- H1, take_drop.
Qed.
Lemma serve_layers mcp w req :
  ∃ h ls, (request_id_middleware ∉ ls) ∧
    (serve (build_router mcp false) w req = through req h (global ++ ls) w (no_context req)).
Proof.
  unfold Serve.serve. pose proof (Hsel (build_router mcp false) (verb req) (uri_path req)) as H.
  destruct (dispatch _ _ _) as [h ls]. exists h. assert (wrapped ls = true) as (ls'&->&Hn)%wrapped_global; [|by exists ls'].
  destruct (routes_wrapped mcp) as [H1 H2]. rewrite Forall_forall in H1. rewrite Forall_forall in H2.
  destruct H as [(e&Hin&_&->&_)|H]; [by apply H1|apply (H2 _ H)].
Qed.

(** What the inner layers have established when the handler runs. *)
Definition admitted (req : Request) (h : Handler) (w : World) (c : Context) : Prop :=
  match h with
  | Admin _ | metrics_handler =>
      (Gate.admin_token sec = None ∧ Gate.admin_roles sec = [] ∧ role c = None) ∨
      ∃ sent_token granted, Gate.header (sent req) "Authorization" = Some sent_token ∧
        Gate.role_of sec sent_token = Some granted ∧ role c = Some granted ∧
        Rbac.is_permitted (verb req) (uri_path req) granted = true ∧
        Lockout.is_rate_limited (attempts w) (Gate.extract_client_ip (sent req) (Gate.trust_forwarded_headers sec)) now = false
  | Proxy _ =>
      Sanitizer.sanitized_body compile guardrail (payload req) = Done (contents c) ∧
      ∃ l db', Gate.virtual_key_middleware sha256 show_uuid link store (limiter w) (db w)
        (Gate.trust_forwarded_headers sec) (sent req) d date now = (l, db', Gate.Forward (key c))
  | Login _ =>
      Lockout.is_rate_limited (attempts w) (Gate.extract_client_ip (sent req) (Gate.trust_forwarded_headers sec)) now = false
  | _ => True
  end.

Lemma through_inner req h w w' r h' c :
  through req h (inner h) w (outer_context req) = (w', r) → ran r = Some (h', c) →
  h' = h ∧ request_id c = Some (request_id_of fresh req) ∧ admitted req h w c.
Proof.
  intros E Hr. pose proof (through_runs _ _ _ _ _ _ _ _ _ E Hr) as ->. split; [done|]. revert E Hr.
  destruct h; cbn [inner Serve.through admitted]; try (intros; by simplify_eq/=).
  1,2: unfold Gate.admin_auth_middleware; repeat case_match; intros; simplify_eq/=; split; try done;
    repeat match goal with H : (_, _) = (_, _) |- _ => injection H as ? ?; subst end.
  all: try (by left; match goal with H : _ && _ = true |- _ => apply andb_true_iff in H as [?%bool_decide_eq_true ?%bool_decide_eq_true] end).
  all: try (right; by eauto 10).
  - repeat case_match; intros; simplify_eq/=. split; [done|]. by eauto 10.
  - destruct (Lockout.is_rate_limited _ _ _) eqn:El; intros; by simplify_eq/=.
Qed.

(** A handler that runs was admitted by the layers of its kind. *)
Lemma serve_admitted mcp console w req w' r h c :
  serve (build_router mcp console) w req = (w', r) → ran r = Some (h, c) →
  admitted req h w c ∧ (found (build_router mcp console) req h ∨ h = MethodNotAllowed ∨ h = if console then ServeDir else NotFound).
Proof.
  intros E Hr. apply serve_through in E as [(h0&Hf&E)|(h0&ls&Hh&E)];
    pose proof (through_runs _ _ _ _ _ _ _ _ _ E Hr) as <-.
  - split; [|by left].
    destruct h; try done; cbn [all_layers] in E; rewrite through_global in E; destruct (preflight req); try (by simplify_eq/=);
      destruct (through _ _ _ _ _) as [w1 r1] eqn:E1; injection E as <- <-; by eapply (through_inner _ _ _ _ _ _ _ E1).
  - split; [|by right]. by destruct Hh as [->| ->]; [|destruct console].
Qed.
End serve.
End ServeFacts.

Module ServerProps.
Import Axum Routes Serve ServeFacts.

Section serve.
Context (dispatch : Router Handler Layer → string → string → Handler * list Layer).
Context (Hsel : dispatch_laws NotFound MethodNotAllowed dispatch).
Context (sha256 : string → list Z) (show_uuid : Uuid → string) (link : string → bool).
Context (sec : Gate.Security) (compile : string → option Sanitizer.Regex) (guardrail : Sanitizer.SanitizerConfig)
  (store : VirtualKey.VirtualKeyStore) (d : VirtualKey.LocalDate) (date : DateTime).
Context (now later : Instant) (fresh : string) (preflight : Request → bool) (answer : Handler → Context → Z).
Abbreviation serve := (serve dispatch sha256 show_uuid link sec compile guardrail store d date now later fresh preflight answer).


(** *** What a role reaches *)





(** *** What is open *)

Definition unguarded (mcp console : bool) : list Handler :=
  [Portal portal_usage; Portal portal_logs; Portal portal_test; Login ldap_login; Login oidc_login; Login oidc_callback;
   ready_handler; healthz_handler; NotFound; MethodNotAllowed] ++
  (if mcp then [McpGateway] else []) ++ (if console then [api_json_not_found; ServeDir] else []).
Definition guarded (h : Handler) : bool :=
  match h with Admin _ | metrics_handler | Proxy _ => true | _ => false end.
Lemma routes_unguarded mcp console :
  Forall (λ e, guarded (handler e) = true ∨ handler e ∈ unguarded mcp console) (registered (build_router mcp console)).
Proof. refine (bool_decide_eq_true_1 _ _). by destruct mcp, console; vm_compute. Qed.

(** With tokens and virtual keys configured, a request without credentials runs nothing
    but the portal, which asks for a key itself, the log-in, the probes, the answers to
    unknown paths, the console's pages, and, when it is enabled, the MCP gateway. *)
Theorem open_handlers mcp console w req w' r h c :
  Gate.admin_token sec ≠ None ∨ Gate.admin_roles sec ≠ [] → VirtualKey.keys store ≠ ∅ →
  Gate.header (sent req) "Authorization" = None →
  serve (build_router mcp console) w req = (w', r) → ran r = Some (h, c) → h ∈ unguarded mcp console.
Proof.
  intros Hs Hk Hn E Hr. destruct (serve_admitted _ Hsel _ _ _ _ _ _ _ _ _ _ _ _ _ _ _ _ _ _ _ _ _ _ E Hr) as [H Hf].
  assert (guarded h = false) as Hg.
  { destruct h; try done; exfalso; cbn in H.
    - destruct H as [(?&?&_)|(t&g&?&_)]; [naive_solver|congruence].
    - destruct H as [(?&?&_)|(t&g&?&_)]; [naive_solver|congruence].
    - destruct H as (_&l&db'&Hv). apply GateProps.gate_identity in Hv as [Hnone Hsome].
      destruct (key c) as [u|]; [|by apply Hk, Hnone].
      destruct (Hsome u eq_refl) as (token&vk&?&_). congruence. }
  destruct Hf as [(e&Hin&_&<-&_)|Hf].
  - pose proof (routes_unguarded mcp console) as Ha. rewrite Forall_forall in Ha. destruct (Ha _ Hin); [congruence|done].
  - destruct Hf as [->| ->]; refine (bool_decide_eq_true_1 _ _); by destruct mcp, console.
Qed.

(** Every response of a gateway without console that the CORS layer did not give itself,
    refusals and unknown paths included, has the six security headers and the
    identifier of its request, the client's own if it sent one, and the handler was
    told the same identifier. *)
Theorem responses_hardened mcp w req w' r :
  preflight req = false → serve (build_router mcp false) w req = (w', r) →
  security_headers ⊆ headers r ∧ headers r !! REQUEST_ID_HEADER = Some (request_id_of fresh req) ∧
  ∀ h c, ran r = Some (h, c) → request_id c = Some (request_id_of fresh req).
Proof.
  intros Hp E. destruct (serve_layers dispatch Hsel sha256 show_uuid link sec compile guardrail store d date now later fresh preflight answer mcp w req)
    as (h&ls&Hls&Hs).
  rewrite Hs, through_global, Hp in E. destruct (Serve.through _ _ _ _ _ _ _ _ _ _ _ _ _ _ _ _ _ _ _) as [w1 r1] eqn:E1 in E. injection E as <- <-.
  cbn [headers with_headers ran]. split_and!.
  - apply map_union_subseteq_l.
  - rewrite lookup_union_r by (vm_compute; reflexivity). apply lookup_union_Some_l, lookup_singleton_eq.
  - intros h' c Hr. by eapply (through_keeps_id _ _ _ _ _ _ _ _ _ _ _ _ _ _ _ _ _ _ _ _ _ _ _ Hls E1) in Hr.
Qed.
End serve.

(** *** The table of routes *)

(** The paths differ in where they have parameters, not in what they call them. *)
Fixpoint same_names (p q : list Segment) : bool :=
  match p, q with
  | Static a :: p, Static b :: q => negb (String.eqb a b) || same_names p q
  | Param a :: p, Param b :: q => String.eqb a b && same_names p q
  | _, _ => true
  end.
Definition entries (r : Router Handler Layer) : list (string * string) := (λ e, (method e, at_path e)) <$> registered r.

(** The router can be built: no method of a path is registered twice and no two paths
    name one parameter differently, which axum answers with a panic; and under
    [/v1/api] there are the administrator's handlers of [/api], at the same paths. *)
Theorem router_builds mcp console :
  NoDup (entries (build_router mcp console)) ∧
  (∀ e1 e2, e1 ∈ registered (build_router mcp console) → e2 ∈ registered (build_router mcp console) →
     same_names (pattern (at_path e1)) (pattern (at_path e2)) = true) ∧
  registered (admin_routes "/v1/api") =
    (λ e, mkEndpoint ("/v1" +:+ at_path e) (method e) (handler e) (layers e)) <$> registered (admin_routes "/api").
Proof.
  split_and!.
  - refine (bool_decide_eq_true_1 _ _). by destruct mcp, console; vm_compute.
  - assert ((let ps := pattern <$> (at_path <$> registered (build_router mcp console)) in
      forallb (λ p, forallb (λ q, same_names p q) ps) ps) = true) as H by (by destruct mcp, console; vm_compute).
    cbv zeta in H. rewrite forallb_forall in H. intros e1 e2 H1 H2.
    specialize (H (pattern (at_path e1)) ltac:(by apply list_elem_of_In, list_elem_of_fmap_2, list_elem_of_fmap_2)).
    rewrite forallb_forall in H. by apply H, list_elem_of_In, list_elem_of_fmap_2, list_elem_of_fmap_2.
  - vm_compute. reflexivity.
Qed.
End ServerProps.

(** ** A matcher, at which the laws hold *)
Module ServerSample.
Import Axum Routes Serve ServeFacts ServerProps.

(** At the first segment where they differ a text goes before a parameter and that
    before a rest. *)
Fixpoint before (p q : list Segment) : bool :=
  match p, q with
  | Static _ :: p, Static _ :: q | Param _ :: p, Param _ :: q => before p q
  | Static _ :: _, _ :: _ | Param _ :: _, Rest _ :: _ => true
  | _, _ => false
  end.
Definition better (p : string) (q : option string) : option string :=
  match q with Some q => if before (pattern q) (pattern p) then Some q else Some p | None => Some p end.
Definition best (path : string) (ps : list string) : option string :=
  foldr better None (List.filter (λ p, matches (pattern p) (segments path)) ps).
Lemma best_in path ps p : best path ps = Some p → p ∈ ps ∧ matches (pattern p) (segments path) = true.
Proof.
  unfold best. induction ps as [|q ps IH]; [done|]. cbn. destruct (matches (pattern q) _) eqn:E; cbn.
  - unfold better. destruct (foldr _ _ _) as [x|]; [destruct (before _ _)|]; intros [= <-];
      [destruct (IH eq_refl); split; [by right|done]| |]; (split; [by left|done]).
  - intros H. destruct (IH H). split; [by right|done].
Qed.
(** The endpoint of a method; a request for the head is one for the contents. *)
Definition find_method (m : string) (es : list (Endpoint Handler Layer)) : option (Endpoint Handler Layer) :=
  List.find (λ e, String.eqb (method e) m || String.eqb m "HEAD" && String.eqb (method e) "GET" || String.eqb (method e) "*") es.
Definition dispatch (r : Router Handler Layer) (verb path : string) : Handler * list Layer :=
  let chosen := best path (at_path <$> registered r) in
  let es := List.filter (λ e, bool_decide (chosen = Some (at_path e))) (registered r) in
  match find_method verb es, es with
  | Some e, _ => (handler e, layers e)
  | None, e :: _ => (MethodNotAllowed, layers e)
  | None, [] => match fallbacks NotFound r with f :: _ => f | [] => (NotFound, []) end
  end.
Lemma fallbacks_some r : fallbacks (Layer:=Layer) NotFound r ≠ [].
Proof.
  induction r as [|r IH|r1 IH1 r2 _|r IH|r IH|r _]; try done; cbn.
  - by destruct (fallbacks _ r1).
  - by destruct (fallbacks _ r).
Qed.
Lemma dispatch_ok : dispatch_laws NotFound MethodNotAllowed dispatch.
Proof.
  intros r verb path. unfold dispatch.
  set (es := List.filter _ _). assert (∀ e, e ∈ es → e ∈ registered r ∧ matches (pattern (at_path e)) (segments path) = true) as Hes.
  { intros e He. apply list_elem_of_In, filter_In in He as [He Hb%bool_decide_eq_true]. apply best_in in Hb as [_ Hb].
    split; [by apply list_elem_of_In|done]. }
  destruct (find_method verb es) as [e|] eqn:Ef.
  - apply find_some in Ef as [He Hm]. apply list_elem_of_In, Hes in He as [He Hp]. left. exists e.
    split_and!; [done..|]. left. split; [done|]. unfold answers.
    apply orb_true_iff in Hm as [[Hm|[H1 H2]%andb_true_iff]%orb_true_iff|Hm]; rewrite ?String.eqb_eq in *; auto.
  - destruct es as [|e l] eqn:Ees.
    + destruct (fallbacks NotFound r) as [|f fs] eqn:Er; [by apply fallbacks_some in Er|]. destruct f. right. by left.
    + left. exists e. destruct (Hes e ltac:(by left)). split_and!; [done..|]. by right.
Qed.

Definition secured : Gate.Security := Gate.mkSecurity (Some "secret") [("ops", Rbac.Auditor); ("keys", Rbac.KeyManager)] false.
Definition a_request (verb path : string) (token : option string) : Request :=
  mkRequest verb path (Gate.mkRequest (Some "10.0.0.9")
    (λ n, if String.eqb n "Authorization" then (λ t, "Bearer " +:+ t) <$> token else None)) (Some "{}").
Definition world : World := mkWorld ∅ KeyRateLimiter.new ∅.
Abbreviation ask mcp console req :=
  (serve dispatch StoreProps.sample_sha256 (λ _, "") (λ _, true) secured SanitizerProps.sample_compile SanitizerProps.sample_config GateProps.sample_created.1 GateProps.sample_day 5
    0 1 "fresh" (λ r, String.eqb (verb r) "OPTIONS") (λ _ _, 200) (build_router mcp console) world req).
Definition reached (x : World * Response) : Z * option Handler := (status x.2, fst <$> ran x.2).

Example routes_found :
  reached (ask false false (a_request "POST" "/api/channels/batch/enable" (Some "secret"))) =
    (200, Some (Admin batch_enable_channels)) ∧
  reached (ask false false (a_request "POST" "/v1/api/channels/test-all" (Some "secret"))) =
    (200, Some (Admin test_all_channels)) ∧
  reached (ask false false (a_request "PUT" "/api/channels/7" (Some "secret"))) = (200, Some (Admin update_channel)) ∧
  reached (ask false false (a_request "PUT" "/api/channels/7" (Some "ops"))) = (403, None) ∧
  reached (ask false false (a_request "GET" "/metrics" None)) = (401, None) ∧
  reached (ask false false (a_request "POST" "/v1/chat/completions" None)) = (401, None) ∧
  reached (ask false false (a_request "DELETE" "/api/logs" (Some "secret"))) = (405, Some MethodNotAllowed) ∧
  reached (ask false true (a_request "GET" "/api/nothing" None)) = (200, Some api_json_not_found).
Proof. vm_compute. split_and!; reflexivity. Qed.

(** What the proxy reads depends on the guardrail's switch. *)
Definition seen (guardrail : Sanitizer.SanitizerConfig) : option (option string) :=
  let req := mkRequest "POST" "/v1/chat/completions"
    (Gate.mkRequest (Some "10.0.0.9")
      (λ n, if String.eqb n "Authorization" then Some ("Bearer " +:+ GateProps.sample_created.2) else None)) (Some "key #1") in
  contents ∘ snd <$> ran (serve dispatch StoreProps.sample_sha256 (λ _, "") (λ _, true) secured SanitizerProps.sample_compile
    guardrail GateProps.sample_created.1 GateProps.sample_day 5 0 1 "fresh" (λ _, false) (λ _ _, 200)
    (build_router false false) world req).2.
Example guardrail_decides :
  seen SanitizerProps.sample_config = Some (Some "key 1") ∧
  seen (Sanitizer.mkConfig false true true []) = Some (Some "key #1") ∧
  seen (Sanitizer.mkConfig true false true []) = Some (Some "key #1").
Proof. vm_compute. split_and!; reflexivity. Qed.

(** The MCP gateway lists and calls the tools of all servers for everybody. *)
Example mcp_gateway_open :
  reached (ask true false (a_request "POST" "/mcp" None)) = (200, Some McpGateway).
Proof. vm_compute. reflexivity. Qed.

(** To fetch the cookies of a log-in, which also removes them, is a read. *)
Example auditor_takes_cookies :
  reached (ask false false (a_request "GET" "/api/auth/pending-cookies" (Some "ops"))) = (200, Some (Admin get_pending_cookies)).
Proof. vm_compute. reflexivity. Qed.

(** The pages of the console come without the security headers. *)
Example console_unhardened :
  let r := (ask false true (a_request "GET" "/" None)).2 in
  fst <$> ran r = Some ServeDir ∧ headers r = ∅.
Proof. vm_compute. split; reflexivity. Qed.

Lemma ran_with {A} (x : World * Response) w r h (f : Context → A) a :
  x = (w, r) → (λ y, (y.1, f y.2)) <$> ran x.2 = Some (h, a) → ∃ c, ran r = Some (h, c) ∧ f c = a.
Proof. intros ->. cbn. destruct (ran r) as [[h' c]|]; [|done]. intros [= -> <-]. by exists c. Qed.

Lemma open_handlers_witness :
  let '(_, r) := ask true false (a_request "POST" "/mcp" None) in
  fst <$> ran r = Some McpGateway ∧ McpGateway ∈ unguarded true false.
Proof.
  destruct (ask true false (a_request "POST" "/mcp" None)) as [w r] eqn:E.
  destruct (ran_with _ _ _ McpGateway (λ _, 0) 0 E) as [c [Hc _]]; [vm_compute; reflexivity|].
  split; [rewrite Hc; reflexivity|].
  eapply (open_handlers dispatch dispatch_ok); [| | |exact E|exact Hc].
  - left. discriminate.
  - vm_compute. discriminate.
  - reflexivity.
Defined.
Lemma responses_hardened_witness :
  let '(_, r) := ask false false (a_request "GET" "/nowhere" None) in
  status r = 404 ∧ security_headers ⊆ headers r.
Proof.
  destruct (ask false false (a_request "GET" "/nowhere" None)) as [w r] eqn:E.
  split; [change r with ((w, r).2); rewrite <- E; vm_compute; reflexivity|].
  eapply (responses_hardened dispatch dispatch_ok); [|exact E]. reflexivity.
Defined.
End ServerSample.
