(* ===== verification/Lifecycle.v ===== *)
(** The life of the server (server.rs, server/tls.rs): the conditions to start, binding
    with retries, how long it serves, what it does when it stops, and the renewal of the
    certificate while it runs. *)

From S2P Require Import Prelude Channel ChannelManager.

(** ** Starting and stopping (server.rs) *)
Module Lifecycle.

Definition is_loopback (host : string) : bool :=
  String.eqb host "127.0.0.1" || String.eqb host "localhost" || String.eqb host "::1".

Definition MAX_BIND_RETRIES : nat := 10.
Definition RETRY_DELAY : Z := 500.

(** What the caller is told of the binding, if it has asked. *)
Inductive Notified := Bound | Failed (message : string).

(** [for attempt in 1..=MAX_BIND_RETRIES], of which [remaining] are still to come:
    whether there is a listener, the attempts made, and the milliseconds slept. *)
Fixpoint bind_loop (bind : nat → option string) (attempt remaining : nat) (last_err : string) (slept : Z)
    : (bool * nat * Z) * string :=
  match remaining with
  | O => (false, pred attempt, slept, last_err)
  | S remaining =>
      match bind attempt with
      | None => (true, attempt, slept, last_err)
      | Some e =>
          bind_loop bind (S attempt) remaining e (if (attempt <? MAX_BIND_RETRIES)%nat then slept + RETRY_DELAY else slept)
      end
  end.
Definition bind_with_retry (addr : string) (bind : nat → option string) : bool * nat * Z * Notified :=
  let '((bound, attempts, slept), last_err) := bind_loop bind 1 MAX_BIND_RETRIES "" 0 in
  (bound, attempts, slept,
   if bound then Bound else Failed ("Failed to bind gateway on " +:+ addr +:+ ": " +:+ last_err)).

(** What happens to a server from when it listens: the time at which a shutdown is
    requested, if one is, and the time at which the requests then in flight are done.
    All times are in milliseconds. *)
Record Run := mkRun {
  listening : Z;
  requested : option Z;
  drained : Z;
}.

(** [tokio::time::timeout] around the whole server: it ends when the server does, at
    the latest when the time is over. *)
Definition timeout (started duration : Z) (ends : option Z) : Z * bool :=
  match ends with
  | Some t => if t <=? started + duration then (t, true) else (started + duration, false)
  | None => (started + duration, false)
  end.
(** The plain server ends when a shutdown is requested and the requests are done; the
    accept loop of the TLS server ends at the request, and leaves the connections. *)
Definition server_ends (tls : bool) (r : Run) : option Z :=
  match requested r with
  | Some t => Some (if tls then t else Z.max t (drained r))
  | None => None
  end.
Definition serve_until (tls : bool) (drain_timeout_secs : Z) (r : Run) : Z * bool :=
  timeout (listening r) (drain_timeout_secs * 1000) (server_ends tls r).

Inductive Step :=
  | WritePid
  | Told (n : Notified)
  | Served (from until : Z) (graceful : bool)
  | PersistQuota
  | PersistBudgets
  | StopMcp
  | RemovePid
  | Panicked.

(** [tls] is the configuration with what building its acceptor comes to. *)
Definition start_gateway (admin_token : option string) (host : string) (web_console : bool) (tls : option (outcome unit))
    (drain_timeout_secs : Z) (port : string) (bind : nat → option string) (r : Run) : list Step :=
  let addr := host +:+ ":" +:+ port in
  if bool_decide (admin_token = None) && web_console && negb (is_loopback host) then
    [Told (Failed ("Refusing to start: web console mode without admin_token on non-loopback address (" +:+ addr +:+
                   "). Set [security] admin_token in config.toml or bind to 127.0.0.1."))]
  else
    let '(bound, _, _, n) := bind_with_retry addr bind in
    let stop := [PersistQuota; PersistBudgets; StopMcp; RemovePid] in
    if bound then
      [WritePid; Told n] ++
      match tls with
      | Some Panic => [Panicked]
      | _ =>
          let '(until, graceful) := serve_until (bool_decide (tls ≠ None)) drain_timeout_secs r in
          Served (listening r) until graceful :: stop
      end
    else [WritePid; Told n].

(** [ready_handler]: the status, and the numbers of channels and of available ones. *)
Definition ready_handler (now : DateTime) (channels : list Channel.Channel) : Z * Z * Z :=
  if bool_decide (channels = []) then (200, 0, 0)
  else
    let total := Z.of_nat (length channels) in
    let healthy := Z.of_nat (length (List.filter (λ c, Channel.is_available c now) channels)) in
    if healthy =? 0 then (503, total, 0) else (200, total, healthy).

(** [build_cors_layer]: whether an origin is allowed. [header_value] parses one, and a
    release build without origins configured allows the local console alone. *)
Definition cors_allows (debug_assertions : bool) (header_value : string → bool) (allowed_origins : option (list string))
    (origin : string) : bool :=
  match allowed_origins with
  | Some (o :: origins) => bool_decide (origin ∈ List.filter header_value (o :: origins))
  | _ => debug_assertions || bool_decide (origin ∈ ["http://127.0.0.1:8080"; "http://localhost:8080"])
  end.
End Lifecycle.

(** ** The certificate (server/tls.rs) *)
Module Tls.

Record TlsReloadState := mkState {
  cert_path : string;
  key_path : string;
  last_modified : option Z;
}.
Definition new (cert_path key_path : string) : TlsReloadState := mkState cert_path key_path None.

(** The times of modification of the two files, [None] for one that is not there. *)
Definition check_cert_freshness (cert_mtime key_mtime : option Z) (state : TlsReloadState) : TlsReloadState * bool :=
  let latest := match cert_mtime, key_mtime with
                | Some c, Some k => Some (Z.max c k)
                | Some c, None => Some c
                | None, Some k => Some k
                | None, None => None
                end in
  let changed := match last_modified state, latest with
                 | Some prev, Some curr => prev <? curr
                 | _, _ => false
                 end in
  (mkState (cert_path state) (key_path state) latest, changed).

Section resolver.
Context {CertifiedKey : Type}.

(** A poll finds the files with these times, and reads this pair from them, or none that
    fits together. *)
Record Poll := mkPoll { cert_mtime : option Z; key_mtime : option Z; pair : option CertifiedKey }.

Definition from_files (load_certified_key : option CertifiedKey) : option (option CertifiedKey) := Some <$> load_certified_key.
Definition reload (load_certified_key certified_key : option CertifiedKey) : option CertifiedKey :=
  match load_certified_key with Some k => Some k | None => certified_key end.

Definition poll (s : TlsReloadState * option CertifiedKey) (p : Poll) : TlsReloadState * option CertifiedKey :=
  let '(state, changed) := check_cert_freshness (cert_mtime p) (key_mtime p) s.1 in
  (state, if changed then reload (pair p) s.2 else s.2).
(** The watcher: a first look, then one every 30 seconds. *)
Definition start_tls_reload_watcher (state : TlsReloadState) (certified_key : option CertifiedKey) (first : Poll)
    (polls : list Poll) : TlsReloadState * option CertifiedKey :=
  foldl poll ((check_cert_freshness (cert_mtime first) (key_mtime first) state).1, certified_key) polls.
End resolver.
Arguments Poll : clear implicits.

(** [validate_tls_path]: [canonicalize] is the path without links, if there is such a
    file, and [extension] its last part. Anything else stops the start. *)
Definition validate_tls_path (canonicalize : string → option string) (extension : string → option string)
    (path kind : string) : outcome string :=
  let allowed_extensions :=
    if String.eqb kind "cert" then ["pem"; "crt"] else if String.eqb kind "key" then ["pem"; "key"] else ["pem"] in
  if String.eqb (trim path) "" then Panic
  else
    match canonicalize path with
    | None => Panic
    | Some canonical => if bool_decide (default "" (extension canonical) ∈ allowed_extensions) then Done canonical else Panic
    end.
End Tls.

Module LifecycleProps.
Import Lifecycle.

(** *** Binding *)

Lemma bind_loop_spec bind remaining : ∀ attempt last slept,
  (1 ≤ attempt)%nat → (attempt + remaining = 11)%nat → slept = RETRY_DELAY * Z.of_nat (Nat.min attempt 10 - 1) →
  let '((bound, attempts, slept'), _) := bind_loop bind attempt remaining last slept in
  (attempts ≤ 10)%nat ∧ slept' = RETRY_DELAY * Z.of_nat (attempts - 1) ∧
  (if bound then (attempt ≤ attempts)%nat ∧ bind attempts = None ∧ (∀ i, (attempt ≤ i < attempts)%nat → bind i ≠ None)
   else attempts = 10%nat ∧ ∀ i, (attempt ≤ i ≤ 10)%nat → bind i ≠ None).
Proof.
  unfold RETRY_DELAY. induction remaining as [|n IH]; intros attempt last slept H1 H2 H3; cbn [bind_loop].
  - split_and!; [lia| |lia|intros; lia]. subst slept. f_equal. lia.
  - destruct (bind attempt) as [e|] eqn:Eb.
    + specialize (IH (S attempt) e (if (attempt <? MAX_BIND_RETRIES)%nat then slept + 500 else slept) ltac:(lia) ltac:(lia)).
      unfold MAX_BIND_RETRIES, RETRY_DELAY in *.
      assert ((if (attempt <? 10)%nat then slept + 500 else slept) = 500 * Z.of_nat (Nat.min (S attempt) 10 - 1)) as Hs
        by (destruct (Nat.ltb_spec attempt 10); lia).
      specialize (IH Hs). destruct (bind_loop _ _ _ _ _) as [[[bound attempts] slept'] err].
      destruct IH as (H4&H5&H6). split_and!; [done|done|].
      assert (∀ i, i = attempt → bind i ≠ None) as Ha by (intros i ->; congruence).
      destruct bound; destruct H6 as [H6 H7].
      * destruct H7 as [H7 H8]. split_and!; [lia|done|]. intros i Hi. destruct (decide (i = attempt)); [by apply Ha|apply H8; lia].
      * split; [done|]. intros i Hi. destruct (decide (i = attempt)); [by apply Ha|apply H7; lia].
    + split_and!; [lia| |lia|done|intros; lia]. rewrite H3. f_equal. lia.
Qed.

(** The gateway binds at the first of ten attempts that succeeds, half a second apart,
    and so after at most four and a half seconds; its caller is told once, of success
    exactly when there is a listener. *)
Theorem binding_bounded addr bind :
  let '(bound, attempts, slept, n) := bind_with_retry addr bind in
  (1 ≤ attempts ≤ 10)%nat ∧ slept = 500 * Z.of_nat (attempts - 1) ∧ (n = Bound ↔ bound = true) ∧
  (bound = true ↔ ∃ i, (1 ≤ i ≤ 10)%nat ∧ bind i = None) ∧
  (bound = true → bind attempts = None ∧ ∀ i, (1 ≤ i < attempts)%nat → bind i ≠ None).
Proof.
  pose proof (bind_loop_spec bind 10 1 "" 0 ltac:(lia) ltac:(lia) ltac:(done)) as H. unfold bind_with_retry, MAX_BIND_RETRIES.
  destruct (bind_loop bind 1 10 "" 0) as [[[bound attempts] slept] err]. destruct H as (H1&H2&H3). destruct bound.
  - destruct H3 as (H3&H4&H5). split_and!; [lia|lia|done|done| |].
    + split; [|done]. intros _. exists attempts. split; [lia|done].
    + intros _. split; [done|]. intros i Hi. apply H5. lia.
  - destruct H3 as (->&H3). split_and!; [lia|lia|done|done| |done]. split; [done|].
    intros (i&Hi&Hb). by destruct (H3 i Hi).
Qed.

(** *** Serving *)

Lemma bound_told addr bind : let '(bound, _, _, n) := bind_with_retry addr bind in bound = true → n = Bound.
Proof. unfold bind_with_retry. destruct (bind_loop _ _ _ _ _) as [[[bound attempts] slept] err]. by intros ->. Qed.
Lemma not_served steps : forallb (λ s, match s with Served _ _ _ => false | _ => true end) steps = true →
  ¬ ∃ from until graceful, Served from until graceful ∈ steps.
Proof.
  rewrite forallb_forall. intros H (f&u&g&Hs). specialize (H (Served f u g) ltac:(by apply list_elem_of_In)). done.
Qed.

Definition served (steps : list Step) : Prop := ∃ from until graceful, Served from until graceful ∈ steps.

(** A console is never served without a token to anyone but the machine itself, and a
    gateway that has served has saved its quotas and budgets, stopped the MCP servers
    and removed its process file, in this order, and nothing after. *)
Theorem console_never_open token host console tls drain port bind r :
  let steps := start_gateway token host console tls drain port bind r in
  served steps →
  (console = true → token ≠ None ∨ is_loopback host = true) ∧
  ∃ from until graceful, steps = [WritePid; Told Bound; Served from until graceful; PersistQuota; PersistBudgets; StopMcp; RemovePid].
Proof.
  cbn zeta. unfold start_gateway, served. destruct (bool_decide (token = None) && console && negb (is_loopback host)) eqn:Er.
  { intros H. by apply not_served in H. }
  pose proof (bound_told (host +:+ ":" +:+ port) bind) as Hn.
  destruct (bind_with_retry _ _) as [[[bound attempts] slept] n].
  destruct bound; [|intros H; by apply not_served in H].
  intros H. split.
  - intros ->. destruct token; [by left|right]. by destruct (is_loopback host).
  - rewrite Hn by done. destruct (serve_until _ _ _) as [until graceful] eqn:Eu.
    destruct tls as [[[]|]|]; cbn; eauto. by apply not_served in H.
Qed.

(** The time to drain is the time to live: from when it listens the gateway serves for
    at most [drain_timeout_secs], and for exactly that long if nobody asks it to stop.
    (The limit is put around the server and not around its shutdown.) *)
Theorem uptime_bounded token host console tls drain port bind r from until graceful :
  0 ≤ drain →
  Served from until graceful ∈ start_gateway token host console tls drain port bind r →
  from = listening r ∧ until ≤ from + drain * 1000 ∧
  (requested r = None → until = from + drain * 1000 ∧ graceful = false).
Proof.
  intros Hd. unfold start_gateway. destruct (_ && _ && _).
  { intros H. exfalso. eapply not_served; [|by do 3 eexists]. done. }
  destruct (bind_with_retry _ _) as [[[bound attempts] slept] n].
  destruct bound; [|intros H; exfalso; eapply (not_served [WritePid; Told n]); [done|by do 3 eexists]].
  assert (∀ b, let '(u, g) := serve_until b drain r in u ≤ listening r + drain * 1000 ∧
    (requested r = None → u = listening r + drain * 1000 ∧ g = false)) as Hs.
  { intros b. unfold serve_until, timeout, server_ends. destruct (requested r) as [t|]; [|split; [lia|done]].
    destruct (Z.leb_spec (if b then t else Z.max t (drained r)) (listening r + drain * 1000)); (split; [lia|done]). }
  assert (∀ b, Served from until graceful ∈ [WritePid; Told n] ++
      (let '(u, g) := serve_until b drain r in [Served (listening r) u g; PersistQuota; PersistBudgets; StopMcp; RemovePid]) →
    from = listening r ∧ until ≤ from + drain * 1000 ∧
    (requested r = None → until = from + drain * 1000 ∧ graceful = false)) as Ha.
  { intros b. specialize (Hs b). destruct (serve_until b drain r) as [u g]. cbn. rewrite !elem_of_cons, elem_of_nil.
    intros H. repeat (destruct H as [H|H]; [try done|]); [injection H as -> -> ->; naive_solver|done]. }
  destruct tls as [[[]|]|]; [apply (Ha true)| |apply (Ha false)].
  intros H. exfalso. eapply (not_served ([WritePid; Told n] ++ [Panicked])); [done|by do 3 eexists].
Qed.

Definition sample_run : Run := mkRun 1000 (Some 5000) 7000.
Definition third (attempt : nat) : option string := if (attempt <? 3)%nat then Some "in use" else None.
Lemma console_never_open_witness :
  let steps := start_gateway (Some "t") "0.0.0.0" true None 30 "8080" third sample_run in
  served steps ∧ ∃ from until graceful,
    steps = [WritePid; Told Bound; Served from until graceful; PersistQuota; PersistBudgets; StopMcp; RemovePid].
Proof.
  assert (served (start_gateway (Some "t") "0.0.0.0" true None 30 "8080" third sample_run)) as H.
  { exists 1000, 7000, true. vm_compute. by do 2 right; left. }
  split; [exact H|]. by apply (console_never_open (Some "t") "0.0.0.0" true None 30 "8080" third sample_run).
Defined.
Lemma uptime_bounded_witness :
  let r := mkRun 1000 None 0 in
  ∃ until graceful, Served 1000 until graceful ∈ start_gateway None "127.0.0.1" false None 30 "8080" third r ∧
    until = 31000 ∧ graceful = false.
Proof.
  assert (Served 1000 31000 false ∈ start_gateway None "127.0.0.1" false None 30 "8080" third (mkRun 1000 None 0)) as H.
  { vm_compute. by do 2 right; left. }
  exists 31000, false. split; [exact H|].
  by apply (uptime_bounded None "127.0.0.1" false None 30 "8080" third (mkRun 1000 None 0) 1000 31000 false).
Defined.

(** A gateway that cannot bind leaves its process file behind. *)
Example pid_file_left :
  start_gateway None "127.0.0.1" false None 30 "80" (λ _, Some "denied") sample_run =
    [WritePid; Told (Failed "Failed to bind gateway on 127.0.0.1:80: denied")].
Proof. reflexivity. Qed.

(** Ready means that there is no channel, or one that can be used. *)
Lemma ready_iff now channels :
  (ready_handler now channels).1.1 = 200 ↔ channels = [] ∨ ∃ c, c ∈ channels ∧ Channel.is_available c now = true.
Proof.
  unfold ready_handler. case_bool_decide as E; [by split; [left|]|].
  destruct (Z.eqb_spec (Z.of_nat (length (List.filter (λ c, Channel.is_available c now) channels))) 0) as [H|H]; cbn.
  - split; [done|]. intros [?|(c&Hc&Ha)]; [done|].
    assert (c ∈ List.filter (λ c, Channel.is_available c now) channels) as Hin
      by (apply list_elem_of_In, filter_In; split; [by apply list_elem_of_In|done]).
    destruct (List.filter _ _); [by apply not_elem_of_nil in Hin|done].
  - split; [|done]. intros _. right. destruct (List.filter _ _) as [|c l] eqn:El; [done|]. exists c.
    assert (In c (List.filter (λ c, Channel.is_available c now) channels)) as Hin by (rewrite El; by left).
    apply filter_In in Hin as [? ?]. split; [by apply list_elem_of_In|done].
Qed.

(** With origins configured no other is allowed, in a release build without any only
    the local console. *)
Lemma cors_allows_iff debug hv origins o :
  cors_allows debug hv origins o = true ↔
  match origins with
  | Some (x :: xs) => o ∈ x :: xs ∧ hv o = true
  | _ => debug = true ∨ o = "http://127.0.0.1:8080" ∨ o = "http://localhost:8080"
  end.
Proof.
  unfold cors_allows. destruct origins as [[|x xs]|].
  1,3: rewrite orb_true_iff, bool_decide_eq_true, !elem_of_cons, elem_of_nil; naive_solver.
  rewrite bool_decide_eq_true, list_elem_of_In, filter_In, <- list_elem_of_In. done.
Qed.
End LifecycleProps.

Module TlsProps.
Import Tls.

Section props.
Context {CertifiedKey : Type}.
Implicit Types (p q : Poll CertifiedKey) (s : TlsReloadState * option CertifiedKey).

Definition latest p : option Z :=
  match cert_mtime p, key_mtime p with Some c, Some k => Some (Z.max c k) | Some c, None => Some c | None, k => k end.
Definition newer (before : option Z) p : bool :=
  match before, latest p with Some a, Some b => a <? b | _, _ => false end.
Lemma poll_spec s p :
  last_modified (poll s p).1 = latest p ∧
  (poll s p).2 = if newer (last_modified s.1) p then reload (pair p) s.2 else s.2.
Proof.
  unfold poll, check_cert_freshness, newer, latest. destruct (cert_mtime p), (key_mtime p), (last_modified s.1); done.
Qed.

(** No poll of these, the times before the first being given, takes up a pair. *)
Fixpoint quiet (before : option Z) (ps : list (Poll CertifiedKey)) : Prop :=
  match ps with
  | [] => True
  | p :: ps => (newer before p = false ∨ pair p = None) ∧ quiet (latest p) ps
  end.
Lemma quiet_keeps ps : ∀ s, quiet (last_modified s.1) ps → (foldl poll s ps).2 = s.2.
Proof.
  induction ps as [|p ps IH]; intros s; [done|]. cbn [quiet foldl]. intros [H Hq].
  destruct (poll_spec s p) as [H1 H2]. rewrite IH by by rewrite H1. rewrite H2.
  destruct H as [-> | ->]; [done|]. by destruct (newer _ _).
Qed.
Lemma fold_last ps : ∀ s, last_modified (foldl poll s ps).1 = default (last_modified s.1) (latest <$> last ps).
Proof.
  induction ps as [|p ps IH]; intros s; [done|]. cbn [foldl]. rewrite IH. destruct (poll_spec s p) as [-> _].
  rewrite last_cons. by destruct (last ps).
Qed.

(** A pair of files that a poll finds, newer than the poll before found them and fitting
    together, is served from then on, until a later poll finds a newer pair that fits:
    a pair that does not load changes nothing. *)
Theorem renewal_served state key first before p after k :
  newer (default (latest first) (latest <$> last before)) p = true → pair p = Some k → quiet (latest p) after →
  (start_tls_reload_watcher state key first (before ++ p :: after)).2 = Some k.
Proof.
  intros Hn Hk Hq. unfold start_tls_reload_watcher. rewrite foldl_app. cbn [foldl].
  set (s0 := (_, key)). assert (last_modified s0.1 = latest first) as H0.
  { unfold s0, check_cert_freshness, latest. by destruct (cert_mtime first), (key_mtime first). }
  destruct (poll_spec (foldl poll s0 before) p) as [H1 H2]. rewrite quiet_keeps by by rewrite H1.
  rewrite H2, fold_last, H0, Hn, Hk. done.
Qed.

(** A poll that finds no files forgets their times: a pair put back after it, however
    new, is not taken up until it is touched again. *)
Lemma gap_forgets s p q : latest p = None → (poll (poll s p) q).2 = s.2.
Proof.
  intros Hp. destruct (poll_spec s p) as [H1 H2], (poll_spec (poll s p) q) as [_ H3].
  rewrite H3, H2, H1, Hp. unfold newer. rewrite Hp. by destruct (last_modified s.1).
Qed.
(** A pair that did not fit, since one file was written and the other not yet, is not
    tried again unless the second has a later time than the first. *)
Lemma failed_not_retried s p q : pair p = None → latest q = latest p → (poll (poll s p) q).2 = s.2.
Proof.
  intros Hp Hq. destruct (poll_spec s p) as [H1 H2], (poll_spec (poll s p) q) as [_ H3].
  rewrite H3, H2, H1, Hp. unfold newer at 1. rewrite Hq. cbn [reload].
  assert (match latest p, latest p with Some a, Some b => a <? b | _, _ => false end = false) as ->.
  { destruct (latest p); [apply Z.ltb_irrefl|done]. }
  by destruct (newer _ _).
Qed.
End props.

Definition at_time (t : Z) (k : option string) : Poll string := mkPoll (Some t) (Some t) k.
Lemma renewal_served_witness :
  (start_tls_reload_watcher (new "c" "k") (Some "old") (at_time 1 None)
     [at_time 1 (Some "old"); at_time 5 (Some "new"); at_time 7 None; at_time 7 (Some "new")]).2 = Some "new".
Proof.
  apply (renewal_served (new "c" "k") (Some "old") (at_time 1 None) [at_time 1 (Some "old")] (at_time 5 (Some "new"))
    [at_time 7 None; at_time 7 (Some "new")] "new"); [reflexivity|reflexivity|].
  split; [by right|]. split; [by left|done].
Defined.

(** A certificate that is replaced by removing and writing it, with a poll in between. *)
Example rotation_missed :
  (start_tls_reload_watcher (new "c" "k") (Some "old") (at_time 1 (Some "old"))
     [mkPoll None None None; at_time 9 (Some "new"); at_time 9 (Some "new")]).2 = Some "old".
Proof. reflexivity. Qed.
End TlsProps.
