(* ===== verification/Startup.v ===== *)
(** The start of the gateway's services (server/services.rs): the tasks that load and
    save the stores at the same time, what two savers do to one file, and the settings
    resolved on the way. *)

From S2P Require Import Prelude PayloadRules Channel VirtualKey RateLimiter RedisRateLimit Access Watcher.

(** ** Two savers of one store (persisted_store.rs)

    The steps of [persist] at the level of the file system, where a name leads to a file
    and a file that is open stays open when its name is given to another or moved. *)
Module Writers.

Record Disk := mkDisk {
  names : gmap string nat;
  files : gmap nat string;
  unused : nat;
}.
Definition contents (d : Disk) (path : string) : option string := names d !! path ≫= λ i, files d !! i.

(** Where a [persist] is: before its [open], before the write through the descriptor,
    before the [fsync], before the [rename], or at its end. *)
Inductive Stage := Opening | Writing (fd : nat) | Syncing (fd : nat) | Renaming | Finished.
Record Writer := mkWriter { json : string; stage : Stage }.

(** [create(true).write(true).truncate(true)] *)
Definition open_truncated (tmp : string) (d : Disk) : Disk * nat :=
  match names d !! tmp with
  | Some i => (mkDisk (names d) (<[i := ""]> (files d)) (unused d), i)
  | None => (mkDisk (<[tmp := unused d]> (names d)) (<[unused d := ""]> (files d)) (S (unused d)), unused d)
  end.
(** From the beginning of the file; what lies beyond stays. *)
Definition write_all (fd : nat) (text : string) (d : Disk) : Disk :=
  let old := default "" (files d !! fd) in
  mkDisk (names d)
    (<[fd := text +:+ String.substring (String.length text) (String.length old - String.length text) old]> (files d)) (unused d).
(** The new name replaces the old file; without a source it fails. *)
Definition rename (tmp path : string) (d : Disk) : Disk :=
  match names d !! tmp with
  | Some i => mkDisk (<[path := i]> (base.delete tmp (names d))) (files d) (unused d)
  | None => d
  end.

Definition advance (tmp path : string) (d : Disk) (w : Writer) : Disk * Writer :=
  match stage w with
  | Opening => let '(d, fd) := open_truncated tmp d in (d, mkWriter (json w) (Writing fd))
  | Writing fd => (write_all fd (json w) d, mkWriter (json w) (Syncing fd))
  | Syncing _ => (d, mkWriter (json w) Renaming)
  | Renaming => (rename tmp path d, mkWriter (json w) Finished)
  | Finished => (d, w)
  end.
(** One step of the writer with this number. *)
Definition move (tmp path : string) (s : Disk * list Writer) (i : nat) : Disk * list Writer :=
  match s.2 !! i with
  | Some w => let '(d, w) := advance tmp path s.1 w in (d, <[i := w]> s.2)
  | None => s
  end.
Definition run (tmp path : string) (schedule : list nat) (s : Disk * list Writer) : Disk * list Writer :=
  foldl (move tmp path) s schedule.
Definition starting (jsons : list string) : list Writer := (λ j, mkWriter j Opening) <$> jsons.
End Writers.

(** ** Loading and saving (spawn_persistence_tasks) *)
Module Boot.
Section boot.
Context {K V : Type} `{Countable K}.

Inductive Loading := Unread | HasRead (loaded : gmap K V) | Loaded.
Record State := mkState {
  memory : gmap K V;
  file : gmap K V;
  loading : Loading;
  snapshots : gmap nat (gmap K V);     (** of the saves under way *)
}.
Definition initial (F : gmap K V) : State := mkState ∅ F Unread ∅.

(** The loading task reads the file and then merges what it has read, entries of the
    memory first; a save -- of the saving task, whose first tick is immediate, or of a
    request that has changed something -- takes a snapshot of the memory and then renames
    the file written from it into place (what overlapping saves do to the file that they
    write is above); a request adds, changes or deletes an entry. *)
Inductive Action :=
  | ReadFile | MergeIn
  | TakeSnapshot (saver : nat) | RenameIn (saver : nat)
  | Insert (k : K) (v : V) | Update (k : K) (f : V → V) | Delete (k : K).
Definition request (a : Action) (m : gmap K V) : gmap K V :=
  match a with
  | Insert k v => <[k := v]> m
  | Update k f => alter f k m
  | Delete k => base.delete k m
  | _ => m
  end.
Definition act (a : Action) (s : State) : option State :=
  match a with
  | ReadFile =>
      match loading s with
      | Unread => Some (mkState (memory s) (file s) (HasRead (file s)) (snapshots s))
      | _ => None
      end
  | MergeIn =>
      match loading s with
      | HasRead m => Some (mkState (memory s ∪ m) (file s) Loaded (snapshots s))
      | _ => None
      end
  | TakeSnapshot i =>
      match snapshots s !! i with
      | None => Some (mkState (memory s) (file s) (loading s) (<[i := memory s]> (snapshots s)))
      | Some _ => None
      end
  | RenameIn i =>
      match snapshots s !! i with
      | Some m => Some (mkState (memory s) m (loading s) (base.delete i (snapshots s)))
      | None => None
      end
  | Insert _ _ | Update _ _ | Delete _ => Some (mkState (request a (memory s)) (file s) (loading s) (snapshots s))
  end.
(** Any interleaving of the tasks and the requests. *)
Definition run (acts : list Action) (s : State) : option State := foldl (λ o a, o ≫= act a) (Some s) acts.
End boot.
Arguments State K V {_ _}.
Arguments Action K V : clear implicits.
End Boot.

(** ** Settings (start_gateway_services) *)
Module Settings.
Import Channel.

Definition resolve_admin_token (env config : option string) : option string :=
  match env with Some t => Some t | None => config end.
Record AdminTokenConfig := mkAdminTokenConfig { token : string; role : string }.
Definition admin_roles (admin_tokens : list AdminTokenConfig) : list (string * Rbac.Role) :=
  omap (λ e, (λ r, (token e, r)) <$> Rbac.parse_role (role e)) admin_tokens.
(** The secret of the state tokens: that of the file, or a new one. *)
Definition oidc_state_secret (file : option string) (fresh : string) : string :=
  match file with
  | Some s => if String.eqb (trim s) "" then fresh else trim s
  | None => fresh
  end.
Definition security (env config : option string) (admin_tokens : list AdminTokenConfig) : Gate.Security :=
  Gate.mkSecurity (resolve_admin_token env config) (admin_roles admin_tokens) false.

(** The limits and payload rules of one configured channel; a channel whose id cannot
    be read is passed over. *)
Definition configure_channel (parse_uuid : string → option Uuid) (now : DateTime)
    (s : Watcher.Stores) (ch : ChannelConfig) : Watcher.Stores :=
  match parse_uuid (c_id ch) with
  | None => s
  | Some id =>
      let l := Watcher.rate_limiter s in
      let l := match c_rpm_limit ch with
               | Some rpm => RateLimiter.set_channel_rpm_limit l id rpm now
               | None => l
               end in
      let l := match c_tpm_limit ch with
               | Some tpm => RateLimiter.set_channel_tpm_limit l id tpm now
               | None => l
               end in
      let rules :=
        match c_payload_rules ch with
        | Some r =>
            let m := Rules.add (Watcher.payload_rules s) id
                       (Rules.mkPayloadRules (pc_defaults r) (pc_overrides r) (pc_strip r)) in
            if bool_decide (pc_model_rules r = []) then m
            else Rules.set_model_rules m id (pc_model_rules r)
        | None => Watcher.payload_rules s
        end in
      Watcher.mkStores (Watcher.channel_mgr s) (Watcher.mcp_mgr s) l rules
  end.
Definition configure_channels (parse_uuid : string → option Uuid) (now : DateTime)
    (channels : list ChannelConfig) (s : Watcher.Stores) : Watcher.Stores :=
  foldl (configure_channel parse_uuid now) s channels.
End Settings.

Module WritersProps.
Import Writers.

Section props.
Context (tmp path : string) (Hne : tmp ≠ path).

(** *** One after the other *)

Definition bounded (d : Disk) : Prop := ∀ n i, names d !! n = Some i → (i < unused d)%nat.
(** A disk on which the temporary name, if taken, leads to a file of its own. *)
Definition tidy (d : Disk) : Prop := bounded d ∧ ∀ i, names d !! tmp = Some i → names d !! path ≠ Some i.
(** The temporary file holds this text, and the file itself is another. *)
Definition holding (d : Disk) (fd : nat) (text : string) : Prop :=
  bounded d ∧ names d !! tmp = Some fd ∧ names d !! path ≠ Some fd ∧ files d !! fd = Some text.

Lemma contents_other d fd text fs un :
  names d !! path ≠ Some fd → fs = <[fd := text]> (files d) → contents (mkDisk (names d) fs un) path = contents d path.
Proof.
  intros Hp ->. unfold contents. cbn. destruct (names d !! path) as [i|]; [|done]. cbn. rewrite lookup_insert_ne; congruence.
Qed.
Lemma open_holds d : tidy d →
  let '(d', fd) := open_truncated tmp d in holding d' fd "" ∧ contents d' path = contents d path.
Proof.
  intros [Hb Ht]. unfold open_truncated. destruct (names d !! tmp) as [i|] eqn:Ei.
  - split; [|by eapply contents_other; [by apply Ht|]]. split_and!; [done|done|by apply Ht|apply lookup_insert_eq].
  - assert (names d !! path ≠ Some (unused d)) as Hn by (intros H; specialize (Hb path _ H); lia). split.
    + split_and!; cbn; [|apply lookup_insert_eq|by rewrite lookup_insert_ne|apply lookup_insert_eq].
      intros n i. cbn. destruct (decide (n = tmp)) as [->|]; [rewrite lookup_insert_eq; intros [= <-]; lia|].
      rewrite lookup_insert_ne by done. intros H%Hb. lia.
    + unfold contents. cbn. rewrite lookup_insert_ne by done. destruct (names d !! path) as [i|] eqn:Ep; [|done]. cbn.
      apply lookup_insert_ne. congruence.
Qed.
Lemma write_holds d fd text : holding d fd "" →
  holding (write_all fd text d) fd text ∧ contents (write_all fd text d) path = contents d path.
Proof.
  intros (Hb&Ht&Hp&Hf). assert (write_all fd text d = mkDisk (names d) (<[fd := text]> (files d)) (unused d)) as ->.
  { unfold write_all. rewrite Hf. do 2 f_equal. transitivity (text +:+ ""); [|apply app_nil_r_str].
    f_equal. by destruct (String.length text). }
  split; [|by eapply contents_other]. split_and!; [done..|apply lookup_insert_eq].
Qed.
Lemma rename_holds d fd text : holding d fd text →
  contents (rename tmp path d) path = Some text ∧ tidy (rename tmp path d).
Proof.
  intros (Hb&Ht&Hp&Hf). unfold rename. rewrite Ht. unfold contents. cbn. rewrite lookup_insert_eq. split; [done|]. split.
  - intros n i. cbn. destruct (decide (n = path)) as [->|]; [rewrite lookup_insert_eq; intros [= <-]; by eapply Hb|].
    rewrite lookup_insert_ne by done. intros [_ H]%lookup_delete_Some. by eapply Hb.
  - cbn. intros i. by rewrite lookup_insert_ne, lookup_delete_eq by done.
Qed.

(** Where a writer may be found between its steps, given what the file held before. *)
Definition in_turn (before : option string) (d : Disk) (w : Writer) : Prop :=
  match stage w with
  | Opening => tidy d ∧ contents d path = before
  | Writing fd => holding d fd "" ∧ contents d path = before
  | Syncing fd => holding d fd (json w) ∧ contents d path = before
  | Renaming => (∃ fd, holding d fd (json w)) ∧ contents d path = before
  | Finished => tidy d ∧ contents d path = Some (json w)
  end.
Lemma advance_in_turn before d w :
  in_turn before d w → let '(d', w') := advance tmp path d w in in_turn before d' w' ∧ json w' = json w.
Proof.
  unfold in_turn, advance. destruct w as [j st]. cbn [stage json]. destruct st.
  - intros [Ht <-]. pose proof (open_holds d Ht). by destruct (open_truncated tmp d).
  - intros [Hh <-]. split; [|done]. cbn [stage json]. by apply write_holds.
  - intros [Hh <-]. split; [|done]. split; [by exists fd|done].
  - intros [[fd Hh] _]. split; [|done]. cbn [stage json]. apply and_comm. by eapply rename_holds.
  - by intros.
Qed.

Definition rank (w : Writer) : nat :=
  match stage w with Opening => 0 | Writing _ => 1 | Syncing _ => 2 | Renaming => 3 | Finished => 4 end.
Lemma move_at d pre w rest :
  move tmp path (d, pre ++ w :: rest) (length pre) =
    ((advance tmp path d w).1, pre ++ (advance tmp path d w).2 :: rest).
Proof.
  unfold move. cbn [fst snd]. rewrite list_lookup_middle by done. destruct (advance tmp path d w) as [d' w'].
  cbn. by rewrite insert_app_r_alt, Nat.sub_diag by done.
Qed.
Lemma moves_at before pre rest k : ∀ d w, in_turn before d w →
  ∃ d' w', run tmp path (replicate k (length pre)) (d, pre ++ w :: rest) = (d', pre ++ w' :: rest) ∧
    in_turn before d' w' ∧ json w' = json w ∧ rank w' = Nat.min 4 (rank w + k).
Proof.
  induction k as [|k IH]; intros d w Hw.
  - exists d, w. split_and!; [done..|]. unfold rank. destruct (stage w); lia.
  - cbn [replicate]. unfold run. cbn [foldl]. rewrite move_at. pose proof (advance_in_turn before d w Hw) as H.
    assert (rank (advance tmp path d w).2 = Nat.min 4 (S (rank w))) as Hr.
    { unfold rank, advance. destruct w as [j st]. cbn. destruct st; cbn; try lia. by destruct (open_truncated tmp d). }
    destruct (advance tmp path d w) as [d1 w1]. destruct H as [H1 H2]. cbn [fst snd] in *.
    destruct (IH d1 w1 H1) as (d'&w'&E&Hi&Hj&Hk). exists d', w'. split_and!; [exact E|done|congruence|lia].
Qed.
Lemma in_turn_contents before d w : in_turn before d w → contents d path = before ∨ contents d path = Some (json w).
Proof. unfold in_turn. destruct (stage w); intros [_ H]; auto. Qed.

Definition order (first : nat) (jsons : list string) : list nat :=
  seq first (length jsons) ≫= λ i, replicate 4 i.
Definition kept_or_written (jsons : list string) (before now : option string) : Prop :=
  now = before ∨ ∃ j, j ∈ jsons ∧ now = Some j.
Lemma schedule_app l1 l2 s : run tmp path (l1 ++ l2) s = run tmp path l2 (run tmp path l1 s).
Proof. apply foldl_app. Qed.
Lemma turns_from jsons : ∀ pre d n, tidy d →
  let s := run tmp path (take n (order (length pre) jsons)) (d, pre ++ starting jsons) in
  kept_or_written jsons (contents d path) (contents s.1 path) ∧
  ((4 * length jsons ≤ n)%nat → s.2 = pre ++ ((λ j, mkWriter j Finished) <$> jsons) ∧
     (∀ j, last jsons = Some j → contents s.1 path = Some j)).
Proof.
  induction jsons as [|j js IH]; intros pre d n Ht; cbn zeta.
  { unfold order. cbn. rewrite take_nil. cbn. split; [by left|]. by split. }
  assert (order (length pre) (j :: js) = replicate 4 (length pre) ++ order (S (length pre)) js) as -> by done.
  assert (in_turn (contents d path) d (mkWriter j Opening)) as Hw by done.
  destruct (decide (n ≤ 4)%nat) as [Hn|Hn].
  - rewrite take_app_le by (by rewrite length_replicate). rewrite take_replicate, Nat.min_l by done.
    destruct (moves_at _ pre (starting js) n d _ Hw) as (d'&w'&E&Hi&Hj&Hr). cbn [starting fmap list_fmap]. fold (starting js).
    rewrite E. cbn [fst snd]. split.
    + apply in_turn_contents in Hi as [->| ->]; [by left|]. right. exists j. rewrite Hj. split; [by left|done].
    + cbn [length]. intros Hl. destruct js; [|cbn in Hl; lia]. cbn in Hl. assert (n = 4%nat) as -> by lia.
      destruct w' as [j' []]; cbn in Hr; try lia. cbn in Hj. subst j'. split; [done|]. intros x [= <-]. apply Hi.
  - rewrite take_app_ge by (rewrite length_replicate; lia). rewrite schedule_app.
    destruct (moves_at _ pre (starting js) 4 d _ Hw) as (d'&w'&E&Hi&Hj&Hr). cbn [starting fmap list_fmap]. fold (starting js).
    rewrite E. destruct w' as [j' []]; cbn in Hr; try lia.
    cbn in Hj, Hi. subst j'. destruct Hi as [Ht' Hc]. specialize (IH (pre ++ [mkWriter j Finished]) d' (n - 4)%nat Ht').
    rewrite length_app, Nat.add_1_r, <- app_assoc in IH. cbn [app] in IH. rewrite length_replicate.
    destruct IH as [H1 H2]. split.
    + destruct H1 as [->|(x&Hx&->)]; [right; exists j; split; [by left|done]|right; exists x; split; [by right|done]].
    + cbn [length]. intros Hl. destruct H2 as [H2 H3]; [lia|]. rewrite H2, <- app_assoc. split; [done|].
      intros x Hx. destruct js as [|y ys]; [|by apply H3]. injection Hx as <-. destruct H1 as [->|(z&Hz&_)]; [done|].
      by apply not_elem_of_nil in Hz.
Qed.

(** C29. Savers that take turns. Whatever the number of their turns, and at whichever step
    the machine stops, the file holds what it held before or all that one of them
    wrote; and when they are through, what the last one wrote. *)
Theorem turns_keep_file jsons d n :
  tidy d →
  let s := run tmp path (take n (order 0 jsons)) (d, starting jsons) in
  kept_or_written jsons (contents d path) (contents s.1 path) ∧
  ((4 * length jsons ≤ n)%nat → Forall (λ w, stage w = Finished) s.2 ∧ (∀ j, last jsons = Some j → contents s.1 path = Some j)).
Proof.
  intros Ht. destruct (turns_from jsons [] d n Ht) as [H1 H2]. split; [exact H1|]. intros Hn.
  destruct (H2 Hn) as [H3 H4]. split; [|exact H4]. cbn [app length] in H3. rewrite H3. apply Forall_fmap, Forall_true. done.
Qed.
End props.

(** Two savers at once open the same temporary file, write over one another, and what
    the first to rename puts into place is neither's: the shorter text with the end of
    the longer. Both have succeeded by then, or think that the file was taken away. *)
Theorem concurrent_savers_corrupt tmp path d j1 j2 :
  tmp ≠ path → names d !! tmp = None →
  (String.length j2 < String.length j1)%nat →
  let s := run tmp path [0; 1; 0; 1; 0; 1; 0; 1]%nat (d, starting [j1; j2]) in
  Forall (λ w, stage w = Finished) s.2 ∧
  contents s.1 path = Some (j2 +:+ String.substring (String.length j2) (String.length j1 - String.length j2) j1).
Proof.
  intros Hne Ht Hl. set (u := unused d). set (shared := <[tmp := u]> (names d)).
  set (disk := λ text, mkDisk shared (<[u := text]> (files d)) (S u)).
  assert (∀ s i l, run tmp path (i :: l) s = run tmp path l (move tmp path s i)) as Hrun by done.
  assert (∀ d w0 w1, move tmp path (d, [w0; w1]) 0%nat = ((advance tmp path d w0).1, [(advance tmp path d w0).2; w1])) as H0.
  { intros d0 w0 w1. unfold move. cbn. by destruct (advance tmp path d0 w0). }
  assert (∀ d w0 w1, move tmp path (d, [w0; w1]) 1%nat = ((advance tmp path d w1).1, [w0; (advance tmp path d w1).2])) as H1.
  { intros d0 w0 w1. unfold move. cbn. by destruct (advance tmp path d0 w1). }
  assert (open_truncated tmp d = (disk "", u)) as O0 by (unfold open_truncated; by rewrite Ht).
  assert (∀ old, open_truncated tmp (disk old) = (disk "", u)) as O1.
  { intros old. unfold open_truncated, disk, shared. cbn. by rewrite lookup_insert_eq, insert_insert_eq. }
  assert (∀ old text, write_all u text (disk old) =
    disk (text +:+ String.substring (String.length text) (String.length old - String.length text) old)) as W.
  { intros old text. unfold write_all, disk. cbn [names files unused]. by rewrite lookup_insert_eq, insert_insert_eq. }
  cbv zeta. cbn [starting fmap list_fmap]. rewrite !Hrun, H0. cbn [advance stage json]. rewrite O0. cbn [fst snd json].
  rewrite H1. cbn [advance stage json]. rewrite O1. cbn [fst snd json].
  rewrite H0. cbn [advance stage json fst snd]. rewrite W. rewrite H1. cbn [advance stage json fst snd]. rewrite W.
  rewrite H0. cbn [advance stage json fst snd]. rewrite H1. cbn [advance stage json fst snd].
  rewrite H0. cbn [advance stage json fst snd]. rewrite H1. cbn [advance stage json fst snd]. unfold run. cbn [foldl fst snd].
  split; [by repeat constructor|]. set (t := _ +:+ _). unfold rename at 2. cbn [disk names]. unfold shared.
  rewrite lookup_insert_eq. unfold rename. cbn [names]. rewrite lookup_insert_ne, lookup_delete_eq by done.
  unfold contents. cbn. rewrite lookup_insert_eq. cbn. rewrite lookup_insert_eq. f_equal. subst t.
  assert (j1 +:+ String.substring (String.length j1) (String.length "" - String.length j1) "" = j1) as ->; [|done].
  transitivity (j1 +:+ ""); [f_equal; by destruct (String.length j1)|apply app_nil_r_str].
Qed.
End WritersProps.

Module WritersSample.
Import Writers WritersProps.
Definition stored : Disk := mkDisk {["keys.json" := 0%nat]} {[0%nat := "{old}"]} 1.
Lemma stored_tidy : tidy "keys.json.tmp" "keys.json" stored.
Proof.
  split; [|done]. intros n i H. cbn in H. apply lookup_singleton_Some in H as [_ <-]. cbn. lia.
Qed.
Lemma turns_keep_file_witness :
  contents (run "keys.json.tmp" "keys.json" (order 0 ["{a}"; "{bc}"]) (stored, starting ["{a}"; "{bc}"])).1 "keys.json" = Some "{bc}".
Proof.
  destruct (turns_keep_file "keys.json.tmp" "keys.json" ltac:(discriminate) ["{a}"; "{bc}"] stored 8 stored_tidy) as [_ H].
  change (take 8 (order 0 ["{a}"; "{bc}"])) with (order 0 ["{a}"; "{bc}"]) in H.
  exact (proj2 (H ltac:(reflexivity)) "{bc}" eq_refl).
Defined.
Lemma concurrent_savers_corrupt_witness :
  contents (run "keys.json.tmp" "keys.json" [0; 1; 0; 1; 0; 1; 0; 1]%nat (stored, starting ["{a,b}"; "{a}"])).1 "keys.json"
    = Some "{a}b}".
Proof.
  exact (proj2 (concurrent_savers_corrupt "keys.json.tmp" "keys.json" stored "{a,b}" "{a}" ltac:(discriminate) eq_refl
    ltac:(vm_compute; lia))).
Defined.
End WritersSample.

Module BootProps.
Import Boot.

Section props.
Context {K V : Type} `{Countable K}.
Implicit Types (F : gmap K V) (acts : list (Action K V)) (s : State K V).

Lemma acts_cons a acts s : run (a :: acts) s = act a s ≫= run acts.
Proof.
  unfold run. cbn. destruct (act a s) as [s'|]; cbn; [done|].
  induction acts as [|b acts IH]; [done|]. exact IH.
Qed.
(** A property that every action keeps holds of every run. *)
Lemma run_invariant (P : State K V → Prop) acts s s' :
  (∀ a s s', a ∈ acts → act a s = Some s' → P s → P s') → run acts s = Some s' → P s → P s'.
Proof.
  revert s. induction acts as [|a acts IH]; intros s Ha; [by intros [= ->]|]. rewrite acts_cons.
  destruct (act a s) as [s1|] eqn:E; [|done]. cbn. intros Hr Hs. apply (IH s1); [|done|].
  - intros b s2 s3 Hb. apply Ha. by right.
  - eapply Ha; [by left|done|done].
Qed.

(** *** The entry of one key *)


Section entry.
Context (F : gmap K V) (k : K).
(** What holds of the entry before the load and after, and that the requests keep it. *)
Context (before after : option V → Prop).
Context (Hmerge : ∀ m : gmap K V, before (m !! k) → after ((m ∪ F) !! k)).



End entry.


(** A save that is quicker than the load replaces the file of all keys by an empty one,
    which is then loaded. *)
Lemma quick_save_loses F i :
  run [TakeSnapshot i; RenameIn i; ReadFile; MergeIn] (initial F) = Some (mkState ∅ ∅ Loaded ∅).
Proof.
  unfold run, initial. cbn. rewrite lookup_empty. cbn. rewrite lookup_insert_eq. cbn.
  by rewrite map_union_empty, delete_insert_eq, delete_empty.
Qed.
(** A key that is deleted before it is loaded comes back. *)
Lemma early_delete_undone F k v : F !! k = Some v →
  ∃ s, run [ReadFile; Delete k; MergeIn] (initial F) = Some s ∧ memory s !! k = Some v.
Proof. intros HF. eexists. split; [reflexivity|]. cbn. by rewrite delete_empty, lookup_union, lookup_empty, HF. Qed.
End props.

(** Until the keys are loaded there are none, and the gateway is open: a request for a
    model is forwarded whoever sends it. *)
Theorem open_until_loaded F acts s sha256 show_uuid link store limiter db trust req d date now :
  run acts (initial F) = Some s → MergeIn ∉ acts → (∀ k v, Insert k v ∉ acts) →
  VirtualKey.keys store = memory s →
  Gate.virtual_key_middleware sha256 show_uuid link store limiter db trust req d date now = (limiter, db, Gate.Forward None).
Proof.
  intros Hr Hm Hi Hk. assert (memory s = ∅) as He.
  { apply (run_invariant (λ s, memory s = ∅) acts (initial F)); [|done|done]. intros a s1 s2 Ha E Hs.
    unfold act in E. destruct a; repeat case_match; simplify_eq/=; try done.
    - by apply Hi in Ha.
    - rewrite Hs. apply map_eq. intros j. by rewrite lookup_alter, lookup_empty; case_decide.
    - by rewrite Hs, delete_empty. }
  unfold Gate.virtual_key_middleware, VirtualKey.has_keys. by rewrite Hk, He, bool_decide_eq_true_2.
Qed.
End BootProps.

Module BootSample.
Import Boot BootProps.
Local Abbreviation kept := ({["sk-1" := 7]} : gmap string Z).

(** Requests that add, change and delete other keys meanwhile, and a save that overlaps
    the load. *)
Local Abbreviation before := ([TakeSnapshot 0] : list (Action string Z)).
Local Abbreviation between := ([Insert "sk-2" 9; Insert "sk-3" 1; RenameIn 0; Delete "sk-3"; MergeIn] : list (Action string Z)).
Local Abbreviation after := ([TakeSnapshot 1; Update "sk-2" Z.succ; TakeSnapshot 0; RenameIn 0; RenameIn 1] : list (Action string Z)).
Local Abbreviation loaded := (mkState {["sk-1" := 7; "sk-2" := 9]} ∅ Loaded ∅ : State string Z).


(** A stored key, and any token, also one that the file does not hold. *)
Lemma reads_keys (acts : list (Action Uuid VirtualKey.VirtualKey)) :
  acts = [ReadFile] → (MergeIn ∉ acts) ∧ (∀ k v, Insert k v ∉ acts).
Proof. intros ->. split; [|intros k v]; by rewrite list_elem_of_singleton. Qed.
Lemma open_until_loaded_witness :
  VirtualKey.has_keys GateProps.sample_created.1 = true ∧
  (Gate.virtual_key_middleware StoreProps.sample_sha256 (λ _, "") (λ _, true) (VirtualKey.with_store_path "f")
    KeyRateLimiter.new ∅ false (GateProps.spoofing_request "guess") GateProps.sample_day 5 0).2 = Gate.Forward None.
Proof.
  split; [reflexivity|]. rewrite (open_until_loaded (VirtualKey.keys GateProps.sample_created.1) [ReadFile]
    (mkState ∅ (VirtualKey.keys GateProps.sample_created.1) (HasRead (VirtualKey.keys GateProps.sample_created.1)) ∅)).
  - reflexivity.
  - reflexivity.
  - exact (proj1 (reads_keys _ eq_refl)).
  - exact (proj2 (reads_keys _ eq_refl)).
  - reflexivity.
Defined.
End BootSample.

Module SettingsProps.
Import Settings.

(** A misspelled role drops its token, and without another the administration is open. *)
Theorem misspelled_roles_open config_tokens map req now :
  Forall (λ e, Rbac.parse_role (role e) = None) config_tokens →
  Gate.admin_auth_middleware (security None None config_tokens) map req now = (map, Gate.Next None).
Proof.
  intros H. assert (admin_roles config_tokens = []) as E.
  { induction H as [|e l He _ IH]; [done|]. unfold admin_roles in *. cbn. by rewrite He. }
  unfold Gate.admin_auth_middleware, security. cbn. by rewrite E.
Qed.

(** The start registers the limits and rules that a reload of the same file would,
    when the ids can be read; the others a reload gives limits of a new identifier. *)
Theorem start_limits_as_reload parse_uuid fresh now channels s :
  Forall (λ cc, is_Some (parse_uuid (Channel.c_id cc))) channels →
  configure_channels parse_uuid now channels s =
    foldl (Watcher.reload_limits parse_uuid fresh now) s (Watcher.numbered channels).
Proof.
  intros H. unfold configure_channels. revert s. induction channels as [|x l IH] using rev_ind; intros s; [done|].
  rewrite WatcherFacts.numbered_snoc, !foldl_app. apply Forall_app in H as [H Hx]. inversion Hx as [|? ? [u Hu] _]; subst.
  rewrite <- IH by done. cbn [foldl]. generalize (foldl (configure_channel parse_uuid now) s l). intros s'.
  unfold configure_channel, Watcher.reload_limits. rewrite Hu. cbn [default from_option].
  destruct (Channel.c_payload_rules x) as [r|]; [|reflexivity]. destruct (Channel.pc_model_rules r); reflexivity.
Qed.
End SettingsProps.
