(* ===== verification/Config.v ===== *)
(** The configuration file (config/gateway.rs, config.rs, and of server/services.rs the
    start of [build_infra]) and the command line (bin/cli.rs): the settings with their
    defaults, the reading and the saving of the file, and what the commands do with it
    and with the process file. *)

From stdpp Require Import pretty.
From S2P Require Import Prelude F64 Json Channel RateLimiter Router Fallback ProviderBudget Notification Usage Sanitizer Mcp Access Login Watcher AdminSettings Startup.

(** ** The settings (config/gateway.rs) *)
Module Gateway.
Import Router.

Record TlsConfig := mkTls { enable : bool; cert : string; key : string }.
Definition tls_default : TlsConfig := mkTls false "" "".
Record AuthConfig := mkAuth { ldap : option Ldap.LdapConfig; oidc : option Oidc.OidcConfig }.
Definition auth_default : AuthConfig := mkAuth None None.
Record RedisConfig := mkRedis { url : string; key_prefix : string; pool_size : Z }.
Definition default_redis_prefix : string := "modelswitch".
Definition default_redis_pool_size : Z := 8.
Definition redis_default : RedisConfig := mkRedis "redis://localhost:6379" default_redis_prefix default_redis_pool_size.

Definition default_port : Z := 8080.
Definition default_host : string := "127.0.0.1".
Definition default_circuit_breaker_minutes : Z := 30.
Definition default_max_retries : Z := 3.
Definition default_routing_strategy : RoutingStrategyType := WeightedRandom.
Definition default_health_check_interval_secs : Z := 60.
Definition default_health_check_enabled : bool := true.
Definition default_drain_timeout_secs : Z := 30.
Definition default_cache_ttl_secs : Z := 300.
Definition default_max_cache_entries : Z := 1000.
Definition default_cache_mode : string := "on".
Definition default_http_timeout_secs : Z := 300.
Definition default_affinity_ttl_secs : Z := 1800.
Definition default_log_max_entries : Z := 1000.
Definition default_quota_poll_interval_secs : Z := 60.
Definition default_mcp_max_iterations : Z := 5.
Definition default_mcp_auto_inject : bool := true.
Definition default_mcp_gateway_enabled : bool := true.
Definition default_stream_ttft_timeout_secs : option Z := Some 30.
Definition default_http_pool_size : Z := 8.
Definition default_retry_base_ms : Z := 100.
Definition default_retry_max_ms : Z := 5000.
Definition default_log_max_file_size_mb : Z := 100.
Definition default_log_max_files : Z := 5.

(** The settings, each as it is or, in a table that has been parsed, as it is given, if
    it is. *)
Record GatewayOf {F : Type → Type} := mkGateway {
  port : F Z;
  host : F string;
  circuit_breaker_minutes : F Z;
  max_retries : F Z;
  model_fallbacks : F (gmap string (list string));
  context_window_fallbacks : F (gmap string (list string));
  model_aliases : F (gmap string string);
  routing_strategy : F RoutingStrategyType;
  health_check_interval_secs : F Z;
  health_check_enabled : F bool;
  admin_token : F (option string);
  admin_tokens : F (list Settings.AdminTokenConfig);
  web_console_dir : F (option string);
  allow_open_proxy : F bool;
  drain_timeout_secs : F Z;
  request_timeout_secs : F (option Z);
  stream_keepalive_secs : F (option Z);
  cache_ttl_secs : F Z;
  max_cache_entries : F Z;
  cache_mode : F string;
  http_timeout_secs : F Z;
  affinity_ttl_secs : F Z;
  log_max_entries : F Z;
  quota_poll_interval_secs : F Z;
  mcp_max_iterations : F Z;
  mcp_auto_inject : F bool;
  sanitizer : F Sanitizer.SanitizerConfig;
  mcp_gateway_enabled : F bool;
  stream_ttft_timeout_secs : F (option Z);
  http_pool_size : F Z;
  provider_budgets : F (gmap string ProviderBudget.ProviderBudgetConfig);
  retry_base_ms : F Z;
  retry_max_ms : F Z;
  model_retry_overrides : F (gmap string Fallback.ModelRetryConfig);
  allowed_origins : F (option (list string));
  nonstream_keepalive_interval_secs : F Z;
  passthrough_headers : F (list string);
  log_max_file_size_mb : F Z;
  log_max_files : F Z;
  stream_bootstrap_retries : F Z;
  disable_cooling : F bool;
  disable_image_generation : F bool;
  model_groups : F (gmap string (list string));
  model_pricing : F (gmap string Cost.ModelPricing);
  completion_ratios : F (gmap string F64.f64);
  group_ratios : F (gmap string F64.f64);
  tls : F TlsConfig;
  notification : F Notification.NotificationConfig;
  rate_limit_algorithm : F TokenBucket.RateLimitAlgorithm;
  auth : F AuthConfig;
  redis : F (option RedisConfig);
}.
Arguments GatewayOf : clear implicits.
Arguments mkGateway : clear implicits.
Definition as_is (A : Type) : Type := A.
Definition GatewayConfig : Type := GatewayOf as_is.
Definition or_default {A} (d : A) (given : option A) : as_is A := match given with Some a => a | None => d end.

(** [Deserialize]: what is not given has its default. *)
Definition fill (t : GatewayOf option) : GatewayConfig :=
  mkGateway as_is
    (or_default default_port (t.(port))) (or_default default_host (t.(host)))
    (or_default default_circuit_breaker_minutes (t.(circuit_breaker_minutes)))
    (or_default default_max_retries (t.(max_retries))) (or_default ∅ (t.(model_fallbacks)))
    (or_default ∅ (t.(context_window_fallbacks))) (or_default ∅ (t.(model_aliases)))
    (or_default default_routing_strategy (t.(routing_strategy)))
    (or_default default_health_check_interval_secs (t.(health_check_interval_secs)))
    (or_default default_health_check_enabled (t.(health_check_enabled))) (or_default None (t.(admin_token)))
    (or_default [] (t.(admin_tokens))) (or_default None (t.(web_console_dir)))
    (or_default false (t.(allow_open_proxy))) (or_default default_drain_timeout_secs (t.(drain_timeout_secs)))
    (or_default None (t.(request_timeout_secs))) (or_default None (t.(stream_keepalive_secs)))
    (or_default default_cache_ttl_secs (t.(cache_ttl_secs)))
    (or_default default_max_cache_entries (t.(max_cache_entries)))
    (or_default default_cache_mode (t.(cache_mode)))
    (or_default default_http_timeout_secs (t.(http_timeout_secs)))
    (or_default default_affinity_ttl_secs (t.(affinity_ttl_secs)))
    (or_default default_log_max_entries (t.(log_max_entries)))
    (or_default default_quota_poll_interval_secs (t.(quota_poll_interval_secs)))
    (or_default default_mcp_max_iterations (t.(mcp_max_iterations)))
    (or_default default_mcp_auto_inject (t.(mcp_auto_inject))) (or_default Sanitizer.default (t.(sanitizer)))
    (or_default default_mcp_gateway_enabled (t.(mcp_gateway_enabled)))
    (or_default default_stream_ttft_timeout_secs (t.(stream_ttft_timeout_secs)))
    (or_default default_http_pool_size (t.(http_pool_size))) (or_default ∅ (t.(provider_budgets)))
    (or_default default_retry_base_ms (t.(retry_base_ms))) (or_default default_retry_max_ms (t.(retry_max_ms)))
    (or_default ∅ (t.(model_retry_overrides))) (or_default None (t.(allowed_origins)))
    (or_default 0 (t.(nonstream_keepalive_interval_secs))) (or_default [] (t.(passthrough_headers)))
    (or_default default_log_max_file_size_mb (t.(log_max_file_size_mb)))
    (or_default default_log_max_files (t.(log_max_files))) (or_default 0 (t.(stream_bootstrap_retries)))
    (or_default false (t.(disable_cooling))) (or_default false (t.(disable_image_generation)))
    (or_default ∅ (t.(model_groups))) (or_default ∅ (t.(model_pricing))) (or_default ∅ (t.(completion_ratios)))
    (or_default ∅ (t.(group_ratios))) (or_default tls_default (t.(tls)))
    (or_default Notification.default_config (t.(notification)))
    (or_default TokenBucket.SlidingWindow (t.(rate_limit_algorithm))) (or_default auth_default (t.(auth)))
    (or_default None (t.(redis))).
(** [impl Default for GatewayConfig] *)
Definition default_gateway : GatewayConfig :=
  mkGateway as_is
    default_port default_host default_circuit_breaker_minutes default_max_retries ∅ ∅ ∅
    default_routing_strategy default_health_check_interval_secs default_health_check_enabled None [] None false
    default_drain_timeout_secs None None default_cache_ttl_secs default_max_cache_entries default_cache_mode
    default_http_timeout_secs default_affinity_ttl_secs default_log_max_entries
    default_quota_poll_interval_secs default_mcp_max_iterations default_mcp_auto_inject Sanitizer.default
    default_mcp_gateway_enabled default_stream_ttft_timeout_secs default_http_pool_size ∅ default_retry_base_ms
    default_retry_max_ms ∅ None 0 [] default_log_max_file_size_mb default_log_max_files 0 false false ∅ ∅ ∅ ∅
    tls_default Notification.default_config TokenBucket.SlidingWindow auth_default None.

Definition resolve_model_group (g : GatewayConfig) (model : string) : list string :=
  match (model_groups g : gmap string (list string)) !! model with Some group => group | None => [model] end.
Definition default_passthrough_headers : list string :=
  ["x-ratelimit-remaining"; "x-ratelimit-limit"; "x-ratelimit-reset"; "x-ratelimit-limit-requests";
   "x-ratelimit-remaining-requests"; "x-ratelimit-reset-requests"; "x-ratelimit-limit-tokens";
   "x-ratelimit-remaining-tokens"; "x-ratelimit-reset-tokens"; "anthropic-ratelimit-requests-limit";
   "anthropic-ratelimit-requests-remaining"; "anthropic-ratelimit-requests-reset"; "anthropic-ratelimit-tokens-limit";
   "anthropic-ratelimit-tokens-remaining"; "anthropic-ratelimit-tokens-reset"; "x-request-id"].
Definition effective_passthrough_headers (g : GatewayConfig) : list string :=
  if bool_decide ((passthrough_headers g : list string) = []) then default_passthrough_headers else passthrough_headers g.
End Gateway.

(** ** The file (config.rs) *)
Module ConfigFile.
Import Gateway.

Record AppConfig := mkConfig {
  gateway : GatewayConfig;
  channels : list Channel.ChannelConfig;
  mcp_servers : list Manager.McpServerConfig;
}.
Definition default_config : AppConfig := mkConfig default_gateway [] [].
(** A parsed document. *)
Record Document := mkDocument {
  d_gateway : option (GatewayOf option);
  d_channels : option (list Channel.ChannelConfig);
  d_mcp_servers : option (list Manager.McpServerConfig);
}.
(** The tables [gateway] and [channels] must be there. *)
Definition read_config (d : Document) : option AppConfig :=
  g ← d_gateway d; cs ← d_channels d; Some (mkConfig (fill g) cs (default [] (d_mcp_servers d))).

(** The file and the temporary one next to it; a file can be there and not be readable. *)
Inductive File := Absent | Unreadable | Text (t : string).
Record Disk := mkDisk { config_file : File; tmp_file : option string }.
(** What goes wrong while a file is saved, if anything: the directory cannot be made,
    the writing stops after so many bytes, or the renaming fails; a process that ends
    leaves the same behind. *)
Inductive Fault := Fine | NoDirectory | WriteStops (n : nat) | RenameFails.

Section file.
(** [toml::from_str] to a document whose values have the types of the settings, and
    [toml::to_string_pretty]. *)
Context (parse : string → option Document) (print : AppConfig → option string).

Definition save (f : Fault) (c : AppConfig) (d : Disk) : Disk * bool :=
  match f with
  | NoDirectory => (d, false)
  | _ =>
      match print c with
      | None => (d, false)
      | Some t =>
          match f with
          | WriteStops n => (mkDisk (config_file d) (Some (String.substring 0 n t)), false)
          | RenameFails => (mkDisk (config_file d) (Some t), false)
          | _ => (mkDisk (Text t) None, true)
          end
      end
  end.
Definition read_file (f : File) : option AppConfig :=
  match f with Text t => parse t ≫= read_config | _ => None end.
Definition load (f : Fault) (d : Disk) : Disk * option AppConfig :=
  match config_file d with
  | Absent => let '(d, saved) := save f default_config d in (d, if saved : bool then Some default_config else None)
  | file => (d, read_file file)
  end.
Definition load_from (file : File) : option AppConfig := read_file file.

(** The configuration the gateway starts with, unless it exits; and the size of its
    pool of clients. *)
Definition build_infra (explicit : option File) (f : Fault) (d : Disk) : Disk * option (AppConfig * Z) :=
  let sized c := (c, Z.max 1 (http_pool_size (gateway c))) in
  match explicit with
  | Some file => (d, sized <$> load_from file)
  | None => let '(d, c) := load f d in (d, Some (sized (default default_config c)))
  end.
End file.
End ConfigFile.

(** ** Settings that change while the gateway runs (config/watcher.rs) *)
Module Reloading.
Import Gateway Watcher.

#[global] Instance RoutingStrategyType_eq_dec : EqDecision Router.RoutingStrategyType.
Proof. solve_decision. Defined.
#[global] Instance RateLimitAlgorithm_eq_dec : EqDecision TokenBucket.RateLimitAlgorithm.
Proof. solve_decision. Defined.

(** [changed f] compares one setting of the two configurations. *)
Definition changed {A} `{EqDecision A} (f : GatewayConfig → as_is A) (prev new : GatewayConfig) : bool :=
  config_changed (f prev : A) (f new : A).
Definition notification_changed (prev new : Notification.NotificationConfig) : bool :=
  config_changed (Notification.webhook_url prev) (Notification.webhook_url new)
  || config_changed (Notification.webhook_secret prev) (Notification.webhook_secret new)
  || config_changed (Notification.bark_url prev) (Notification.bark_url new)
  || config_changed (Notification.budget_threshold_pct prev) (Notification.budget_threshold_pct new).
(** [apply_runtime_config]: whether a change is reported; nothing else is done about it. *)
Definition any_changed (prev new : GatewayConfig) : bool :=
  changed (A := TokenBucket.RateLimitAlgorithm) rate_limit_algorithm prev new
  || changed (A := Router.RoutingStrategyType) routing_strategy prev new
  || notification_changed (notification prev) (notification new)
  || (changed (A := option Z) request_timeout_secs prev new || changed (A := Z) http_timeout_secs prev new
      || changed (A := option Z) stream_keepalive_secs prev new || changed (A := option Z) stream_ttft_timeout_secs prev new)
  || (changed (A := Z) max_retries prev new || changed (A := Z) retry_base_ms prev new || changed (A := Z) retry_max_ms prev new)
  || (changed (A := Z) cache_ttl_secs prev new || changed (A := Z) max_cache_entries prev new
      || changed (A := string) cache_mode prev new).
End Reloading.

(** ** The command line (bin/cli.rs) *)
Module Cli.
Import Json Gateway ConfigFile.

(** [-v] and [-q] are counted in eight bits. *)
Definition resolve_log_level (log_level : option string) (verbose quiet : Z) : string :=
  match log_level with
  | Some level => level
  | None =>
      if (verbose =? 0) && (quiet =? 0) then "info"
      else if (quiet =? 0) && (2 <=? verbose) then "trace"
      else if (quiet =? 0) && (1 <=? verbose) then "debug"
      else if (verbose =? 0) && (2 <=? quiet) then "error"
      else if (verbose =? 0) && (1 <=? quiet) then "warn"
      else "info"
  end.

Section commands.
Context (parse : string → option Document) (print : AppConfig → option string).

(** The address that is served; without one the process has exited. *)
Definition cmd_serve (explicit : option File) (host_arg : option string) (port_arg : option Z) (f : Fault) (d : Disk)
    : Disk * option (string * Z) :=
  let '(d, c) := build_infra parse print explicit f d in
  (d, (λ '(c, _), (default (host (gateway c)) host_arg, default (port (gateway c)) port_arg)) <$> c).
(** The exit status; a file that is there is left alone. *)
Definition cmd_init (f : Fault) (d : Disk) : Disk * Z :=
  match config_file d with
  | Absent => let '(d, saved) := save print f default_config d in (d, if saved : bool then 0 else 1)
  | _ => (d, 1)
  end.
(** What the two other commands read: without [--config] a file that is missing is made. *)
Definition read_either (explicit : option File) (f : Fault) (d : Disk) : Disk * option AppConfig :=
  match explicit with Some file => (d, load_from parse file) | None => load parse print f d end.
(** What is shown of a file that is valid: the address, the channels and those of them
    that are enabled, the strategy, whether channels are probed, and the chains of
    fallbacks. *)
Record Summary := mkSummary {
  s_host : string; s_port : Z; s_channels : nat; s_enabled : nat; s_routing : Router.RoutingStrategyType;
  s_health_check : bool; s_fallbacks : nat;
}.
Definition summary (c : AppConfig) : Summary :=
  let g := gateway c in
  mkSummary (host g) (port g) (length (channels c)) (length (List.filter Channel.c_enabled (channels c)))
    (routing_strategy g) (health_check_enabled g) (size (model_fallbacks g : gmap string (list string))).
Definition cmd_validate (explicit : option File) (f : Fault) (d : Disk) : Disk * option Summary :=
  let '(d, c) := read_either explicit f d in (d, summary <$> c).
(** A line of the table of channels; the columns are padded when they are shown. *)
Definition channel_line (ch : Channel.ChannelConfig) : string * string * Z * Z * string * string :=
  (Channel.c_id ch, Channel.c_provider ch, Channel.c_priority ch, Channel.c_weight ch,
   if Channel.c_enabled ch then "yes" else "no", Channel.c_name ch).
Definition cmd_channels (explicit : option File) (f : Fault) (d : Disk)
    : Disk * option (list (string * string * Z * Z * string * string)) :=
  let '(d, c) := read_either explicit f d in (d, map channel_line ∘ channels <$> c).
End commands.

(** What is shown of a running gateway. *)
Record Shown := mkShown { status : string; version : string; uptime : Z; total : Z; healthy : Z }.
Definition status_url (url : string) : string := trim_end_slashes url +:+ "/health".
Definition shown (body : Json.value) : Shown :=
  let channels := get body "channels" in
  mkShown (default "unknown" (get body "status" ≫= as_str)) (default "?" (get body "version" ≫= as_str))
    (default 0 (get body "uptime_secs" ≫= as_u64))
    (default 0 (channels ≫= λ c, get c "total" ≫= as_u64)) (default 0 (channels ≫= λ c, get c "healthy" ≫= as_u64)).
(** [send] gives nothing if there is no answer, and the document of the body if it is one. *)
Definition cmd_status (send : string → option (option Json.value)) (url : string) : Z * option Shown :=
  match send (status_url url) with
  | Some (Some body) => (0, Some (shown body))
  | _ => (1, None)
  end.

(** [pid as i32] *)
Definition to_i32 (pid : Z) : Z := if pid <? 2 ^ 31 then pid else pid - 2 ^ 32.
(** The process file, if it is there, holds a text or cannot be read; [kill] says
    whether the signal was sent. What is left of the file, who was signalled, and the
    exit status. *)
Definition cmd_stop (kill : Z → bool) (pid_file : option (option string)) : option (option string) * option Z * Z :=
  match pid_file with
  | None => (None, None, 1)
  | Some text =>
      match parse_uint u32_max (trim (default "" text)) with
      | None => (pid_file, None, 1)
      | Some pid => (None, Some (to_i32 pid), if kill (to_i32 pid) then 0 else 1)
      end
  end.
(** What [start_gateway] writes. *)
Definition pid_text (pid : Z) : string := pretty pid.
End Cli.

Module ConfigProps.
Import Gateway ConfigFile.

(** A table without any key. *)
Definition no_keys : GatewayOf option.
Proof. constructor; exact None. Defined.
(** The defaults written for the missing keys of a file and those of the default
    configuration, two lists of the source, are the same. *)
Theorem empty_gateway_is_default : fill no_keys = default_gateway.
Proof. reflexivity. Qed.

(** What is given of an optional setting: there is no way to write that it is none. *)
Definition given_option {A} (o : option A) : option (option A) := match o with Some _ => Some o | None => None end.
(** The table in which all settings are given that can be. *)
Definition table_of (g : GatewayConfig) : GatewayOf option :=
  mkGateway option
    (Some (g.(port))) (Some (g.(host))) (Some (g.(circuit_breaker_minutes))) (Some (g.(max_retries)))
    (Some (g.(model_fallbacks))) (Some (g.(context_window_fallbacks))) (Some (g.(model_aliases)))
    (Some (g.(routing_strategy))) (Some (g.(health_check_interval_secs))) (Some (g.(health_check_enabled)))
    (given_option (g.(admin_token))) (Some (g.(admin_tokens))) (given_option (g.(web_console_dir)))
    (Some (g.(allow_open_proxy))) (Some (g.(drain_timeout_secs))) (given_option (g.(request_timeout_secs)))
    (given_option (g.(stream_keepalive_secs))) (Some (g.(cache_ttl_secs))) (Some (g.(max_cache_entries)))
    (Some (g.(cache_mode))) (Some (g.(http_timeout_secs))) (Some (g.(affinity_ttl_secs)))
    (Some (g.(log_max_entries))) (Some (g.(quota_poll_interval_secs))) (Some (g.(mcp_max_iterations)))
    (Some (g.(mcp_auto_inject))) (Some (g.(sanitizer))) (Some (g.(mcp_gateway_enabled)))
    (given_option (g.(stream_ttft_timeout_secs))) (Some (g.(http_pool_size))) (Some (g.(provider_budgets)))
    (Some (g.(retry_base_ms))) (Some (g.(retry_max_ms))) (Some (g.(model_retry_overrides)))
    (given_option (g.(allowed_origins))) (Some (g.(nonstream_keepalive_interval_secs)))
    (Some (g.(passthrough_headers))) (Some (g.(log_max_file_size_mb))) (Some (g.(log_max_files)))
    (Some (g.(stream_bootstrap_retries))) (Some (g.(disable_cooling))) (Some (g.(disable_image_generation)))
    (Some (g.(model_groups))) (Some (g.(model_pricing))) (Some (g.(completion_ratios)))
    (Some (g.(group_ratios))) (Some (g.(tls))) (Some (g.(notification))) (Some (g.(rate_limit_algorithm)))
    (Some (g.(auth))) (given_option (g.(redis))).
Definition document_of (c : AppConfig) : Document :=
  mkDocument (Some (table_of (gateway c))) (Some (channels c)) (Some (mcp_servers c)).
Definition settled (c : AppConfig) : Prop := (stream_ttft_timeout_secs (gateway c) : option Z) ≠ None.

Lemma or_given {A} (d : option A) (o : as_is (option A)) : (o : option A) ≠ None ∨ d = None → or_default d (given_option o) = o.
Proof. destruct o; [done|]. by intros [?| ->]. Qed.
Lemma fill_table (g : GatewayConfig) : (stream_ttft_timeout_secs g : option Z) ≠ None → fill (table_of g) = g.
Proof.
  destruct g. intros H. unfold fill, table_of. cbn [stream_ttft_timeout_secs] in H. cbn -[default_stream_ttft_timeout_secs].
  rewrite !or_given by (by left + by right). reflexivity.
Qed.

Section file.
Context (parse : string → option Document) (print : AppConfig → option string).

Lemma save_cases f c d :
  (save print f c d).1 = d ∧ (save print f c d).2 = false ∨
  ∃ t, print c = Some t ∧
    ((save print f c d).2 = true ∧ f = Fine ∧ (save print f c d).1 = mkDisk (Text t) None ∨
     (save print f c d).2 = false ∧ ∃ left, (save print f c d).1 = mkDisk (config_file d) (Some left)).
Proof.
  unfold save. destruct f; [| by left| |]; (destruct (print c) as [t|]; [|by left]); right; exists t; (split; [done|]); cbn; eauto.
Qed.

(** A save that reports success has put the new text into place; after any other, and
    wherever it is interrupted, the file is what it was. *)
Theorem config_save_atomic f c d d' ok :
  save print f c d = (d', ok) →
  if ok : bool then ∃ t, print c = Some t ∧ config_file d' = Text t else config_file d' = config_file d.
Proof.
  intros E. destruct (save_cases f c d) as [[H1 H2]|(t&Ht&[(H1&_&H2)|(H1&left&H2)])]; rewrite E in H1, H2; cbn in H1, H2; subst; eauto.
Qed.

(** C32. A file that is there and cannot be read, or does not parse, or lacks one of the two
    tables, is left alone. With [--config] the gateway does not start; without, it
    starts with the default configuration, in which there are no tokens. Then every request
    to the administration is let through if MODELSWITCH_ADMIN_TOKEN ([env]) is not set, and
    if it is, only those that present it. *)
Theorem broken_config_opens f d env addresses req now :
  config_file d ≠ Absent → read_file parse (config_file d) = None →
  build_infra parse print (Some (config_file d)) f d = (d, None) ∧
  build_infra parse print None f d = (d, Some (default_config, 8)) ∧
  let sec := Settings.security env (admin_token (gateway default_config)) (admin_tokens (gateway default_config)) in
  let verdict := Gate.admin_auth_middleware sec addresses req now in
  match env with
  | None => verdict = (addresses, Gate.Next None)
  | Some t => ∀ role, verdict.2 = Gate.Next role →
      ∃ h, Gate.header req "Authorization" = Some h ∧ Gate.verify_bearer_token h t = true
  end.
Proof.
  intros Ha Hr. unfold build_infra, load_from, load. rewrite Hr. split_and!; [done| |].
  { destruct (config_file d); [done|done|]. by rewrite Hr. }
  destruct env as [t|]; [|done]. intros role. unfold Gate.admin_auth_middleware. cbn.
  destruct (Lockout.is_rate_limited _ _ _); [done|]. destruct (Gate.header req "Authorization") as [h|]; [|done].
  unfold Gate.role_of. cbn. destruct (Gate.verify_bearer_token h t) eqn:Ev; [|done]. intros _. by exists h.
Qed.

(** What is relied on: what has been printed of a configuration is read as all of its
    settings that are not none, and nothing is read as an optional setting that is none. *)
Definition faithful (c : AppConfig) : Prop := ∀ t, print c = Some t → parse t = Some (document_of c).
Context (parse_given : ∀ t doc g, parse t = Some doc → d_gateway doc = Some g → stream_ttft_timeout_secs g ≠ Some None).

Lemma read_printed c t : settled c → faithful c → print c = Some t → read_file parse (Text t) = Some c.
Proof. intros Hs Hf Ht. cbn. rewrite (Hf t Ht). cbn. rewrite fill_table by done. by destruct c. Qed.
Lemma read_settled file c : read_file parse file = Some c → settled c.
Proof.
  unfold read_file. destruct file as [| |t]; [done..|]. destruct (parse t) as [doc|] eqn:Ep; [|done]. cbn. unfold read_config.
  destruct (d_gateway doc) as [g|] eqn:Eg; [|done]. cbn. destruct (d_channels doc) as [cs|]; [|done]. intros [= <-].
  pose proof (parse_given t doc g Ep Eg) as H. unfold settled. cbn.
  destruct (stream_ttft_timeout_secs g) as [o|]; [|done]. intros Ho. cbn in Ho. apply H. by f_equal.
Qed.
Lemma load_settled f d d' c : load parse print f d = (d', Some c) → settled c.
Proof.
  unfold load. destruct (config_file d) eqn:E.
  - destruct (save _ _ _ _) as [d1 []]; [|done]. by intros [= _ <-].
  - done.
  - intros [= _ H]. exact (read_settled (Text t) c H).
Qed.

(** A configuration that has been loaded can have its channels and tool servers
    changed and be saved, as the handlers do: it is then loaded as it was saved. *)
Theorem config_reloads f d d1 c cs servers d2 f' :
  load parse print f d = (d1, Some c) → faithful (mkConfig (gateway c) cs servers) →
  save print Fine (mkConfig (gateway c) cs servers) d1 = (d2, true) →
  load parse print f' d2 = (d2, Some (mkConfig (gateway c) cs servers)).
Proof.
  intros Hl Hf Hs. apply load_settled in Hl. apply config_save_atomic in Hs as (t&Ht&Ed).
  unfold load. rewrite Ed. f_equal. by apply read_printed.
Qed.

(** *** The file as the administration of tool servers sees it *)

Definition seen (d : Disk) : ServerAdmin.ConfigFile :=
  match config_file d with
  | Absent => ServerAdmin.NoFile
  | file => match read_file parse file with Some c => ServerAdmin.Holds (mcp_servers c) | None => ServerAdmin.Broken end
  end.
Definition works (f : Fault) (c : AppConfig) : bool :=
  match f with Fine => match print c with Some _ => true | None => false end | _ => false end.
Lemma save_works f c d : settled c → faithful c →
  (save print f c d).2 = works f c ∧ seen (save print f c d).1 = if works f c then ServerAdmin.Holds (mcp_servers c) else seen d.
Proof.
  intros Hs Hf. unfold save, works. destruct f; [| done|by destruct (print c)..].
  destruct (print c) as [t|] eqn:E; [|done]. split; [done|]. unfold seen. cbn [config_file fst]. by rewrite (read_printed c t Hs Hf E).
Qed.

(** Of a file they see its tool servers only: loading and saving it do to these what
    the handlers' own model of the file says. *)
Theorem server_file_refined f d c : settled c → faithful c → faithful default_config →
  (let '(d', r) := load parse print f d in
   ServerAdmin.load (works f default_config) (seen d) = (seen d', mcp_servers <$> r)) ∧
  (let '(d', saved) := save print f c d in
   ServerAdmin.save (works f c) (mcp_servers c) (seen d) = (seen d', saved)).
Proof.
  intros Hs Hf Hd. split.
  - unfold load. destruct (config_file d) eqn:E.
    + pose proof (save_works f default_config d ltac:(done) Hd) as [H1 H2].
      destruct (save _ f default_config d) as [d' ok]. cbn [fst snd] in H1, H2. rewrite H2, H1.
      assert (seen d = ServerAdmin.NoFile) as -> by (unfold seen; by rewrite E). by destruct (works f default_config).
    + unfold seen. rewrite E. done.
    + unfold seen. rewrite E. by destruct (read_file parse (Text t)).
  - pose proof (save_works f c d Hs Hf) as [H1 H2]. destruct (save _ f c d) as [d' ok]. cbn [fst snd] in H1, H2. rewrite H1, H2.
    unfold ServerAdmin.save. by destruct (works f c).
Qed.
End file.
End ConfigProps.

Module ReloadingProps.
Import Gateway Watcher Reloading.

Lemma same_iff {A} `{EqDecision A} (x y : A) : config_changed x y = false ↔ x = y.
Proof. unfold config_changed. by rewrite negb_false_iff, bool_decide_eq_true. Qed.

(** No change is reported when, and only when, these settings are the same: tokens,
    aliases, fallbacks, limits of providers, the guardrail and the mail server can all
    be others. *)
Theorem reload_reports prev new :
  any_changed prev new = false ↔
    (rate_limit_algorithm prev = rate_limit_algorithm new ∧ routing_strategy prev = routing_strategy new) ∧
    (let p := notification prev : Notification.NotificationConfig in let n := notification new : Notification.NotificationConfig in
     Notification.webhook_url p = Notification.webhook_url n ∧ Notification.webhook_secret p = Notification.webhook_secret n ∧
     Notification.bark_url p = Notification.bark_url n ∧ Notification.budget_threshold_pct p = Notification.budget_threshold_pct n) ∧
    (request_timeout_secs prev = request_timeout_secs new ∧ http_timeout_secs prev = http_timeout_secs new ∧
     stream_keepalive_secs prev = stream_keepalive_secs new ∧ stream_ttft_timeout_secs prev = stream_ttft_timeout_secs new) ∧
    (max_retries prev = max_retries new ∧ retry_base_ms prev = retry_base_ms new ∧ retry_max_ms prev = retry_max_ms new) ∧
    (cache_ttl_secs prev = cache_ttl_secs new ∧ max_cache_entries prev = max_cache_entries new ∧ cache_mode prev = cache_mode new).
Proof.
  unfold any_changed, changed, notification_changed. rewrite !orb_false_iff, !same_iff. cbn zeta. tauto.
Qed.
End ReloadingProps.

Module CliProps.
Import Cli.

(** *** Text without spaces is not trimmed *)

Fixpoint spaceless (s : string) : Prop :=
  match s with EmptyString => True | String c s' => is_space c = false ∧ spaceless s' end.
Lemma spaceless_trim s : spaceless s → trim s = s.
Proof.
  assert (∀ s, spaceless s → trim_end s = s) as He.
  { clear. intros s. induction s as [|c s IH]; [done|]. intros [Hc Hs]. cbn. by rewrite IH, Hc by done. }
  intros Hs. unfold trim. destruct s as [|c s]; [done|]. cbn [trim_start]. destruct Hs as [Hc Hs]. rewrite Hc. by apply He.
Qed.
Lemma pretty_char_spaceless y : (y < 10)%N → is_space (pretty_N_char y) = false.
Proof. intros H. do 10 (destruct y as [|y] using N.peano_ind; [done|clear IHy]). lia. Qed.
Lemma pretty_spaceless z : 0 < z → spaceless (pretty z).
Proof.
  destruct z as [|x|x]; [done| |done]. intros _. change (pretty (Zpos x)) with (pretty (Npos x)). unfold pretty, pretty_N.
  destruct (decide _); [done|]. assert (∀ n s, spaceless s → spaceless (pretty_N_go n s)) as H; [|by apply H].
  clear. intros n. induction (N.lt_wf_0 n) as [n _ IH]. intros s Hs. destruct (decide (n = 0)%N) as [->|Hn].
  { by rewrite pretty_N_go_0. }
  rewrite pretty_N_go_step by lia. apply IH; [apply N.div_lt; lia|]. split; [|done]. apply pretty_char_spaceless, N.mod_lt. lia.
Qed.

(** Stopping signals nobody when the process file is missing or does not hold a number;
    otherwise the number it holds, taken for a signed one, and the file goes, whether
    the signal was sent or not. The number of a gateway that wrote the file is its own;
    one beyond the signed ones becomes that of a group of processes, or of all. *)
Theorem stop_signals kill text pid :
  cmd_stop kill None = (None, None, 1) ∧
  (parse_uint u32_max (trim text) = None → cmd_stop kill (Some (Some text)) = (Some (Some text), None, 1)) ∧
  (0 < pid < 2 ^ 31 → cmd_stop kill (Some (Some (pid_text pid))) = (None, Some pid, if kill pid then 0 else 1)) ∧
  (2 ^ 31 ≤ pid < 2 ^ 32 →
     cmd_stop kill (Some (Some (pid_text pid))) = (None, Some (pid - 2 ^ 32), if kill (pid - 2 ^ 32) then 0 else 1) ∧ pid - 2 ^ 32 < 0).
Proof.
  assert (∀ pid, 0 < pid < 2 ^ 32 → parse_uint u32_max (trim (pid_text pid)) = Some pid) as Hp.
  { intros p Hb. unfold pid_text. rewrite spaceless_trim by (apply pretty_spaceless; lia).
    apply (LoginFacts.parse_pretty u32_max). unfold u32_max. lia. }
  unfold cmd_stop. cbn [default from_option id]. split_and!; [done|by intros ->|intros H..].
  - rewrite Hp by lia. unfold to_i32. by rewrite (proj2 (Z.ltb_lt pid (2 ^ 31))) by lia.
  - rewrite Hp by lia. unfold to_i32. rewrite (proj2 (Z.ltb_ge pid (2 ^ 31))) by lia. split; [done|lia].
Qed.
(** Zero is the group of the process that stops. *)
Example stop_all :
  cmd_stop (λ _, true) (Some (Some "4294967295")) = (None, Some (-1), 0) ∧
  cmd_stop (λ _, true) (Some (Some "0")) = (None, Some 0, 0).
Proof. split; vm_compute; reflexivity. Qed.

(** The commands that read the file agree: what one refuses all refuse, and what is
    served is the address of a file that is valid, if none is given with the command.
    They differ without [--config] for a file that is there and is not valid: checking it
    fails, and serving it serves the default configuration. *)
Theorem validated_is_served parse print explicit f d host_arg port_arg :
  let served := (cmd_serve parse print explicit host_arg port_arg f d).2 in
  let valid := (cmd_validate parse print explicit f d).2 in
  let listed := (cmd_channels parse print explicit f d).2 in
  (valid = None ↔ listed = None) ∧
  (∀ s l, valid = Some s → listed = Some l →
     served = Some (default (s_host s) host_arg, default (s_port s) port_arg) ∧ length l = s_channels s) ∧
  (valid = None → served =
     match explicit with
     | Some _ => None
     | None => Some (default Gateway.default_host host_arg, default Gateway.default_port port_arg)
     end).
Proof.
  cbn zeta. unfold cmd_serve, cmd_validate, cmd_channels, ConfigFile.build_infra, read_either. destruct explicit as [file|].
  - cbn. destruct (ConfigFile.load_from parse file) as [c|]; cbn; [|done].
    split_and!; [done| |done]. intros s l [= <-] [= <-]. by rewrite length_map.
  - destruct (ConfigFile.load parse print f d) as [d' [c|]]; cbn; [|done].
    split_and!; [done| |done]. intros s l [= <-] [= <-]. by rewrite length_map.
Qed.

(** A level that is asked for by name wins; more [-v] or [-q] never go the other way, and
    both together cancel out. *)
Theorem log_levels log_level verbose quiet : 0 ≤ verbose → 0 ≤ quiet →
  resolve_log_level log_level verbose quiet =
    default (match Z.min 2 verbose, Z.min 2 quiet with
             | 1, 0 => "debug" | 2, 0 => "trace" | 0, 1 => "warn" | 0, 2 => "error" | _, _ => "info"
             end) log_level.
Proof.
  intros Hv Hq. unfold resolve_log_level. destruct log_level; [done|]. cbn [default from_option].
  assert (∀ x, 0 ≤ x → (x = 0 ∧ Z.min 2 x = 0) ∨ (x = 1 ∧ Z.min 2 x = 1) ∨ (2 ≤ x ∧ Z.min 2 x = 2)) as H by (intros; lia).
  destruct (H verbose Hv) as [[-> ->]|[[-> ->]|[Hv' ->]]], (H quiet Hq) as [[-> ->]|[[-> ->]|[Hq' ->]]]; try reflexivity;
    repeat match goal with |- context [?x =? 0] => is_var x; rewrite (proj2 (Z.eqb_neq x 0)) by lia end; cbn;
    rewrite ?(proj2 (Z.leb_le 2 _)) by lia; reflexivity.
Qed.
End CliProps.

Module ConfigSample.
Import Gateway ConfigFile ConfigProps.

(** A configuration with one tool server, its text, and how it is read. *)
Definition server : Manager.McpServerConfig := Manager.mkServerConfig "fs" "files" "npx" [] ∅ None true true.
Definition sample : AppConfig := mkConfig default_gateway [] [server].
Definition parse (t : string) : option Document :=
  if String.eqb t "[gateway]" then Some (mkDocument (Some no_keys) (Some []) None)
  else if String.eqb t "[[mcp_servers]]" then Some (document_of sample) else None.
Definition print (c : AppConfig) : option string :=
  match mcp_servers c with [] => Some "[gateway]" | _ => Some "[[mcp_servers]]" end.
Lemma sample_faithful : faithful parse print sample.
Proof. intros t [= <-]. reflexivity. Qed.
Lemma parse_given t doc g : parse t = Some doc → d_gateway doc = Some g → stream_ttft_timeout_secs g ≠ Some None.
Proof.
  unfold parse. destruct (String.eqb t "[gateway]"); [by intros [= <-] [= <-]|].
  destruct (String.eqb t "[[mcp_servers]]"); [by intros [= <-] [= <-]|done].
Qed.

Lemma config_save_atomic_witness :
  save print (WriteStops 3) sample (mkDisk (Text "[gateway]") None) = (mkDisk (Text "[gateway]") (Some "[[m"), false) ∧
  config_file (mkDisk (Text "[gateway]") (Some "[[m")) = Text "[gateway]".
Proof.
  split; [reflexivity|]. exact (config_save_atomic print (WriteStops 3) sample (mkDisk (Text "[gateway]") None) _ false eq_refl).
Defined.
Lemma broken_config_opens_witness :
  (build_infra parse print None Fine (mkDisk (Text "port = 80") None)).2 = Some (default_config, 8) ∧
  (build_infra parse print (Some (Text "port = 80")) Fine (mkDisk (Text "port = 80") None)).2 = None.
Proof.
  destruct (broken_config_opens parse print Fine (mkDisk (Text "port = 80") None) None ∅
    (Gate.mkRequest (Some "10.0.0.1") (λ _, None)) 0 ltac:(done) eq_refl) as (H1&H2&_).
  cbn [config_file] in H1. by rewrite H1, H2.
Defined.
Lemma config_reloads_witness :
  load parse print Fine (mkDisk (Text "[[mcp_servers]]") None) = (mkDisk (Text "[[mcp_servers]]") None, Some sample).
Proof.
  exact (config_reloads parse print parse_given Fine (mkDisk (Text "[gateway]") None) (mkDisk (Text "[gateway]") None)
    default_config [] [server] (mkDisk (Text "[[mcp_servers]]") None) Fine eq_refl sample_faithful eq_refl).
Defined.
Lemma server_file_refined_witness :
  ServerAdmin.load true ServerAdmin.NoFile = (ServerAdmin.Holds [], Some []).
Proof.
  assert (faithful (λ _, Some (document_of default_config)) (λ _, Some "[gateway]") default_config) as H by done.
  exact (proj1 (server_file_refined (λ _, Some (document_of default_config)) (λ _, Some "[gateway]") Fine
    (mkDisk Absent None) default_config ltac:(done) H H)).
Defined.

(** What a first start writes is what a later one reads. *)
Example init_then_load :
  let '(d, code) := Cli.cmd_init print Fine (mkDisk Absent None) in
  code = 0 ∧ load parse print Fine d = (d, Some default_config).
Proof. split; reflexivity. Qed.
(** A time to the first token that is none would not survive. *)
Definition no_times : GatewayOf option.
Proof. constructor; match goal with |- option (option Z) => exact (Some None) | _ => exact None end. Defined.
Example ttft_none_lost : ¬ settled (mkConfig (fill no_times) [] []).
Proof. intros H. by apply H. Qed.
End ConfigSample.
