(* ===== verification/Machine.v ===== *)
(** The state the proxy shares (proxy/state.rs) and the machine the request
    handlers run on.

    A handler is a program of operations.  Each operation is atomic (it holds
    the lock it needs to its end) and is one call of a component; between two
    operations other requests may change the shared state in any way.  What
    the outside decides (the time, random draws, what an upstream answers) is
    a reading, one per operation. *)

From S2P Require Import Prelude F64 Json PayloadRules Channel ChannelManager RedisRateLimit.
From S2P Require Import RateLimiter Trackers Router Affinity Fallback PersistedStore.
From S2P Require Import VirtualKey Cache Guardrails ProviderBudget Quota ModelRegistry Usage.
From S2P Require Import Translate Provider Mcp.

Module App.

(** [ProxyParams], the fields the dispatch reads. *)
Record ProxyParams := mkParams {
  request_timeout_secs : option Z;
  stream_keepalive_secs : option Z;
  stream_ttft_timeout_secs : option Z;
  max_retries : Z;
  model_fallbacks : gmap string (list string);
  context_window_fallbacks : gmap string (list string);
  model_aliases : gmap string string;
  retry_base_ms : Z;
  retry_max_ms : Z;
  model_retry_overrides : gmap string Fallback.Fallback.ModelRetryConfig;
  nonstream_keepalive_interval_secs : Z;
  passthrough_headers : list string;
  stream_bootstrap_retries : Z;
  model_groups : gmap string (list string);
  model_pricing : gmap string Cost.ModelPricing;
  completion_ratios : gmap string F64.f64;
}.

(** The shared stores of [AppState]. *)
Record AppState := mkApp {
  channel_mgr : ChannelManager.ChannelManager.ChannelManager;
  model_registry : ModelRegistry.ModelRegistry.ModelRegistry;
  session_affinity : Affinity.Affinity.AffinityState;
  active_requests : gmap Uuid Z;
  latency_tracker : gmap Uuid (list (Z * option Z));
  cooldown_tracker : Cooldown.CooldownTracker;
  request_cache : Cache.Cache.RequestCache;
  in_flight : InFlight.state;
  payload_rules : gmap Uuid PayloadRules.Rules.ChannelRules;
  rate_limiter : RateLimiter.RateLimiter.RateLimiter;
  redis : Redis.Db;
  quota_store : gmap Uuid Quota.Quota.QuotaInfo;
  virtual_key_store : VirtualKey.VirtualKey.VirtualKeyStore;
  provider_budgets : ProviderBudget.ProviderBudget.ProviderBudgetStore;
  key_rate_limiter : KeyRateLimiter.KeyRateLimiter;
  guardrails : Guardrails.Guardrails.GuardrailsConfig;
  routing_strategy : Router.Router.RoutingStrategyType;
  mcp_manager : Mcp.Manager.McpManager;
}.
Definition set_channel_mgr (v : ChannelManager.ChannelManager.ChannelManager) (s : AppState) : AppState :=
  mkApp v (model_registry s) (session_affinity s) (active_requests s) (latency_tracker s)
    (cooldown_tracker s) (request_cache s) (in_flight s) (payload_rules s) (rate_limiter
    s) (redis s) (quota_store s) (virtual_key_store s) (provider_budgets s)
    (key_rate_limiter s) (guardrails s) (routing_strategy s)
    (mcp_manager s).
Definition set_session_affinity (v : Affinity.Affinity.AffinityState) (s : AppState) : AppState :=
  mkApp (channel_mgr s) (model_registry s) v (active_requests s) (latency_tracker s)
    (cooldown_tracker s) (request_cache s) (in_flight s) (payload_rules s) (rate_limiter
    s) (redis s) (quota_store s) (virtual_key_store s) (provider_budgets s)
    (key_rate_limiter s) (guardrails s) (routing_strategy s)
    (mcp_manager s).
Definition set_active_requests (v : gmap Uuid Z) (s : AppState) : AppState :=
  mkApp (channel_mgr s) (model_registry s) (session_affinity s) v (latency_tracker s)
    (cooldown_tracker s) (request_cache s) (in_flight s) (payload_rules s) (rate_limiter
    s) (redis s) (quota_store s) (virtual_key_store s) (provider_budgets s)
    (key_rate_limiter s) (guardrails s) (routing_strategy s)
    (mcp_manager s).
Definition set_latency_tracker (v : gmap Uuid (list (Z * option Z))) (s : AppState) : AppState :=
  mkApp (channel_mgr s) (model_registry s) (session_affinity s) (active_requests s) v
    (cooldown_tracker s) (request_cache s) (in_flight s) (payload_rules s) (rate_limiter
    s) (redis s) (quota_store s) (virtual_key_store s) (provider_budgets s)
    (key_rate_limiter s) (guardrails s) (routing_strategy s)
    (mcp_manager s).
Definition set_cooldown_tracker (v : Cooldown.CooldownTracker) (s : AppState) : AppState :=
  mkApp (channel_mgr s) (model_registry s) (session_affinity s) (active_requests s)
    (latency_tracker s) v (request_cache s) (in_flight s) (payload_rules s) (rate_limiter
    s) (redis s) (quota_store s) (virtual_key_store s) (provider_budgets s)
    (key_rate_limiter s) (guardrails s) (routing_strategy s)
    (mcp_manager s).
Definition set_request_cache (v : Cache.Cache.RequestCache) (s : AppState) : AppState :=
  mkApp (channel_mgr s) (model_registry s) (session_affinity s) (active_requests s)
    (latency_tracker s) (cooldown_tracker s) v (in_flight s) (payload_rules s)
    (rate_limiter s) (redis s) (quota_store s) (virtual_key_store s) (provider_budgets s)
    (key_rate_limiter s) (guardrails s) (routing_strategy s)
    (mcp_manager s).
Definition set_in_flight (v : InFlight.state) (s : AppState) : AppState :=
  mkApp (channel_mgr s) (model_registry s) (session_affinity s) (active_requests s)
    (latency_tracker s) (cooldown_tracker s) (request_cache s) v (payload_rules s)
    (rate_limiter s) (redis s) (quota_store s) (virtual_key_store s) (provider_budgets s)
    (key_rate_limiter s) (guardrails s) (routing_strategy s)
    (mcp_manager s).
Definition set_rate_limiter (v : RateLimiter.RateLimiter.RateLimiter) (s : AppState) : AppState :=
  mkApp (channel_mgr s) (model_registry s) (session_affinity s) (active_requests s)
    (latency_tracker s) (cooldown_tracker s) (request_cache s) (in_flight s)
    (payload_rules s) v (redis s) (quota_store s) (virtual_key_store s) (provider_budgets
    s) (key_rate_limiter s) (guardrails s) (routing_strategy s)
    (mcp_manager s).
Definition set_redis (v : Redis.Db) (s : AppState) : AppState :=
  mkApp (channel_mgr s) (model_registry s) (session_affinity s) (active_requests s)
    (latency_tracker s) (cooldown_tracker s) (request_cache s) (in_flight s)
    (payload_rules s) (rate_limiter s) v (quota_store s) (virtual_key_store s)
    (provider_budgets s) (key_rate_limiter s) (guardrails s) (routing_strategy s)
    (mcp_manager s).
Definition set_quota_store (v : gmap Uuid Quota.Quota.QuotaInfo) (s : AppState) : AppState :=
  mkApp (channel_mgr s) (model_registry s) (session_affinity s) (active_requests s)
    (latency_tracker s) (cooldown_tracker s) (request_cache s) (in_flight s)
    (payload_rules s) (rate_limiter s) (redis s) v (virtual_key_store s) (provider_budgets
    s) (key_rate_limiter s) (guardrails s) (routing_strategy s)
    (mcp_manager s).
Definition set_virtual_key_store (v : VirtualKey.VirtualKey.VirtualKeyStore) (s : AppState) : AppState :=
  mkApp (channel_mgr s) (model_registry s) (session_affinity s) (active_requests s)
    (latency_tracker s) (cooldown_tracker s) (request_cache s) (in_flight s)
    (payload_rules s) (rate_limiter s) (redis s) (quota_store s) v (provider_budgets s)
    (key_rate_limiter s) (guardrails s) (routing_strategy s)
    (mcp_manager s).
Definition set_provider_budgets (v : ProviderBudget.ProviderBudget.ProviderBudgetStore) (s : AppState) : AppState :=
  mkApp (channel_mgr s) (model_registry s) (session_affinity s) (active_requests s)
    (latency_tracker s) (cooldown_tracker s) (request_cache s) (in_flight s)
    (payload_rules s) (rate_limiter s) (redis s) (quota_store s) (virtual_key_store s) v
    (key_rate_limiter s) (guardrails s) (routing_strategy s)
    (mcp_manager s).
Definition set_key_rate_limiter (v : KeyRateLimiter.KeyRateLimiter) (s : AppState) : AppState :=
  mkApp (channel_mgr s) (model_registry s) (session_affinity s) (active_requests s)
    (latency_tracker s) (cooldown_tracker s) (request_cache s) (in_flight s)
    (payload_rules s) (rate_limiter s) (redis s) (quota_store s) (virtual_key_store s)
    (provider_budgets s) v (guardrails s) (routing_strategy s)
    (mcp_manager s).

Definition set_mcp_manager (v : Mcp.Manager.McpManager) (s : AppState) : AppState :=
  mkApp (channel_mgr s) (model_registry s) (session_affinity s) (active_requests s)
    (latency_tracker s) (cooldown_tracker s) (request_cache s) (in_flight s)
    (payload_rules s) (rate_limiter s) (redis s) (quota_store s) (virtual_key_store s)
    (provider_budgets s) (key_rate_limiter s) (guardrails s) (routing_strategy s) v.

(** Third-party code and what the standard library leaves open: JSON text,
    digests, identifiers, header syntax, Unicode, the credential store and the
    iteration orders of hash maps. *)
Record Host := mkHost {
  print : Json.value → string;
  parse : string → option Json.value;
  quote : string → string;
  blake3 : string → list Z;
  sha256 : string → list Z;
  show_uuid : Uuid → string;
  parse_uuid : string → option Uuid;
  alphanumeric : string → bool;
  valid_header : string → string → bool;
  credential_get : string → string → option string;
  iter : ∀ A, gmap string A → list (string * A);
  channel_order : gmap Uuid Channel.Channel → list Channel.Channel;
}.

(** *** The upstream *)

Record Request := mkRequest {
  url : string;
  req_headers : list (string * string);
  req_body : Json.value;
}.

(** An answer whose head has arrived.  [text] and [bytes] are what reading
    the body gives (nothing when that fails), [chunks] the body as a stream,
    [keepalives] the intervals that pass while it is read: at most sixteen if these
    send newlines, for with more the request hangs ([Keepalive.slow_body_hangs]) and
    has no run. *)
Record UpstreamResponse := mkUpstream {
  status : Z;
  header : string → option string;
  text : string;
  bytes : string;
  chunks : list Provider.chunk;
  keepalives : nat;
}.

(** What the outside decides at one operation; [forwarded] is the number of
    chunks a stream task has worked off when its buffer is read, and how many
    of them its client was there to receive.  [peer_tools] and [peer_call] are what the
    processes of MCP servers answer. *)
Record Reading := mkReading {
  now : Instant;
  local_date : VirtualKey.VirtualKey.LocalDate;
  rng : Z → Z → Z;
  link : string → bool;
  client_ok : string → bool;
  answer : Request → option UpstreamResponse;
  in_time : Z → bool;
  woken : bool;
  forwarded : nat * option nat;
  simple : string;
  peer_tools : N → list Mcp.Mcp.Tool + string;
  peer_call : N → string → option (gmap string Json.value) → Mcp.Mcp.CallToolResult + string;
}.

(** *** Background tasks and log lines *)

Record LogLine := mkLog {
  l_model : string;
  l_channel_id : Uuid;
  l_channel_name : string;
  l_channel_priority : Z;
  l_retry_count : Z;
  l_reason : option string;
  l_latency_ms : Z;
  l_success : bool;
  l_estimated_cost : option F64.f64;
  l_usage : Usage.TokenUsage;
  l_request_id : option string;
  l_virtual_key_id : option string;
}.

(** [TelemetryRecord], the identity and usage fields. *)
Record TelemetryRecord := mkTelemetry {
  t_channel_id : Uuid;
  t_provider_name : string;
  t_model : string;
  t_usage : Usage.TokenUsage;
  t_cost : option F64.f64;
  t_vk_id : option Uuid;
  t_reserved_cents : Z;
}.

(** What [spawn_bg] is given: the captured variables. *)
Inductive Task :=
  | AfterJson (rec : TelemetryRecord) (log : Z → LogLine) (start : Instant)
  | AfterStream (channel : Channel.Channel) (model : string)
      (pricing : option Cost.ModelPricing) (ratio : F64.f64) (vk_id : option Uuid)
      (reserved_cents : Z) (cache_key : N) (key_material : string)
      (output : nat → option nat → string) (log_id : string).

(** *** The operations *)

Inductive op : Type → Type :=
  (* the request and its key *)
  | Now : op Instant
  | GetAffinity (session_id : string) : op (option Uuid)
  | CheckRequest (body : Json.value) : op Guardrails.Guardrails.GuardrailAction
  | CheckResponse (body : Json.value) : op Guardrails.Guardrails.GuardrailAction
  | GetKey (vk : Uuid) : op (option VirtualKey.VirtualKey.VirtualKey)
  | ReserveSpend (vk : Uuid) (cents : Z) : op VirtualKey.VirtualKey.ReserveResult
  | ReconcileSpend (vk : Uuid) (reserved actual : Z) : op unit
  | AccumulateSpend (vk : Uuid) (cents : Z) : op unit
  | RecordTokens (vk : Uuid) (tokens : Z) : op unit
  (* the cache *)
  | CacheGet (key : N) (material : string) : op (option string)
  | CacheInsert (key : N) (material body : string) : op unit
  | Register (key : N) : op bool
  | WaitInFlight (key : N) : op unit
  | Complete (key : N) : op unit
  (* the choice of a channel *)
  | Capabilities (model : string) : op ModelRegistry.ModelRegistry.ModelCapabilities
  | HasChannel (model : string) : op bool
  | Strategy : op Router.Router.RoutingStrategyType
  | AffinityChannel (u : Uuid) (model : string) (group : option string)
      : op (option Channel.Channel)
  | SelectChannel (model : string) (strategy : Router.Router.RoutingStrategyType)
      (group : option string) : op (option Channel.Channel)
  | CheckProvider (name : string) : op bool
  (* an attempt *)
  | HasRules (u : Uuid) : op bool
  | ApplyRules (u : Uuid) (body : Json.value) (model proto : string) : op Json.value
  | CheckLimiter (u : Uuid) (tokens : Z) : op (bool * string)
  | RecordLimiter (u : Uuid) (tokens : Z) : op unit
  | GetCredential (u : Uuid) : op (option string)
  | Client (proxy_url : string) : op bool
  | Acquire (u : Uuid) : op unit
  | Release (u : Uuid) : op unit
  | Send (r : Request) : op (option UpstreamResponse)
  | SendWithin (secs : Z) (r : Request) : op (option (option UpstreamResponse))
  | MarkCircuitOpen (u : Uuid) : op unit
  | MarkCircuitOpenWithRetry (u : Uuid) (retry_after_secs : option Z) : op unit
  | MarkModelRateLimited (u : Uuid) (model : string) (retry_after_secs : option Z) : op unit
  | RecordAttempt (u : Uuid) (success : bool) : op unit
  | SetAffinity (session_id : string) (u : Uuid) : op unit
  | UpdateRateLimits (u : Uuid) (h : Quota.Quota.Headers) : op unit
  | RecordLatency (u : Uuid) (latency_ms : Z) : op unit
  | TrackLatency (u : Uuid) (latency_ms : Z) (output_tokens : option Z) : op unit
  | AccumulateUsage (u : Uuid) (v : Quota.Quota.Usage) : op unit
  | AccumulateProvider (name : string) (cents : Z) : op unit
  (* the tools of MCP servers *)
  | McpStatus : op (list (string * string * Mcp.Manager.McpServerStatus))
  | McpConfig (id : string) : op (option Mcp.Manager.McpServerConfig)
  | McpPeer (id : string) : op (N + string)
  | McpSetToolCount (id : string) (count : Z) : op unit
  | PeerListTools (peer : N) : op (list Mcp.Mcp.Tool + string)
  | PeerCallTool (peer : N) (name : string) (arguments : option (gmap string Json.value))
      : op (Mcp.Mcp.CallToolResult + string)
  (* the tables, for the other endpoints *)
  | Channels : op (list Channel.Channel)
  | GetChannel (u : Uuid) : op (option Channel.Channel)
  | ImageCandidates (model : string) : op (list Uuid * list Uuid)
  | Registry : op ModelRegistry.ModelRegistry.ModelRegistry
  (* the rest *)
  | RandomRange (lo hi : Z) : op Z
  | NewId : op string
  | Sleep (ms : Z) : op unit
  | Log (l : LogLine) : op unit
  | UpdateLogTokens (log_id : string) (u : Usage.TokenUsage) (cost : option F64.f64) : op unit
  | StreamDone : op (nat * option nat)
  | Spawn (t : Task) : op unit.

(** What an operation does: it answers, it panics, or it waits. *)
Inductive reply (X : Type) :=
  | Answers (x : X) (s : AppState)
  | Panics
  | Waits.
Arguments Answers {X}. Arguments Panics {X}. Arguments Waits {X}.

Section handle.
Context (h : Host) (r : Reading).
Implicit Types (s : AppState).

Definition routing_context s : Router.Router.RoutingContext :=
  Router.Router.mkContext (active_requests s) (rate_limiter s) (latency_tracker s)
    (cooldown_tracker s).

(** [pre_flight_skip_model], the search for a channel. *)
Definition serves s (model : string) (ch : Channel.Channel) : bool :=
  Channel.enabled ch && Channel.is_available ch (now r)
  && negb (Channel.is_model_excluded ch model)
  && (bool_decide (Channel.model_mapping ch = ∅)
      || bool_decide (is_Some (Channel.model_mapping ch !! model)))
  && negb (Cooldown.is_in_cooldown (cooldown_tracker s) (Channel.id ch) (now r)).

(** [select_channel_for_attempt], the branch of the session's channel. *)
Definition affinity_channel s (u : Uuid) (model : string) (group : option string)
    : option Channel.Channel :=
  match ChannelManager.channels (channel_mgr s) !! u with
  | None => None
  | Some ch =>
      let group_ok := match group with
        | None => true
        | Some tag => bool_decide (Channel.account_group ch = Some tag)
                      || bool_decide (Channel.account_group ch = None)
        end in
      let model_ok := bool_decide (Channel.model_mapping ch = ∅)
                      || bool_decide (is_Some (Channel.model_mapping ch !! model)) in
      if group_ok && model_ok && Channel.is_available ch (now r)
         && negb (Cooldown.is_in_cooldown (cooldown_tracker s) (Channel.id ch) (now r))
      then Some (Channel.recover_if_expired (now r) ch) else None
  end.

(** proxy/images.rs, [find_image_channel]: the channels that can serve the model,
    and those that can serve some image model. *)
Definition has_image_model (model : string) (ch : Channel.Channel) : bool :=
  bool_decide (is_Some (Channel.model_mapping ch !! model))
  || existsb (String.eqb model) (map_values (Channel.model_mapping ch))
  || starts_with model (Channel.name ch).
Definition has_image_mapping (ch : Channel.Channel) : bool :=
  existsb (λ k, contains k "dall-e" || contains k "image" || contains k "imagen")
    (map_to_list (Channel.model_mapping ch)).*1.
Definition image_candidates (model : string) (channels : list Channel.Channel)
    : list Uuid * list Uuid :=
  let usable := List.filter (λ ch, Channel.enabled ch && Channel.is_available ch (now r)) channels in
  (Channel.id <$> List.filter (has_image_model model) usable,
   Channel.id <$> List.filter has_image_mapping usable).

Definition handle {X} (o : op X) s : reply X :=
  match o in op Y return reply Y with
  | Now => Answers (now r) s
  | GetAffinity sid =>
      let '(a, u) := Affinity.Affinity.get (session_affinity s) sid (now r) in
      Answers u (set_session_affinity a s)
  | CheckRequest body => Answers (Guardrails.Guardrails.check_request (guardrails s) body) s
  | CheckResponse body => Answers (Guardrails.Guardrails.check_response (guardrails s) body) s
  | GetKey vk => Answers (VirtualKey.VirtualKey.get (virtual_key_store s) vk) s
  | ReserveSpend vk cents =>
      let '(st, x) := VirtualKey.VirtualKey.reserve_spend (virtual_key_store s) vk cents
                        (local_date r) in
      Answers x (set_virtual_key_store st s)
  | ReconcileSpend vk reserved actual =>
      Answers () (set_virtual_key_store
        (VirtualKey.VirtualKey.reconcile_spend (virtual_key_store s) vk reserved actual) s)
  | AccumulateSpend vk cents =>
      Answers () (set_virtual_key_store
        (VirtualKey.VirtualKey.accumulate_spend (virtual_key_store s) vk cents (local_date r)) s)
  | RecordTokens vk tokens =>
      let '(k, db) := KeyRateLimiter.record_tokens (show_uuid h) (link r) (now r)
                        (key_rate_limiter s) vk tokens (redis s) in
      Answers () (set_redis db (set_key_rate_limiter k s))
  | CacheGet key material => Answers (Cache.Cache.get (request_cache s) key material (now r)) s
  | CacheInsert key material body =>
      Answers () (set_request_cache (Cache.Cache.insert (request_cache s) key material body (now r)) s)
  | Register key =>
      let '(f, b) := InFlight.register (in_flight s) key in Answers b (set_in_flight f s)
  | WaitInFlight key =>
      match InFlight.inflight (in_flight s) !! key with
      | None => Answers () s
      | Some _ => if woken r then Answers () s else Waits
      end
  | Complete key => Answers () (set_in_flight (InFlight.complete (in_flight s) key) s)
  | Capabilities model =>
      Answers (ModelRegistry.ModelRegistry.get (iter h _) (model_registry s) model) s
  | HasChannel model =>
      Answers (existsb (serves s model) (channel_order h (ChannelManager.channels (channel_mgr s)))) s
  | Strategy => Answers (routing_strategy s) s
  | AffinityChannel u model group => Answers (affinity_channel s u model group) s
  | SelectChannel model strategy group =>
      match Router.Router.select_channel
              (channel_order h (ChannelManager.channels (channel_mgr s))) model strategy
              (routing_context s) group (now r) (rng r) with
      | Done c => Answers c s
      | Panic => Panics
      end
  | CheckProvider name =>
      Answers (ProviderBudget.ProviderBudget.check_budget (provider_budgets s) name (local_date r)) s
  | HasRules u => Answers (PayloadRules.Rules.has_rules (payload_rules s) u) s
  | ApplyRules u body model proto =>
      Answers (PayloadRules.Rules.apply_for_model (iter h _) (payload_rules s) u body model proto) s
  | CheckLimiter u tokens =>
      let '(l, db, verdict) := RateLimiter.RateLimiter.check (show_uuid h) (link r) (now r)
                                 (rate_limiter s) u tokens (redis s) in
      Answers verdict (set_redis db (set_rate_limiter l s))
  | RecordLimiter u tokens =>
      let '(l, db) := RateLimiter.RateLimiter.record (show_uuid h) (link r) (now r)
                        (rate_limiter s) u tokens (redis s) in
      Answers () (set_redis db (set_rate_limiter l s))
  | GetCredential u =>
      match ChannelManager.ChannelManager.get_credential (credential_get h) u (channel_mgr s) with
      | (Done k, m) => Answers k (set_channel_mgr m s)
      | (Panic, _) => Panics
      end
  | Client proxy => Answers (client_ok r proxy) s
  | Acquire u => Answers () (set_active_requests (Active.increment (active_requests s) u) s)
  | Release u => Answers () (set_active_requests (Active.decrement (active_requests s) u) s)
  | Send req => Answers (answer r req) s
  | SendWithin secs req => Answers (if in_time r secs then Some (answer r req) else None) s
  | MarkCircuitOpen u =>
      Answers () (set_channel_mgr
        (ChannelManager.ChannelManager.mark_circuit_open u (now r) (channel_mgr s)) s)
  | MarkCircuitOpenWithRetry u ra =>
      Answers () (set_channel_mgr
        (ChannelManager.ChannelManager.mark_circuit_open_with_retry u ra (now r) (channel_mgr s)) s)
  | MarkModelRateLimited u model ra =>
      Answers () (set_channel_mgr
        (ChannelManager.ChannelManager.mark_model_rate_limited u model ra (now r) (channel_mgr s)) s)
  | RecordAttempt u ok =>
      Answers () (set_cooldown_tracker
        (Cooldown.record_attempt (cooldown_tracker s) u ok (now r)) s)
  | SetAffinity sid u =>
      Answers () (set_session_affinity
        (Affinity.Affinity.set (iter h _) (session_affinity s) sid u (now r)) s)
  | UpdateRateLimits u hs =>
      Answers () (set_quota_store (Quota.Quota.update_rate_limits (quota_store s) u hs (now r)) s)
  | RecordLatency u ms =>
      Answers () (set_channel_mgr
        (ChannelManager.ChannelManager.record_latency u ms (now r) (channel_mgr s)) s)
  | TrackLatency u ms tokens =>
      Answers () (set_latency_tracker
        (Latency.record_with_tokens (latency_tracker s) u ms tokens) s)
  | AccumulateUsage u v =>
      Answers () (set_quota_store (Quota.Quota.accumulate_usage (quota_store s) u v (now r)) s)
  | AccumulateProvider name cents =>
      Answers () (set_provider_budgets
        (ProviderBudget.ProviderBudget.accumulate_spend (provider_budgets s) name cents
           (local_date r)) s)
  | McpStatus => Answers (Mcp.Manager.list_status (iter h _) (mcp_manager s)) s
  | McpConfig id => Answers (Mcp.Manager.get_config id (mcp_manager s)) s
  | McpPeer id => Answers (Mcp.Manager.peer_of id (mcp_manager s)) s
  | McpSetToolCount id count =>
      Answers () (set_mcp_manager (Mcp.Manager.set_tool_count id count (mcp_manager s)) s)
  | PeerListTools peer => Answers (peer_tools r peer) s
  | PeerCallTool peer name arguments => Answers (peer_call r peer name arguments) s
  | Channels =>
      Answers (Channel.recover_if_expired (now r)
                 <$> channel_order h (ChannelManager.channels (channel_mgr s))) s
  | GetChannel u => Answers (ChannelManager.ChannelManager.get (channel_mgr s) u) s
  | ImageCandidates model =>
      Answers (image_candidates model (channel_order h (ChannelManager.channels (channel_mgr s)))) s
  | Registry => Answers (model_registry s) s
  | RandomRange lo hi => Answers (rng r lo hi) s
  | NewId => Answers (simple r) s
  | Sleep _ | Log _ | UpdateLogTokens _ _ _ | Spawn _ => Answers () s
  | StreamDone => Answers (forwarded r) s
  end.
End handle.
End App.

(** ** Programs *)
Module Prog.
Import App.

(** A handler: it returns, it panics on its own, or it does one operation and
    goes on with its answer. *)
Inductive prog (A : Type) : Type :=
  | Ret (a : A)
  | Crash
  | Do {X : Type} (o : op X) (k : X → prog A).
Arguments Ret {A} a. Arguments Crash {A}. Arguments Do {A X} o k.

Fixpoint bind {A B} (p : prog A) (f : A → prog B) : prog B :=
  match p with
  | Ret a => f a
  | Crash => Crash
  | Do o k => Do o (λ x, bind (k x) f)
  end.

Definition lift {A} (m : outcome A) : prog A :=
  match m with Done a => Ret a | Panic => Crash end.

Declare Scope prog_scope.
Delimit Scope prog_scope with prog.
Notation "x <- o ;; k" := (Do o (fun x => k%prog))
  (at level 100, o at level 97, right associativity) : prog_scope.
Notation "o ;;; k" := (Do o (fun _ => k%prog))
  (at level 100, right associativity) : prog_scope.
Notation "'call!' x := p 'in' k" := (bind p (fun x => k%prog))
  (at level 100, x pattern, p at level 97, right associativity) : prog_scope.

(** What an observer sees: an operation and its answer. *)
Inductive event :=
  | Did {X : Type} (o : op X) (x : X).

(** How a run ends; [Waiting] when the last operation waits for ever. *)
Inductive ending (A : Type) := Returned (a : A) | Panicked | Waiting.
Arguments Returned {A} a. Arguments Panicked {A}. Arguments Waiting {A}.

(** [readings n] is what the outside decides at the [n]-th operation, and
    [others n] what the other requests do to the shared state after it. *)
Fixpoint run {A} (h : Host) (readings : nat → Reading) (others : nat → AppState → AppState)
    (n : nat) (p : prog A) (s : AppState) : list event * ending A * AppState :=
  match p with
  | Ret a => ([], Returned a, s)
  | Crash => ([], Panicked, s)
  | Do o k =>
      match handle h (readings n) o s with
      | Answers x s' =>
          let '(tr, e, s'') := run h readings others (S n) (k x) (others n s') in
          (Did o x :: tr, e, s'')
      | Panics => ([], Panicked, s)
      | Waits => ([], Waiting, s)
      end
  end.

Definition alone (n : nat) (s : AppState) : AppState := s.

(** Runs of a sequence are runs in sequence. *)
Lemma run_bind {A B} h readings others n (p : prog A) (f : A → prog B) s :
  run h readings others n (bind p f) s =
  let '(tr, e, s1) := run h readings others n p s in
  match e with
  | Returned a =>
      let '(tr', e', s2) := run h readings others (n + length tr) (f a) s1 in (tr ++ tr', e', s2)
  | Panicked => (tr, Panicked, s1)
  | Waiting => (tr, Waiting, s1)
  end.
Proof.
  revert n s. induction p as [a| |X o k IH]; intros n s; cbn [run bind].
  - rewrite Nat.add_0_r. by destruct (run _ _ _ _ _ _) as [[??]?].
  - done.
  - destruct (handle h (readings n) o s) as [x s'| |]; [|done..]. rewrite IH.
    destruct (run h readings others (S n) (k x) (others n s')) as [[tr [a| |]] s1]; [|done..].
    cbn [length]. rewrite <- plus_n_Sm. by destruct (run _ _ _ _ (f a) _) as [[??]?].
Qed.

(** *** Reasoning with monitors

    A monitor is a state that an event updates.  [safe p m Q] says that
    whatever the operations answer, the run of [p] observed from [m] ends in a
    state and a way that satisfy [Q]. *)

Section monitor.
Context {M : Type} (upd : M → event → M).

Definition may_panic {X} (o : op X) : bool :=
  match o with GetCredential _ | SelectChannel _ _ _ => true | _ => false end.
Definition may_wait {X} (o : op X) : bool :=
  match o with WaitInFlight _ => true | _ => false end.

Fixpoint safe {A} (p : prog A) (m : M) (Q : M → ending A → Prop) : Prop :=
  match p with
  | Ret a => Q m (Returned a)
  | Crash => Q m Panicked
  | Do o k =>
      (if may_panic o then Q m Panicked else True) ∧
      (if may_wait o then Q m Waiting else True) ∧
      ∀ x, safe (k x) (upd m (Did o x)) Q
  end.

Definition observe (m : M) (tr : list event) : M := foldl upd m tr.

Lemma handle_panics {X} h r (o : op X) s : handle h r o s = Panics → may_panic o = true.
Proof.
  destruct o; cbn; try done; repeat case_match; done.
Qed.
Lemma handle_waits {X} h r (o : op X) s : handle h r o s = Waits → may_wait o = true.
Proof.
  destruct o; cbn; try done; repeat case_match; done.
Qed.

(** What holds of all answers holds of every run. *)
Lemma safe_run {A} h readings others n (p : prog A) m s Q :
  safe p m Q →
  let '(tr, e, _) := run h readings others n p s in Q (observe m tr) e.
Proof.
  revert n m s. induction p as [a| |X o k IH]; intros n m s Hp; [done..|].
  destruct Hp as (Hpan & Hw & Hk). cbn [run].
  destruct (handle h (readings n) o s) as [x s'| |] eqn:E.
  - specialize (IH x (S n) (upd m (Did o x)) (others n s') (Hk x)).
    destruct (run h readings others (S n) (k x) (others n s')) as [[tr e] s'']. exact IH.
  - apply handle_panics in E. by rewrite E in Hpan.
  - apply handle_waits in E. by rewrite E in Hw.
Qed.

Lemma safe_do {A X} (o : op X) (k : X → prog A) m Q :
  may_panic o = false → may_wait o = false →
  (∀ x, safe (k x) (upd m (Did o x)) Q) → safe (Do o k) m Q.
Proof. cbn. intros -> ->. auto. Qed.

Lemma safe_mono {A} (p : prog A) m (Q R : M → ending A → Prop) :
  (∀ m e, Q m e → R m e) → safe p m Q → safe p m R.
Proof.
  intros HQR. revert m. induction p as [a| |X o k IH]; intros m; cbn; [apply HQR..|].
  intros (Hp & Hw & Hk). split_and!; [..|intros x; by apply IH].
  - destruct (may_panic o); [by apply HQR|done].
  - destruct (may_wait o); [by apply HQR|done].
Qed.

(** Sequencing: a program that does not return ends the whole. *)
Definition cast {A B} (e : ending A) (Q : ending B → Prop) (K : A → Prop) : Prop :=
  match e with Returned a => K a | Panicked => Q Panicked | Waiting => Q Waiting end.

Lemma safe_bind {A B} (p : prog A) (f : A → prog B) m Q :
  safe p m (λ m e, cast e (Q m) (λ a, safe (f a) m Q)) → safe (bind p f) m Q.
Proof.
  revert m. induction p as [a| |X o k IH]; intros m; cbn; [done..|].
  intros (Hp & Hw & Hk). split_and!; [..|intros x; by apply IH].
  - destruct (may_panic o); done.
  - destruct (may_wait o); done.
Qed.
End monitor.

(** A monitor that keeps in step with another one inherits what holds of it. *)
Lemma safe_sim {A M N} (upd : M → event → M) (upd' : N → event → N) (R : M → N → Prop)
    (p : prog A) m n (Q : M → ending A → Prop) :
  (∀ m n e, R m n → R (upd m e) (upd' n e)) → R m n → safe upd p m Q →
  safe upd' p n (λ n' e, ∃ m', R m' n' ∧ Q m' e).
Proof.
  intros HR. revert m n. induction p as [a| |X o k IH]; intros m n Hmn; cbn; [by eauto..|].
  intros (Hp & Hw & Hk). split_and!; [destruct (may_panic o)|destruct (may_wait o)|]; [by eauto..|].
  intros x. eapply IH; [by apply HR|apply Hk].
Qed.

(** Runs a program under an observer: an operation at a time, every answer. *)
Ltac observe_step :=
  first
  [ progress cbn [safe bind lift cast may_panic may_wait]
  | match goal with
    | |- True ∧ _ => split; [exact I|]
    | |- _ ∧ _ => split; [|]
    | |- ∀ _, _ => intros ?
    | |- safe _ (bind _ _) _ _ => apply safe_bind
    end ].
Ltac observe := repeat observe_step.
End Prog.

Module Only.
Import App Prog.

(** All operations of a program satisfy a test. *)
Section only.
Context (quiet : ∀ X, op X → bool).

Fixpoint only {A} (p : prog A) : Prop :=
  match p with
  | Ret _ | Crash => True
  | Do o k => quiet _ o = true ∧ ∀ x, only (k x)
  end.

Lemma only_bind {A B} (p : prog A) (f : A → prog B) :
  only p → (∀ a, only (f a)) → only (bind p f).
Proof. induction p; cbn; naive_solver. Qed.

Lemma only_safe {A M} (upd : M → event → M) (I : M → Prop) (p : prog A) m :
  (∀ X (o : op X) x m, quiet _ o = true → I m → I (upd m (Did o x))) →
  only p → I m → safe upd p m (λ m' _, I m').
Proof.
  intros Hq. revert m. induction p as [a| |X o k IH]; intros m; cbn; [done..|].
  intros [Ho Hk] Hm. split_and!; [by destruct (may_panic o)|by destruct (may_wait o)|].
  intros x. by apply IH; [|apply Hq].
Qed.

(** In every run, too. *)
Definition passes (e : event) : bool := match e with @Did X o _ => quiet X o end.
Lemma only_run {A} h readings others n (p : prog A) s :
  only p → Forall (λ e, passes e = true) (run h readings others n p s).1.1.
Proof.
  revert n s. induction p as [a| |X o k IH]; intros n s; [constructor..|]. intros [Ho Hk]. cbn [run].
  destruct (handle h (readings n) o s) as [x s'| |]; [|constructor..].
  specialize (IH x (S n) (others n s') (Hk x)).
  destruct (run h readings others (S n) (k x) (others n s')) as [[tr e] s'']. by constructor.
Qed.

(** Together with a condition on how it ends. *)
Lemma safe_and {A M} (upd : M → event → M) (p : prog A) m P Q :
  safe upd p m P → safe upd p m Q → safe upd p m (λ m e, P m e ∧ Q m e).
Proof.
  revert m. induction p as [a| |X o k IH]; intros m; cbn; [done..|].
  intros (?&?&?) (?&?&?). split_and!; [destruct (may_panic o); done|destruct (may_wait o); done|].
  intros x. by apply IH.
Qed.
End only.

(** Goes through a program for [only]. *)
Ltac quietly :=
  repeat first
  [ done
  | progress cbn [only bind lift]
  | match goal with
    | |- _ ∧ _ => split
    | |- ∀ _, _ => intros ?
    | |- only _ (bind _ _) => apply only_bind
    | |- only _ (match ?x with _ => _ end) => destruct x
    | |- only _ (if ?b then _ else _) => destruct b
    | |- only _ (let '(_, _) := ?x in _) => destruct x
    end ].
End Only.
