(* ===== verification/Attempt.v ===== *)
(** One attempt on a channel (proxy/attempt.rs) and the handling of its
    success (proxy/response.rs): the preparation of the body, the guards
    before the call, the call, the verdict on the answer, what is recorded,
    and the task that settles the costs afterwards.  Metrics and the counts of
    the connection pool are left out. *)

From stdpp Require Import pretty.
From S2P Require Import Prelude F64 Json PayloadRules Channel Trackers Fallback VirtualKey.
From S2P Require Import Cache Guardrails Quota ModelRegistry Usage Thinking Translate Provider.
From S2P Require Import Machine.

Module Attempt.
Import Json Translate App Prog.
Open Scope prog_scope.

Inductive FailureReason :=
  | RateLimited | ServerError | ConnectionError | NoCredential | Timeout
  | ContextOverflowed | AllExhausted | ClientError (code : Z).

Definition log_str (f : FailureReason) : string :=
  match f with
  | RateLimited => "429"
  | ServerError => "5xx"
  | ConnectionError => "connection_error"
  | Timeout => "ttft_timeout"
  | NoCredential => "no_credential"
  | ContextOverflowed => "context_overflow"
  | AllExhausted => "all_exhausted"
  | ClientError code => pretty code
  end.

(** An answer to the client.  [Events] are the bytes sent for the chunks of
    the upstream stream; the comments of [keepalive_stream] are not in it. *)
Inductive Body := Text (s : string) | Events (out : list string).
Record Response := mkResponse {
  resp_status : Z;
  resp_headers : list (string * string);
  resp_body : Body;
}.

Definition json_response (status : Z) (body : string) : Response :=
  mkResponse status [("content-type", "application/json")] (Text body).
Definition event_stream_headers : list (string * string) :=
  [("content-type", "text/event-stream"); ("cache-control", "no-cache");
   ("connection", "keep-alive"); ("x-accel-buffering", "no")].
Definition sse_stream_response_with_cached (cached_body : string) : Response :=
  mkResponse 200 event_stream_headers (Text cached_body).

Inductive AttemptOutcome := Respond (r : Response) | Retry | ContextOverflow.

Record DispatchContext := mkCtx {
  original_headers : list (string * string);
  body : value;
  provider : Provider.ProviderAdaptor;
  channel : Channel.Channel;
  current_model : string;
  original_model : string;
  is_stream : bool;
  session_id : option string;
  start : Instant;
  attempt : Z;
  request_id : option string;
  vk_id : option Uuid;
  reserved_cents : Z;
  cache_key : N;
  cache_key_material : string;
  request_format : RequestFormat;
}.

(** [as_millis() as u64] of the time since [start]. *)
Definition elapsed_ms (start now : Instant) : Z := wrap64 (sat_sub now start).

Section attempt.
Context (h : Host) (gw : ProxyParams).

Definition error_response (status : Z) (message error_type code : string) : Response :=
  json_response status (print h (obj [("error", obj [("message", Str message);
    ("type", Str error_type); ("code", Str code)])])).

(** [make_log]; the retry count is cast to u8. *)
Definition make_log (model : string) (channel_id : Uuid) (channel_name : string)
    (channel_priority retry_count : Z) (reason : option string) (latency_ms : Z) (success : bool)
    (cost : option F64.f64) (usage : Usage.TokenUsage) (request_id : option string)
    (virtual_key_id : option Uuid) : LogLine :=
  mkLog model channel_id channel_name channel_priority (retry_count mod 256) reason latency_ms
    success cost usage request_id (show_uuid h <$> virtual_key_id).

Definition log_attempt_failure (ctx : DispatchContext) (reason : FailureReason) : prog unit :=
  let ch := channel ctx in
  t <- Now ;;
  Log (make_log (current_model ctx) (Channel.id ch) (Channel.name ch) (Channel.priority ch)
         (attempt ctx) (Some (log_str reason)) (elapsed_ms (start ctx) t) false None
         Usage.no_usage (request_id ctx) (vk_id ctx)) ;;;
  Ret ().

Definition fail_and_retry (ctx : DispatchContext) (reason : FailureReason) : prog AttemptOutcome :=
  MarkCircuitOpen (Channel.id (channel ctx)) ;;;
  RecordAttempt (Channel.id (channel ctx)) false ;;;
  call! _ := log_attempt_failure ctx reason in
  Ret Retry.

(** A step of an attempt goes on with a value or ends the attempt. *)
Abbreviation Step A := (prog (A + AttemptOutcome)) (only parsing).

Definition fails {A} (p : prog AttemptOutcome) : Step A :=
  call! o := p in Ret (inr o).
Definition and_then {A B} (p : Step A) (f : A → Step B) : Step B :=
  call! r := p in match r with inl a => f a | inr o => Ret (inr o) end.

Definition build_upstream_request (ctx : DispatchContext) (upstream_body : value)
    (upstream_model api_key : string) : Step Request :=
  let ch := channel ctx in
  let url := Provider.build_url (provider ctx) (Channel.base_url ch) upstream_model
               (is_stream ctx) in
  let is_web_session :=
    match Channel.cred_type (Channel.credential ch) with
    | Channel.WebSession => true | Channel.ApiKey => false end in
  let request := mkRequest url
    (Provider.upstream_headers (valid_header h) (original_headers ctx)
       (Provider.apply_auth (provider ctx) api_key is_web_session)
       (iter h _ (Channel.headers ch)) (is_stream ctx)) upstream_body in
  match Channel.proxy_url ch with
  | Some proxy_url =>
      ok <- Client proxy_url ;;
      if (ok : bool) then Ret (inl request) else fails (fail_and_retry ctx ConnectionError)
  | None => Ret (inl request)
  end.

(** The guard taken here is dropped by whoever ends the attempt. *)
Definition send_with_timeout (ctx : DispatchContext) (req : Request) (estimated_tokens : Z)
    : Step UpstreamResponse :=
  let id := Channel.id (channel ctx) in
  let failed reason : Step UpstreamResponse :=
    call! o := fail_and_retry ctx reason in (Release id ;;; Ret (inr o)) in
  let received (result : option UpstreamResponse) : Step UpstreamResponse :=
    RecordLimiter id estimated_tokens ;;;
    match result with
    | Some r => Ret (inl r)
    | None => failed ConnectionError
    end in
  Acquire id ;;;
  match (if is_stream ctx then stream_ttft_timeout_secs gw else None) with
  | Some secs =>
      if 0 <? secs then
        (result <- SendWithin secs req ;;
         match result with
         | Some result => received result
         | None => RecordLimiter id estimated_tokens ;;; failed Timeout
         end)
      else (result <- Send req ;; received result)
  | None => result <- Send req ;; received result
  end.

Definition parse_u64 (s : string) : option Z := parse_uint u64_max s.

Definition check_error_status (ctx : DispatchContext) (resp : UpstreamResponse)
    : Step UpstreamResponse :=
  let id := Channel.id (channel ctx) in
  if status resp =? 429 then
    let retry_after_secs := header resp "retry-after" ≫= parse_u64 in
    MarkModelRateLimited id (current_model ctx) retry_after_secs ;;;
    MarkCircuitOpenWithRetry id retry_after_secs ;;;
    RecordAttempt id false ;;;
    call! _ := log_attempt_failure ctx RateLimited in
    Ret (inr Retry)
  else if (500 <=? status resp) && (status resp <? 600) then
    fails (fail_and_retry ctx ServerError)
  else if negb ((200 <=? status resp) && (status resp <? 300)) then
    if Provider.is_context_window_error (status resp) (text resp) then
      call! _ := log_attempt_failure ctx ContextOverflowed in
      Ret (inr ContextOverflow)
    else
      call! _ := log_attempt_failure ctx (ClientError (status resp)) in
      Ret (inr (Respond (json_response (status resp) (text resp))))
  else Ret (inl resp).

Definition bootstrap_sse_stream (ctx : DispatchContext) (resp : UpstreamResponse)
    (estimated_tokens : Z) : Step (list Provider.chunk * option Provider.chunk) :=
  let id := Channel.id (channel ctx) in
  match chunks resp with
  | Provider.Data bytes stamp :: rest =>
      if Provider.is_stream_error_chunk (Utf8.from_utf8_lossy bytes) then
        fails (fail_and_retry ctx ServerError)
      else Ret (inl (rest, Some (Provider.Data bytes stamp)))
  | Provider.StreamError :: _ =>
      RecordAttempt id false ;;;
      call! _ := log_attempt_failure ctx ConnectionError in
      Ret (inr Retry)
  | [] =>
      RecordAttempt id false ;;;
      call! _ := log_attempt_failure ctx ServerError in
      Ret (inr Retry)
  | Provider.Stall :: _ =>
      RecordLimiter id estimated_tokens ;;;
      fails (fail_and_retry ctx Timeout)
  end.

Definition check_sse_bootstrap (ctx : DispatchContext) (resp : UpstreamResponse)
    (estimated_tokens : Z) : Step (list Provider.chunk * option Provider.chunk) :=
  if (0 <? stream_bootstrap_retries gw) && (attempt ctx <=? stream_bootstrap_retries gw)
  then bootstrap_sse_stream ctx resp estimated_tokens
  else Ret (inl (chunks resp, None)).

(** Sets a field of an object, and leaves any other value alone. *)
Definition insert_field (k : string) (v : value) (b : value) : value :=
  match b with Object m => Object (<[k := v]> m) | _ => b end.
Definition remove_fields (ks : list string) (b : value) : value :=
  match b with Object m => Object (foldl (λ m k, delete k m) m ks) | _ => b end.

Definition prepare_upstream_body (ctx : DispatchContext) : prog (string * value) :=
  let ch := channel ctx in
  let upstream_model := Channel.map_model ch (current_model ctx) in
  has_payload_rules <- HasRules (Channel.id ch) ;;
  let body_model := field_str (body ctx) "model" (current_model ctx) in
  let model_needs_change := negb (String.eqb upstream_model body_model) in
  let cloned := if model_needs_change then insert_field "model" (Str upstream_model) (body ctx)
                else body ctx in
  if (has_payload_rules : bool) then
    (b <- ApplyRules (Channel.id ch) cloned (current_model ctx)
            (Channel.as_str (Channel.provider ch)) ;;
     Ret (upstream_model, b))
  else Ret (upstream_model, cloned).

(** [stream_options.include_usage] *)
Definition inject_usage (b : value) : value :=
  match b with
  | Object m =>
      match m !! "stream_options" with
      | Some (Object so) =>
          if bool_decide (is_Some (so !! "include_usage")) then b
          else Object (<["stream_options" := Object (<["include_usage" := Bool true]> so)]> m)
      | _ => Object (<["stream_options" := obj [("include_usage", Bool true)]]> m)
      end
  | _ => b
  end.

(** The fields a model without the capability must not be sent. *)
Definition strip_unsupported (caps : ModelRegistry.ModelRegistry.ModelCapabilities) (b : value)
    : value :=
  let b := if ModelRegistry.ModelRegistry.supports_thinking caps then b
           else
             let b := remove_fields ["thinking"; "reasoning_effort"; "reasoning"] b in
             match b with
             | Object m =>
                 match m !! "generationConfig" with
                 | Some (Object gc) =>
                     Object (<["generationConfig" := Object (delete "thinkingConfig" gc)]> m)
                 | _ => b
                 end
             | _ => b
             end in
  if ModelRegistry.ModelRegistry.supports_tools caps then b
  else remove_fields ["tools"; "tool_choice"] b.

Definition check_pre_flight_guards (ctx : DispatchContext) (upstream_body : value) : Step value :=
  caps <- Capabilities (current_model ctx) ;;
  let b := strip_unsupported caps upstream_body in
  match ModelRegistry.ModelRegistry.max_context_tokens caps with
  | Some max_context =>
      let preflight_tokens := Z.of_nat (String.length (print h b)) / 4 in
      if max_context <? preflight_tokens then
        call! _ := log_attempt_failure ctx ContextOverflowed in
        Ret (inr ContextOverflow)
      else Ret (inl b)
  | None => Ret (inl b)
  end.

(** *** Success *)

(** quota/collectors/response_header.rs *)
Definition quota_header (resp : UpstreamResponse) (k : string) : option Z :=
  header resp k ≫= parse_u64.
Definition extract_x_ratelimit (resp : UpstreamResponse) : Quota.Quota.Headers :=
  let get := quota_header resp in
  Quota.Quota.mkHeaders
    (Cost.or_else (get "x-ratelimit-remaining-requests") (get "x-ratelimit-remaining"))
    (Cost.or_else (get "x-ratelimit-limit-requests") (get "x-ratelimit-limit"))
    (get "x-ratelimit-remaining-tokens") (get "x-ratelimit-limit-tokens").
Definition extract_anthropic (resp : UpstreamResponse) : Quota.Quota.Headers :=
  let get := quota_header resp in
  Quota.Quota.mkHeaders (get "anthropic-ratelimit-requests-remaining")
    (get "anthropic-ratelimit-requests-limit") (get "anthropic-ratelimit-tokens-remaining")
    (get "anthropic-ratelimit-tokens-limit").
Definition present {A} (o : option A) : bool := match o with Some _ => true | None => false end.
Definition extract_quota (provider : string) (resp : UpstreamResponse)
    : option Quota.Quota.Headers :=
  let result := if String.eqb provider "anthropic" then extract_anthropic resp
                else extract_x_ratelimit resp in
  if present (Quota.Quota.h_remaining_req result) || present (Quota.Quota.h_limit_req result)
     || present (Quota.Quota.h_remaining_tok result) || present (Quota.Quota.h_limit_tok result)
  then Some result else None.

Definition extract_passthrough_headers (resp : UpstreamResponse) : list (string * string) :=
  omap (λ name, (λ v, (name, v)) <$> header resp name) (passthrough_headers gw).

(** [HeaderName]s compare in lower case; [append] keeps what is there. *)
Definition inject_passthrough_headers (r : Response) (hs : list (string * string)) : Response :=
  mkResponse (resp_status r)
    (resp_headers r ++
     ((λ kv, (to_lowercase kv.1, kv.2)) <$> List.filter (λ kv, valid_header h kv.1 kv.2) hs))
    (resp_body r).
Definition set_header (k v : string) (r : Response) : Response :=
  if valid_header h k v then
    mkResponse (resp_status r)
      (List.filter (λ kv, negb (String.eqb kv.1 k)) (resp_headers r) ++ [(k, v)]) (resp_body r)
  else r.
Definition fallback_headers (ctx : DispatchContext) (r : Response) : Response :=
  if String.eqb (current_model ctx) (original_model ctx) then r
  else set_header "x-modelswitch-original-model" (original_model ctx)
         (set_header "x-modelswitch-fallback-model" (current_model ctx) r).
Definition trigger_reason (ctx : DispatchContext) : option string :=
  if String.eqb (current_model ctx) (original_model ctx) then None else Some "model_fallback".

Definition record_success_side_effects (ctx : DispatchContext) (resp : UpstreamResponse)
    : prog (list (string * string)) :=
  let id := Channel.id (channel ctx) in
  let quota : prog (list (string * string)) :=
    match extract_quota (Channel.as_str (Channel.provider (channel ctx))) resp with
    | Some qh => UpdateRateLimits id qh ;;; Ret (extract_passthrough_headers resp)
    | None => Ret (extract_passthrough_headers resp)
    end in
  RecordAttempt id true ;;;
  match session_id ctx with
  | Some sid => SetAffinity sid id ;;; quota
  | None => quota
  end.

(** *** Costs *)

Definition request_cost (ctx : DispatchContext) (input output : Z) : option F64.f64 :=
  Cost.compute_token_cost (model_pricing gw !! current_model ctx)
    (Cost.from_channel (channel ctx)) (default F64.one (completion_ratios gw !! current_model ctx))
    input output.

Definition usage_of (rec : TelemetryRecord) : Quota.Quota.Usage :=
  let u := t_usage rec in
  Quota.Quota.mkUsage (Usage.input_tokens u) (Usage.output_tokens u) (Usage.cache_hit_tokens u)
    (Usage.cache_miss_tokens u) (t_cost rec).

Definition record_post_response_telemetry (rec : TelemetryRecord) : prog unit :=
  let cost_cents := Cost.cost_cents (t_cost rec) in
  let total_tokens := add_u64 (default 0 (Usage.input_tokens (t_usage rec)))
                        (default 0 (Usage.output_tokens (t_usage rec))) in
  let provider : prog unit :=
    AccumulateProvider (t_provider_name rec) cost_cents ;;; Ret () in
  AccumulateUsage (t_channel_id rec) (usage_of rec) ;;;
  match t_vk_id rec with
  | Some vk =>
      if 0 <? t_reserved_cents rec then
        (ReconcileSpend vk (t_reserved_cents rec) cost_cents ;;;
         RecordTokens vk total_tokens ;;; provider)
      else (AccumulateSpend vk cost_cents ;;; RecordTokens vk total_tokens ;;; provider)
  | None => provider
  end.

(** *** The background tasks *)

(** [.lines()], the data lines of the accumulated text. *)
Definition data_lines (text : string) : list string :=
  omap (λ line, match strip_prefix "data: " (trim line) with
                | Some d => if String.eqb d "" || String.eqb d "[DONE]" then None else Some d
                | None => None
                end) (split_on "010"%char text).

(** The guards are released when a task is over. *)
Definition after_text (ch : Channel.Channel) (model : string) (pricing : option Cost.ModelPricing)
    (ratio : F64.f64) (vk : option Uuid) (reserved : Z) (log_id output_text : string) : prog unit :=
  let id := Channel.id ch in
  let over : prog unit := Release id ;;; Ret () in
  match data_lines output_text with
  | [] => over
  | lines =>
      let u := Usage.extract_usage_from_stream (parse h) lines in
      if present (Usage.input_tokens u) || present (Usage.output_tokens u) then
        let cost := Cost.compute_token_cost pricing (Cost.from_channel ch) ratio
                      (default 0 (Usage.input_tokens u)) (default 0 (Usage.output_tokens u)) in
        let rec := mkTelemetry id (Channel.as_str (Channel.provider ch)) model u cost vk reserved in
        if present (Usage.input_tokens u) && present (Usage.output_tokens u) then
          (UpdateLogTokens log_id u cost ;;;
           call! _ := record_post_response_telemetry rec in over)
        else call! _ := record_post_response_telemetry rec in over
      else over
  end.

Definition after_stream (ch : Channel.Channel) (model : string) (pricing : option Cost.ModelPricing)
    (ratio : F64.f64) (vk : option Uuid) (reserved : Z) (key : N) (material : string)
    (output : nat → option nat → string) (log_id : string) : prog unit :=
  n <- StreamDone ;;
  let output_text := Utf8.from_utf8_lossy (output n.1 n.2) in
  let settle := after_text ch model pricing ratio vk reserved log_id output_text in
  if String.eqb output_text "" then settle
  else CacheInsert key material output_text ;;; Complete key ;;; settle.

Definition after_json (rec : TelemetryRecord) (log : Z → LogLine) (start : Instant) : prog unit :=
  call! _ := record_post_response_telemetry rec in
  t1 <- Now ;;
  Log (log (elapsed_ms start t1)) ;;;
  t2 <- Now ;;
  RecordLatency (t_channel_id rec) (elapsed_ms start t2) ;;;
  t3 <- Now ;;
  TrackLatency (t_channel_id rec) (elapsed_ms start t3) (Usage.output_tokens (t_usage rec)) ;;;
  Ret ().

Definition run_task (t : Task) : prog unit :=
  match t with
  | AfterJson rec log start => after_json rec log start
  | AfterStream ch model pricing ratio vk reserved key material output log_id =>
      after_stream ch model pricing ratio vk reserved key material output log_id
  end.

(** *** The response handlers *)

Definition handle_streaming_success (ctx : DispatchContext) (upstream_model : string)
    (upstream_headers : list (string * string)) (rest : list Provider.chunk)
    (first_chunk : option Provider.chunk) (protocol : option (RequestFormat * RequestFormat))
    : prog Response :=
  let ch := channel ctx in
  let combined := match first_chunk with Some c => c :: rest | None => rest end in
  let out := Provider.deliver (print h) (parse h) protocol
               (Provider.is_gemini_stream (provider ctx)) upstream_model in
  let est := TokenCounter.estimate_tokens (print h) (body ctx) in
  log_id <- NewId ;;
  t <- Now ;;
  Log (make_log (current_model ctx) (Channel.id ch) (Channel.name ch) (Channel.priority ch)
         (attempt ctx) (trigger_reason ctx) (elapsed_ms (start ctx) t) true
         (request_cost ctx (est / 2) (est / 2)) Usage.no_usage (request_id ctx) (vk_id ctx)) ;;;
  t2 <- Now ;;
  RecordLatency (Channel.id ch) (elapsed_ms (start ctx) t2) ;;;
  t3 <- Now ;;
  TrackLatency (Channel.id ch) (elapsed_ms (start ctx) t3) None ;;;
  Spawn (AfterStream ch (current_model ctx) (model_pricing gw !! current_model ctx)
    (default F64.one (completion_ratios gw !! current_model ctx)) (vk_id ctx)
    (reserved_cents ctx) (cache_key ctx) (cache_key_material ctx)
    (λ n connected, Provider.forward_stream out connected "" (take n combined)) log_id) ;;;
  Ret (fallback_headers ctx
    (inject_passthrough_headers
      (mkResponse 200 event_stream_headers
        (Events (omap (λ c, match c with
                            | Provider.Data bytes stamp => Some (out bytes stamp)
                            | _ => None end) combined))) upstream_headers)).

(** The response body in the client's format. *)
Definition transform_body (ctx : DispatchContext) (bytes upstream_model : string) : prog string :=
  if Provider.needs_response_transform (provider ctx) then
    match parse h (default "" (Utf8.from_utf8 bytes)) with
    | Some v =>
        t <- Now ;;
        Ret (print h (Provider.transform_response (provider ctx) v upstream_model (t / 1000)))
    | None => Ret bytes
    end
  else Ret bytes.
Definition translate_body (ctx : DispatchContext) (bytes upstream_model : string) : prog string :=
  let upstream_format := Provider.provider_request_format (provider ctx) in
  if bool_decide (request_format ctx = upstream_format) then Ret bytes
  else
    match parse h (default "" (Utf8.from_utf8 bytes)) with
    | Some v =>
        simple <- NewId ;;
        t <- Now ;;
        Ret (print h (translate_response (print h) (parse h) v upstream_format
                        (request_format ctx) upstream_model simple (t / 1000)))
    | None => Ret bytes
    end.

Definition newlines (n : nat) : string := joined (replicate n Provider.newline).

Definition handle_json_success (ctx : DispatchContext) (upstream_model : string)
    (upstream_headers : list (string * string)) (resp : UpstreamResponse) : prog Response :=
  let ch := channel ctx in
  let id := Channel.id ch in
  call! transformed := transform_body ctx (bytes resp) upstream_model in
  call! response_bytes := translate_body ctx transformed upstream_model in
  let response_str := default "" (Utf8.from_utf8 response_bytes) in
  let finish : prog Response :=
    let u := Usage.extract_usage (parse h) response_str in
    let est := TokenCounter.estimate_tokens (print h) (body ctx) in
    let cost :=
      if negb (present (Usage.input_tokens u)) && negb (present (Usage.output_tokens u))
      then request_cost ctx (est / 2) (est / 2)
      else request_cost ctx (default 0 (Usage.input_tokens u)) (default 0 (Usage.output_tokens u)) in
    CacheInsert (cache_key ctx) (cache_key_material ctx) response_str ;;;
    Complete (cache_key ctx) ;;;
    Spawn (AfterJson
      (mkTelemetry id (Channel.as_str (Channel.provider ch)) (current_model ctx) u cost
         (vk_id ctx) (reserved_cents ctx))
      (λ latency_ms, make_log (current_model ctx) id (Channel.name ch) (Channel.priority ch)
         (attempt ctx) (trigger_reason ctx) latency_ms true cost u (request_id ctx) (vk_id ctx))
      (start ctx)) ;;;
    Release id ;;;
    let alive := if 0 <? nonstream_keepalive_interval_secs gw then newlines (keepalives resp)
                 else "" in
    Ret (fallback_headers ctx
      (inject_passthrough_headers (json_response 200 (alive +:+ response_bytes)) upstream_headers)) in
  match parse h response_str with
  | Some v =>
      verdict <- CheckResponse v ;;
      match verdict with
      | Guardrails.Guardrails.Block _ =>
          Release id ;;;
          Ret (error_response 403 "Response blocked by content policy" "content_blocked"
                 "guardrails_response_blocked")
      | Guardrails.Guardrails.Allow => finish
      end
  | None => finish
  end.

(** *** [try_channel_attempt] *)

(** Dropping the guard of a request that was sent. *)
Definition release (ctx : DispatchContext) (p : prog AttemptOutcome) : prog AttemptOutcome :=
  call! o := p in (Release (Channel.id (channel ctx)) ;;; Ret o).

Definition succeed (ctx : DispatchContext) (upstream_model : string) (resp : UpstreamResponse)
    (estimated_tokens : Z) : prog AttemptOutcome :=
  call! upstream_headers := record_success_side_effects ctx resp in
  let upstream_format := Provider.provider_request_format (provider ctx) in
  if is_stream ctx then
    let protocol :=
      if negb (bool_decide (request_format ctx = upstream_format))
         && negb (Provider.is_gemini_stream (provider ctx))
      then Some (request_format ctx, upstream_format) else None in
    call! r := check_sse_bootstrap ctx resp estimated_tokens in
    match r with
    | inl (rest, first_chunk) =>
        call! response := handle_streaming_success ctx upstream_model upstream_headers rest
                            first_chunk protocol in
        Ret (Respond response)
    | inr o => release ctx (Ret o)
    end
  else
    call! response := handle_json_success ctx upstream_model upstream_headers resp in
    Ret (Respond response).

Definition call_upstream (ctx : DispatchContext) (upstream_model api_key : string)
    (upstream_body : value) (estimated_tokens : Z) : prog AttemptOutcome :=
  call! built := build_upstream_request ctx upstream_body upstream_model api_key in
  match built with
  | inr o => Ret o
  | inl req =>
      call! sent := send_with_timeout ctx req estimated_tokens in
      match sent with
      | inr o => Ret o
      | inl resp =>
          call! checked := check_error_status ctx resp in
          match checked with
          | inr o => release ctx (Ret o)
          | inl resp => succeed ctx upstream_model resp estimated_tokens
          end
      end
  end.

Definition translated_request (ctx : DispatchContext) (b : value) : outcome value :=
  let upstream_format := Provider.provider_request_format (provider ctx) in
  let b := if bool_decide (request_format ctx = upstream_format) then b
           else translate_request (print h) (parse h) b (request_format ctx) upstream_format in
  let b := Provider.transform_request (provider ctx) b in
  if is_object b
  then Thinking.Thinking.normalize_for_provider b (Channel.as_str (Channel.provider (channel ctx)))
  else Done b.

Definition try_channel_attempt (ctx : DispatchContext) : prog AttemptOutcome :=
  let id := Channel.id (channel ctx) in
  call! prepared := prepare_upstream_body ctx in
  let '(upstream_model, upstream_body) := prepared in
  let estimated_tokens := TokenCounter.estimate_tokens (print h) upstream_body in
  verdict <- CheckLimiter id estimated_tokens ;;
  if negb (verdict : bool * string).1 then
    call! _ := log_attempt_failure ctx RateLimited in
    Ret Retry
  else
    let upstream_body :=
      if is_stream ctx && Provider.inject_stream_usage (provider ctx)
      then inject_usage upstream_body else upstream_body in
    key <- GetCredential id ;;
    match key with
    | None => fail_and_retry ctx NoCredential
    | Some api_key =>
        call! b := lift (translated_request ctx upstream_body) in
        call! guarded := check_pre_flight_guards ctx b in
        match guarded with
        | inr o => Ret o
        | inl b => call_upstream ctx upstream_model api_key b estimated_tokens
        end
    end.
End attempt.
End Attempt.
