(* ===== verification/Dispatch.v ===== *)
(** The dispatch of a request (proxy/dispatch.rs and proxy/request_meta.rs):
    what is read off the request, the checks before anything is sent, the
    reservation, the cache with its coalescing, and the loop over the models of
    the fallback chain and the retries of each. *)

From S2P Require Import Prelude F64 Json Glob Channel Router Affinity Fallback VirtualKey.
From S2P Require Import Cache Guardrails ModelRegistry Usage Translate Provider Machine.
From S2P Require Import Attempt.

Module Dispatch.
Import Json Translate App Prog Attempt.
Open Scope prog_scope.

(** [headers.get(name)], the first of several. *)
Fixpoint header_get (headers : list (string * string)) (name : string) : option string :=
  match headers with
  | [] => None
  | (k, v) :: rest => if String.eqb k name then Some v else header_get rest name
  end.

Definition is_model_allowed_with_groups (vk : VirtualKey.VirtualKey.VirtualKey) (model : string)
    (model_groups : gmap string (list string)) : bool :=
  if VirtualKey.VirtualKey.is_model_allowed vk model then true
  else
    match VirtualKey.VirtualKey.allowed_models vk with
    | Some allowed =>
        existsb (λ entry, match model_groups !! entry with
                          | Some members => existsb (λ gm, Glob.matches_glob gm model) members
                          | None => false
                          end) allowed
    | None => false
    end.

Record RequestMeta := mkMeta {
  m_original_model : string;
  m_is_stream : bool;
  m_request_id : option string;
  m_session_id : option string;
  m_affinity_channel : option Uuid;
  m_account_group : option string;
}.

(** How the loop over the attempts on one model ends. *)
Inductive LoopEnd := Finished (r : Response) | NextModel (total_attempts : Z).

Section dispatch.
Context (h : Host) (gw : ProxyParams).

Definition extract_virtual_key_id (headers : list (string * string)) : option Uuid :=
  header_get headers "x-virtual-key-id" ≫= parse_uuid h.

Definition extract_request_meta (body : value) (headers : list (string * string))
    (default_model : string) : prog RequestMeta :=
  let session_id := Affinity.Affinity.extract_session_id (header_get headers)
                      (λ l, print h (Array l)) (sha256 h) body in
  let meta affinity := mkMeta (field_str body "model" default_model)
    (match get body "stream" with Some (Bool b) => b | _ => false end)
    (header_get headers "x-request-id") session_id affinity
    (header_get headers "x-account-group") in
  match session_id with
  | Some sid => u <- GetAffinity sid ;; Ret (meta u)
  | None => Ret (meta None)
  end.

Definition all_channels_exhausted_response : Response :=
  json_response 429 (print h (obj [("error", obj [
    ("message", Str "All channels are rate-limited or unavailable. Please retry after a brief wait.");
    ("type", Str "rate_limit_exhausted"); ("code", Str "all_channels_rate_limited")])])).

Definition log_all_exhausted (original_model : string) (key : N) (total_attempts : Z)
    (start : Instant) (request_id : option string) (vk_id : option Uuid) : prog Response :=
  Complete key ;;;
  t <- Now ;;
  Log (make_log h original_model uuid_nil "none" 0 total_attempts
         (Some (log_str AllExhausted)) (elapsed_ms start t) false None Usage.no_usage
         request_id vk_id) ;;;
  Ret all_channels_exhausted_response.

Definition cached_response (is_stream : bool) (cached : string) : Response :=
  if is_stream then sse_stream_response_with_cached cached else json_response 200 cached.

Definition check_request_cache (key : N) (material : string) (is_stream : bool)
    : prog (option Response) :=
  hit <- CacheGet key material ;;
  match hit with
  | Some cached => Ret (Some (cached_response is_stream cached))
  | None =>
      first <- Register key ;;
      if (first : bool) then Ret None
      else
        (WaitInFlight key ;;;
         hit <- CacheGet key material ;;
         match hit with
         | Some cached => Ret (Some (cached_response is_stream cached))
         | None => Register key ;;; Ret None
         end)
  end.

Definition select_channel_for_attempt (affinity_channel : option Uuid) (current_model : string)
    (strategy : Router.Router.RoutingStrategyType) (account_group : option string)
    : prog (option Channel.Channel) :=
  let routed : prog (option Channel.Channel) :=
    c <- SelectChannel current_model strategy account_group ;; Ret c in
  match affinity_channel with
  | Some u =>
      c <- AffinityChannel u current_model account_group ;;
      match c with
      | Some c => Ret (Some c)
      | None => routed
      end
  | None => routed
  end.

Definition pre_flight_skip_model (current_model : string) (body_str_len : Z) : prog bool :=
  caps <- Capabilities current_model ;;
  let find : prog bool := (has_channel <- HasChannel current_model ;; Ret (negb has_channel)) in
  match ModelRegistry.ModelRegistry.max_context_tokens caps with
  | Some max_ctx => if max_ctx <? body_str_len / 4 then Ret true else find
  | None => find
  end.

(** What one request brings to every attempt. *)
Record Common := mkCommon {
  c_headers : list (string * string);
  c_body : value;
  c_provider : Provider.ProviderAdaptor;
  c_format : RequestFormat;
  c_meta : RequestMeta;
  c_original_model : string;
  c_vk_id : option Uuid;
  c_reserved_cents : Z;
  c_start : Instant;
  c_key : N;
  c_material : string;
}.

Definition context_of (c : Common) (ch : Channel.Channel) (model : string) (attempt : Z)
    : DispatchContext :=
  mkCtx (c_headers c) (c_body c) (c_provider c) ch model (c_original_model c)
    (m_is_stream (c_meta c)) (m_session_id (c_meta c)) (c_start c) attempt
    (m_request_id (c_meta c)) (c_vk_id c) (c_reserved_cents c) (c_key c) (c_material c)
    (c_format c).

Definition exp_delay (base_ms max_ms attempt : Z) : Z :=
  Z.min (sat_mul64 base_ms (2 ^ Z.min attempt 6)) max_ms.

Definition deadline (start : Instant) : Instant :=
  start + millis_of_secs (default 120 (request_timeout_secs gw)).

Section loop.
Context (c : Common) (max_total_attempts : Z).

(** The attempts on one model: [fuel] of them are left, [attempt] are done. *)
Fixpoint attempts (fuel : nat) (model : string) (base_ms max_ms attempt total : Z)
    : prog LoopEnd :=
  match fuel with
  | O => Ret (NextModel total)
  | S fuel =>
      if negb (total <? max_total_attempts) then Ret (NextModel total)
      else
        t <- Now ;;
        if deadline (c_start c) <? t then Ret (NextModel total)
        else
          let attempt := attempt + 1 in
          let total := total + 1 in
          let continue_ := attempts fuel model base_ms max_ms attempt total in
          strategy <- Strategy ;;
          call! selected := select_channel_for_attempt (m_affinity_channel (c_meta c)) model strategy
                              (m_account_group (c_meta c)) in
          match selected with
          | None => Ret (NextModel total)
          | Some ch =>
              within <- CheckProvider (Channel.as_str (Channel.provider ch)) ;;
              if negb within then continue_
              else if match Channel.max_retries ch with
                      | Some ch_max => ch_max <? attempt | None => false end
              then continue_
              else
                call! outcome := try_channel_attempt h gw (context_of c ch model attempt) in
                match outcome with
                | Respond r => Ret (Finished r)
                | Retry =>
                    jitter <- RandomRange 0 49 ;;
                    Sleep (add_u64 (exp_delay base_ms max_ms attempt) jitter) ;;;
                    continue_
                | ContextOverflow => Ret (NextModel total)
                end
          end
  end.

Fixpoint models (chain : list (string * Z)) (body_str_len total : Z) : prog LoopEnd :=
  match chain with
  | [] => Ret (NextModel total)
  | (model, max) :: rest =>
      let cfg := Fallback.Fallback.resolve_model_retry_config (iter h) model
                   (model_retry_overrides gw) in
      let base_ms := default (retry_base_ms gw) (Fallback.Fallback.retry_base_ms cfg) in
      let max_ms := default (retry_max_ms gw) (Fallback.Fallback.retry_max_ms cfg) in
      call! skip := pre_flight_skip_model model body_str_len in
      if (skip : bool) then models rest body_str_len total
      else
        call! e := attempts (Z.to_nat max) model base_ms max_ms 0 total in
        match e with
        | Finished r => Ret (Finished r)
        | NextModel total => models rest body_str_len total
        end
  end.
End loop.

(** After the reservation. *)
Definition dispatch_reserved (headers : list (string * string)) (body : value)
    (provider : Provider.ProviderAdaptor) (format : RequestFormat) (meta : RequestMeta)
    (original_model : string) (is_group_request : bool) (vk_id : option Uuid)
    (reserved_cents : Z) : prog Response :=
  start <- Now ;;
  let '(key, material) := Cache.Cache.compute_key (print h) (quote h) (blake3 h) original_model body in
  call! cached := check_request_cache key material (m_is_stream meta) in
  match cached with
  | Some r => Ret r
  | None =>
      let chain := Fallback.Fallback.build_fallback_chain (iter h) original_model is_group_request
                     (model_groups gw) (model_fallbacks gw) (context_window_fallbacks gw) in
      let counts := Fallback.Fallback.resolve_model_retry_counts (iter h) chain
                      (model_retry_overrides gw) (max_retries gw) in
      let c := mkCommon headers body provider format meta original_model vk_id reserved_cents start
                 key material in
      call! e := models c (wrap32 (sumZ counts)) (zip chain counts)
                   (Z.of_nat (String.length (print h body))) 0 in
      match e with
      | Finished r => Ret r
      | NextModel total =>
          let exhausted := log_all_exhausted original_model key total start (m_request_id meta) vk_id in
          match vk_id with
          | Some vk =>
              if 0 <? reserved_cents then (ReconcileSpend vk reserved_cents 0 ;;; exhausted)
              else exhausted
          | None => exhausted
          end
      end
  end.

(** The checks on the model and the reservation. *)
Definition dispatch_reserve (headers : list (string * string)) (body : value)
    (provider : Provider.ProviderAdaptor) (format : RequestFormat) (meta : RequestMeta)
    (original_model : string) : prog Response :=
  let is_group_request := bool_decide (is_Some (model_groups gw !! original_model)) in
  let go := dispatch_reserved headers body provider format meta original_model is_group_request in
  match extract_virtual_key_id headers with
  | None => go None 0
  | Some vk =>
      let reserve : prog Response :=
        let est := TokenCounter.estimate_tokens (print h) body in
        r <- ReserveSpend vk (TokenCounter.estimated_cost_cents est) ;;
        match r with
        | VirtualKey.VirtualKey.Exceeded =>
            Ret (error_response h 402
              "Virtual key budget exceeded. Please increase your budget limit or try again later."
              "budget_exceeded" "virtual_key_budget_exceeded")
        | VirtualKey.VirtualKey.NoBudget => go (Some vk) 0
        | VirtualKey.VirtualKey.Reserved n => go (Some vk) n
        end in
      key <- GetKey vk ;;
      match key with
      | Some virtual_key =>
          if negb (is_model_allowed_with_groups virtual_key original_model (model_groups gw)) then
            Ret (error_response h 403
              ("Model '" +:+ original_model +:+ "' is not allowed for this virtual key")
              "model_not_allowed" "virtual_key_model_not_allowed")
          else if VirtualKey.VirtualKey.is_model_denied virtual_key original_model then
            Ret (error_response h 403
              ("Model '" +:+ original_model +:+ "' is denied for this virtual key")
              "model_denied" "virtual_key_model_denied")
          else reserve
      | None => reserve
      end
  end.

(** The gateway's aliases. *)
Definition resolve_alias (model : string) : string := default model (model_aliases gw !! model).

Definition dispatch (headers : list (string * string)) (body : value)
    (provider : Provider.ProviderAdaptor) (format : RequestFormat) : prog Response :=
  call! meta := extract_request_meta body headers (Provider.default_model provider) in
  let original_model := resolve_alias (m_original_model meta) in
  verdict <- CheckRequest body ;;
  match verdict with
  | Guardrails.Guardrails.Block _ =>
      Ret (error_response h 403 "Request blocked by content policy" "content_blocked"
             "guardrails_blocked")
  | Guardrails.Guardrails.Allow =>
      dispatch_reserve headers body provider format meta original_model
  end.

(** The model a request is dispatched for. *)
Definition resolved_model (body : value) (provider : Provider.ProviderAdaptor) : string :=
  resolve_alias (field_str body "model" (Provider.default_model provider)).

(** *** The endpoints *)

(** proxy/mod.rs: the answer to a request without its required fields. *)
Definition missing_field (message code : string) : Response :=
  json_response 400 (print h (obj [("error", obj [("message", Str message);
    ("type", Str "invalid_request_error"); ("code", Str code)])])).
Definition validate_chat_request (body : value) : option Response :=
  if match get body "model" with Some (Str s) => String.eqb s "" | _ => true end then
    Some (missing_field "Missing required field: model" "missing_model")
  else if match get body "messages" with Some (Array (_ :: _)) => false | _ => true end then
    Some (missing_field "Missing required field: messages" "missing_messages")
  else None.

Definition validated (body : value) (p : prog Response) : prog Response :=
  match validate_chat_request body with Some r => Ret r | None => p end.

(** anthropic.rs and gemini.rs; the OpenAI endpoint is in [OpenAI]. *)
Definition handle_messages (headers : list (string * string)) (body : value) : prog Response :=
  validated body (dispatch headers body Provider.AnthropicAdaptor AnthropicMessages).
Definition handle_gemini (headers : list (string * string)) (body : value) : prog Response :=
  validated body (dispatch headers body (Provider.GeminiAdaptor (alphanumeric h)) OpenAIChat).
End dispatch.
End Dispatch.
