(* ===== verification/DispatchProps.v ===== *)
(** What the dispatch of a request guarantees (proxy/dispatch.rs, attempt.rs
    and response.rs), whatever the upstreams answer and whatever the other
    requests do to the shared state in between: what becomes of a reservation,
    of the registration in flight and of the guards, what is checked before
    anything is sent, and what an attempt records. *)

From S2P Require Import Prelude F64 Json Channel Router Fallback VirtualKey Cache Guardrails.
From S2P Require Import ModelRegistry Usage Translate Provider Machine Attempt Dispatch.

Module Monitor.
Import App Prog Attempt Dispatch.

(** What an observer of one request keeps track of. *)
Record Seen := mkSeen {
  reserved : Z;          (** cents taken by a granted reservation *)
  settled : Z;           (** cents of it given back or settled *)
  carried : Z;           (** cents of it handed to a background task *)
  looked : bool;         (** the cache was consulted *)
  registered : bool;     (** the key was registered in flight by this request *)
  completed : Z;         (** completions of the key, and tasks that owe one *)
  held : Z;              (** guards of requests sent, less those released *)
  cached : bool;         (** the cache had the answer *)
  rejected : bool;       (** an upstream answered with an error of the client *)
  blocked : bool;        (** the answer was blocked by the guardrails *)
  sends : Z;             (** requests sent *)
}.
Definition nothing_seen : Seen := mkSeen 0 0 0 false false 0 0 false false false 0.

Definition is_client_error (resp : UpstreamResponse) : bool :=
  let s := status resp in
  negb (s =? 429) && negb ((500 <=? s) && (s <? 600)) && negb ((200 <=? s) && (s <? 300))
  && negb (Provider.is_context_window_error s (text resp)).
Definition client_error (o : option UpstreamResponse) : bool :=
  match o with Some r => is_client_error r | None => false end.

Definition on_send (m : Seen) (a : option UpstreamResponse) : Seen :=
  mkSeen (reserved m) (settled m) (carried m) (looked m) (registered m) (completed m) (held m) (cached m)
    (rejected m || client_error a) (blocked m) (sends m + 1).
Definition on_money (r s k : Z) (m : Seen) : Seen :=
  mkSeen (reserved m + r) (settled m + s) (carried m + k) (looked m) (registered m) (completed m) (held m)
    (cached m) (rejected m) (blocked m) (sends m).
Definition on_key (reg : bool) (done : Z) (m : Seen) : Seen :=
  mkSeen (reserved m) (settled m) (carried m) (looked m) (registered m || reg) (completed m + done) (held m)
    (cached m) (rejected m) (blocked m) (sends m).
Definition on_guard (n : Z) (m : Seen) : Seen :=
  mkSeen (reserved m) (settled m) (carried m) (looked m) (registered m) (completed m) (held m + n)
    (cached m) (rejected m) (blocked m) (sends m).
Definition on_lookup (m : Seen) : Seen :=
  mkSeen (reserved m) (settled m) (carried m) true (registered m) (completed m) (held m)
    (cached m) (rejected m) (blocked m) (sends m).
Definition on_flags (c b : bool) (m : Seen) : Seen :=
  mkSeen (reserved m) (settled m) (carried m) (looked m) (registered m) (completed m) (held m)
    (cached m || c) (rejected m) (blocked m || b) (sends m).

(** A task settles the reservation of the key it has; a stream's task also
    completes the registration and releases the guard. *)
Definition on_spawn (t : Task) (m : Seen) : Seen :=
  match t with
  | AfterJson rec _ _ =>
      on_money 0 0 (match t_vk_id rec with Some _ => Z.max 0 (t_reserved_cents rec) | None => 0 end) m
  | AfterStream _ _ _ _ vk cents _ _ _ _ =>
      on_money 0 0 (match vk with Some _ => Z.max 0 cents | None => 0 end) (on_key false 1 (on_guard (-1) m))
  end.

Definition see (m : Seen) (e : event) : Seen :=
  match e with
  | @Did X o x =>
      match o in op Y return Y → Seen with
      | ReserveSpend _ _ => λ r,
          match r with VirtualKey.VirtualKey.Reserved n => on_money (Z.max 0 n) 0 0 m | _ => m end
      | ReconcileSpend _ r _ => λ _, on_money 0 r 0 m
      | CacheGet _ _ => λ a, on_lookup (match a with Some _ => on_flags true false m | None => m end)
      | Register _ => λ b, on_key b 0 m
      | Complete _ => λ _, on_key false 1 m
      | Acquire _ => λ _, on_guard 1 m
      | Release _ => λ _, on_guard (-1) m
      | CheckResponse _ => λ v,
          match v with
          | Guardrails.Guardrails.Block _ => on_flags false true m
          | Guardrails.Guardrails.Allow => m
          end
      | Send _ => λ a, on_send m a
      | SendWithin _ _ => λ a, on_send m (default None a)
      | Spawn t => λ _, on_spawn t m
      | _ => λ _, m
      end x
  end.

Section attempt.
Context (h : Host) (gw : ProxyParams).
Implicit Types (m : Seen) (ctx : DispatchContext).

Abbreviation safe := (Prog.safe see).

Lemma safe_log {ctx reason m} {Q : Seen → ending unit → Prop} :
  Q m (Returned ()) → safe (log_attempt_failure h ctx reason) m Q.
Proof. intros HQ. unfold log_attempt_failure. observe. by cbn. Qed.

Lemma safe_fail {ctx reason m} {Q : Seen → ending AttemptOutcome → Prop} :
  Q m (Returned Retry) → safe (fail_and_retry h ctx reason) m Q.
Proof. intros HQ. unfold fail_and_retry. observe. apply safe_log. by cbn. Qed.

Lemma safe_fails {A} {p : prog AttemptOutcome} {m} {Q : Seen → ending (A + AttemptOutcome) → Prop} :
  safe p m (λ m e, cast e (Q m) (λ o, Q m (Returned (inr o)))) → safe (fails p) m Q.
Proof. intros Hp. unfold fails. by apply safe_bind. Qed.

Lemma safe_build {ctx b um key m} {Q : Seen → ending (Request + AttemptOutcome) → Prop} :
  (∀ req, Q m (Returned (inl req))) → Q m (Returned (inr Retry)) →
  safe (build_upstream_request h ctx b um key) m Q.
Proof.
  intros H1 H2. unfold build_upstream_request. destruct (Channel.proxy_url _); [|apply H1].
  observe. destruct x; [apply H1|]. apply safe_fails, safe_fail. apply H2.
Qed.

Lemma safe_send {ctx req tokens m} {Q : Seen → ending (UpstreamResponse + AttemptOutcome) → Prop} :
  (∀ resp, Q (on_send (on_guard 1 m) (Some resp)) (Returned (inl resp))) →
  Q (on_guard (-1) (on_send (on_guard 1 m) None)) (Returned (inr Retry)) →
  safe (send_with_timeout h gw ctx req tokens) m Q.
Proof.
  intros H1 H2. unfold send_with_timeout.
  assert (∀ reason, safe (bind (fail_and_retry h ctx reason)
            (λ o, Do (Release (Channel.id (channel ctx))) (λ _, Ret (inr o))))
            (on_send (on_guard 1 m) None) Q) as Hf.
  { intros reason. apply safe_bind, safe_fail. by observe. }
  assert (∀ result, safe (Do (RecordLimiter (Channel.id (channel ctx)) tokens) (λ _,
            match result with
            | Some r => Ret (inl r)
            | None => bind (fail_and_retry h ctx ConnectionError)
                (λ o, Do (Release (Channel.id (channel ctx))) (λ _, Ret (inr o)))
            end)) (on_send (on_guard 1 m) result) Q) as Hr.
  { intros [r|]; observe; [apply H1|]. apply (Hf ConnectionError). }
  observe. destruct (if is_stream ctx then _ else None) as [secs|].
  - destruct (0 <? secs); observe; [|apply Hr].
    destruct x0 as [result|]; [apply Hr|]. observe. apply (Hf Timeout).
  - observe. apply Hr.
Qed.

Lemma safe_check {ctx resp m} {Q : Seen → ending (UpstreamResponse + AttemptOutcome) → Prop} :
  (is_client_error resp = false → Q m (Returned (inl resp))) →
  (is_client_error resp = false → Q m (Returned (inr Retry))) →
  (is_client_error resp = false → Q m (Returned (inr ContextOverflow))) →
  (∀ r, is_client_error resp = true → Q m (Returned (inr (Respond r)))) →
  safe (check_error_status h ctx resp) m Q.
Proof.
  intros H1 H2 H3 H4. unfold check_error_status. unfold is_client_error in *.
  destruct (status resp =? 429); [observe; apply safe_log, H2; done|].
  destruct (_ && (status resp <? 600)); [apply safe_fails, safe_fail, H2; done|].
  destruct (_ && (status resp <? 300)); [apply H1; done|]. cbn [negb andb] in *.
  destruct (Provider.is_context_window_error _ _).
  - observe. apply safe_log, H3. done.
  - observe. apply safe_log, H4. done.
Qed.

Lemma safe_bootstrap {ctx resp tokens m}
    {Q : Seen → ending (list Provider.chunk * option Provider.chunk + AttemptOutcome) → Prop} :
  (∀ x, Q m (Returned (inl x))) → Q m (Returned (inr Retry)) →
  safe (check_sse_bootstrap h gw ctx resp tokens) m Q.
Proof.
  intros H1 H2. unfold check_sse_bootstrap, bootstrap_sse_stream.
  destruct (_ && _); [|apply H1].
  destruct (chunks resp) as [|[bytes stamp| |] rest].
  - observe. by apply safe_log.
  - destruct (Provider.is_stream_error_chunk _); [by apply safe_fails, safe_fail|apply H1].
  - observe. by apply safe_log.
  - observe. by apply safe_fails, safe_fail.
Qed.

Lemma safe_prepare {ctx m} {Q : Seen → ending (string * Json.value) → Prop} :
  (∀ x, Q m (Returned x)) → safe (prepare_upstream_body ctx) m Q.
Proof. intros HQ. unfold prepare_upstream_body. observe. destruct x; observe; apply HQ. Qed.

Lemma safe_guards {ctx b m} {Q : Seen → ending (Json.value + AttemptOutcome) → Prop} :
  (∀ x, Q m (Returned (inl x))) → Q m (Returned (inr ContextOverflow)) →
  safe (check_pre_flight_guards h ctx b) m Q.
Proof.
  intros H1 H2. unfold check_pre_flight_guards. observe.
  destruct (ModelRegistry.ModelRegistry.max_context_tokens x); [|apply H1].
  destruct (_ <? _); [observe; by apply safe_log|apply H1].
Qed.

Lemma safe_side_effects {ctx resp m} {Q : Seen → ending (list (string * string)) → Prop} :
  (∀ x, Q m (Returned x)) → safe (record_success_side_effects gw ctx resp) m Q.
Proof.
  intros HQ. unfold record_success_side_effects. observe.
  destruct (session_id ctx), (extract_quota _ _); observe; apply HQ.
Qed.

(** The cents a request's task owes to the reservation. *)
Definition due ctx : Z := match vk_id ctx with Some _ => Z.max 0 (reserved_cents ctx) | None => 0 end.

Lemma safe_stream {ctx um uh rest first proto m} {Q : Seen → ending Response → Prop} :
  (∀ r, Q (on_money 0 0 (due ctx) (on_key false 1 (on_guard (-1) m))) (Returned r)) →
  safe (handle_streaming_success h gw ctx um uh rest first proto) m Q.
Proof. intros HQ. unfold handle_streaming_success. observe. apply HQ. Qed.

Lemma safe_transform {ctx bytes um m} {Q : Seen → ending string → Prop} :
  (∀ x, Q m (Returned x)) → safe (transform_body h ctx bytes um) m Q.
Proof.
  intros HQ. unfold transform_body. destruct (Provider.needs_response_transform _); [|apply HQ].
  destruct (parse h _); observe; apply HQ.
Qed.
Lemma safe_translate {ctx bytes um m} {Q : Seen → ending string → Prop} :
  (∀ x, Q m (Returned x)) → safe (translate_body h ctx bytes um) m Q.
Proof.
  intros HQ. unfold translate_body. case_bool_decide; [apply HQ|].
  destruct (parse h _); observe; apply HQ.
Qed.

Lemma safe_json {ctx um uh resp m} {Q : Seen → ending Response → Prop} :
  (∀ r, Q (on_guard (-1) (on_money 0 0 (due ctx) (on_key false 1 m))) (Returned r)) →
  (∀ r, Q (on_guard (-1) (on_flags false true m)) (Returned r)) →
  safe (handle_json_success h gw ctx um uh resp) m Q.
Proof.
  intros H1 H2. unfold handle_json_success.
  apply safe_bind, safe_transform. intros b1. cbn [cast].
  apply safe_bind, safe_translate. intros b2. cbn [cast].
  destruct (parse h _); observe; [|apply H1]. destruct x; observe; [apply H1|apply H2].
Qed.

(** What an attempt does to what the observer keeps track of. *)
Definition attempt_ok ctx m m' (e : ending AttemptOutcome) : Prop :=
  reserved m' = reserved m ∧ settled m' = settled m ∧ looked m' = looked m ∧ registered m' = registered m ∧
  cached m' = cached m ∧ held m' = held m ∧ sends m ≤ sends m' ≤ sends m + 1 ∧
  match e with
  | Returned (Respond _) =>
      (rejected m' = rejected m ∧ blocked m' = blocked m ∧
       carried m' = carried m + due ctx ∧ completed m' = completed m + 1) ∨
      ((rejected m' = true ∨ blocked m' = true) ∧
       carried m' = carried m ∧ completed m' = completed m)
  | Returned _ | Panicked =>
      rejected m' = rejected m ∧ blocked m' = blocked m ∧
      carried m' = carried m ∧ completed m' = completed m
  | Waiting => False
  end.

Ltac see_fields :=
  cbn [see reserved settled carried looked registered completed held cached rejected blocked sends
       on_money on_key on_guard on_lookup on_flags on_send on_spawn client_error default from_option id].
Ltac see_fields_in H :=
  cbn [see reserved settled carried looked registered completed held cached rejected blocked sends
       on_money on_key on_guard on_lookup on_flags on_send on_spawn] in H.
Ltac done_attempt :=
  unfold attempt_ok; see_fields; rewrite ?orb_false_r, ?orb_true_r;
  repeat match goal with
         | |- _ ∧ _ => split
         | |- _ ≤ _ => lia
         | |- _ = _ => (reflexivity || lia)
         end.

Lemma safe_succeed ctx um resp tokens m m0 :
  is_client_error resp = false → m = on_send (on_guard 1 m0) (Some resp) →
  safe (succeed h gw ctx um resp tokens) m (attempt_ok ctx m0).
Proof.
  intros Hce ->. unfold succeed. apply safe_bind, safe_side_effects. intros uh. cbn [cast].
  destruct (is_stream ctx).
  - apply safe_bind, safe_bootstrap.
    + intros [rest first]. cbn [cast]. apply safe_bind, safe_stream. intros r. cbn [cast Prog.safe].
      done_attempt. left. done_attempt.
    + cbn [cast]. unfold release. observe. done_attempt.
  - apply safe_bind, safe_json; intros r; cbn [cast Prog.safe]; done_attempt.
    + left. done_attempt.
    + right. done_attempt. by right.
Qed.

Lemma safe_call ctx um key b tokens m :
  safe (call_upstream h gw ctx um key b tokens) m (attempt_ok ctx m).
Proof.
  unfold call_upstream. apply safe_bind, safe_build; [intros req|]; cbn [cast].
  - apply safe_bind, safe_send; [intros resp|]; cbn [cast].
    + apply safe_bind, safe_check; cbn [cast]; intros.
      * by apply safe_succeed.
      * unfold release. observe. done_attempt.
      * unfold release. observe. done_attempt.
      * unfold release. observe. done_attempt. right. done_attempt. left. done_attempt.
    + observe. done_attempt.
  - observe. done_attempt.
Qed.

Lemma safe_attempt ctx m :
  safe (try_channel_attempt h gw ctx) m (attempt_ok ctx m).
Proof.
  unfold try_channel_attempt. apply safe_bind, safe_prepare. intros [um b]. cbn [cast].
  observe. destruct (negb _).
  - observe. apply safe_log. observe. done_attempt.
  - observe; [done_attempt|]. destruct x0 as [key|]; [|apply safe_fail; done_attempt].
    destruct (translated_request h ctx _) as [b'|]; observe; [|done_attempt].
    apply safe_guards; [intros b2; cbn [cast]; apply safe_call|]. observe. done_attempt.
Qed.

(** *** The loop *)

Definition owed (c : Common) : Z := match c_vk_id c with Some _ => Z.max 0 (c_reserved_cents c) | None => 0 end.

Definition loop_ok (c : Common) (max total : Z) m m' (e : ending LoopEnd) : Prop :=
  reserved m' = reserved m ∧ settled m' = settled m ∧ looked m' = looked m ∧ registered m' = registered m ∧
  cached m' = cached m ∧ held m' = held m ∧
  sends m ≤ sends m' ≤ sends m + Z.max 0 (max - total) ∧
  match e with
  | Returned (Finished _) =>
      (rejected m' = rejected m ∧ blocked m' = blocked m ∧
       carried m' = carried m + owed c ∧ completed m' = completed m + 1) ∨
      ((rejected m' = true ∨ blocked m' = true) ∧
       carried m' = carried m ∧ completed m' = completed m)
  | Returned (NextModel total') =>
      rejected m' = rejected m ∧ blocked m' = blocked m ∧
      carried m' = carried m ∧ completed m' = completed m ∧
      total ≤ total' ∧ sends m' ≤ sends m + (total' - total)
  | Panicked =>
      rejected m' = rejected m ∧ blocked m' = blocked m ∧
      carried m' = carried m ∧ completed m' = completed m
  | Waiting => False
  end.

(** Inequalities only: the equations of the frame are in the way. *)
Ltac order := repeat match goal with H : @eq _ _ _ |- _ => clear H end; lia.

Lemma loop_ok_trans c max total total1 m m1 m' e :
  loop_ok c max total m m1 (Returned (NextModel total1)) →
  loop_ok c max total1 m1 m' e → loop_ok c max total m m' e.
Proof.
  unfold loop_ok. intros (?&?&?&?&?&?&?&?&?&?&?&?&?) (?&?&?&?&?&?&?&He).
  split_and!; [congruence..|clear He; order|clear He; order|].
  destruct e as [[r|t]| |]; [|destruct He as (?&?&?&?&?&?)|destruct He as (?&?&?&?)|done].
  - destruct He as [(?&?&?&?)|([?|?]&?&?)]; [left|right..]; split_and!; try congruence.
    + by left.
    + by right.
  - split_and!; first [congruence | order].
  - split_and!; congruence.
Qed.

Lemma loop_ok_start c max total m : loop_ok c max total m m (Returned (NextModel total)).
Proof. unfold loop_ok. split_and!; (done || lia). Qed.

(** An attempt counts one. *)
Lemma loop_ok_attempt c ch model n max total m m' e :
  total < max → attempt_ok (context_of c ch model n) m m' e →
  loop_ok c max total m m'
    (match e with
     | Returned (Respond r) => Returned (Finished r)
     | Returned _ => Returned (NextModel (total + 1))
     | Panicked => Panicked
     | Waiting => Waiting
     end).
Proof.
  intros Ht (?&?&?&?&?&?&?&He). unfold loop_ok.
  split_and!; [congruence..|clear He; order|clear He; order|].
  destruct e as [[r| |]| |]; [exact He| | |exact He..];
    destruct He as (?&?&?&?); split_and!; first [congruence | order].
Qed.

Lemma loop_ok_count c max total m :
  total < max → loop_ok c max total m m (Returned (NextModel (total + 1))).
Proof. intros. unfold loop_ok. split_and!; (done || lia). Qed.

Lemma safe_select {u model strategy group m} {Q : Seen → ending (option Channel.Channel) → Prop} :
  (∀ x, Q m (Returned x)) → Q m Panicked →
  safe (select_channel_for_attempt u model strategy group) m Q.
Proof.
  intros H1 H2. unfold select_channel_for_attempt.
  destruct u; observe; [destruct x; observe|..]; auto.
Qed.

Lemma safe_attempts c max model base_ms max_ms fuel : ∀ attempt total m,
  safe (attempts h gw c max fuel model base_ms max_ms attempt total) m (loop_ok c max total m).
Proof.
  induction fuel as [|fuel IH]; intros attempt total m; cbn [attempts]; [apply loop_ok_start|].
  destruct (Z.ltb_spec total max) as [Ht|Ht]; cbn [negb]; [|apply loop_ok_start].
  observe. destruct (_ <? _); [apply loop_ok_start|].
  observe. apply safe_select; [intros [ch|]|]; cbn [cast Prog.safe].
  2:{ by apply loop_ok_count. }
  2:{ unfold loop_ok. see_fields. split_and!; (done || lia). }
  assert (∀ n m1, loop_ok c max total m m1 (Returned (NextModel (total + 1))) →
    safe (attempts h gw c max fuel model base_ms max_ms n (total + 1)) m1 (loop_ok c max total m))
    as Hnext.
  { intros n m1 H1. eapply safe_mono; [|apply IH]. intros m2 e. by apply loop_ok_trans. }
  observe. destruct (negb _); [by apply Hnext, loop_ok_count|].
  destruct (match Channel.max_retries ch with Some _ => _ | None => _ end);
    [by apply Hnext, loop_ok_count|].
  apply safe_bind. eapply safe_mono; [|apply safe_attempt]. intros m1 e H1.
  apply (loop_ok_attempt _ _ _ _ _ _ _ _ _ Ht) in H1.
  destruct e as [[r| |]| |]; cbn [cast Prog.safe] in *; [exact H1| |exact H1..].
  observe. by apply Hnext.
Qed.

Lemma safe_skip {model len m} {Q : Seen → ending bool → Prop} :
  (∀ x, Q m (Returned x)) → safe (pre_flight_skip_model model len) m Q.
Proof.
  intros HQ. unfold pre_flight_skip_model. observe.
  destruct (ModelRegistry.ModelRegistry.max_context_tokens x); [destruct (_ <? _)|]; observe; apply HQ.
Qed.

Lemma safe_models c max len chain : ∀ total m,
  safe (models h gw c max chain len total) m (loop_ok c max total m).
Proof.
  induction chain as [|[model n] chain IH]; intros total m; cbn [models]; [apply loop_ok_start|].
  apply safe_bind, safe_skip. intros [|]; cbn [cast]; [apply IH|].
  apply safe_bind. eapply safe_mono; [|apply safe_attempts]. intros m1 e H1.
  destruct e as [[r|total1]| |]; cbn [cast Prog.safe]; [exact H1| |exact H1..].
  eapply safe_mono; [|apply IH]. intros m2 e. by apply loop_ok_trans.
Qed.

(** *** The whole request *)

(** The exact account at the end of a request. *)
Definition accounted (max : Z) m (e : ending Response) : Prop :=
  held m = 0 ∧ sends m ≤ max ∧ (registered m = true → cached m = false) ∧
  match e with
  | Returned _ =>
      settled m + carried m =
        (if cached m || rejected m || blocked m then 0 else reserved m) ∧
      completed m = (if looked m && negb (cached m || rejected m || blocked m) then 1 else 0)
  | Panicked | Waiting => settled m + carried m = 0 ∧ completed m = 0
  end.

Definition total_attempts_bound (original_model : string) (is_group : bool) : Z :=
  let chain := Fallback.Fallback.build_fallback_chain (iter h) original_model is_group
                 (model_groups gw) (model_fallbacks gw) (context_window_fallbacks gw) in
  wrap32 (sumZ (Fallback.Fallback.resolve_model_retry_counts (iter h) chain
                  (model_retry_overrides gw) (max_retries gw))).

Definition cache_ok m m' (e : ending (option Response)) : Prop :=
  reserved m' = reserved m ∧ settled m' = settled m ∧ carried m' = carried m ∧
  completed m' = completed m ∧ held m' = held m ∧ rejected m' = rejected m ∧
  blocked m' = blocked m ∧ sends m' = sends m ∧ looked m' = true ∧
  match e with
  | Returned (Some _) => cached m' = true ∧ registered m' = registered m
  | Returned None => cached m' = cached m
  | Waiting => registered m' = registered m
  | Panicked => False
  end.

Ltac done_fields :=
  unfold cache_ok; see_fields; rewrite ?orb_false_r, ?orb_true_r; split_and!; done || lia.

Lemma safe_cache key material stream m :
  safe (check_request_cache key material stream) m (cache_ok m).
Proof.
  unfold check_request_cache. observe. destruct x as [c|]; observe.
  - done_fields.
  - destruct x; observe; [done_fields..|]. destruct x0 as [c|]; observe; done_fields.
Qed.

(** After the reservation and the checks. *)
Definition entering (vk : option Uuid) (cents : Z) m : Prop :=
  m = mkSeen (match vk with Some _ => Z.max 0 cents | None => 0 end)
        0 0 false false 0 0 false false false 0.

Lemma safe_exhausted {model key total start rid vk m} {Q : Seen → ending Response → Prop} :
  (∀ r, Q (on_key false 1 m) (Returned r)) →
  safe (log_all_exhausted h model key total start rid vk) m Q.
Proof. intros HQ. unfold log_all_exhausted. observe. apply HQ. Qed.

Ltac done_account :=
  unfold accounted; see_fields; rewrite ?orb_true_r; cbn [orb andb negb];
  split_and!; first [done | lia | congruence].

Lemma safe_reserved headers body provider format meta model grp vk cents m :
  entering vk cents m →
  safe (dispatch_reserved h gw headers body provider format meta model grp vk cents) m
    (accounted (total_attempts_bound model grp)).
Proof.
  intros ->. unfold dispatch_reserved, total_attempts_bound. observe.
  destruct (Cache.Cache.compute_key _ _ _ _ _) as [key material].
  set (chain := Fallback.Fallback.build_fallback_chain _ _ _ _ _ _).
  set (counts := Fallback.Fallback.resolve_model_retry_counts _ _ _ _).
  assert (0 ≤ wrap32 (sumZ counts)) as Hpos by (unfold wrap32; apply Z.mod_pos_bound; lia).
  apply safe_bind. eapply safe_mono; [|apply safe_cache].
  intros [] e (H1&H2&H3&H4&H5&H6&H7&H8&H9&He).
  cbn [see reserved settled carried looked registered completed held cached rejected blocked sends]
    in *.
  subst. destruct e as [[r|]| |]; cbn [cast Prog.safe]; [|subst|done|].
  { destruct He as [-> ->]. done_account. }
  2:{ subst. done_account. }
  apply safe_bind. eapply safe_mono; [|apply safe_models].
  intros [] e (H1&H2&H3&H4&H5&H6&H7&He).
  cbn [see reserved settled carried looked registered completed held cached rejected blocked sends]
    in *.
  unfold owed in He. cbn [c_vk_id c_reserved_cents] in He. subst.
  destruct e as [[r|total]| |]; cbn [cast Prog.safe]; [| | |done].
  - destruct He as [(->&->&->&->)|([->| ->]&->&->)]; done_account.
  - destruct He as (->&->&->&->&_). destruct vk as [vk|]; [destruct (Z.ltb_spec 0 cents); observe|];
      apply safe_exhausted; intros r; done_account.
  - destruct He as (->&->&->&->). done_account.
Qed.

Lemma safe_meta {body headers dm m} {Q : Seen → ending RequestMeta → Prop} :
  (∀ meta, m_original_model meta = Translate.field_str body "model" dm → Q m (Returned meta)) →
  safe (extract_request_meta h body headers dm) m Q.
Proof.
  intros HQ. unfold extract_request_meta.
  destruct (Affinity.Affinity.extract_session_id _ _ _ _); observe; by apply HQ.
Qed.

Definition is_group (model : string) : bool := bool_decide (is_Some (model_groups gw !! model)).
Definition attempts_allowed (body : Json.value) (provider : Provider.ProviderAdaptor) : Z :=
  let model := resolved_model gw body provider in total_attempts_bound model (is_group model).

Lemma nothing_accounted max r : 0 ≤ max → accounted max nothing_seen (Returned r).
Proof. intros. unfold nothing_seen. done_account. Qed.

Lemma safe_reserve headers body provider format meta model :
  safe (dispatch_reserve h gw headers body provider format meta model) nothing_seen
    (accounted (total_attempts_bound model (is_group model))).
Proof.
  assert (0 ≤ total_attempts_bound model (is_group model)) as Hpos
    by (unfold total_attempts_bound, wrap32; apply Z.mod_pos_bound; lia).
  unfold dispatch_reserve. destruct (extract_virtual_key_id h headers) as [vk|];
    [|by apply safe_reserved].
  observe. destruct x as [key|]; [destruct (negb _)|]; [by apply nothing_accounted|..].
  - destruct (VirtualKey.VirtualKey.is_model_denied _ _); [by apply nothing_accounted|].
    observe. destruct x as [|c|]; [by apply safe_reserved|by apply safe_reserved|].
    by apply nothing_accounted.
  - observe. destruct x as [|c|]; [by apply safe_reserved|by apply safe_reserved|].
    by apply nothing_accounted.
Qed.

Lemma safe_dispatch headers body provider format :
  safe (dispatch h gw headers body provider format) nothing_seen
    (accounted (attempts_allowed body provider)).
Proof.
  unfold dispatch, attempts_allowed. apply safe_bind, safe_meta. intros meta Hm. cbn [cast].
  unfold resolved_model. rewrite <- Hm. observe. destruct x as [|why]; [apply safe_reserve|].
  apply nothing_accounted. unfold total_attempts_bound, wrap32. apply Z.mod_pos_bound. lia.
Qed.

(** *** The background tasks *)

Lemma safe_telemetry {rec m} {Q : Seen → ending unit → Prop} :
  Q (on_money 0 (match t_vk_id rec with
                 | Some _ => if 0 <? t_reserved_cents rec then t_reserved_cents rec else 0
                 | None => 0 end) 0 m) (Returned ()) →
  safe (record_post_response_telemetry rec) m Q.
Proof.
  assert (on_money 0 0 0 m = m) as H0 by (unfold on_money; rewrite !Z.add_0_r; by destruct m).
  intros HQ. unfold record_post_response_telemetry. observe.
  destruct (t_vk_id rec); [destruct (0 <? _)|]; observe; rewrite ?H0 in HQ; apply HQ.
Qed.

(** What a stream task reads off the text of the stream. *)
Definition stream_usage (text : string) : Usage.TokenUsage :=
  Usage.extract_usage_from_stream (parse h) (data_lines text).
Definition has_usage (u : Usage.TokenUsage) : bool :=
  present (Usage.input_tokens u) || present (Usage.output_tokens u).

Lemma safe_after_text ch model pricing ratio vk cents log_id text m d :
  completed m = d → held m = 0 → settled m = 0 → 0 ≤ cents →
  safe (after_text h ch model pricing ratio (Some vk) cents log_id text) m
    (λ m e, e = Returned () ∧ held m = -1 ∧ completed m = d ∧
       settled m = (if has_usage (stream_usage text) then cents else 0)).
Proof.
  intros Hd Hh Hs Hc. unfold after_text.
  assert (has_usage (stream_usage text) = true → safe (bind (record_post_response_telemetry
      (mkTelemetry (Channel.id ch) (Channel.as_str (Channel.provider ch)) model (stream_usage text)
         (Cost.compute_token_cost pricing (Cost.from_channel ch) ratio
            (default 0 (Usage.input_tokens (stream_usage text)))
            (default 0 (Usage.output_tokens (stream_usage text)))) (Some vk) cents))
      (λ _, Do (Release (Channel.id ch)) (λ _, Ret ()))) m
    (λ m e, e = Returned () ∧ held m = -1 ∧ completed m = d ∧
       settled m = (if has_usage (stream_usage text) then cents else 0))) as Ht.
  { intros ->. apply safe_bind, safe_telemetry. observe; see_fields; [done|lia..|].
    cbn [t_vk_id t_reserved_cents]. destruct (Z.ltb_spec 0 cents); lia. }
  unfold stream_usage, has_usage in *. destruct (data_lines text) as [|l ls].
  - observe; see_fields; [done|lia..|]. done.
  - set (u := Usage.extract_usage_from_stream (parse h) (l :: ls)) in *.
    destruct (present (Usage.input_tokens u)), (present (Usage.output_tokens u)); cbn [orb andb] in *;
      [split_and!; [exact I..|]; intros ?; by apply Ht|by apply Ht|by apply Ht|].
    observe; see_fields; [done|lia..|done].
Qed.
End attempt.
End Monitor.

Module DispatchProps.
Import App Prog Attempt Dispatch Monitor.

(** C1. Every cent a request reserves on a virtual key is given back, handed to
    exactly one background task, or lost, and it is clear which.  Whatever the
    upstreams answer and the other requests do: when the request is answered,
    the cents settled plus those carried by a task are the cents reserved,
    except when the answer came from the cache, was an upstream's error of the
    client, or was blocked by the guardrails; then, and when the request
    panics or waits for ever, nothing of the reservation is settled. *)
Theorem reservation_settled_or_lost h gw readings others n s headers body provider format :
  let '(tr, e, _) := run h readings others n (dispatch h gw headers body provider format) s in
  let m := observe see nothing_seen tr in
  settled m + carried m =
    match e with
    | Returned _ => if cached m || rejected m || blocked m then 0 else reserved m
    | Panicked | Waiting => 0
    end.
Proof.
  pose proof (safe_run see h readings others n _ _ s _ (safe_dispatch h gw headers body provider format))
    as H.
  destruct (run _ _ _ _ _ _) as [[tr e] s']. destruct H as (_&_&_&H).
  destruct e as [r| |]; by destruct H.
Qed.

(** C2. A request that registers its key in flight completes the registration
    exactly once, or leaves that to its stream's task, unless the upstream
    answered with an error of the client or the guardrails blocked the answer:
    then the key stays registered, and so it does when the request panics.  In
    any case no guard on a channel is left behind and no more requests are
    sent than the retry counts of the chain add up to. *)
Theorem registration_completed_or_left h gw readings others n s headers body provider format :
  let '(tr, e, _) := run h readings others n (dispatch h gw headers body provider format) s in
  let m := observe see nothing_seen tr in
  held m = 0 ∧ sends m ≤ attempts_allowed h gw body provider ∧
  (registered m = true → cached m = false) ∧
  completed m =
    match e with
    | Returned _ => if looked m && negb (cached m || rejected m || blocked m) then 1 else 0
    | Panicked | Waiting => 0
    end.
Proof.
  pose proof (safe_run see h readings others n _ _ s _ (safe_dispatch h gw headers body provider format))
    as H.
  destruct (run _ _ _ _ _ _) as [[tr e] s']. destruct H as (H1&H2&H3&H4).
  split_and!; [done..|]. destruct e as [r| |]; by destruct H4.
Qed.

(** C11. The task of a stream settles the reservation exactly when the text that
    its client was sent by then carries a usage, completes the registration
    exactly when there is any text, and releases the guard in any case. *)
Theorem stream_task_settles h readings others n s ch model pricing ratio vk cents key material
    output log_id :
  0 ≤ cents →
  let read := forwarded (readings n) in
  let text := Utf8.from_utf8_lossy (output read.1 read.2) in
  let '(tr, e, _) := run h readings others n
    (run_task h (AfterStream ch model pricing ratio (Some vk) cents key material output log_id)) s in
  let m := observe see nothing_seen tr in
  e = Returned () ∧ held m = -1 ∧
  completed m = (if String.eqb text "" then 0 else 1) ∧
  settled m = (if has_usage (stream_usage h text) then cents else 0).
Proof.
  intros Hc read text. unfold run_task, after_stream. cbn [run handle]. fold read. fold text.
  match goal with |- context [run h readings others (S n) ?p ?s1] =>
    pose proof (safe_run see h readings others (S n) p nothing_seen s1
      (λ m e, e = Returned () ∧ held m = -1 ∧
         completed m = (if String.eqb text "" then 0 else 1) ∧
         settled m = (if has_usage (stream_usage h text) then cents else 0))) as H;
    destruct (run h readings others (S n) p s1) as [[tr e] s']
  end.
  refine (H _). clear H tr e s'.
  assert (∀ m, completed m = (if String.eqb text "" then 0 else 1) → held m = 0 → settled m = 0 →
    safe see (after_text h ch model pricing ratio (Some vk) cents log_id text) m
      (λ m e, e = Returned () ∧ held m = -1 ∧
         completed m = (if String.eqb text "" then 0 else 1) ∧
         settled m = (if has_usage (stream_usage h text) then cents else 0))) as Hs.
  { intros m H1 H2 H3. by apply safe_after_text. }
  destruct (String.eqb text ""); [by apply Hs|].
  cbn [safe may_panic may_wait]. split_and!; [done..|]. intros ?. split_and!; [done..|]. intros ?.
  by apply Hs.
Qed.
End DispatchProps.
