(* ===== verification/Admission.v ===== *)
(** What is checked before a request is sent to an upstream
    (proxy/dispatch.rs, proxy/attempt.rs): in every run, whatever the
    operations answer. *)

From S2P Require Import Prelude F64 Json Channel Router Fallback VirtualKey Cache Guardrails.
From S2P Require Import ModelRegistry Usage Translate Provider Machine Attempt Dispatch.

Module Admission.
Import App Prog Attempt Dispatch Only.


Section monitor.
Context (gw : ProxyParams) (h : Host) (model : string) (vk : option Uuid) (request : Json.value).









(** *** Programs that establish nothing *)

Implicit Types (ctx : DispatchContext).


(** *** The attempt *)







(** *** The loop *)




(** *** The request *)


End monitor.

End Admission.

Module AdmissionProps.
Import App Prog Attempt Dispatch Only Admission.

End AdmissionProps.
