(* ===== verification/Bookkeeping.v ===== *)
(** What an attempt records about its channel (proxy/attempt.rs): the circuit
    breaker, the cooldown tracker and the rate limiter learn from the answer of
    the upstream, and exactly what the answer calls for. *)

From S2P Require Import Prelude F64 Json Channel ModelRegistry Provider Machine Attempt.

Module Bookkeeping.
Import App Prog Only Attempt.

(** What has been recorded, about the channel [u]. *)
Record Book := mkBook {
  answered : option (option UpstreamResponse);  (** what the send gave *)
  no_credential : bool;
  no_client : bool;
  opened : Z;                                   (** [mark_circuit_open] *)
  retried : list (option Z);                    (** [mark_circuit_open_with_retry] *)
  limited : list (string * option Z);           (** [mark_model_rate_limited] *)
  failures : Z;                                 (** [record_attempt] *)
  successes : Z;
  charges : Z;                                  (** uses recorded at the limiter *)
  foreign : bool;                               (** anything about another channel *)
}.
Definition empty_book : Book := mkBook None false false 0 [] [] 0 0 0 false.

Section monitor.
Context (u : Uuid).

Definition other (v : Uuid) : bool := negb (bool_decide (v = u)).

Definition on_answer (a : option UpstreamResponse) (b : Book) : Book :=
  mkBook (Some a) (no_credential b) (no_client b) (opened b) (retried b) (limited b) (failures b)
    (successes b) (charges b) (foreign b).
Definition on_missing (cred client : bool) (b : Book) : Book :=
  mkBook (answered b) (no_credential b || cred) (no_client b || client) (opened b) (retried b)
    (limited b) (failures b) (successes b) (charges b) (foreign b).
Definition on_open (v : Uuid) (b : Book) : Book :=
  mkBook (answered b) (no_credential b) (no_client b) (opened b + 1) (retried b) (limited b)
    (failures b) (successes b) (charges b) (foreign b || other v).
Definition on_retry (v : Uuid) (ra : option Z) (b : Book) : Book :=
  mkBook (answered b) (no_credential b) (no_client b) (opened b) (retried b ++ [ra]) (limited b)
    (failures b) (successes b) (charges b) (foreign b || other v).
Definition on_limited (v : Uuid) (m : string) (ra : option Z) (b : Book) : Book :=
  mkBook (answered b) (no_credential b) (no_client b) (opened b) (retried b)
    (limited b ++ [(m, ra)]) (failures b) (successes b) (charges b) (foreign b || other v).
Definition on_attempt (v : Uuid) (ok : bool) (b : Book) : Book :=
  mkBook (answered b) (no_credential b) (no_client b) (opened b) (retried b) (limited b)
    (failures b + if ok then 0 else 1) (successes b + if ok then 1 else 0) (charges b)
    (foreign b || other v).
Definition on_charge (v : Uuid) (b : Book) : Book :=
  mkBook (answered b) (no_credential b) (no_client b) (opened b) (retried b) (limited b)
    (failures b) (successes b) (charges b + 1) (foreign b || other v).

Definition keep (b : Book) (e : event) : Book :=
  match e with
  | @Did X o x =>
      match o in op Y return Y → Book with
      | Send _ => λ a, on_answer a b
      | SendWithin _ _ => λ a, on_answer (default None a) b
      | GetCredential _ => λ k, on_missing (negb (present k)) false b
      | Client _ => λ ok, on_missing false (negb ok) b
      | MarkCircuitOpen v => λ _, on_open v b
      | MarkCircuitOpenWithRetry v ra => λ _, on_retry v ra b
      | MarkModelRateLimited v m ra => λ _, on_limited v m ra b
      | RecordAttempt v ok => λ _, on_attempt v ok b
      | RecordLimiter v _ => λ _, on_charge v b
      | _ => λ _, b
      end x
  end.

(** *** What the answer calls for *)

Record Marks := mkMarks {
  k_opened : Z; k_retried : list (option Z); k_limited : list (string * option Z);
  k_failures : Z; k_successes : Z; k_charges : Z;
}.
Definition marks (b : Book) : Marks :=
  mkMarks (opened b) (retried b) (limited b) (failures b) (successes b) (charges b).

(** The first chunk of a stream that is checked before it is passed on. *)
Definition bootstrap_marks (resp : UpstreamResponse) : Marks :=
  match chunks resp with
  | Provider.Data bytes _ :: _ =>
      if Provider.is_stream_error_chunk (Utf8.from_utf8_lossy bytes)
      then mkMarks 1 [] [] 1 1 1 else mkMarks 0 [] [] 0 1 1
  | Provider.StreamError :: _ | [] => mkMarks 0 [] [] 1 1 1
  | Provider.Stall :: _ => mkMarks 1 [] [] 1 1 2
  end.

Context (h : Host) (gw : ProxyParams).

Definition called_for (ctx : DispatchContext) (b : Book) : Marks :=
  match answered b with
  | None => if no_credential b || no_client b then mkMarks 1 [] [] 1 0 0 else mkMarks 0 [] [] 0 0 0
  | Some None => mkMarks 1 [] [] 1 0 1
  | Some (Some resp) =>
      let s := status resp in
      if s =? 429 then
        let ra := header resp "retry-after" ≫= parse_u64 in
        mkMarks 0 [ra] [(current_model ctx, ra)] 1 0 1
      else if (500 <=? s) && (s <? 600) then mkMarks 1 [] [] 1 0 1
      else if negb ((200 <=? s) && (s <? 300)) then mkMarks 0 [] [] 0 0 1
      else if is_stream ctx && ((0 <? stream_bootstrap_retries gw)
                                && (attempt ctx <=? stream_bootstrap_retries gw))
      then bootstrap_marks resp
      else mkMarks 0 [] [] 0 1 1
  end.

Definition kept (ctx : DispatchContext) (b : Book) : Prop :=
  foreign b = false ∧ marks b = called_for ctx b.

(** *** Every step of the attempt *)

Abbreviation safe := (Prog.safe keep).
Implicit Types (b : Book).

Section attempt.
Context (ctx : DispatchContext) (Hu : Channel.id (channel ctx) = u).

Lemma book_log reason b (Q : Book → ending unit → Prop) :
  Q b (Returned ()) → safe (log_attempt_failure h ctx reason) b Q.
Proof using. intros HQ. unfold log_attempt_failure. observe. apply HQ. Qed.

Definition failed b : Book := on_attempt u false (on_open u b).

Lemma book_fail reason b (Q : Book → ending AttemptOutcome → Prop) :
  Q (failed b) (Returned Retry) → safe (fail_and_retry h ctx reason) b Q.
Proof using Hu.
  intros HQ. unfold fail_and_retry. rewrite Hu. observe. apply book_log. apply HQ.
Qed.

Lemma book_fails {A} (p : prog AttemptOutcome) b (Q : Book → ending (A + AttemptOutcome) → Prop) :
  safe p b (λ b e, cast e (Q b) (λ o, Q b (Returned (inr o)))) → safe (fails p) b Q.
Proof using. intros Hp. unfold fails. by apply safe_bind. Qed.

Lemma book_build v um key b (Q : Book → ending (Request + AttemptOutcome) → Prop) :
  (∀ req, Q b (Returned (inl req))) →
  (∀ req, Q (on_missing false false b) (Returned (inl req))) →
  Q (failed (on_missing false true b)) (Returned (inr Retry)) →
  safe (build_upstream_request h ctx v um key) b Q.
Proof using Hu.
  intros H1 H2 H3. unfold build_upstream_request. destruct (Channel.proxy_url _); [|apply H1].
  observe. destruct x; [apply H2|]. apply book_fails, book_fail. apply H3.
Qed.

Lemma book_send req tokens b (Q : Book → ending (UpstreamResponse + AttemptOutcome) → Prop) :
  (∀ resp, Q (on_charge u (on_answer (Some resp) b)) (Returned (inl resp))) →
  Q (failed (on_charge u (on_answer None b))) (Returned (inr Retry)) →
  safe (send_with_timeout h gw ctx req tokens) b Q.
Proof using Hu.
  intros H1 H2. unfold send_with_timeout. rewrite Hu.
  assert (∀ reason, safe (bind (fail_and_retry h ctx reason)
            (λ o, Do (Release u) (λ _, Ret (inr o)))) (on_charge u (on_answer None b)) Q) as Hf.
  { intros reason. apply safe_bind, book_fail. by observe. }
  assert (∀ result, safe (Do (RecordLimiter u tokens) (λ _,
            match result with
            | Some r => Ret (inl r)
            | None => bind (fail_and_retry h ctx ConnectionError)
                (λ o, Do (Release u) (λ _, Ret (inr o)))
            end)) (on_answer result b) Q) as Hr.
  { intros [r|]; apply safe_do; [done..| |done|done|]; intros ?; [apply H1|].
    apply (Hf ConnectionError). }
  apply safe_do; [done..|]. intros ?.
  destruct (if is_stream ctx then _ else None) as [secs|]; [destruct (0 <? secs)|].
  - apply safe_do; [done..|]. intros [result|]; [apply Hr|].
    apply safe_do; [done..|]. intros ?. apply (Hf Timeout).
  - apply safe_do; [done..|]. intros result. apply Hr.
  - apply safe_do; [done..|]. intros result. apply Hr.
Qed.

(** The book after the status has been checked, when the attempt is over. *)
Definition bad_status resp b : Book :=
  let s := status resp in
  if s =? 429 then
    let ra := header resp "retry-after" ≫= parse_u64 in
    on_attempt u false (on_retry u ra (on_limited u (current_model ctx) ra b))
  else if (500 <=? s) && (s <? 600) then failed b else b.

Definition good_status resp : bool :=
  let s := status resp in
  negb (s =? 429) && negb ((500 <=? s) && (s <? 600)) && ((200 <=? s) && (s <? 300)).

Lemma book_check resp b (Q : Book → ending (UpstreamResponse + AttemptOutcome) → Prop) :
  (good_status resp = true → Q b (Returned (inl resp))) →
  (∀ o, good_status resp = false → Q (bad_status resp b) (Returned (inr o))) →
  safe (check_error_status h ctx resp) b Q.
Proof using Hu.
  unfold check_error_status, good_status, bad_status. rewrite Hu.
  destruct (status resp =? 429); [intros _ H2; observe; apply book_log, H2; done|].
  destruct (_ && (status resp <? 600)); [intros _ H2; apply book_fails, book_fail, H2; done|].
  destruct (_ && (status resp <? 300)); [intros H1 _; apply H1; done|]. intros _ H2. cbn [negb].
  destruct (Provider.is_context_window_error _ _); observe; apply book_log, H2; done.
Qed.

(** The book after the first chunk has been checked. *)
Definition booted resp b : Book :=
  match chunks resp with
  | Provider.Data bytes _ :: _ =>
      if Provider.is_stream_error_chunk (Utf8.from_utf8_lossy bytes) then failed b else b
  | Provider.StreamError :: _ | [] => on_attempt u false b
  | Provider.Stall :: _ => failed (on_charge u b)
  end.
Definition bootstraps : bool :=
  (0 <? stream_bootstrap_retries gw) && (attempt ctx <=? stream_bootstrap_retries gw).

Lemma book_bootstrap resp tokens b
    (Q : Book → ending (list Provider.chunk * option Provider.chunk + AttemptOutcome) → Prop) :
  (∀ x, Q (if bootstraps then booted resp b else b) (Returned x)) →
  safe (check_sse_bootstrap h gw ctx resp tokens) b Q.
Proof using Hu.
  unfold check_sse_bootstrap, bootstrap_sse_stream, bootstraps, booted. rewrite Hu.
  destruct (_ && _); [|intros H1; apply H1].
  destruct (chunks resp) as [|[bytes stamp| |] rest];
    [| destruct (Provider.is_stream_error_chunk _) | |]; intros H1.
  - observe. apply book_log, H1.
  - apply book_fails, book_fail, H1.
  - apply H1.
  - observe. apply book_log, H1.
  - apply safe_do; [done..|]. intros ?. apply book_fails, book_fail. apply H1.
Qed.

Lemma book_prepare b (Q : Book → ending (string * Json.value) → Prop) :
  (∀ x, Q b (Returned x)) → safe (prepare_upstream_body ctx) b Q.
Proof using. intros HQ. unfold prepare_upstream_body. observe. destruct x; observe; apply HQ. Qed.

Lemma book_guards v b (Q : Book → ending (Json.value + AttemptOutcome) → Prop) :
  (∀ x, Q b (Returned x)) → safe (check_pre_flight_guards h ctx v) b Q.
Proof using.
  intros H1. unfold check_pre_flight_guards. observe.
  destruct (ModelRegistry.ModelRegistry.max_context_tokens x); [|apply H1].
  destruct (_ <? _); [observe; apply book_log|]; apply H1.
Qed.

Lemma book_side_effects resp b (Q : Book → ending (list (string * string)) → Prop) :
  (∀ x, Q (on_attempt u true b) (Returned x)) →
  safe (record_success_side_effects gw ctx resp) b Q.
Proof using Hu.
  intros HQ. unfold record_success_side_effects. rewrite Hu. observe.
  destruct (session_id ctx), (extract_quota _ _); observe; apply HQ.
Qed.

(** The operations that nothing is recorded about. *)
Definition unrecorded (X : Type) (o : op X) : bool :=
  match o with
  | Send _ | SendWithin _ _ | GetCredential _ | Client _ | MarkCircuitOpen _
  | MarkCircuitOpenWithRetry _ _ | MarkModelRateLimited _ _ _ | RecordAttempt _ _
  | RecordLimiter _ _ => false
  | _ => true
  end.

Lemma safe_unrecorded {A} (p : prog A) b (Q : Book → ending A → Prop) :
  only unrecorded p → (∀ e, Q b e) → safe p b Q.
Proof using.
  intros Hp HQ. eapply safe_mono; [|eapply (only_safe _ _ (λ b', b' = b)); [|exact Hp|done]].
  - intros b' e ->. apply HQ.
  - intros X o x b' Ho ->. by destruct o.
Qed.

Lemma book_stream um uh rest first proto b (Q : Book → ending Response → Prop) :
  (∀ e, Q b e) → safe (handle_streaming_success h gw ctx um uh rest first proto) b Q.
Proof using. apply safe_unrecorded. unfold handle_streaming_success. quietly. Qed.

Lemma book_json um uh resp b (Q : Book → ending Response → Prop) :
  (∀ e, Q b e) → safe (handle_json_success h gw ctx um uh resp) b Q.
Proof using.
  apply safe_unrecorded. unfold handle_json_success, transform_body, translate_body. quietly.
Qed.

(** *** The attempt *)

Lemma other_self : other u = false.
Proof using. unfold other. by rewrite bool_decide_true. Qed.

Ltac booked :=
  unfold kept, called_for, marks, failed; cbn;
  rewrite ?other_self, ?orb_false_r, ?orb_true_r; split; reflexivity.

Definition sent_book resp : Book := on_charge u (on_answer (Some resp) empty_book).

Lemma kept_bad resp : good_status resp = false → kept ctx (bad_status resp (sent_book resp)).
Proof using.
  unfold good_status, bad_status, kept, called_for. intros Hbad.
  destruct (status resp =? 429) eqn:E1; cbn [answered] in *.
  - cbn. rewrite E1, other_self. done.
  - destruct (_ && (status resp <? 600)) eqn:E2; cbn in *; rewrite E1, E2.
    + by rewrite other_self.
    + rewrite Hbad, other_self. done.
Qed.

Lemma kept_good resp :
  good_status resp = true →
  kept ctx (if is_stream ctx && bootstraps then booted resp (on_attempt u true (sent_book resp))
            else on_attempt u true (sent_book resp)).
Proof using.
  unfold good_status, kept, called_for, bootstraps. intros Hok.
  apply andb_prop in Hok as [Hok H3]. apply andb_prop in Hok as [H1 H2].
  apply negb_true_iff in H1, H2.
  set (boot := (0 <? stream_bootstrap_retries gw) && (attempt ctx <=? stream_bootstrap_retries gw)).
  assert (answered (if is_stream ctx && boot then booted resp (on_attempt u true (sent_book resp))
                    else on_attempt u true (sent_book resp)) = Some (Some resp)) as ->.
  { unfold booted. destruct (is_stream ctx && boot); [|done].
    destruct (chunks resp) as [|[bytes ?| |] ?]; try done.
    by destruct (Provider.is_stream_error_chunk _). }
  rewrite H1, H2, H3. cbn [negb]. destruct (is_stream ctx && boot).
  - unfold booted, bootstrap_marks.
    destruct (chunks resp) as [|[bytes ?| |] ?]; [|destruct (Provider.is_stream_error_chunk _)|..];
      cbn; rewrite ?other_self; done.
  - cbn. by rewrite other_self.
Qed.

Lemma book_succeed um resp tokens :
  good_status resp = true →
  safe (succeed h gw ctx um resp tokens) (sent_book resp) (λ b _, kept ctx b).
Proof using Hu.
  intros Hok. pose proof (kept_good resp Hok) as Hk. unfold succeed.
  apply safe_bind, book_side_effects. intros uh. cbn [cast].
  destruct (is_stream ctx); cbn [andb] in Hk.
  - apply safe_bind, book_bootstrap. intros [[rest first]|o]; cbn [cast].
    + apply safe_bind, book_stream. intros [r| |]; cbn [cast Prog.safe]; exact Hk.
    + unfold release. apply safe_do; [done..|]. intros ?. exact Hk.
  - apply safe_bind, book_json. intros [r| |]; cbn [cast Prog.safe]; exact Hk.
Qed.

Lemma book_call_upstream v um key tokens :
  safe (call_upstream h gw ctx um key v tokens) empty_book (λ b _, kept ctx b).
Proof using Hu.
  unfold call_upstream. apply safe_bind.
  assert (∀ req, safe (bind (send_with_timeout h gw ctx req tokens) (λ sent,
    match sent with
    | inl resp => bind (check_error_status h ctx resp) (λ checked,
        match checked with
        | inl resp => succeed h gw ctx um resp tokens
        | inr o => release ctx (Ret o)
        end)
    | inr o => Ret o
    end)) empty_book (λ b _, kept ctx b)) as Hcall.
  { intros req. apply safe_bind, book_send; cbn [cast]; [intros resp|booked].
    apply safe_bind, book_check; cbn [cast]; [apply book_succeed|].
    intros o Hbad. unfold release. apply safe_do; [done..|]. intros ?. by apply kept_bad. }
  apply book_build; cbn [cast]; [exact Hcall|exact Hcall|booked].
Qed.

Lemma book_attempt : safe (try_channel_attempt h gw ctx) empty_book (λ b _, kept ctx b).
Proof using Hu.
  unfold try_channel_attempt. apply safe_bind, book_prepare. intros [um v]. cbn [cast].
  apply safe_do; [done..|]. intros [[|] why]; cbn [fst negb].
  2:{ apply safe_bind, book_log. booked. }
  cbn [Prog.safe may_panic may_wait]. split_and!; [booked|exact I|]. intros [key|].
  2:{ apply book_fail. booked. }
  destruct (translated_request h ctx _) as [v'|]; cbn [lift bind]; [|booked].
  apply safe_bind, book_guards. intros [v2|o]; cbn [cast]; [apply book_call_upstream|booked].
Qed.
End attempt.
End monitor.
End Bookkeeping.

Module BookkeepingProps.
Import App Prog Attempt Bookkeeping.

(** C5. An attempt records about its channel exactly what the upstream's answer
    calls for, and nothing about any other channel, in every run: a request
    that fails, times out or is answered 5xx opens the circuit and counts a
    failure; a 429 marks the model and opens the circuit with the delay the
    answer names; any other error of the client counts neither way; a success
    counts as one; and a stream whose first chunk is checked is charged and
    judged again by what it begins with. *)
Theorem attempt_bookkeeping h gw readings others n s ctx :
  let '(tr, _, _) := run h readings others n (try_channel_attempt h gw ctx) s in
  let b := observe (keep (Channel.id (channel ctx))) empty_book tr in
  foreign b = false ∧ marks b = called_for gw ctx b.
Proof.
  pose proof (safe_run _ h readings others n _ _ s _
    (book_attempt (Channel.id (channel ctx)) h gw ctx eq_refl)) as H.
  by destruct (run _ _ _ _ _ _) as [[tr e] s'].
Qed.

(** A stream that begins badly is recorded as a success and as a failure, and
    when it stalls its tokens are charged twice. *)
Example stalled_stream_charged_twice resp :
  chunks resp = [Provider.Stall] → bootstrap_marks resp = mkMarks 1 [] [] 1 1 2.
Proof. unfold bootstrap_marks. by intros ->. Qed.
End BookkeepingProps.
