(* ===== verification/OpenAI.v ===== *)
(** The OpenAI-compatible endpoints (proxy/openai.rs, proxy/mcp_tools.rs): chat
    completions with the tools of MCP servers injected and their calls executed
    in a loop of dispatches, and the listings of models and tools. *)

From S2P Require Import Prelude Json Thinking Translate Provider Mcp Machine Attempt Dispatch.
From S2P Require Import Channel ModelRegistry.

Module OpenAI.
Import Json App Prog Attempt Dispatch Mcp.Mcp.
#[local] Open Scope prog_scope.

(** proxy/state.rs, [McpState]. *)
Record McpParams := mkMcpParams {
  mcp_auto_inject : bool;
  mcp_max_iterations : Z;
}.

(** The bytes of an answer's body. *)
Definition body_bytes (r : Response) : string :=
  match resp_body r with Text s => s | Events out => Translate.Translate.joined out end.

Definition MAX_RESPONSE_BODY_BYTES : Z := 10 * 1024 * 1024.

(** stream.rs *)
Definition sse_single_chunk_response (status : Z) (body_json : string) : Response :=
  mkResponse status
    [("content-type", "text/event-stream"); ("cache-control", "no-cache");
     ("connection", "keep-alive")]
    (Text ("data: " +:+ body_json +:+ newlines 2 +:+ "data: [DONE]" +:+ newlines 2)).

Section openai.
Context (h : Host) (gw : ProxyParams) (mcp : McpParams).

(** [serde_json::from_slice] *)
Definition parse_bytes (bytes : string) : option value := Utf8.from_utf8 bytes ≫= parse h.

(** The buffered body as JSON, or the response to return instead. *)
Definition extract_response_json (too_large error_type : string) (r : Response)
    : (Z * value) + Response :=
  let bytes := body_bytes r in
  if MAX_RESPONSE_BODY_BYTES <? Z.of_nat (String.length bytes) then
    inr (json_response 502 (print h (obj [("error", obj
           [("message", Str too_large); ("type", Str error_type)])])))
  else
    match parse_bytes bytes with
    | Some v => inl (resp_status r, v)
    | None => inr (json_response (resp_status r) (Utf8.from_utf8_lossy bytes))
    end.

(** *** The tools *)

(** [McpManager::list_tools] *)
Definition list_tools (id : string) : prog (list Tool + string) :=
  peer <- McpPeer id ;;
  match peer with
  | inr e => Ret (inr e)
  | inl p =>
      result <- PeerListTools p ;;
      match result with
      | inr e => Ret (inr ("Failed to list tools from '" +:+ id +:+ "': " +:+ e))
      | inl tools => McpSetToolCount id (Z.of_nat (length tools)) ;;; Ret (inl tools)
      end
  end.

(** [McpManager::call_tool] *)
Definition call_tool (id name : string) (arguments : option (gmap string value))
    : prog (CallToolResult + string) :=
  peer <- McpPeer id ;;
  match peer with
  | inr e => Ret (inr e)
  | inl p =>
      result <- PeerCallTool p name arguments ;;
      Ret (match result with
           | inl r => inl r
           | inr e => inr ("Failed to call tool '" +:+ name +:+ "' on '" +:+ id +:+ "': " +:+ e)
           end)
  end.

Fixpoint aggregate (statuses : list (string * string * Mcp.Manager.McpServerStatus))
    : prog (list AggregatedTool) :=
  match statuses with
  | [] => Ret []
  | (id, _, Mcp.Manager.Running _) :: rest =>
      call! tools := list_tools id in
      call! all := aggregate rest in
      Ret (match tools with inl l => (aggregated id <$> l) ++ all | inr _ => all end)
  | _ :: rest => aggregate rest
  end.
Definition aggregate_all_tools : prog (list AggregatedTool) :=
  statuses <- McpStatus ;;
  aggregate statuses.

Definition inject_mcp_tools (body : value) : prog (value * list AggregatedTool) :=
  call! mcp_tools := aggregate_all_tools in
  lift (inject_tools body mcp_tools).

Fixpoint execute_mcp_tool_calls (calls : list McpToolCall) : prog (list value) :=
  match calls with
  | [] => Ret []
  | c :: rest =>
      call! result := call_tool (call_server c) (call_tool_name c) (arguments c) in
      call! results := execute_mcp_tool_calls rest in
      Ret (tool_result c result :: results)
  end.

(** *** Chat completions *)

Definition dispatch_chat (headers : list (string * string)) (body : value) : prog Response :=
  dispatch h gw headers body Provider.OpenAIAdaptor OpenAIChat.

(** After the last iteration: the tools are taken away. *)
Definition final_body (was_streaming : bool) (body : value) : value :=
  let b := remove_fields ["tools"; "tool_choice"] body in
  if was_streaming then insert_field "stream" (Bool true) b else b.

Fixpoint tool_loop (fuel : nat) (headers : list (string * string)) (was_streaming : bool)
    (current_body : value) : prog Response :=
  match fuel with
  | O => dispatch_chat headers (final_body was_streaming current_body)
  | S fuel =>
      call! response := dispatch_chat headers current_body in
      match extract_response_json "MCP loop: failed to buffer upstream response" "mcp_loop_error"
              response with
      | inr fallback => Ret fallback
      | inl (status, response_body) =>
          call! mcp_calls := lift (detect_mcp_tool_calls (parse h) response_body) in
          match mcp_calls with
          | [] =>
              Ret (if was_streaming then sse_single_chunk_response status (print h response_body)
                   else json_response status (print h response_body))
          | _ =>
              call! tool_results := execute_mcp_tool_calls mcp_calls in
              call! next := lift (build_followup_request current_body response_body tool_results) in
              tool_loop fuel headers was_streaming next
          end
      end
  end.

Definition handle_chat_completions (headers : list (string * string)) (body : value)
    : prog Response :=
  validated h body
    (if negb (mcp_auto_inject mcp) then dispatch_chat headers body
     else
       call! injected := inject_mcp_tools body in
       match injected with
       | (_, []) => dispatch_chat headers body
       | (current_body, _) =>
           let was_streaming := default false (get current_body "stream" ≫= as_bool) in
           tool_loop (Z.to_nat (Z.max 1 (mcp_max_iterations mcp))) headers was_streaming
             (insert_field "stream" (Bool false) current_body)
       end).

(** *** Models and tools *)

Definition thinking_name (f : ModelRegistry.ModelRegistry.ThinkingFormat) : string :=
  match f with
  | ModelRegistry.ModelRegistry.NoThinking => "none"
  | ModelRegistry.ModelRegistry.Budget => "budget"
  | ModelRegistry.ModelRegistry.Level => "level"
  | ModelRegistry.ModelRegistry.Hybrid => "hybrid"
  end.
Definition capabilities_to_json (caps : ModelRegistry.ModelRegistry.ModelCapabilities) : value :=
  obj [("supports_vision", Bool (ModelRegistry.ModelRegistry.supports_vision caps));
       ("supports_tools", Bool (ModelRegistry.ModelRegistry.supports_tools caps));
       ("supports_thinking", Bool (ModelRegistry.ModelRegistry.supports_thinking caps));
       ("max_context_tokens", match ModelRegistry.ModelRegistry.max_context_tokens caps with
                              | Some n => num n | None => Null end);
       ("thinking_format", Str (thinking_name (ModelRegistry.ModelRegistry.thinking_format caps)))].

Definition infer_owner (model_id : string) : string :=
  if existsb (starts_with model_id) ["gpt-"; "o1"; "o3"; "o4"] then "openai"
  else if starts_with model_id "claude-" then "anthropic"
  else if starts_with model_id "gemini-" then "google"
  else if starts_with model_id "deepseek" then "deepseek"
  else "unknown".

(** One entry of the list. *)
Definition model_entry (registry : ModelRegistry.ModelRegistry.ModelRegistry) (id : string)
    (created : Z) (owned_by : string) : value :=
  obj [("id", Str id); ("object", Str "model"); ("created", num created);
       ("owned_by", Str owned_by);
       ("capabilities", capabilities_to_json
          (ModelRegistry.ModelRegistry.get (iter h _) registry id))].

(** The models in the order they are met, each with the time and the owner it
    is listed with; the first meeting counts. *)
Definition offered (channels : list Channel.Channel)
    (registry : ModelRegistry.ModelRegistry.ModelRegistry) : list (string * (Z * string)) :=
  concat ((λ ch, (λ alias, (alias, (Channel.created_at ch / 1000, Channel.as_str (Channel.provider ch))))
                   <$> (iter h _ (Channel.model_mapping ch)).*1)
            <$> List.filter Channel.enabled channels)
  ++ ((λ id, (id, (0, infer_owner id))) <$> (iter h _ (ModelRegistry.ModelRegistry.models registry)).*1).

Fixpoint first_met {A} (seen : gset string) (l : list (string * A)) : list (string * A) :=
  match l with
  | [] => []
  | (k, a) :: rest =>
      if bool_decide (k ∈ seen) then first_met seen rest
      else (k, a) :: first_met ({[k]} ∪ seen) rest
  end.

Definition handle_list_models : prog Response :=
  channels <- Channels ;;
  registry <- Registry ;;
  let models := (λ '(id, (created, owner)), model_entry registry id created owner)
                  <$> first_met ∅ (offered channels registry) in
  Ret (json_response 200 (print h (obj [("object", Str "list"); ("data", Array models)]))).

Definition handle_get_model (model_id : string) : prog Response :=
  registry <- Registry ;;
  Ret (json_response 200 (print h (model_entry registry model_id 0 (infer_owner model_id)))).

(** Which servers expose their tools; [server_ids] are asked one by one. *)
Fixpoint exposing (server_ids : list string) : prog (list string) :=
  match server_ids with
  | [] => Ret []
  | id :: rest =>
      config <- McpConfig id ;;
      call! ids := exposing rest in
      Ret (if default false (Mcp.Manager.expose_tools <$> config) then id :: ids else ids)
  end.

(** [order] enumerates the servers of the tools, as iterating a HashSet does. *)
Definition handle_list_tools (order : list string → list string) : prog Response :=
  call! tools := aggregate_all_tools in
  call! exposed := exposing (order (server_id <$> tools)) in
  let shown := List.filter (λ t, bool_decide (server_id t ∈ exposed)) tools in
  Ret (json_response 200 (print h (obj [("object", Str "list");
        ("data", Array (to_openai_function <$> shown))]))).
End openai.
End OpenAI.

Module ModelListProps.
Import Json App Channel OpenAI.

Lemma first_met_keys {A} (l : list (string * A)) : ∀ seen,
  NoDup (first_met seen l).*1 ∧
  ∀ k, k ∈ (first_met seen l).*1 ↔ k ∈ l.*1 ∧ k ∉ seen.
Proof.
  induction l as [|[k a] l IH]; intros seen; cbn [first_met].
  { split; [constructor|set_solver]. }
  case_bool_decide as Hk.
  - destruct (IH seen) as [H1 H2]. split; [done|]. intros k'. rewrite H2. set_solver.
  - destruct (IH ({[k]} ∪ seen)) as [H1 H2]. rewrite !fmap_cons. cbn [fst]. split.
    + constructor; [|done]. rewrite H2. set_solver.
    + intros k'. rewrite !elem_of_cons, H2. destruct (decide (k' = k)); set_solver.
Qed.

(** The list of models names each model once, and names exactly the models that
    an enabled channel maps and those of the registry. *)
Theorem models_listed_once h channels registry :
  (∀ A (m : gmap string A), iter h A m ≡ₚ map_to_list m) →
  let ids := (first_met ∅ (offered h channels registry)).*1 in
  NoDup ids ∧
  ∀ id, id ∈ ids ↔
    (∃ ch, ch ∈ channels ∧ enabled ch = true ∧ is_Some (model_mapping ch !! id)) ∨
    is_Some (ModelRegistry.ModelRegistry.models registry !! id).
Proof.
  intros Hiter ids. destruct (first_met_keys (offered h channels registry) ∅) as [H1 H2].
  split; [done|]. intros id. unfold ids. rewrite H2.
  assert (∀ A (m : gmap string A), id ∈ (iter h A m).*1 ↔ is_Some (m !! id)) as Hkeys.
  { intros A m. rewrite (Hiter A m). rewrite list_elem_of_fmap. split.
    - intros ([k a]&->&Hka). apply elem_of_map_to_list in Hka. by eexists.
    - intros [a Ha]. exists (id, a). by rewrite elem_of_map_to_list. }
  unfold offered. rewrite fmap_app, elem_of_app, <- list_fmap_compose.
  assert (id ∈ ((fst ∘ λ i, (i, (0, infer_owner i)))
            <$> (iter h _ (ModelRegistry.ModelRegistry.models registry)).*1)
          ↔ is_Some (ModelRegistry.ModelRegistry.models registry !! id)) as ->.
  { rewrite <- Hkeys. rewrite list_elem_of_fmap. cbn. naive_solver. }
  rewrite elem_of_empty. enough (id ∈ (concat ((λ ch, (λ alias, (alias, (Channel.created_at ch / 1000,
             Channel.as_str (Channel.provider ch)))) <$> (iter h _ (Channel.model_mapping ch)).*1)
               <$> List.filter Channel.enabled channels)).*1 ↔
          ∃ ch, ch ∈ channels ∧ enabled ch = true ∧ is_Some (model_mapping ch !! id)) as ->
    by tauto.
  clear H1 H2 ids. induction channels as [|ch channels IH]; [set_solver|].
  cbn [List.filter]. destruct (enabled ch) eqn:E.
  - rewrite fmap_cons. cbn [concat]. rewrite fmap_app, elem_of_app, IH.
    rewrite <- list_fmap_compose.
    assert (id ∈ ((fst ∘ λ alias, (alias, (Channel.created_at ch / 1000,
              Channel.as_str (Channel.provider ch)))) <$> (iter h _ (model_mapping ch)).*1)
            ↔ is_Some (model_mapping ch !! id)) as ->.
    { rewrite <- Hkeys. rewrite list_elem_of_fmap. cbn. naive_solver. }
    setoid_rewrite elem_of_cons. naive_solver.
  - rewrite IH. setoid_rewrite elem_of_cons. naive_solver congruence.
Qed.
End ModelListProps.
