(* ===== verification/McpGateway.v ===== *)
(** The gateway as an MCP server of its own (mcp/gateway.rs): clients see the
    tools of all running servers under one name space, and a call is routed to
    the server its name belongs to. *)

From S2P Require Import Prelude Json Mcp Machine Attempt OpenAI.

Module McpGateway.
Import Json App Prog Mcp.Mcp.
#[local] Open Scope prog_scope.

(** rmcp's [ErrorData], the two kinds that are made. *)
Inductive McpError := InvalidParams (message : string) | InternalError (message : string).

Section gateway.
Context (h : Host).

(** The tool a client is shown. *)
Definition shown (at_ : AggregatedTool) : Tool :=
  mkRmcpTool (namespaced_name at_) (description at_)
    (match input_schema at_ with Object map => map | _ => ∅ end).

Definition list_tools : prog (list Tool) :=
  call! aggregated := OpenAI.aggregate_all_tools in
  Ret (shown <$> aggregated).

Definition call_tool (name : string) (arguments : option (gmap string value))
    : prog (CallToolResult + McpError) :=
  call! parsed := lift (parse_namespaced name) in
  match parsed with
  | None =>
      Ret (inr (InvalidParams ("Tool name '" +:+ name +:+
        "' is not a valid namespaced MCP tool name (expected mcp__serverId__toolName)")))
  | Some (server_id, original_name) =>
      call! result := OpenAI.call_tool server_id original_name arguments in
      Ret (match result with
           | inl r => inl r
           | inr e => inr (InternalError ("Tool call failed: " +:+ e))
           end)
  end.

Definition get_tool (name : string) : outcome (option Tool) :=
  let! parsed := parse_namespaced name in
  Done (match parsed with Some _ => Some (mkRmcpTool name None ∅) | None => None end).
End gateway.
End McpGateway.

Module GatewayFacts.
Import App Prog Mcp.Mcp Mcp.Manager Mcp.McpFacts McpGateway.

Definition peer (id : string) (s : AppState) : Client + string := peer_of id (mcp_manager s).

Lemma peer_tool_count id id' n m : peer_of id (set_tool_count id' n m) = peer_of id m.
Proof.
  unfold peer_of, set_tool_count, on_entries. cbn [entries].
  destruct (decide (id = id')) as [->|Hne]; [|by rewrite lookup_alter_ne].
  rewrite lookup_alter_eq. by destruct (entries m !! id') as [[? [?|] ??]|].
Qed.

Lemma status_running h m id name n :
  (∀ A m, iter h A m ≡ₚ map_to_list m) →
  (id, name, Running n) ∈ list_status (iter h McpServerEntry) m → ∃ p, peer_of id m = inl p.
Proof.
  intros Hiter. unfold list_status. intros ([id' e]&He&Hin)%list_elem_of_fmap.
  injection He as -> _ Hst. rewrite Hiter, elem_of_map_to_list in Hin.
  unfold peer_of. rewrite Hin. revert Hst. unfold status_of.
  by destruct (client e), (last_error e); eauto.
Qed.

Section runs.
Context (h : Host) (readings : nat → Reading) (others : nat → AppState → AppState).
Context (Hothers : ∀ k s id, peer id (others k s) = peer id s).

(** Listing the tools of a server leaves the servers running that run. *)
Lemma run_list_tools n id s :
  match run h readings others n (OpenAI.list_tools id) s with
  | (_, Returned _, s') => ∀ i, peer i s' = peer i s
  | _ => False
  end.
Proof.
  unfold OpenAI.list_tools. cbn [run handle]. destruct (peer_of id _) as [p|e]; [|cbn [run]; intros; apply Hothers].
  cbn [run handle]. destruct (peer_tools _ p) as [l|e]; cbn [run handle];
    intros i; rewrite !Hothers; [|done].
  unfold peer. cbn. by rewrite peer_tool_count; fold (peer i (others (S n) (others n s))); rewrite !Hothers.
Qed.

Lemma run_aggregate statuses : ∀ n s,
  match run h readings others n (OpenAI.aggregate statuses) s with
  | (_, Returned tools, s') =>
      (∀ i, peer i s' = peer i s) ∧
      ∀ tool, tool ∈ tools → ∃ id name k t,
        (id, name, Running k) ∈ statuses ∧ tool = aggregated id t
  | _ => False
  end.
Proof.
  induction statuses as [|[[id name] st] rest IH]; intros n s; [split; [done|set_solver]|].
  cbn [OpenAI.aggregate].
  assert (match run h readings others n (OpenAI.aggregate rest) s with
    | (_, Returned tools, s') =>
        (∀ i, peer i s' = peer i s) ∧
        ∀ tool, tool ∈ tools → ∃ id' name' k t,
          (id', name', Running k) ∈ (id, name, st) :: rest ∧ tool = aggregated id' t
    | _ => False end) as Hskip.
  { specialize (IH n s). destruct (run _ _ _ _ _ _) as [[? [tools| |]] s']; try done.
    destruct IH as [H1 H2]. split; [done|]. intros tool (i&nm&k&t&?&?)%H2. exists i, nm, k, t. set_solver. }
  destruct st as [|k|]; [done| |done]. clear Hskip. rewrite run_bind.
  pose proof (run_list_tools n id s) as H1.
  destruct (run h readings others n (OpenAI.list_tools id) s) as [[tr [l| |]] s1]; try done.
  rewrite run_bind. specialize (IH (n + length tr)%nat s1).
  destruct (run h readings others _ (OpenAI.aggregate rest) s1) as [[tr2 [tools| |]] s2]; try done.
  destruct IH as [H2 H3]. cbn [run]. split; [by intros i; rewrite H2, H1|].
  intros tool Hin. destruct l as [l|e].
  - apply elem_of_app in Hin as [(t&->&Ht)%list_elem_of_fmap|Hin].
    + exists id, name, k, t. split; [set_solver|done].
    + apply H3 in Hin as (i&nm&k'&t&?&?). exists i, nm, k', t. set_solver.
  - apply H3 in Hin as (i&nm&k'&t&?&?). exists i, nm, k', t. set_solver.
Qed.

Lemma run_list (n : nat) s :
  (∀ A m, iter h A m ≡ₚ map_to_list m) →
  match run h readings others n McpGateway.list_tools s with
  | (_, Returned tools, s') =>
      ∀ tool, tool ∈ tools → ∃ id orig p,
        tool_name tool = make_namespaced_name id orig ∧ peer id s' = inl p
  | _ => False
  end.
Proof.
  intros Hiter. unfold McpGateway.list_tools, OpenAI.aggregate_all_tools. rewrite run_bind.
  cbn [run handle]. set (sts := list_status _ _).
  pose proof (run_aggregate sts (S n) (others n s)) as H.
  destruct (run h readings others (S n) (OpenAI.aggregate sts) (others n s)) as [[tr [tools| |]] s1];
    try done.
  destruct H as [H1 H2]. cbn [run]. intros tool (a&->&Ha)%list_elem_of_fmap.
  apply H2 in Ha as (id&nm&k&t&Hst&->). apply (status_running _ _ _ _ _ Hiter) in Hst as [p Hp].
  exists id, (Mcp.tool_name t), p. split; [done|]. rewrite H1, Hothers. exact Hp.
Qed.

Lemma run_call k id orig arguments s p :
  routable id orig → peer id s = inl p →
  let answer := peer_call (readings (S k)) p orig arguments in
  (run h readings others k (McpGateway.call_tool (make_namespaced_name id orig) arguments) s).1 =
    ([Did (McpPeer id) (inl p); Did (PeerCallTool p orig arguments) answer],
     Returned (match answer with
               | inl r => inl r
               | inr e => inr (InternalError ("Tool call failed: " +:+ "Failed to call tool '" +:+
                                 orig +:+ "' on '" +:+ id +:+ "': " +:+ e))
               end)).
Proof.
  intros Hr Hp answer. unfold McpGateway.call_tool.
  rewrite (proj2 (McpFacts.parse_namespaced_routable id orig) Hr). cbn [lift bind].
  unfold OpenAI.call_tool. cbn [run handle bind]. unfold peer in Hp. rewrite Hp.
  cbn [run handle bind]. fold answer. by destruct answer.
Qed.
End runs.
End GatewayFacts.

Module GatewayProps.
Import App Prog Mcp.Mcp Mcp.McpFacts McpGateway GatewayFacts.

(** Every tool the gateway lists belongs to a server that runs, and calling it
    by the name that is shown performs that tool on that server, with the
    arguments given, and returns what the server answers -- provided the name
    leads back to the server and the tool, and the requests in between neither
    stop nor start servers. *)
Theorem gateway_tool_reachable h readings others n s :
  (∀ A m, iter h A m ≡ₚ map_to_list m) →
  (∀ k s id, peer id (others k s) = peer id s) →
  match run h readings others n McpGateway.list_tools s with
  | (_, Returned tools, s') =>
      ∀ tool, tool ∈ tools → ∃ id orig p,
        tool_name tool = make_namespaced_name id orig ∧ peer id s' = inl p ∧
        (routable id orig → ∀ k arguments,
           let answer := peer_call (readings (S k)) p orig arguments in
           let '(tr, e, _) := run h readings others k
             (McpGateway.call_tool (tool_name tool) arguments) s' in
           tr = [Did (McpPeer id) (inl p); Did (PeerCallTool p orig arguments) answer] ∧
           ∀ r, answer = inl r → e = Returned (inl r))
  | _ => False
  end.
Proof.
  intros Hiter Hothers. pose proof (run_list h readings others Hothers n s Hiter) as H.
  destruct (run h readings others n McpGateway.list_tools s) as [[tr [tools| |]] s']; try done.
  intros tool (id&orig&p&Hname&Hp)%H. exists id, orig, p. split_and!; [done..|].
  intros Hr k arguments answer. rewrite Hname.
  pose proof (run_call h readings others k id orig arguments s' p Hr Hp) as Hc.
  destruct (run h readings others k _ s') as [[tr' e] s'']. injection Hc as -> ->. fold answer.
  split; [done|]. by intros r ->.
Qed.
End GatewayProps.
