(* ===== verification/ToolLoop.v ===== *)
(** What the loop over the tools of MCP servers guarantees (proxy/openai.rs,
    proxy/mcp_tools.rs): it ends, and how much it may ask of the upstreams. *)

From S2P Require Import Prelude Json Thinking Translate Provider Mcp Machine Attempt Dispatch.
From S2P Require Import DispatchProps OpenAI.

Module Load.
Import Json App Prog Attempt Dispatch OpenAI.OpenAI.
#[local] Open Scope prog_scope.

(** Requests sent to upstreams, and guards held on channels. *)
Record Load := mkLoad { sent : Z; guards : Z }.
Definition no_load : Load := mkLoad 0 0.

Definition weigh (l : Load) (e : event) : Load :=
  match e with
  | @Did X o x =>
      match o with
      | Send _ | SendWithin _ _ => mkLoad (sent l + 1) (guards l)
      | Acquire _ => mkLoad (sent l) (guards l + 1)
      | Release _ => mkLoad (sent l) (guards l - 1)
      | Spawn (AfterStream _ _ _ _ _ _ _ _ _ _) => mkLoad (sent l) (guards l - 1)
      | _ => l
      end
  end.

(** It keeps in step with the account of a dispatch. *)
Definition in_step (l0 : Load) (m : Monitor.Seen) (l : Load) : Prop :=
  sent l = sent l0 + Monitor.sends m ∧ guards l = guards l0 + Monitor.held m.

Lemma in_step_see l0 m l e : in_step l0 m l → in_step l0 (Monitor.see m e) (weigh l e).
Proof.
  unfold in_step. intros (H1 & H2). destruct e as [X o x].
  destruct o; cbn [Monitor.see weigh]; try done;
    try (destruct x; done);
    try (destruct t; cbn [Monitor.on_spawn Monitor.on_money Monitor.on_key Monitor.on_guard
           Monitor.sends Monitor.held sent guards]; lia);
    cbn [Monitor.on_send Monitor.on_guard Monitor.on_money Monitor.on_key Monitor.on_lookup
         Monitor.on_flags Monitor.sends Monitor.held sent guards]; lia.
Qed.

Section loop.
Context (h : Host) (gw : ProxyParams) (mcp : McpParams).
Implicit Types (l : Load) (body : value).

Abbreviation safe := (Prog.safe weigh).

(** No guard is left and at most [n] requests more have been sent. *)
Definition within {A} l n (l' : Load) (_ : ending A) : Prop :=
  guards l' = guards l ∧ sent l' ≤ sent l + n.

Lemma load_within_mono {A} l n n' l' (e : ending A) : n ≤ n' → within l n l' e → within l n' l' e.
Proof. unfold within. lia. Qed.
Lemma within_trans {A B} l n l1 (e1 : ending A) n' l2 (e2 : ending B) :
  within l n l1 e1 → within l1 n' l2 e2 → within l (n + n') l2 e2.
Proof. unfold within. lia. Qed.

Definition allowed body : Z := Monitor.attempts_allowed h gw body Provider.OpenAIAdaptor.

Lemma allowed_nonneg body : 0 ≤ allowed body.
Proof.
  unfold allowed, Monitor.attempts_allowed, Monitor.total_attempts_bound, wrap32.
  apply Z.mod_pos_bound. lia.
Qed.

Lemma safe_dispatch_load headers body l :
  safe (dispatch_chat h gw headers body) l (within l (allowed body)).
Proof.
  eapply Prog.safe_mono;
    [|eapply (Prog.safe_sim Monitor.see weigh (in_step l) _ Monitor.nothing_seen);
      [apply in_step_see|split; cbn; lia|apply Monitor.safe_dispatch]].
  intros l' e (m & [H1 H2] & (H3 & H4 & _)). unfold within, allowed. lia.
Qed.

(** Programs that touch neither. *)
Definition idle {X} (o : op X) : bool :=
  match o with
  | Send _ | SendWithin _ _ | Acquire _ | Release _ | Spawn _ => false
  | _ => true
  end.

Lemma safe_idle {A} (p : prog A) l (Q : Load → ending A → Prop) :
  Only.only (@idle) p → (∀ e, Q l e) → safe p l Q.
Proof.
  intros Hp HQ. eapply Prog.safe_mono; [|eapply (Only.only_safe (@idle) weigh (λ l', l' = l)); [|exact Hp|done]].
  - intros l' e ->. apply HQ.
  - intros X o x l' Ho ->. by destruct o.
Qed.

Lemma idle_list_tools id : Only.only (@idle) (list_tools id).
Proof. unfold list_tools. Only.quietly. Qed.
Lemma idle_call_tool id name arguments : Only.only (@idle) (call_tool id name arguments).
Proof. unfold call_tool. Only.quietly. Qed.
Lemma idle_aggregate statuses : Only.only (@idle) (aggregate statuses).
Proof.
  induction statuses as [|[[id n] st] rest IH]; [done|]. cbn [aggregate]. destruct st; [done| |done].
  apply Only.only_bind; [apply idle_list_tools|]. intros ?. apply Only.only_bind; [exact IH|done].
Qed.
Lemma idle_inject body : Only.only (@idle) (inject_mcp_tools body).
Proof.
  unfold inject_mcp_tools, aggregate_all_tools. apply Only.only_bind.
  - split; [done|]. intros statuses. apply idle_aggregate.
  - intros tools. by destruct (Mcp.Mcp.inject_tools body tools).
Qed.
Lemma idle_execute calls : Only.only (@idle) (execute_mcp_tool_calls calls).
Proof.
  induction calls as [|c calls IH]; [done|]. cbn [execute_mcp_tool_calls].
  apply Only.only_bind; [apply idle_call_tool|]. intros ?. apply Only.only_bind; [exact IH|done].
Qed.

(** The model of a request stays the same, whatever is put into it. *)
Definition same_model body body' : Prop := get body' "model" = get body "model".

Lemma same_model_allowed body body' : same_model body body' → allowed body' = allowed body.
Proof.
  unfold same_model, allowed, Monitor.attempts_allowed, resolved_model, Translate.Translate.field_str.
  by intros ->.
Qed.
Lemma same_model_trans a b c : same_model a b → same_model b c → same_model a c.
Proof. unfold same_model. congruence. Qed.

Lemma same_model_insert k v body : k ≠ "model" → same_model body (insert_field k v body).
Proof. unfold same_model. destruct body; try done. intros. cbn. by rewrite lookup_insert_ne. Qed.
Lemma same_model_index k v body body' :
  k ≠ "model" → Thinking.Thinking.index_set body k v = Done body' → same_model body body'.
Proof.
  unfold same_model. destruct body; cbn; intros Hk H; try done; injection H as <-; cbn.
  - by rewrite lookup_singleton_ne.
  - by rewrite lookup_insert_ne.
Qed.
Lemma same_model_final b body : same_model body (final_body b body).
Proof.
  assert (same_model body (remove_fields ["tools"; "tool_choice"] body)) as H.
  { destruct body; try done. unfold same_model. cbn. by rewrite !lookup_delete_ne. }
  unfold final_body. destruct b; [|done].
  eapply same_model_trans; [exact H|]. by apply same_model_insert.
Qed.
Lemma same_model_inject body tools body' ts :
  Mcp.Mcp.inject_tools body tools = Done (body', ts) → same_model body body'.
Proof.
  unfold Mcp.Mcp.inject_tools. destruct tools; [by intros [= <- <-]|].
  destruct (Thinking.Thinking.index_set _ _ _) eqn:E; [|done]. cbn. intros [= <- <-].
  by eapply same_model_index, E.
Qed.
Lemma same_model_followup body response results body' :
  Mcp.Mcp.build_followup_request body response results = Done body' → same_model body body'.
Proof.
  unfold Mcp.Mcp.build_followup_request.
  destruct (Thinking.Thinking.index_set body _ _) as [b|] eqn:E; [|done]. cbn [outcome_bind]. intros H.
  eapply same_model_trans; [by eapply same_model_index, E|by eapply same_model_index, H].
Qed.

(** *** The loop *)

Lemma safe_tool_loop fuel headers stream : ∀ body l,
  safe (tool_loop h gw fuel headers stream body) l (within l ((Z.of_nat fuel + 1) * allowed body)).
Proof.
  induction fuel as [|fuel IH]; intros body l; cbn [tool_loop].
  - eapply Prog.safe_mono; [|apply safe_dispatch_load]. intros l' e.
    rewrite (same_model_allowed body) by apply same_model_final. apply load_within_mono. lia.
  - pose proof (allowed_nonneg body).
    apply Prog.safe_bind. eapply Prog.safe_mono; [|apply safe_dispatch_load].
    intros l1 e1 H1. assert (∀ e : ending Response, within l ((Z.of_nat (S fuel) + 1) * allowed body) l1 e)
      as Hnow by (unfold within in *; lia).
    destruct e1 as [r| |]; cbn [cast]; [|apply Hnow..].
    destruct (extract_response_json _ _ _ r) as [[status v]|fallback]; [|apply Hnow].
    apply Prog.safe_bind. destruct (Mcp.Mcp.detect_mcp_tool_calls (parse h) v) as [calls|];
      cbn [lift Prog.safe cast]; [|apply Hnow].
    destruct calls as [|c calls]; [apply Hnow|].
    apply Prog.safe_bind, safe_idle; [apply idle_execute|]. intros [results| |]; cbn [cast]; [|apply Hnow..].
    apply Prog.safe_bind. destruct (Mcp.Mcp.build_followup_request body v results) as [next|] eqn:E;
      cbn [lift Prog.safe cast]; [|apply Hnow].
    eapply Prog.safe_mono; [|apply IH]. intros l2 e2.
    rewrite (same_model_allowed body next) by (by eapply same_model_followup).
    unfold within in *. lia.
Qed.

Lemma safe_handle_chat headers body l :
  safe (handle_chat_completions h gw mcp headers body) l
    (within l (((if mcp_auto_inject mcp then Z.max 1 (mcp_max_iterations mcp) else 0) + 1) * allowed body)).
Proof.
  pose proof (allowed_nonneg body).
  assert (0 ≤ ((if mcp_auto_inject mcp then Z.max 1 (mcp_max_iterations mcp) else 0) + 1) * allowed body)
    by (apply Z.mul_nonneg_nonneg; destruct (mcp_auto_inject mcp); lia).
  unfold handle_chat_completions, validated.
  destruct (validate_chat_request h body); [unfold within; cbn; lia|].
  destruct (mcp_auto_inject mcp); cbn [negb];
    [|eapply Prog.safe_mono; [|apply safe_dispatch_load]; intros ??; apply load_within_mono; lia].
  apply Prog.safe_bind. eapply Prog.safe_mono;
    [|apply (Only.safe_and weigh _ _ (λ l' _, l' = l)
        (λ _ e, match e with Returned (b, _) => same_model body b | _ => True end))].
  2:{ apply safe_idle; [apply idle_inject|done]. }
  2:{ unfold inject_mcp_tools. apply Prog.safe_bind, safe_idle; [|].
      - unfold aggregate_all_tools. split; [done|]. apply idle_aggregate.
      - intros [tools| |]; cbn [cast]; try done.
        destruct (Mcp.Mcp.inject_tools body tools) as [[b ts]|] eqn:E; cbn [lift Prog.safe]; [|done].
        by eapply same_model_inject. }
  intros l' e [-> He]. destruct e as [[b [|tool tools]]| |]; cbn [cast];
    [|  |unfold within; lia..].
  - eapply Prog.safe_mono; [|apply safe_dispatch_load]. intros ??. apply load_within_mono. lia.
  - eapply Prog.safe_mono; [|apply safe_tool_loop]. intros ??.
    rewrite (same_model_allowed body).
    + rewrite Z2Nat.id by lia. done.
    + eapply same_model_trans; [exact He|]. by apply same_model_insert.
Qed.
End loop.
End Load.

Module ToolLoopProps.
Import Json App Prog Attempt Dispatch OpenAI.OpenAI Load.

(** C12. The loop over the tools ends.  However often the models ask for tools,
    whatever the tools and the upstreams answer: a chat request sends at most
    as many requests upstream as its fallback chain has attempts, times one
    more than the configured number of iterations (at least one) when tools are
    injected, and leaves no guard on a channel behind. *)
Theorem tool_loop_bounded h gw mcp readings others n s headers body :
  let '(tr, e, _) := run h readings others n (handle_chat_completions h gw mcp headers body) s in
  let l := observe weigh no_load tr in
  guards l = 0 ∧
  sent l ≤ ((if mcp_auto_inject mcp then Z.max 1 (mcp_max_iterations mcp) else 0) + 1)
           * Monitor.attempts_allowed h gw body Provider.OpenAIAdaptor.
Proof.
  pose proof (safe_run weigh h readings others n _ no_load s _ (safe_handle_chat h gw mcp headers body no_load))
    as H.
  destruct (run _ _ _ _ _ _) as [[tr e] s']. cbn zeta. unfold within, allowed in H. cbn in H |- *. lia.
Qed.
End ToolLoopProps.
