(* ===== verification/Responses.v ===== *)
(** The Responses API (proxy/responses.rs): a request is translated to a chat
    request and dispatched without streaming, and the answer is translated
    back, as one document or as four synthetic events. *)

From S2P Require Import Prelude Json Translate Provider Machine Attempt Dispatch OpenAI.

Module Responses.
Import Json App Prog Attempt Dispatch.
#[local] Open Scope prog_scope.

(** [v.get(0)] *)
Definition first (v : value) : option value := as_array v ≫= head.
Definition get_or (v : value) (k : string) (d : value) : value := default d (get v k).

Section responses.
Context (h : Host) (gw : ProxyParams).

Definition invalid_request (message : string) : Response :=
  json_response 400 (print h (obj [("error", obj [("message", Str message);
    ("type", Str "invalid_request_error")])])).

(** *** The request *)

Definition build_messages (body : value) : list value + Response :=
  match get body "instructions" with
  | Some (Str _) | None =>
      let system := match get body "instructions" with
                    | Some (Str text) => [obj [("role", Str "system"); ("content", Str text)]]
                    | _ => [] end in
      match get body "input" with
      | Some (Str s) => inl (system ++ [obj [("role", Str "user"); ("content", Str s)]])
      | Some (Array arr) =>
          match system ++ arr with
          | [] => inr (invalid_request "Missing required field: input")
          | messages => inl messages
          end
      | Some _ => inr (invalid_request "input must be a string or an array")
      | None =>
          match system with
          | [] => inr (invalid_request "Missing required field: input")
          | messages => inl messages
          end
      end
  | Some _ => inr (invalid_request "instructions must be a string")
  end.

Definition pass (k k' : string) (body : value) (chat : gmap string value) : gmap string value :=
  match get body k with Some v => <[k' := v]> chat | None => chat end.

Definition translate_request (body : value) : value + Response :=
  match build_messages body with
  | inr r => inr r
  | inl messages =>
      let chat := <["messages" := Array messages]> (pass "model" "model" body ∅) in
      let chat := pass "max_output_tokens" "max_tokens" body chat in
      inl (Object (foldl (λ chat k, pass k k body chat) chat
                     ["temperature"; "top_p"; "tools"; "tool_choice"; "stream"]))
  end.

(** *** The answer *)

Definition function_call (tc : value) : value :=
  let function := get_or tc "function" (obj []) in
  let id := Translate.field_str tc "id" "" in
  obj [("type", Str "function_call"); ("id", Str id); ("call_id", Str id);
       ("name", Str (Translate.field_str function "name" ""));
       ("arguments", Str (Translate.field_str function "arguments" ""))].

Definition status_of_finish (finish_reason : string) : string :=
  if String.eqb finish_reason "length" then "incomplete" else "completed".

Definition content_items (message : value) : list value :=
  match get message "content" with
  | Some (Str text) =>
      if String.eqb text "" then []
      else [obj [("type", Str "output_text"); ("text", Str text)]]
  | _ => []
  end ++ (function_call <$> default [] (get message "tool_calls" ≫= as_array)).

(** [msg_id] is only drawn when there is a choice. *)
Definition build_output (chat : value) (msg_id : string) : string * list value :=
  match get chat "choices" ≫= first with
  | None => ("completed", [])
  | Some choice =>
      let status := status_of_finish (Translate.field_str choice "finish_reason" "stop") in
      let message := get_or choice "message" (obj []) in
      (status,
       [obj [("type", Str "message"); ("id", Str ("msg_" +:+ msg_id));
             ("role", Str (Translate.field_str message "role" "assistant"));
             ("status", Str status); ("content", Array (content_items message))]])
  end.

Definition translate_usage (chat : value) : value :=
  let usage := get_or chat "usage" (obj []) in
  obj [("input_tokens", get_or usage "prompt_tokens" (num 0));
       ("output_tokens", get_or usage "completion_tokens" (num 0));
       ("total_tokens", get_or usage "total_tokens" (num 0))].

Definition translate_response (chat : value) (id msg_id : string) : value :=
  let '(status, output) := build_output chat msg_id in
  obj [("id", Str ("resp_" +:+ id)); ("object", Str "response");
       ("created_at", get_or chat "created" (num 0));
       ("model", get_or chat "model" (Str "unknown")); ("status", Str status);
       ("output", Array output); ("usage", translate_usage chat)].

Definition event (name : string) (data : value) : string :=
  "event: " +:+ name +:+ newlines 1 +:+ "data: " +:+ print h data +:+ newlines 2.

(** The text of the first item of the first output. *)
Definition first_text (payload : value) : string :=
  let message := get payload "output" ≫= first in
  let content := message ≫= (λ m, get m "content") in
  let item := content ≫= first in
  match item with Some i => Translate.field_str i "text" "" | None => "" end.

Definition sse_responses_stream (payload : value) : Response :=
  let text := first_text payload in
  mkResponse 200 event_stream_headers (Text
    (event "response.created" (insert_field "status" (Str "in_progress") payload)
     +:+ event "response.output_text.delta" (obj [("delta", Str text)])
     +:+ event "response.output_text.done" (obj [("text", Str text)])
     +:+ event "response.completed" payload)).

(** *** The handler *)

Definition is_success (status : Z) : bool := (200 <=? status) && (status <? 300).

Definition handle_responses (headers : list (string * string)) (body : value) : prog Response :=
  let was_streaming := default false (get body "stream" ≫= as_bool) in
  match translate_request body with
  | inr r => Ret r
  | inl chat_body =>
      validated h chat_body
        (call! upstream := dispatch h gw headers (insert_field "stream" (Bool false) chat_body)
                             Provider.OpenAIAdaptor OpenAIResponses in
         match OpenAI.extract_response_json h "responses: failed to buffer upstream response"
                 "upstream_error" upstream with
         | inr fallback => Ret fallback
         | inl (status, chat_response) =>
             if negb (is_success status) then Ret (json_response status (print h chat_response))
             else
               id <- NewId ;;
               call! msg_id := match get chat_response "choices" ≫= first with
                               | Some _ => m <- NewId ;; Ret m
                               | None => Ret ""
                               end in
               let payload := translate_response chat_response id msg_id in
               Ret (if was_streaming then sse_responses_stream payload
                    else json_response 200 (print h payload))
         end)
  end.
End responses.
End Responses.

Module ResponsesProps.
Import Json App Prog Attempt Dispatch Responses.

(** What a chat answer says: its text, its calls (identifier, name, arguments),
    whether it was cut off, and the tokens. *)
Record Answer := mkAnswer {
  text : string;
  calls : list (string * string * string);
  cut_off : bool;
  prompt_tokens : Z;
  completion_tokens : Z;
  total_tokens : Z;
}.

(** As a chat completion. *)
Definition render_call (c : string * string * string) : value :=
  obj [("id", Str c.1.1); ("type", Str "function");
       ("function", obj [("name", Str c.1.2); ("arguments", Str c.2)])].
Definition render (model : string) (a : Answer) : value :=
  obj [("object", Str "chat.completion"); ("model", Str model);
       ("choices", Array [obj [("index", num 0);
          ("message", obj [("role", Str "assistant"); ("content", Str (text a));
                           ("tool_calls", Array (render_call <$> calls a))]);
          ("finish_reason", Str (if cut_off a then "length" else "stop"))]]);
       ("usage", obj [("prompt_tokens", num (prompt_tokens a));
                      ("completion_tokens", num (completion_tokens a));
                      ("total_tokens", num (total_tokens a))])].

(** As read off a payload of the Responses API. *)
Definition read_items (items : list value) : string * list (string * string * string) :=
  foldr (λ i acc,
    if String.eqb (Translate.field_str i "type" "") "output_text"
    then (Translate.field_str i "text" "" +:+ acc.1, acc.2)
    else (acc.1, (Translate.field_str i "call_id" "", Translate.field_str i "name" "",
                  Translate.field_str i "arguments" "") :: acc.2)) ("", []) items.
Definition read (payload : value) : Answer :=
  let message := default Null (get payload "output" ≫= first) in
  let items := read_items (default [] (get message "content" ≫= as_array)) in
  let usage := get_or payload "usage" Null in
  mkAnswer items.1 items.2 (String.eqb (Translate.field_str payload "status" "") "incomplete")
    (Translate.field_u64 usage "input_tokens") (Translate.field_u64 usage "output_tokens")
    (Translate.field_u64 usage "total_tokens").

Ltac reading :=
  unfold get_or, Translate.field_str, Translate.field_u64;
  repeat progress (read_obj; cbn [mbind option_bind first as_array head default from_option
                                    Datatypes.id Translate.str_or as_u64]).

Lemma read_calls l : read_items (function_call <$> (render_call <$> l)) = ("", l).
Proof.
  induction l as [|[[id name] args] l IH]; [done|]. rewrite !fmap_cons. unfold read_items in *.
  cbn [foldr]. rewrite IH. unfold Translate.field_str, function_call, get_or, render_call.
  read_obj. done.
Qed.

(** Nothing of a chat answer is lost when it is translated for the Responses
    API: its text, its tool calls in their order, whether it was cut off and
    the tokens it took can all be read off the payload. *)
Theorem responses_answer_kept model a id msg_id :
  read (translate_response (render model a) id msg_id) = a.
Proof.
  assert (∀ l, read_items (match text a with
                           | EmptyString => [] | _ => [obj [("type", Str "output_text"); ("text", Str (text a))]]
                           end ++ l) = (text a +:+ (read_items l).1, (read_items l).2)) as Htext.
  { intros l. destruct (text a) as [|c t] eqn:E.
    { cbn [app]. destruct (read_items l) as [s cs]. by change ("" +:+ s) with s. }
    unfold read_items. cbn [foldr app]. unfold Translate.field_str. read_obj. done. }
  unfold translate_response, build_output, content_items, translate_usage, read, render.
  reading.
  destruct a as [t cs cut p c tot].
  cbn [text calls cut_off prompt_tokens completion_tokens total_tokens] in *.
  replace (if String.eqb t "" then [] else [obj [("type", Str "output_text"); ("text", Str t)]])
    with (match t with EmptyString => [] | _ => [obj [("type", Str "output_text"); ("text", Str t)]] end)
    by (by destruct t).
  rewrite Htext, read_calls. cbn [fst snd].
  f_equal; [|by destruct cut].
  clear Htext. induction t as [|x t IH]; [done|]. change (String x t +:+ "") with (String x (t +:+ "")).
  by rewrite IH.
Qed.

Lemma lookup_pass k k' body chat j :
  pass k k' body chat !! j = if String.eqb j k' then match get body k with
                                                     | Some v => Some v | None => chat !! j end
                             else chat !! j.
Proof.
  unfold pass. destruct (get body k) as [v|], (String.eqb_spec j k') as [->|Hne]; try done.
  - by rewrite lookup_insert_eq.
  - by rewrite lookup_insert_ne.
Qed.

Lemma build_messages_nonempty h body messages : build_messages h body = inl messages → messages ≠ [].
Proof.
  unfold build_messages. repeat case_match; intros [= <-]; done || by intros [_ ?]%app_nil.
Qed.

Definition passed_on : list string := ["model"; "temperature"; "top_p"; "tools"; "tool_choice"].

(** The chat request that is dispatched has messages, does not stream, has the
    client's limit on the output under its chat name and the client's model,
    sampling and tool fields, and nothing else of what the client sent. *)
Theorem responses_request_shape h body chat k :
  translate_request h body = inl chat →
  get (insert_field "stream" (Bool false) chat) k =
    if String.eqb k "stream" then Some (Bool false)
    else if String.eqb k "messages" then
      match build_messages h body with inl messages => Some (Array messages) | inr _ => None end
    else if String.eqb k "max_tokens" then get body "max_output_tokens"
    else if bool_decide (k ∈ passed_on) then get body k
    else None.
Proof.
  unfold translate_request. destruct (build_messages h body) as [messages|]; [|done].
  intros [= <-]. cbn [insert_field get].
  destruct (String.eqb_spec k "stream") as [->|Hs]; [by rewrite lookup_insert_eq|].
  rewrite lookup_insert_ne by done. cbn [foldl]. rewrite !lookup_pass.
  destruct (bool_decide_reflect (k ∈ passed_on)) as [Hin|Hout].
  - unfold passed_on in Hin. repeat (apply elem_of_cons in Hin as [->|Hin]); [..|by apply elem_of_nil in Hin];
      rewrite lookup_insert_ne, lookup_pass, lookup_empty by done;
      cbn [String.eqb Ascii.eqb Bool.eqb andb]; by repeat case_match.
  - unfold passed_on in Hout. rewrite !not_elem_of_cons in Hout. destruct Hout as (H1&H2&H3&H4&H5&_).
    apply String.eqb_neq in H1, H2, H3, H4, H5, Hs as Hs'. rewrite H2, H3, H4, H5, Hs'.
    destruct (String.eqb_spec k "max_tokens") as [->|].
    { rewrite lookup_insert_ne, lookup_pass, lookup_empty by done.
      cbn [String.eqb Ascii.eqb Bool.eqb andb]. by destruct (get body "max_output_tokens"). }
    destruct (String.eqb_spec k "messages") as [->|]; [by rewrite lookup_insert_eq|].
    rewrite lookup_insert_ne, lookup_pass, H1 by done. apply lookup_empty.
Qed.

(** So the conversation a request continues is not looked up. *)
Definition continued : value :=
  obj [("model", Str "gpt-4"); ("input", Str "and then?"); ("previous_response_id", Str "resp_1")].
Example previous_response_ignored h :
  translate_request h continued =
    inl (obj [("messages", Array [obj [("role", Str "user"); ("content", Str "and then?")]]);
              ("model", Str "gpt-4")]).
Proof. vm_compute. reflexivity. Qed.
End ResponsesProps.
