(* ===== verification/Embeddings.v ===== *)
(** The endpoints beside the chat dispatch (proxy/embeddings.rs and
    proxy/images.rs): one channel, one request, no fallback and no retry.  The
    guard of the request is released when the handler returns; that it is also
    dropped when a panic unwinds is not a step of the model. *)

From stdpp Require Import pretty.
From S2P Require Import Prelude F64 Json Channel Usage Translate Provider Machine Attempt Dispatch.

Module Embeddings.
Import Json App Prog Attempt Dispatch.
#[local] Open Scope prog_scope.

Definition EMBEDDINGS_ESTIMATED_TOKENS : Z := 1000.

Section endpoints.
Context (h : Host) (gw : ProxyParams).

Definition error_json (status : Z) (message error_type code : string) : Response :=
  error_response h status message error_type code.

Definition is_web_session (ch : Channel.Channel) : bool :=
  match Channel.cred_type (Channel.credential ch) with
  | Channel.WebSession => true | Channel.ApiKey => false end.

(** The client's headers without the hop-by-hop and authentication ones. *)
Definition forwarded_headers (headers : list (string * string)) : list (string * string) :=
  List.filter (λ hd, negb (bool_decide (hd.1 ∈ Provider.SKIP_HEADERS))) headers.

(** *** embeddings.rs *)

Definition validate_embedding_request (body : value) : string + Response :=
  match get body "model" with
  | Some (Str m) =>
      if String.eqb m "" then
        inr (error_json 400 "Missing required field: model" "invalid_request_error" "missing_model")
      else
        match get body "input" with
        | Some _ => inl m
        | None => inr (error_json 400 "Missing required field: input" "invalid_request_error"
                         "missing_input")
        end
  | _ => inr (error_json 400 "Missing required field: model" "invalid_request_error" "missing_model")
  end.

Definition check_embedding_pre_dispatch (ch : Channel.Channel) (estimated_tokens : Z)
    : prog (option Response) :=
  let provider_name := Channel.as_str (Channel.provider ch) in
  within <- CheckProvider provider_name ;;
  if negb within then
    Ret (Some (error_json 402 ("Provider '" +:+ provider_name +:+ "' budget exceeded")
                 "budget_exceeded" "provider_budget_exceeded"))
  else
    allowed <- CheckLimiter (Channel.id ch) estimated_tokens ;;
    Ret (if allowed.1 then None
         else Some (error_json 429 "Rate limit exceeded for channel. Please retry after a brief wait."
                      "rate_limit_error" "rate_limit_exceeded")).

Definition build_embedding_request (headers : list (string * string)) (ch : Channel.Channel)
    (body : value) (resolved_model : string) (estimated_tokens : Z) : prog (Request + Response) :=
  api_key <- GetCredential (Channel.id ch) ;;
  match api_key with
  | None =>
      RecordLimiter (Channel.id ch) estimated_tokens ;;;
      MarkCircuitOpen (Channel.id ch) ;;;
      Ret (inr (error_json 503 "No credential available for channel" "server_error" "no_credential"))
  | Some key =>
      let upstream_model := Channel.map_model ch resolved_model in
      let upstream_body := if String.eqb upstream_model resolved_model then body
                           else insert_field "model" (Str upstream_model) body in
      Ret (inl (mkRequest
        (trim_end_slashes (Channel.base_url ch) +:+ "/" +:+ "v1/embeddings")
        (forwarded_headers headers
         ++ Provider.auth_headers (λ key, [("Authorization", "Bearer " +:+ key)]) key
              (is_web_session ch))
        upstream_body))
  end.

Definition is_success (status : Z) : bool := (200 <=? status) && (status <? 300).
Definition is_bad (status : Z) : bool := (status =? 429) || ((500 <=? status) && (status <? 600)).

(** The log line is written by a task of its own. *)
Definition handle_embedding_response (ch : Channel.Channel) (status : Z) (body_text : string)
    (resolved_model : string) (estimated_tokens : Z) : prog Response :=
  let id := Channel.id ch in
  let line := make_log h resolved_model id (Channel.name ch) 1 1
                (if is_success status then None else Some ("embeddings_" +:+ pretty status))
                0 (is_success status) None Usage.no_usage None None in
  RecordLimiter id estimated_tokens ;;;
  if is_bad status then (MarkCircuitOpen id ;;; Log line ;;; Ret (json_response status body_text))
  else (Log line ;;; Ret (json_response status body_text)).

(** With the guard held. *)
Definition embed (headers : list (string * string)) (body : value) (resolved_model : string)
    (ch : Channel.Channel) : prog Response :=
  call! refusal := check_embedding_pre_dispatch ch EMBEDDINGS_ESTIMATED_TOKENS in
  match refusal with
  | Some r => Ret r
  | None =>
      call! req := build_embedding_request headers ch body resolved_model
                     EMBEDDINGS_ESTIMATED_TOKENS in
      match req with
      | inr r => Ret r
      | inl req =>
          resp <- Send req ;;
          match resp with
          | None =>
              RecordLimiter (Channel.id ch) EMBEDDINGS_ESTIMATED_TOKENS ;;;
              MarkCircuitOpen (Channel.id ch) ;;;
              Ret (error_json 502 "Upstream connection error" "server_error"
                     "upstream_connection_error")
          | Some resp =>
              handle_embedding_response ch (status resp) (App.text resp) resolved_model
                EMBEDDINGS_ESTIMATED_TOKENS
          end
      end
  end.

Definition handle_embeddings (headers : list (string * string)) (body : value) : prog Response :=
  match validate_embedding_request body with
  | inr r => Ret r
  | inl requested_model =>
      let resolved_model := resolve_alias gw requested_model in
      strategy <- Strategy ;;
      ch <- SelectChannel resolved_model strategy (header_get headers "x-account-group") ;;
      match ch with
      | None => Ret (error_json 503 ("No available channel for model: " +:+ resolved_model)
                       "server_error" "no_channel_available")
      | Some ch =>
          Acquire (Channel.id ch) ;;;
          call! r := embed headers body resolved_model ch in
          (Release (Channel.id ch) ;;; Ret r)
      end
  end.

(** *** images.rs *)

Definition apply_auth (p : Channel.Provider) (api_key : string) : list (string * string) :=
  ("Content-Type", "application/json") ::
  match p with
  | Channel.Anthropic => [("x-api-key", api_key)]
  | Channel.Gemini => [("x-goog-api-key", api_key)]
  | _ => [("Authorization", "Bearer " +:+ api_key)]
  end.

(** The first of the channels that has a credential and is still there. *)
Fixpoint first_with_credential (ids : list Uuid) : prog (option (Channel.Channel * string)) :=
  match ids with
  | [] => Ret None
  | u :: rest =>
      key <- GetCredential u ;;
      match key with
      | None => first_with_credential rest
      | Some api_key =>
          ch <- GetChannel u ;;
          match ch with
          | Some ch => Ret (Some (ch, api_key))
          | None => first_with_credential rest
          end
      end
  end.

Definition find_image_channel (model : string) : prog (option (Channel.Channel * string)) :=
  c <- ImageCandidates model ;;
  first_with_credential (c.1 ++ c.2).

Definition handle_image_generation (disable_image_generation : bool)
    (headers : list (string * string)) (body : value) : prog Response :=
  if negb (is_object body) then
    Ret (error_json 400 "Request body must be a JSON object" "invalid_request_error" "invalid_body")
  else if disable_image_generation then
    Ret (error_json 404 "Image generation is disabled" "invalid_request_error"
           "image_generation_disabled")
  else
    let model := Translate.field_str body "model" "dall-e-3" in
    call! found := find_image_channel model in
    match found with
    | None => Ret (error_json 503 ("No available channel for image model '" +:+ model +:+ "'")
                     "server_error" "no_available_channel")
    | Some (ch, api_key) =>
        let upstream_model := default model (Channel.model_mapping ch !! model) in
        resp <- Send (mkRequest
          (trim_end_slashes (Channel.base_url ch) +:+ "/v1/images/generations")
          (apply_auth (Channel.provider ch) api_key ++ forwarded_headers headers)
          (insert_field "model" (Str upstream_model) body)) ;;
        Ret (match resp with
             | None => error_json 502 "Upstream image generation request failed" "server_error"
                         "upstream_error"
             | Some resp => json_response (status resp) (App.text resp)
             end)
    end.

Definition handle_image_edits : Response :=
  error_json 501 "Image edits require multipart/form-data which is not yet supported. Use /v1/images/generations instead."
    "invalid_request_error" "not_implemented".
End endpoints.
End Embeddings.

Module SideEndpoints.
Import Json App Prog Attempt Dispatch Embeddings.
#[local] Open Scope prog_scope.

(** What an observer counts: requests sent, guards held, charges to the limiter,
    circuits opened, and whether the outcome calls for that. *)
Record Count := mkCount { sent : Z; held : Z; charged : Z; opened : Z; bad : bool }.
Definition nothing : Count := mkCount 0 0 0 0 false.
Definition add (s g c o : Z) (b : bool) (m : Count) : Count :=
  mkCount (sent m + s) (held m + g) (charged m + c) (opened m + o) (bad m || b).

Definition bad_answer (a : option UpstreamResponse) : bool :=
  match a with Some r => is_bad (status r) | None => true end.

Definition count (m : Count) (e : event) : Count :=
  match e with
  | @Did X o x =>
      match o in op Y return Y → Count with
      | Send _ => λ a, add 1 0 0 0 (bad_answer a) m
      | GetCredential _ => λ k, match k with None => add 0 0 0 0 true m | Some _ => m end
      | Acquire _ => λ _, add 0 1 0 0 false m
      | Release _ => λ _, add 0 (-1) 0 0 false m
      | RecordLimiter _ _ => λ _, add 0 0 1 0 false m
      | MarkCircuitOpen _ | MarkCircuitOpenWithRetry _ _ => λ _, add 0 0 0 1 false m
      | _ => λ _, m
      end x
  end.

(** Operations on the money of keys and providers, and the guardrails. *)
Definition unmetered (limited : bool) {X} (o : op X) : bool :=
  match o with
  | CheckRequest _ | CheckResponse _ | GetKey _ | ReserveSpend _ _ | ReconcileSpend _ _ _
  | AccumulateSpend _ _ | RecordTokens _ _ | AccumulateUsage _ _ | AccumulateProvider _ _
  | CacheGet _ _ | Capabilities _ => false
  | CheckProvider _ | CheckLimiter _ _ | RecordLimiter _ _ | Acquire _ | Release _
  | RecordAttempt _ _ | MarkCircuitOpen _ | Log _ => limited
  | _ => true
  end.

Section endpoints.
Context (h : Host) (gw : ProxyParams).

Lemma only_embed headers body model ch : Only.only (@unmetered true) (embed h headers body model ch).
Proof.
  unfold embed, check_embedding_pre_dispatch, build_embedding_request, handle_embedding_response.
  Only.quietly.
Qed.
Lemma only_embeddings headers body : Only.only (@unmetered true) (handle_embeddings h gw headers body).
Proof.
  unfold handle_embeddings. destruct (validate_embedding_request h body); [|done].
  split; [done|]. intros strategy. split; [done|]. intros [ch|]; [|done].
  split; [done|]. intros _. apply Only.only_bind; [apply only_embed|]. intros r. Only.quietly.
Qed.
Lemma only_credential ids : Only.only (@unmetered false) (first_with_credential ids).
Proof.
  induction ids as [|u ids IH]; [done|]. cbn [first_with_credential]. split; [done|].
  intros [k|]; [|exact IH]. split; [done|]. intros [ch|]; [done|exact IH].
Qed.
Lemma only_images disabled headers body :
  Only.only (@unmetered false) (handle_image_generation h disabled headers body).
Proof.
  unfold handle_image_generation. destruct (negb _); [done|]. destruct disabled; [done|].
  apply Only.only_bind.
  - unfold find_image_channel. split; [done|]. intros c. apply only_credential.
  - intros [[ch key]|]; [|done]. Only.quietly.
Qed.

(** The account of an embeddings request. *)
Definition settled (m : Count) (e : ending Response) : Prop :=
  sent m ≤ 1 ∧
  match e with
  | Returned _ =>
      held m = 0 ∧ opened m = Z.b2z (bad m) ∧ charged m = Z.max (sent m) (opened m)
  | _ => sent m = 0
  end.

Lemma safe_embeddings headers body :
  safe count (handle_embeddings h gw headers body) nothing settled.
Proof.
  unfold handle_embeddings, embed, check_embedding_pre_dispatch, build_embedding_request,
    handle_embedding_response.
  destruct (validate_embedding_request h body); [|done].
  split; [done|]. split; [done|]. intros strategy. split; [done|]. split; [done|].
  intros [ch|]; [|done]. observe. destruct (negb x0); [done|]. observe.
  destruct x1.1; [|done]. observe; [done|]. destruct x2 as [key|]; [|done].
  observe. destruct x2 as [resp|]; [|done]. observe. destruct (is_bad (status resp)) eqn:E; observe;
    unfold settled; cbn; by rewrite E.
Qed.
End endpoints.
End SideEndpoints.

Module SideProps.
Import Json App Prog Attempt Dispatch Embeddings SideEndpoints.

(** An embeddings request keeps its books: at most one request is sent; when
    it is answered, no guard is left, the circuit of the channel was opened
    exactly when the channel had no credential, could not be reached, or
    answered 429 or 5xx, and the limiter was charged once exactly when a request
    was sent or should have been. *)
Theorem embeddings_account h gw readings others n s headers body :
  let '(tr, e, _) := run h readings others n (handle_embeddings h gw headers body) s in
  let m := observe count nothing tr in
  sent m ≤ 1 ∧
  match e with
  | Returned _ =>
      held m = 0 ∧ opened m = Z.b2z (bad m) ∧ charged m = Z.max (sent m) (opened m)
  | _ => sent m = 0
  end.
Proof.
  pose proof (safe_run count h readings others n _ nothing s _ (safe_embeddings h gw headers body)) as H.
  destruct (run _ _ _ _ _ _) as [[tr e] s']. exact H.
Qed.

(** Neither embeddings nor images are metered.  In every run the requests pass
    the guardrails, the models and the budget of the virtual key by: none of
    them is looked at and nothing is spent or counted; an image request is not
    held against the limits of its channel and the budget of its provider
    either, takes no guard, and a failure is not recorded. *)
Theorem side_endpoints_unmetered h gw disabled readings others n s headers body :
  Forall (λ e, Only.passes (@unmetered true) e = true)
    (run h readings others n (handle_embeddings h gw headers body) s).1.1 ∧
  Forall (λ e, Only.passes (@unmetered false) e = true)
    (run h readings others n (handle_image_generation h disabled headers body) s).1.1.
Proof.
  split; apply Only.only_run; [apply only_embeddings|apply only_images].
Qed.
End SideProps.
