(* ===== verification/Streams.v ===== *)
(** What the gateway keeps of a stream (proxy/stream.rs and the stream task of
    proxy/response.rs): the output buffer against the text that was forwarded,
    and what the task stores in the cache when a stream breaks off. *)

From S2P Require Import Prelude F64 Json Channel Usage Cache VirtualKey Translate Provider.
From S2P Require Import Mcp Machine Attempt.

Module Streams.
Import Json Provider.
#[local] Abbreviation Out := (string → (nat → string * Z) → string).

Definition is_data (c : chunk) : bool := match c with Data _ _ => true | _ => false end.

(** The pieces of output the stream task makes: those it forwards, up to the
    first error or stall, and, when the client has left, those it drains. *)
Fixpoint drained (out : Out) (chunks : list chunk) : list string :=
  match chunks with
  | Data bytes stamp :: rest => out bytes stamp :: drained out rest
  | StreamError :: rest => drained out rest
  | Stall :: _ | [] => []
  end.
Fixpoint pieces (out : Out) (connected : option nat) (chunks : list chunk) : list string :=
  match chunks with
  | Data bytes stamp :: rest =>
      out bytes stamp :: match connected with
                         | Some O => drained out rest
                         | Some (S n) => pieces out (Some n) rest
                         | None => pieces out None rest
                         end
  | StreamError :: _ | Stall :: _ | [] => []
  end.

Definition joined (ps : list string) : string := foldr String.append "" ps.

Lemma drain_is_fold out buf chunks :
  drain_stream out buf chunks = foldl accumulate buf (drained out chunks).
Proof. revert buf. by induction chunks as [|[] rest IH]; intros; cbn. Qed.

Lemma forward_is_fold out connected buf chunks :
  forward_stream out connected buf chunks = foldl accumulate buf (pieces out connected chunks).
Proof.
  revert connected buf. induction chunks as [|[] rest IH]; intros [[|n]|] buf; cbn; try done.
  apply drain_is_fold.
Qed.

(** An error, or a stall, ends a stream like its regular end. *)
Lemma pieces_broken out good c rest :
  forallb is_data good = true → is_data c = false →
  pieces out None (good ++ c :: rest) = pieces out None good.
Proof.
  intros Hg Hc. induction good as [|[] good IH]; cbn in *; try done; [by destruct c|].
  by rewrite IH.
Qed.

(** ** Accumulating *)

Lemma substring_suffix k b : (k ≤ String.length b)%nat →
  ∃ lost, b = lost +:+ String.substring k (String.length b - k) b ∧ String.length lost = k.
Proof.
  revert b. induction k as [|k IH]; intros b Hk.
  - exists "". split; [|done]. rewrite Nat.sub_0_r. clear Hk.
    induction b as [|c b IHb]; [done|]. exact (f_equal (String c) IHb).
  - destruct b as [|c b]; cbn in Hk; [lia|]. destruct (IH b ltac:(lia)) as (lost & Hb & Hlen).
    exists (String c lost). split; [exact (f_equal (String c) Hb)|]. cbn. lia.
Qed.

#[local] Abbreviation size s := (Z.of_nat (String.length s)).

(** The buffer after one more piece: all of it, or its second half. *)
Lemma accumulate_suffix buf bytes : ∃ lost,
  buf +:+ bytes = lost +:+ accumulate buf bytes ∧
  (size buf ≤ MAX_OUTPUT_BUFFER_BYTES → size bytes ≤ MAX_OUTPUT_BUFFER_BYTES →
   size (accumulate buf bytes) ≤ MAX_OUTPUT_BUFFER_BYTES).
Proof.
  unfold accumulate. set (b := buf +:+ bytes).
  assert (size b = size buf + size bytes) as Hsize
    by (unfold b; rewrite length_app_str; lia).
  destruct (Z.ltb_spec MAX_OUTPUT_BUFFER_BYTES (size b)); [|by exists ""; split; [|lia]].
  pose proof (Nat.div_mod_eq (String.length b) 2) as Hd.
  pose proof (Nat.mod_upper_bound (String.length b) 2 ltac:(lia)) as Hm.
  assert (1 ≤ MAX_OUTPUT_BUFFER_BYTES) as HM by done.
  destruct (substring_suffix (Nat.div (String.length b) 2) b ltac:(lia)) as (lost & Hb & Hlen).
  exists lost. split; [exact Hb|]. intros H1 H2.
  apply (f_equal String.length) in Hb. rewrite length_app_str in Hb. lia.
Qed.

Lemma accumulate_all buf bytes :
  size (buf +:+ bytes) ≤ MAX_OUTPUT_BUFFER_BYTES → accumulate buf bytes = buf +:+ bytes.
Proof. unfold accumulate. intros H. by rewrite (proj2 (Z.ltb_ge _ _)) by done. Qed.

Lemma fold_suffix buf ps :
  size buf ≤ MAX_OUTPUT_BUFFER_BYTES → Forall (λ p, size p ≤ MAX_OUTPUT_BUFFER_BYTES) ps →
  (∃ lost, buf +:+ joined ps = lost +:+ foldl accumulate buf ps) ∧
  size (foldl accumulate buf ps) ≤ MAX_OUTPUT_BUFFER_BYTES.
Proof.
  intros Hb Hps. revert buf Hb. induction Hps as [|p ps Hp Hps IH]; intros buf Hb; cbn.
  - split; [|done]. exists "". apply app_nil_r_str.
  - destruct (accumulate_suffix buf p) as (l1 & H1 & H2). specialize (H2 Hb Hp).
    destruct (IH _ H2) as [(l2 & H3) H4]. split; [|done]. exists (l1 +:+ l2).
    rewrite (app_assoc_string l1), <- H3, <- (app_assoc_string l1).
    by rewrite <- H1, app_assoc_string.
Qed.

Lemma fold_all buf ps :
  size (buf +:+ joined ps) ≤ MAX_OUTPUT_BUFFER_BYTES → foldl accumulate buf ps = buf +:+ joined ps.
Proof.
  revert buf. induction ps as [|p ps IH]; intros buf; cbn;
    [intros _; symmetry; apply app_nil_r_str|].
  rewrite <- app_assoc_string. intros Hlen.
  rewrite accumulate_all; [by apply IH|].
  rewrite length_app_str in Hlen. lia.
Qed.
End Streams.

Module StreamsProps.
Import Json Provider Machine App Prog Attempt Streams.

(** The buffer of a stream is the end of the text that was read, it never holds
    more than 512 KB, and it is the whole text exactly when that fits: of a
    longer answer the beginning is lost, also from the cache. *)
Theorem stream_buffer_suffix out connected chunks :
  let ps := pieces out connected chunks in
  let buffer := forward_stream out connected "" chunks in
  Forall (λ p, Z.of_nat (String.length p) ≤ MAX_OUTPUT_BUFFER_BYTES) ps →
  (∃ lost, joined ps = lost +:+ buffer) ∧
  Z.of_nat (String.length buffer) ≤ MAX_OUTPUT_BUFFER_BYTES ∧
  (buffer = joined ps ↔ Z.of_nat (String.length (joined ps)) ≤ MAX_OUTPUT_BUFFER_BYTES).
Proof.
  intros ps buffer Hps. unfold buffer. rewrite forward_is_fold. fold ps.
  destruct (fold_suffix "" ps ltac:(done) Hps) as [Hsuf Hle]. split_and!; [done..|].
  split; [by intros <-|]. apply (fold_all "").
Qed.

(** A stream that breaks off, by an error or by a stall, is stored in the cache
    like one that has ended: the task then does what it does for the stream that
    ends there, in particular it inserts the truncated text. *)
Theorem broken_stream_cached h readings others n s ch model pricing ratio vk cents key material
    out good c rest log_id :
  forallb is_data good = true → is_data c = false →
  (length good < (forwarded (readings n)).1)%nat → (forwarded (readings n)).2 = None →
  let task chunks := AfterStream ch model pricing ratio vk cents key material
    (λ k connected, forward_stream out connected "" (take k chunks)) log_id in
  let text := Utf8.from_utf8_lossy (forward_stream out None "" good) in
  let broken := run h readings others n (run_task h (task (good ++ c :: rest))) s in
  broken = run h readings others n (run_task h (task good)) s ∧
  (text ≠ "" → ∃ tr, broken.1.1 =
     Did StreamDone (forwarded (readings n)) :: Did (CacheInsert key material text) () :: tr).
Proof.
  intros Hg Hc Hlen Hcon task text.
  assert (∀ chunks, forward_stream out None "" (take (forwarded (readings n)).1 chunks) =
            forward_stream out None "" good →
          run h readings others n (run_task h (task chunks)) s =
          run h readings others n (run_task h (task good)) s ∧
          (text ≠ "" → ∃ tr, (run h readings others n (run_task h (task chunks)) s).1.1 =
             Did StreamDone (forwarded (readings n)) :: Did (CacheInsert key material text) () :: tr))
    as Hrun.
  { intros chunks Heq. unfold task, run_task, after_stream. cbn [run handle].
    rewrite Hcon, Heq, (take_ge good) by lia. fold text. split; [done|]. intros Ht.
    rewrite (proj2 (String.eqb_neq _ _) Ht). cbn [run handle].
    repeat (destruct (run _ _ _ _ _ _) as [[? ?] ?]). by eexists. }
  apply Hrun. rewrite take_app_ge by lia. rewrite !forward_is_fold.
  destruct (((forwarded (readings n)).1 - length good)%nat) as [|k] eqn:E; [lia|]. cbn [take].
  by rewrite pieces_broken.
Qed.

(** Concrete streams: an upstream that breaks off after its first line. *)
Definition plain (bytes : string) (_ : nat → string * Z) : string := bytes.
Definition stamped (_ : nat) : string * Z := ("id", 0).
Definition first_line : list chunk := [Data "data: {}" stamped].

Lemma stream_buffer_suffix_witness :
  Forall (λ p, Z.of_nat (String.length p) ≤ MAX_OUTPUT_BUFFER_BYTES)
    (pieces plain None (first_line ++ [Stall])) ∧
  forward_stream plain None "" (first_line ++ [Stall]) = "data: {}".
Proof.
  assert (Forall (λ p, Z.of_nat (String.length p) ≤ MAX_OUTPUT_BUFFER_BYTES)
    (pieces plain None (first_line ++ [Stall]))) as H
    by (repeat constructor; vm_compute; discriminate).
  split; [exact H|].
  exact (proj2 (proj2 (proj2 (stream_buffer_suffix plain None (first_line ++ [Stall]) H)))
    ltac:(vm_compute; discriminate)).
Defined.
End StreamsProps.
