(* ===== verification/Keepalive.v ===== *)
(** What keeps a connection alive while the upstream is silent: the newlines of
    [race_response_with_keepalive] (proxy/response.rs) and the comments of
    [keepalive_stream] (proxy/stream.rs), with a reader of event streams to say what
    the client makes of them. *)

From S2P Require Import Prelude Provider Machine Attempt Streams.

Module Keepalive.
Import Provider.

(** ** Waiting for a whole body (race_response_with_keepalive)

    An interval is over, or the body has arrived, empty if its reading failed. *)
Inductive Event := Elapsed | Arrived (body : string).
(** The loop waits with so many newlines in its channel, or in the sending of one more,
    or has ended. *)
Inductive Race := Waiting (sent : nat) | Sending | Over (sent : nat) (body : string).
Definition capacity : nat := 16.
(** The receiver is handed to the client together with the body, so nothing is taken out
    of the channel while the loop runs, and it is not closed either: a newline that finds
    no room is waited for, and the body is not waited for meanwhile. *)
Definition race_step (r : Race) (e : Event) : Race :=
  match r, e with
  | Waiting n, Elapsed => if (n <? capacity)%nat then Waiting (S n) else Sending
  | Waiting n, Arrived b => Over n b
  | r, _ => r
  end.
Definition race_response_with_keepalive (keepalive_secs : Z) (events : list Event) : Race :=
  if 0 <? keepalive_secs then foldl race_step (Waiting 0) events
  else match List.find (λ e, match e with Arrived _ => true | Elapsed => false end) events with
       | Some (Arrived b) => Over 0 b
       | _ => Waiting 0
       end.
(** What the client gets, once the handler has made a document of the body: before the
    loop is over it has no response. *)
Definition received (r : Race) (document : string → string) : option string :=
  match r with Over n b => Some (Attempt.newlines n +:+ document b) | _ => None end.

(** ** Comments in a stream (keepalive_stream)

    The upstream gives a piece, fails or ends, or the ticker ticks, after its first tick,
    which is skipped. *)
Inductive Item := Piece (bytes : string) | Broken | Ended | Tick.
Inductive Message := Bytes (b : string) | Failure.
Definition ping : string := ": ping" +:+ newline +:+ newline.
(** The receiver takes [room] more messages, or as many as come. *)
Definition send (room : option nat) : option (option nat) :=
  match room with Some O => None | Some (S n) => Some (Some n) | None => Some None end.
Fixpoint keepalive_stream (room : option nat) (data_sent : bool) (items : list Item) : list Message :=
  match items with
  | [] | Ended :: _ => []
  | Piece b :: rest =>
      match send room with Some room => Bytes b :: keepalive_stream room true rest | None => [] end
  | Broken :: _ => match send room with Some _ => [Failure] | None => [] end
  | Tick :: rest =>
      if data_sent then keepalive_stream room false rest
      else match send room with Some room => Bytes ping :: keepalive_stream room false rest | None => [] end
  end.

(** ** A reader of event streams

    It collects a line, the lines of an event, which an empty line ends, and the events;
    a line that begins with a colon is a comment. *)
Record Reader := mkReader { line : string; block : list string; events : list (list string) }.
Definition end_line (r : Reader) : Reader :=
  if String.eqb (line r) "" then
    match block r with [] => r | b => mkReader "" [] (events r ++ [b]) end
  else if starts_with (line r) ":" then mkReader "" (block r) (events r)
  else mkReader "" (block r ++ [line r]) (events r).
Definition lf : ascii := "010".
Fixpoint read (r : Reader) (s : string) : Reader :=
  match s with
  | EmptyString => r
  | String c s' =>
      read (if ascii_dec c lf then end_line r else mkReader (line r +:+ String c "") (block r) (events r)) s'
  end.
Definition reader : Reader := mkReader "" [] [].
(** The text of the messages up to a failure, and that of the pieces up to the end. *)
Fixpoint text_of (l : list Message) : string :=
  match l with Bytes b :: rest => b +:+ text_of rest | _ => "" end.
Fixpoint upstream (items : list Item) : string :=
  match items with
  | Piece b :: rest => b +:+ upstream rest
  | Tick :: rest => upstream rest
  | _ => ""
  end.
(** A piece of whole events. *)
Definition whole (b : string) : Prop := line (read reader b) = "" ∧ block (read reader b) = [].
End Keepalive.

Module KeepaliveProps.
Import Provider Keepalive.

(** C37. The body of an answer arrives after [n] intervals. Up to sixteen of them cost it
    nothing but a newline each, which come with the document and not before it. With one
    more the loop waits for room in a channel that nobody empties: the request does not
    end until the client leaves, whether the body arrives or not. *)
Theorem slow_body_hangs secs n b rest document :
  0 < secs →
  let r := race_response_with_keepalive secs (replicate n Elapsed ++ Arrived b :: rest) in
  ((n ≤ 16)%nat → received r document = Some (Attempt.newlines n +:+ document b)) ∧
  ((16 < n)%nat → received r document = None) ∧
  ∀ later, received (race_response_with_keepalive secs (replicate 17 Elapsed ++ later)) document = None.
Proof.
  intros Hs. unfold race_response_with_keepalive. rewrite (proj2 (Z.ltb_lt 0 secs)) by done. cbn zeta.
  assert (∀ es, foldl race_step Sending es = Sending) as Hb by (induction es as [|[] es IH]; done).
  assert (∀ es n b, foldl race_step (Over n b) es = Over n b) as Ho by (intros es; induction es as [|[] es IH]; done).
  assert (∀ n, (n ≤ 16)%nat → foldl race_step (Waiting 0) (replicate n Elapsed) = Waiting n) as Hw.
  { clear. intros n. induction n as [|n IH]; intros Hn; [done|]. rewrite replicate_S_end, foldl_app, IH by lia. cbn [foldl race_step].
    by rewrite (proj2 (Nat.ltb_lt n capacity)) by (unfold capacity; lia). }
  assert (∀ later, foldl race_step (Waiting 0) (replicate 17 Elapsed ++ later) = Sending) as H17.
  { intros later. rewrite foldl_app. apply Hb. }
  split_and!.
  - intros Hn. rewrite foldl_app, Hw by done. cbn [foldl race_step]. by rewrite Ho.
  - intros Hn. replace n with (17 + (n - 17))%nat by lia. rewrite replicate_add, <- app_assoc. by rewrite H17.
  - intros later. by rewrite H17.
Qed.

(** *** The stream *)

Lemma read_across r a b : read r (a +:+ b) = read (read r a) b.
Proof. revert r. induction a as [|c a IH]; intros r; [done|]. apply IH. Qed.
(** The events that have been read are only added to. *)
Definition shift (es : list (list string)) (r : Reader) : Reader := mkReader (line r) (block r) (es ++ events r).
Lemma end_line_shift es r : end_line (shift es r) = shift es (end_line r).
Proof.
  unfold end_line. cbn [line block events shift]. destruct (String.eqb _ _).
  - destruct (block r); [done|]. unfold shift. cbn. by rewrite app_assoc.
  - by destruct (starts_with _ _).
Qed.
Lemma read_shift es s : ∀ r, read (shift es r) s = shift es (read r s).
Proof.
  induction s as [|c s IH]; intros r; [done|]. cbn [read]. rewrite <- IH. f_equal.
  destruct (ascii_dec c lf); [apply end_line_shift|done].
Qed.
Lemma read_whole es b : whole b → read (mkReader "" [] es) b = mkReader "" [] (es ++ events (read reader b)).
Proof.
  intros [Hl Hb]. assert (mkReader "" [] es = shift es reader) as ->.
  { unfold shift. cbn. by rewrite app_nil_r. }
  rewrite read_shift. unfold shift. by rewrite Hl, Hb.
Qed.
Lemma read_ping es : read (mkReader "" [] es) ping = mkReader "" [] es.
Proof. reflexivity. Qed.

(** If each piece of the upstream consists of whole events, the client that stays to the
    end reads exactly the events of the upstream: the comments go in between. *)
Theorem keepalive_keeps_events items data_sent :
  (∀ b, Piece b ∈ items → whole b) →
  read reader (text_of (keepalive_stream None data_sent items)) = read reader (upstream items).
Proof.
  unfold reader. generalize (@nil (list string)). revert data_sent.
  induction items as [|i items IH]; intros ds es Hw; [done|].
  assert (∀ b, Piece b ∈ items → whole b) as Hw' by (intros b Hb; apply Hw; by right).
  destruct i as [b| | |]; cbn [keepalive_stream send upstream text_of]; [|done|done|].
  - rewrite !read_across, !read_whole by (apply Hw; by left). by apply IH.
  - destruct ds; cbn [text_of]; [by apply IH|]. rewrite read_across, read_ping. by apply IH.
Qed.
(** A comment between two pieces of a line becomes part of it, and one between the lines
    of an event ends it. *)
Example ping_breaks_events :
  let seen items := events (read reader (text_of (keepalive_stream None false items))) in
  let sent items := events (read reader (upstream items)) in
  let line_in_two := [Piece "data: a"; Tick; Tick; Piece ("b" +:+ newline +:+ newline)] in
  let event_in_two := [Piece ("event: e" +:+ newline); Tick; Tick; Piece ("data: ab" +:+ newline +:+ newline)] in
  (sent line_in_two = [["data: ab"]] ∧ seen line_in_two = [["data: a: ping"]; ["b"]]) ∧
  (sent event_in_two = [["event: e"; "data: ab"]] ∧ seen event_in_two = [["event: e"]; ["data: ab"]]).
Proof. split_and!; reflexivity. Qed.

Definition open (i : Item) : bool := match i with Piece _ | Tick => true | _ => false end.
Definition data_after (data_sent : bool) (items : list Item) : bool :=
  foldl (λ _ i, match i with Piece _ => true | _ => false end) data_sent items.
Lemma keepalive_app a b : forallb open a = true → ∀ ds,
  keepalive_stream None ds (a ++ b) = keepalive_stream None ds a ++ keepalive_stream None (data_after ds a) b.
Proof.
  intros Ha. induction a as [|i a IH]; intros ds; [done|]. cbn [forallb] in Ha. apply andb_true_iff in Ha as [Hi Ha].
  destruct i; try done; cbn [app keepalive_stream send].
  - cbn [app]. by rewrite IH.
  - destruct ds; rewrite IH by done; done.
Qed.

(** While the stream is open, a client that stays is sent something between any tick and
    the next one, that included: a piece if the upstream gave one, and else a comment. It
    is never left alone for two intervals. *)
Theorem no_long_silence data_sent before between after :
  forallb open before = true → forallb open between = true →
  ∃ said, said ≠ [] ∧
    (keepalive_stream None data_sent (before ++ Tick :: between ++ Tick :: after) =
       keepalive_stream None data_sent (before ++ [Tick]) ++ said ++
       keepalive_stream None false after).
Proof.
  intros Hb Hm. set (first := before ++ [Tick]).
  assert (forallb open first = true) as Hf by (unfold first; rewrite forallb_app, Hb; done).
  exists (keepalive_stream None false (between ++ [Tick])). split.
  - rewrite keepalive_app by done. destruct between as [|[b| | |] rest]; try done.
  - replace (before ++ Tick :: between ++ Tick :: after) with (first ++ (between ++ [Tick]) ++ after)
      by (unfold first; by rewrite <- !app_assoc).
    rewrite keepalive_app by done. f_equal.
    assert (data_after data_sent first = false) as -> by (unfold first, data_after; by rewrite foldl_app).
    rewrite keepalive_app by (rewrite forallb_app, Hm; done). do 2 f_equal. unfold data_after. by rewrite foldl_app.
Qed.
End KeepaliveProps.

Module KeepaliveSample.
Import Provider Keepalive KeepaliveProps.

Lemma slow_body_hangs_witness :
  received (race_response_with_keepalive 15 (replicate 17 Elapsed ++ [Arrived "{}"])) (λ b, b) = None ∧
  received (race_response_with_keepalive 15 [Elapsed; Arrived "{}"]) (λ b, b) = Some (newline +:+ "{}").
Proof.
  destruct (slow_body_hangs 15 1 "{}" [] (λ b, b) ltac:(lia)) as (H1&_&H3).
  split; [apply H3|]. apply H1. lia.
Defined.
Lemma keepalive_keeps_events_witness :
  events (read reader (text_of (keepalive_stream None false
    [Tick; Piece ("data: a" +:+ newline +:+ newline); Tick; Tick; Piece ("data: b" +:+ newline +:+ newline); Ended]))) =
    [["data: a"]; ["data: b"]].
Proof.
  rewrite keepalive_keeps_events; [reflexivity|].
  intros b Hb. repeat (apply elem_of_cons in Hb as [Hb|Hb]; [injection Hb as -> || discriminate Hb; by split|]).
  by apply not_elem_of_nil in Hb.
Defined.
Lemma no_long_silence_witness :
  ∃ said, said ≠ [] ∧ keepalive_stream None true [Tick; Tick] = [] ++ said ++ [].
Proof. exact (no_long_silence true [] [] [] eq_refl eq_refl). Defined.
End KeepaliveSample.
