(* ===== verification/SharedState.v ===== *)
(** The type of the shared state: what every store of [App.AppState] keeps to,
    that each operation of a request preserves it, and that in such a state no
    operation panics -- so a request can panic only by code of its own. *)

From S2P Require Import Prelude Json Channel ChannelManager RateLimiter Trackers Router Affinity.
From S2P Require Import VirtualKey Cache ProviderBudget Quota Mcp Machine Attempt Dispatch.
From S2P Require Import Responses Embeddings.

Module SharedState.
Import App Prog.

(** *** The stores *)

Definition channel_ok (u : Uuid) (c : Channel.Channel) : Prop :=
  Channel.id c = u ∧ 0 ≤ Channel.priority c ∧ Channel.status c ≠ Channel.HalfOpen.

(** The keys a channel rotates through, and a position among them. *)
Definition rotated_keys (c : Channel.Channel) : list string :=
  match Channel.api_key (Channel.credential c) with Some key => [key] | None => [] end
  ++ Channel.api_keys c.
Definition position_ok (indices : gmap Uuid Z) (u : Uuid) (c : Channel.Channel) : Prop :=
  Channel.api_keys c ≠ [] →
  0 ≤ default 0 (indices !! u) < Z.of_nat (length (rotated_keys c)).

Definition manager_ok (m : ChannelManager.ChannelManager.ChannelManager) : Prop :=
  map_Forall (λ u c, channel_ok u c ∧ position_ok (ChannelManager.key_indices m) u c)
    (ChannelManager.channels m).

(** A window has its sixty buckets of a second, so no index is out of range. *)
Definition window_ok (w : Window.BucketedWindow) : Prop := WindowFacts.shape (Window.epoch w) w.
Definition limiter_ok (r : RateLimiter.RateLimiter.RateLimiter) : Prop :=
  window_ok (RateLimiter.global_tpm r) ∧
  map_Forall (λ _ s, window_ok (RateLimiter.tpm_window (RateLimiter.windows s)) ∧
                     window_ok (RateLimiter.rpm_window (RateLimiter.windows s)))
    (RateLimiter.channels r).
Definition key_limiter_ok (r : KeyRateLimiter.KeyRateLimiter) : Prop :=
  map_Forall (λ _, window_ok) (KeyRateLimiter.rpm_windows r) ∧
  map_Forall (λ _, window_ok) (KeyRateLimiter.tpm_windows r).

Definition spend_ok (e : ProviderBudget.ProviderBudget.ProviderSpend) : Prop :=
  in_u64 (VirtualKey.VirtualKey.d_cents (ProviderBudget.ProviderBudget.today e)) ∧
  in_u64 (VirtualKey.VirtualKey.m_cents (ProviderBudget.ProviderBudget.this_month e)) ∧
  in_u64 (ProviderBudget.ProviderBudget.total_cents e).

Record well_formed (s : AppState) : Prop := {
  wf_channels : manager_ok (channel_mgr s);
  wf_affinity : (size (Affinity.Affinity.map (session_affinity s)) ≤
                 Affinity.Affinity.max_entries (session_affinity s))%nat;
  wf_active : map_Forall (λ _ n, 0 ≤ n ≤ u32_max) (active_requests s);
  wf_latency : map_Forall (λ _ w, length w ≤ Latency.WINDOW_SIZE)%nat (latency_tracker s);
  wf_cooldown : map_Forall (λ _ w, length w ≤ Cooldown.WINDOW_SIZE)%nat
                  (Cooldown.records (cooldown_tracker s));
  wf_cache : CacheFacts.cache_ok (request_cache s);
  wf_limiter : limiter_ok (rate_limiter s);
  wf_key_limiter : key_limiter_ok (key_rate_limiter s);
  wf_quota : map_Forall (λ u i, Quota.Quota.channel_id i = u) (quota_store s);
  wf_keys : StoreFacts.index_ok (λ _, True) (virtual_key_store s);
  wf_provider : map_Forall (λ _, spend_ok) (ProviderBudget.ProviderBudget.spend (provider_budgets s));
  wf_mcp : map_Forall (λ id e, Mcp.Manager.config_id (Mcp.Manager.config e) = id)
             (Mcp.Manager.entries (mcp_manager s));
}.

(** What is relied on of hash maps and of the random generator. *)
Record lawful (h : Host) : Prop := {
  iter_perm : ∀ A m, iter h A m ≡ₚ map_to_list m;
  order_perm : ∀ m, channel_order h m ≡ₚ map_values m;
}.

(** What happens between two operations of a request: an operation of another request
    (also of a background task), a periodic task -- the clean-ups and the result of a
    quota poll -- or an administrator's change of the virtual keys, of a quota or of a
    provider's budget. *)
Inductive elsewhere (h : Host) : AppState → AppState → Prop :=
  | request X (o : op X) r x s s' :
      Router.Router.in_range (rng r) → handle h r o s = Answers x s' → elsewhere h s s'
  | affinity_cleanup now s :
      elsewhere h s (set_session_affinity (Affinity.Affinity.cleanup (session_affinity s) now) s)
  | cache_sweep now s :
      elsewhere h s (set_request_cache (Cache.Cache.sweep_expired (request_cache s) now).1 s)
  | cooldown_cleanup now s :
      elsewhere h s (set_channel_mgr
        (ChannelManager.ChannelManager.clean_expired_model_cooldowns now (channel_mgr s)) s)
  | quota_polled info s : elsewhere h s (set_quota_store (Quota.Quota.update (quota_store s) info) s)
  | quota_deleted u s : elsewhere h s (set_quota_store (Quota.Quota.delete_quota (quota_store s) u) s)
  | key_change simple w w' s :
      StoreFacts.step (sha256 h) simple w w' → w.1 = virtual_key_store s →
      elsewhere h s (set_virtual_key_store w'.1 s)
  | budget_set p b s :
      elsewhere h s (set_provider_budgets (ProviderBudget.ProviderBudget.set_budget (provider_budgets s) p b) s)
  | budget_deleted p s :
      elsewhere h s (set_provider_budgets (ProviderBudget.ProviderBudget.delete_budget (provider_budgets s) p).1 s).

(** A program that does not panic by itself. *)
Fixpoint crash_free {A} (p : prog A) : Prop :=
  match p with Ret _ => True | Crash => False | Do o k => ∀ x, crash_free (k x) end.
End SharedState.

(** ** Each store keeps its type *)

Module SharedFacts.
Import SharedState.

Lemma forall_alter `{Countable K} {A} (P : K → A → Prop) f k (m : gmap K A) :
  map_Forall P m → (∀ x, m !! k = Some x → P k x → P k (f x)) → map_Forall P (alter f k m).
Proof.
  intros Hm Hf i y. destruct (decide (k = i)) as [<-|Hne].
  - rewrite lookup_alter_eq. destruct (m !! k) as [x|] eqn:E; [|done].
    intros [= <-]. apply Hf; [done|by apply (Hm k)].
  - rewrite lookup_alter_ne by done. apply Hm.
Qed.

Lemma forall_default `{Countable K} {A} (P : K → A → Prop) k (m : gmap K A) d :
  map_Forall P m → P k d → P k (default d (m !! k)).
Proof. intros Hm Hd. destruct (m !! k) as [x|] eqn:E; [by apply (Hm k)|done]. Qed.

(** *** Channels *)

Section channels.
Import ChannelManager.ChannelManager.

(** What an operation keeps of a channel. *)
Definition kept (f : Channel.Channel → Channel.Channel) : Prop := ∀ c,
  Channel.id (f c) = Channel.id c ∧ Channel.priority (f c) = Channel.priority c ∧
  rotated_keys (f c) = rotated_keys c ∧ Channel.api_keys (f c) = Channel.api_keys c ∧
  (Channel.status c ≠ Channel.HalfOpen → Channel.status (f c) ≠ Channel.HalfOpen).

Lemma manager_alter f u m :
  kept f → manager_ok m → manager_ok (set_channels m (alter f u (channels m))).
Proof.
  intros Hf Hm. unfold manager_ok. cbn [channels key_indices set_channels].
  apply forall_alter; [exact Hm|]. intros c _ [(H1&H2&H3) H4].
  destruct (Hf c) as (F1&F2&F3&F4&F5). unfold channel_ok, position_ok. rewrite F1, F2, F3, F4.
  split_and!; auto.
Qed.

Lemma kept_fail d off now : kept (fail_channel d off now).
Proof.
  intros c. split_and!; [unfold fail_channel; by repeat case_match..|].
  by apply ManagerSteps.fail_channel_status.
Qed.
Lemma kept_open minutes now : kept (Channel.mark_circuit_open minutes now).
Proof. done. Qed.
Lemma kept_model model ra now : kept (Channel.mark_model_rate_limited model ra now).
Proof. done. Qed.
Lemma kept_succeed ms now : kept (succeed_channel ms now).
Proof.
  intros c. unfold succeed_channel, Channel.recover_to_healthy. by repeat case_match.
Qed.

Lemma manager_credential get u m : manager_ok m → manager_ok (get_credential get u m).2.
Proof.
  intros Hm. unfold get_credential. destruct (channels m !! u) as [c|] eqn:E; [|done].
  destruct (Channel.api_keys c) as [|k ks] eqn:Ek; [done|]. rewrite <- Ek. fold (rotated_keys c).
  destruct (rotated_keys c) as [|x l] eqn:El; [done|]. rewrite <- El. intros v d Hd.
  cbn [channels key_indices snd] in *.
  destruct (Hm v d Hd) as [H1 H2]. split; [done|]. intros Hne. cbn.
  destruct (decide (u = v)) as [<-|Huv]; [|rewrite lookup_insert_ne by done; by apply H2].
  rewrite lookup_insert_eq. cbn. assert (d = c) as -> by congruence.
  rewrite El. apply Z.mod_pos_bound. cbn. lia.
Qed.

(** The position is always one of a key. *)
Lemma credential_done get u m : manager_ok m → ∃ k, (get_credential get u m).1 = Done k.
Proof.
  intros Hm. unfold get_credential. destruct (channels m !! u) as [c|] eqn:E; [|by eexists].
  destruct (Channel.api_keys c) as [|k ks] eqn:Ek; [by case_match; eexists|]. rewrite <- Ek.
  fold (rotated_keys c).
  destruct (rotated_keys c) as [|x l] eqn:El; [by case_match; eexists|]. rewrite <- El. cbn.
  destruct (Hm u c E) as [_ H]. specialize (H ltac:(congruence)).
  rewrite (proj2 (Z.ltb_lt _ _)) by lia.
  destruct (lookup_lt_is_Some_2 (rotated_keys c) (Z.to_nat (default 0 (key_indices m !! u)))) as [y ->];
    [lia|by eexists].
Qed.
End channels.

(** *** Limiters *)

Lemma window_new now : window_ok (Window.new Window.WINDOW_MS now).
Proof. by split. Qed.
Lemma window_add w n now : window_ok w → window_ok (Window.add w n now).
Proof.
  intros []. unfold Window.add. repeat case_match; split; cbn; rewrite ?length_insert; done.
Qed.

(** An operation that keeps the global window and creates at most a channel. *)
Lemma limiter_create r u now :
  limiter_ok r →
  limiter_ok (RateLimiter.get_or_create_channel r u now).1 ∧
  window_ok (RateLimiter.tpm_window (RateLimiter.windows (RateLimiter.get_or_create_channel r u now).2)) ∧
  window_ok (RateLimiter.rpm_window (RateLimiter.windows (RateLimiter.get_or_create_channel r u now).2)).
Proof.
  intros [H1 H2]. unfold RateLimiter.get_or_create_channel.
  destruct (RateLimiter.channels r !! u) as [s|] eqn:E; cbn.
  - split; [done|]. by apply (H2 u).
  - split; [|split; apply window_new]. split; [done|]. apply map_Forall_insert_2; [|done].
    split; apply window_new.
Qed.

Lemma limiter_memory r u n now : limiter_ok r → limiter_ok (RateLimiter.check_memory r u n now).1.
Proof.
  intros H. unfold RateLimiter.check_memory. pose proof (limiter_create r u now H) as [Hr _].
  destruct (RateLimiter.get_or_create_channel r u now) as [r' s]. by repeat case_match.
Qed.

Lemma limiter_check show link now r u n db :
  limiter_ok r → limiter_ok (RateLimiter.check show link now r u n db).1.1.
Proof.
  intros H. unfold RateLimiter.check. destruct (RateLimiter.redis r) as [prefix|].
  - assert (limiter_ok (RateLimiter.check_redis show link now r prefix u n db).1.1) as Hc.
    { unfold RateLimiter.check_redis. pose proof (limiter_create r u now H) as [Hr _].
      destruct (RateLimiter.get_or_create_channel r u now) as [r' s].
      repeat (case_match; try done). }
    destruct (RateLimiter.check_redis show link now r prefix u n db) as [[r' db'] [v|]]; [done|].
    pose proof (limiter_memory r' u n now Hc) as Hm.
    by destruct (RateLimiter.check_memory r' u n now) as [r'' v].
  - pose proof (limiter_memory r u n now H) as Hm.
    by destruct (RateLimiter.check_memory r u n now) as [r'' v].
Qed.

Lemma limiter_record show link now r u n db :
  limiter_ok r → limiter_ok (RateLimiter.record show link now r u n db).1.
Proof.
  intros H. assert (limiter_ok (RateLimiter.record_memory now r u n)) as Hm.
  { unfold RateLimiter.record_memory. pose proof (limiter_create r u now H) as ([H1 H2]&Ht&Hr).
    destruct (RateLimiter.get_or_create_channel r u now) as [r' s]. split; cbn in *.
    - by apply window_add.
    - apply map_Forall_insert_2; [|done]. by split; apply window_add. }
  unfold RateLimiter.record. by repeat case_match.
Qed.

Lemma key_limiter_tokens show link now r u n db :
  key_limiter_ok r → key_limiter_ok (KeyRateLimiter.record_tokens show link now r u n db).1.
Proof.
  intros [H1 H2]. unfold KeyRateLimiter.record_tokens. destruct (n =? 0); [done|].
  assert (map_Forall (λ _, window_ok) (<[u := Window.add (KeyRateLimiter.get_or_create u
    (KeyRateLimiter.tpm_windows r) now).2 n now]>
    (KeyRateLimiter.get_or_create u (KeyRateLimiter.tpm_windows r) now).1)) as H.
  { unfold KeyRateLimiter.get_or_create.
    destruct (KeyRateLimiter.tpm_windows r !! u) as [w|] eqn:E; cbn;
      (apply map_Forall_insert_2; [apply window_add|]).
    - by apply (H2 u).
    - done.
    - apply window_new.
    - apply map_Forall_insert_2; [apply window_new|done]. }
  destruct (KeyRateLimiter.get_or_create u (KeyRateLimiter.tpm_windows r) now) as [m w].
  by destruct (KeyRateLimiter.redis r).
Qed.

(** *** The rest *)

Lemma affinity_get s k now :
  (size (Affinity.Affinity.map s) ≤ Affinity.Affinity.max_entries s)%nat →
  (size (Affinity.Affinity.map (Affinity.Affinity.get s k now).1) ≤
   Affinity.Affinity.max_entries (Affinity.Affinity.get s k now).1)%nat.
Proof.
  intros H. unfold Affinity.Affinity.get.
  assert (size (delete k (Affinity.Affinity.map s)) ≤ size (Affinity.Affinity.map s))%nat as Hd
    by (apply map_subseteq_size, delete_subseteq).
  destruct (Affinity.Affinity.map s !! k) as [[ch last]|] eqn:E; cbn; [|lia].
  case_match; cbn; [lia|]. rewrite map_size_insert_Some by (by rewrite E). done.
Qed.

Lemma affinity_set iter s k u now :
  (∀ m, iter m ≡ₚ map_to_list m) →
  (size (Affinity.Affinity.map (Affinity.Affinity.set iter s k u now)) ≤
   Affinity.Affinity.max_entries (Affinity.Affinity.set iter s k u now))%nat.
Proof.
  intros Hiter. unfold Affinity.Affinity.set. cbn zeta.
  match goal with |- context [Affinity.Affinity.evict_lru iter ?x] => set (s2 := x) end.
  pose proof (AffinityFacts.evict_lru_spec iter Hiter s2) as [H _].
  etransitivity; [exact H|]. unfold Affinity.Affinity.evict_lru. by case_match.
Qed.

Lemma bounded_push {A} cap (m : gmap Uuid (list A)) u x :
  map_Forall (λ _ w, length w ≤ cap)%nat m →
  map_Forall (λ _ w, length w ≤ cap)%nat (<[u := push_bounded cap (default [] (m !! u)) x]> m).
Proof.
  intros H. apply map_Forall_insert_2; [|done]. apply length_push_bounded.
  apply (forall_default (λ _ w, length w ≤ cap)%nat u m []); [done|cbn; lia].
Qed.

Lemma cooldown_record c u ok now :
  map_Forall (λ _ w, length w ≤ Cooldown.WINDOW_SIZE)%nat (Cooldown.records c) →
  map_Forall (λ _ w, length w ≤ Cooldown.WINDOW_SIZE)%nat
    (Cooldown.records (Cooldown.record_attempt c u ok now)).
Proof.
  intros H. unfold Cooldown.record_attempt. destruct ok; cbn; [by apply bounded_push|].
  rewrite TrackerFacts.evaluate_records. by apply bounded_push.
Qed.

Lemma active_increment a u :
  map_Forall (λ _ n, 0 ≤ n ≤ u32_max) a → map_Forall (λ _ n, 0 ≤ n ≤ u32_max) (Active.increment a u).
Proof.
  intros H. apply map_Forall_insert_2; [|done]. unfold add_u32, wrap32, u32_max.
  match goal with |- 0 ≤ ?x mod ?y ≤ _ => pose proof (Z.mod_pos_bound x y ltac:(lia)); lia end.
Qed.
Lemma active_decrement a u :
  map_Forall (λ _ n, 0 ≤ n ≤ u32_max) a → map_Forall (λ _ n, 0 ≤ n ≤ u32_max) (Active.decrement a u).
Proof.
  intros H. unfold Active.decrement. destruct (a !! u) as [n|] eqn:E; [|done].
  destruct (Z.ltb_spec 0 n); [|done]. apply map_Forall_insert_2; [|done]. specialize (H u n E). cbn in H. lia.
Qed.

Lemma cache_insert c k material body now :
  CacheFacts.cache_ok c → CacheFacts.cache_ok (Cache.Cache.insert c k material body now).
Proof.
  intros H. destruct (Cache.Cache.can_write (Cache.Cache.mode c)) eqn:E.
  - by apply CacheFacts.insert_spec.
  - unfold Cache.Cache.insert. by rewrite E.
Qed.

Definition own_id (u : Uuid) (i : Quota.Quota.QuotaInfo) : Prop := Quota.Quota.channel_id i = u.
Lemma quota_headers s u hs now :
  map_Forall own_id s → map_Forall own_id (Quota.Quota.update_rate_limits s u hs now).
Proof.
  intros H. unfold Quota.Quota.update_rate_limits. destruct (s !! u) as [i|] eqn:E;
    (apply map_Forall_insert_2; [|done]); [exact (H u i E)|done].
Qed.
Lemma quota_usage s u v now :
  map_Forall own_id s → map_Forall own_id (Quota.Quota.accumulate_usage s u v now).
Proof.
  intros H. unfold Quota.Quota.accumulate_usage. destruct (s !! u) as [i|] eqn:E;
    (apply map_Forall_insert_2; [|done]); [exact (H u i E)|done].
Qed.

Lemma add_u64_range x y : in_u64 (add_u64 x y).
Proof.
  unfold add_u64, wrap64, in_u64, u64_max.
  match goal with |- context [?a mod ?b] => pose proof (Z.mod_pos_bound a b ltac:(lia)); lia end.
Qed.
Lemma provider_spend s name cents d :
  map_Forall (λ _, spend_ok) (ProviderBudget.ProviderBudget.spend s) →
  map_Forall (λ _, spend_ok)
    (ProviderBudget.ProviderBudget.spend (ProviderBudget.ProviderBudget.accumulate_spend s name cents d)).
Proof.
  intros H. apply map_Forall_insert_2; [|done]. split_and!; apply add_u64_range.
Qed.

(** *** Operations as the handler calls them *)

Section operations.
Import VirtualKey.VirtualKey.

Lemma keys_reserve s u est d : StoreFacts.index_ok (λ _, True) s → StoreFacts.index_ok (λ _, True) (reserve_spend s u est d).1.
Proof. eapply (StoreFacts.step_index (λ _, []) (λ _, "") (_, _) (_, _)), StoreFacts.s_reserve. Qed.
Lemma keys_reconcile s u r a : StoreFacts.index_ok (λ _, True) s → StoreFacts.index_ok (λ _, True) (reconcile_spend s u r a).
Proof. eapply (StoreFacts.step_index (λ _, []) (λ _, "") (_, _) (_, _)), StoreFacts.s_reconcile. Qed.
Lemma keys_accumulate s u c d : StoreFacts.index_ok (λ _, True) s → StoreFacts.index_ok (λ _, True) (accumulate_spend s u c d).
Proof. eapply (StoreFacts.step_index (λ _, []) (λ _, "") (_, _) (_, _)), StoreFacts.s_accumulate. Qed.
End operations.

Section operations.
Import ChannelManager.ChannelManager.

Lemma manager_open u now m : manager_ok m → manager_ok (mark_circuit_open u now m).
Proof. apply manager_alter, kept_fail. Qed.
Lemma manager_open_retry u ra now m : manager_ok m → manager_ok (mark_circuit_open_with_retry u ra now m).
Proof.
  unfold mark_circuit_open_with_retry. destruct (disable_cooling m); [done|].
  apply manager_alter, kept_open.
Qed.
Lemma manager_limited u model ra now m : manager_ok m → manager_ok (mark_model_rate_limited u model ra now m).
Proof.
  unfold mark_model_rate_limited. destruct (disable_cooling m); [done|].
  apply manager_alter, kept_model.
Qed.
Lemma manager_latency u ms now m : manager_ok m → manager_ok (record_latency u ms now m).
Proof. apply manager_alter, kept_succeed. Qed.
End operations.

Definition filed (id : string) (e : Mcp.Manager.McpServerEntry) : Prop :=
  Mcp.Manager.config_id (Mcp.Manager.config e) = id.
Lemma servers_count id n m :
  map_Forall filed (Mcp.Manager.entries m) →
  map_Forall filed (Mcp.Manager.entries (Mcp.Manager.set_tool_count id n m)).
Proof. intros H. by apply forall_alter. Qed.
End SharedFacts.

Module Typing.
Import App Prog SharedState SharedFacts.

Create HintDb typing.

(** The new store as a component of what the operation computes. *)
Ltac components :=
  repeat match goal with
  | E : ?f = (?a, _, _) |- _ => is_var a; assert (a = f.1.1) as -> by (by rewrite E); clear E
  | E : ?f = (?a, _) |- _ => is_var a; assert (a = f.1) as -> by (by rewrite E); clear E
  | E : ?f = (_, ?a) |- _ => is_var a; assert (a = f.2) as -> by (by rewrite E); clear E
  end.

Section handle.
Context (h : Host) (Hlaw : lawful h).

#[local] Hint Resolve limiter_check limiter_record key_limiter_tokens affinity_get affinity_set
  cooldown_record bounded_push active_increment active_decrement cache_insert quota_headers
  quota_usage provider_spend
  iter_perm manager_open manager_open_retry manager_limited manager_latency manager_credential
  keys_reserve keys_reconcile keys_accumulate servers_count : typing.

Lemma handle_keeps r {X} (o : op X) s x s' :
  well_formed s → handle h r o s = Answers x s' → well_formed s'.
Proof using Hlaw.
  intros Hs. pose proof Hs as [H1 H2 H3 H4 H5 H6 H7 H8 H9 H10 H11 H12].
  destruct o; cbn [handle]; try (by intros [= _ <-]).
  all: repeat (case_match; try done).
  all: intros [= ? <-]; components.
  all: split; cbn; eauto with typing.
  - by apply (provider_spend (provider_budgets s)).
  - by apply (servers_count id count).
Qed.

Lemma cleanup_bounded a now :
  (size (Affinity.Affinity.map a) ≤ Affinity.Affinity.max_entries a)%nat →
  (size (Affinity.Affinity.map (Affinity.Affinity.cleanup a now)) ≤
   Affinity.Affinity.max_entries (Affinity.Affinity.cleanup a now))%nat.
Proof.
  unfold Affinity.Affinity.cleanup, Affinity.Affinity.cleanup_expired. cbn.
  intros H. etransitivity; [|exact H]. apply map_subseteq_size, map_filter_subseteq.
Qed.
Lemma manager_cleaned now m :
  manager_ok m → manager_ok (ChannelManager.ChannelManager.clean_expired_model_cooldowns now m).
Proof.
  intros H u c Hc. unfold ChannelManager.ChannelManager.clean_expired_model_cooldowns in Hc. cbn in Hc.
  apply lookup_fmap_Some in Hc as (d&<-&Hd). exact (H u d Hd).
Qed.
Lemma keys_changed simple C C' (st st' : VirtualKey.VirtualKey.VirtualKeyStore) :
  StoreFacts.step (sha256 h) simple (st, C) (st', C') →
  StoreFacts.index_ok (λ _, True) st → StoreFacts.index_ok (λ _, True) st'.
Proof.
  intros Hstep Hok. remember (st, C) as w eqn:Ew. remember (st', C') as w' eqn:Ew'.
  assert (∃ C0, StoreFacts.step (sha256 h) simple (w.1, λ _, True) (w'.1, StoreFacts.clash (λ _, True) C0)
    ∨ StoreFacts.step (sha256 h) simple (w.1, λ _, True) (w'.1, λ _, True)) as (C0&[H|H]).
  { destruct Hstep; cbn [fst];
      first [eexists; left; by econstructor|exists (λ _, False); right; by econstructor]. }
  - apply StoreFacts.step_index in H; [|by rewrite Ew]. rewrite Ew' in H. cbn in H. destruct H as [K1 K2 K3].
    split; [done| |done]. intros i k Hk Hn. by exfalso.
  - apply StoreFacts.step_index in H; [|by rewrite Ew]. by rewrite Ew' in H.
Qed.

Lemma elsewhere_keeps s s' : elsewhere h s s' → well_formed s → well_formed s'.
Proof using Hlaw.
  intros Hstep Hs. destruct Hstep as [X o r x s s' _ E|now s|now s|now s|info s|u s|simple [st C] [st' C'] s Hk Hst|p b s|p s];
    [by eapply handle_keeps|destruct Hs as [H1 H2 H3 H4 H5 H6 H7 H8 H9 H10 H11 H12]; split; cbn; try done..].
  - by apply cleanup_bounded.
  - by apply CacheFacts.sweep_spec.
  - by apply manager_cleaned.
  - unfold Quota.Quota.update. by apply map_Forall_insert_2.
  - by apply map_Forall_delete.
  - cbn in Hst. subst st. by eapply keys_changed.
Qed.
Lemma elsewheres_keep s s' : rtc (elsewhere h) s s' → well_formed s → well_formed s'.
Proof using Hlaw. induction 1; eauto using elsewhere_keeps. Qed.

(** *** Progress: no operation panics *)

Lemma select_answers r s model strategy group :
  well_formed s → Router.Router.in_range (rng r) →
  ∃ c, Router.Router.select_channel (channel_order h (ChannelManager.channels (channel_mgr s))) model
    strategy (routing_context s) group (now r) (rng r) = Done c.
Proof using Hlaw.
  intros Hs Hr. apply RouterFacts.select_done; [done|]. intros c Hc.
  rewrite (order_perm h Hlaw) in Hc. apply list_elem_of_fmap in Hc as ([u d]&->&Hin%elem_of_map_to_list).
  destruct (wf_channels s Hs u d Hin) as [(H1&H2&H3) _]. split; [exact H2|].
  unfold RouterFacts.busy, Active.get, routing_context. cbn.
  apply (forall_default (λ _ n, n ≤ u32_max) _ (active_requests s) 0); [|done].
  intros v n Hv. by apply (wf_active s Hs v).
Qed.

Lemma handle_progress r {X} (o : op X) s :
  well_formed s → Router.Router.in_range (rng r) → handle h r o s ≠ Panics.
Proof using Hlaw.
  intros Hs Hr. destruct o; cbn [handle]; try done; try (by repeat case_match).
  - destruct (select_answers r s model strategy group Hs Hr) as [c ->]. done.
  - destruct (credential_done (credential_get h) u _ (wf_channels s Hs)) as [k Hk].
    destruct (ChannelManager.ChannelManager.get_credential _ _ _) as [o m]. cbn in Hk. by subst.
Qed.

(** *** Runs *)

Lemma run_keeps {A} readings others n (p : prog A) s :
  (∀ n, Router.Router.in_range (rng (readings n))) → (∀ n s, well_formed s → well_formed (others n s)) →
  well_formed s →
  let '(_, e, s') := run h readings others n p s in
  well_formed s' ∧ (crash_free p → e ≠ Panicked).
Proof using Hlaw.
  intros Hr Ho. revert n s. induction p as [a| |X o k IH]; intros n s Hs; cbn [run]; [done|done|].
  pose proof (handle_progress (readings n) o s Hs (Hr n)) as Hp.
  destruct (handle h (readings n) o s) as [x s'| |] eqn:E; [|done|done].
  apply handle_keeps in E; [|done]. specialize (IH x (S n) (others n s') (Ho n s' E)).
  destruct (run h readings others (S n) (k x) (others n s')) as [[tr e] s'']. destruct IH as [H1 H2].
  split; [done|]. intros Hc. apply H2, Hc.
Qed.
End handle.
End Typing.

Module CrashFree.
Import App Prog SharedState.

Lemma crash_free_bind {A B} (p : prog A) (f : A → prog B) :
  crash_free p → (∀ a, crash_free (f a)) → crash_free (bind p f).
Proof. induction p; cbn; auto. Qed.

(** Goes through a program for [crash_free]. *)
Ltac crash_freely :=
  repeat first
  [ done
  | progress cbn [crash_free bind]
  | match goal with
    | |- ∀ _, _ => intros ?
    | |- crash_free (bind _ _) => apply crash_free_bind
    | |- crash_free (match ?x with _ => _ end) => destruct x
    | |- crash_free (if ?b then _ else _) => destruct b
    end ].

Section programs.
Context (h : Host) (gw : ProxyParams).

Lemma task_crash_free t : crash_free (Attempt.run_task h t).
Proof.
  unfold Attempt.run_task, Attempt.after_stream, Attempt.after_json, Attempt.after_text,
    Attempt.record_post_response_telemetry.
  crash_freely.
Qed.

Lemma embeddings_crash_free headers body : crash_free (Embeddings.handle_embeddings h gw headers body).
Proof.
  unfold Embeddings.handle_embeddings, Embeddings.embed, Embeddings.check_embedding_pre_dispatch,
    Embeddings.build_embedding_request, Embeddings.handle_embedding_response.
  crash_freely.
Qed.

Lemma images_crash_free disabled headers body :
  crash_free (Embeddings.handle_image_generation h disabled headers body).
Proof.
  assert (∀ ids, crash_free (Embeddings.first_with_credential ids)) as Hids
    by (induction ids; cbn; crash_freely).
  unfold Embeddings.handle_image_generation, Embeddings.find_image_channel. crash_freely.
Qed.
End programs.
End CrashFree.

Module SharedProps.
Import App Prog SharedState Typing CrashFree.

(** C18. The shared state is well typed, and stays so.  From a well-formed state,
    whatever program of operations runs, with whatever readings, while in between any
    number of operations of other requests, periodic clean-ups, results of quota polls and
    changes of virtual keys, quotas and budgets take place, the state is well-formed after
    it; and no operation panics: neither the selection of a channel nor the rotation
    of its keys is ever out of range.  So a program panics only by code of its
    own, and background tasks, embeddings and image requests never do.  (An
    administrator's change of a channel or a reload of the file is not among what may
    come in between: it can leave a position beyond the keys.) *)
Theorem shared_state_typed h gw readings others n s :
  lawful h → (∀ n, Router.Router.in_range (rng (readings n))) →
  (∀ n s, rtc (elsewhere h) s (others n s)) → well_formed s →
  (∀ A (p : prog A), let '(_, e, s') := run h readings others n p s in
     well_formed s' ∧ (crash_free p → e ≠ Panicked)) ∧
  (∀ t, (run h readings others n (Attempt.run_task h t) s).1.2 ≠ Panicked) ∧
  (∀ headers body,
     (run h readings others n (Embeddings.handle_embeddings h gw headers body) s).1.2 ≠ Panicked) ∧
  (∀ disabled headers body,
     (run h readings others n (Embeddings.handle_image_generation h disabled headers body) s).1.2
       ≠ Panicked).
Proof.
  intros Hlaw Hr Ho' Hs.
  assert (∀ n s, well_formed s → well_formed (others n s)) as Ho by (intros m s0; by apply (elsewheres_keep h Hlaw)).
  assert (∀ A (p : prog A), crash_free p → (run h readings others n p s).1.2 ≠ Panicked) as H.
  { intros A p Hp. pose proof (run_keeps h Hlaw readings others n p s Hr Ho Hs) as H.
    destruct (run _ _ _ _ _ _) as [[tr e] s']. by apply H. }
  split_and!; [intros A p; by apply run_keeps|..]; intros; apply H;
    [apply task_crash_free|apply embeddings_crash_free|apply images_crash_free].
Qed.
End SharedProps.
