(* ===== verification/Scenario.v ===== *)
(** Whole requests, run on a concrete gateway: one channel, one virtual key and
    an upstream, to see on the shared state what the guarantees of the dispatch
    leave open. *)

From S2P Require Import Prelude F64 Json PayloadRules Channel ChannelManager RedisRateLimit.
From S2P Require Import RateLimiter Trackers Router Affinity Fallback PersistedStore.
From S2P Require Import VirtualKey Cache Guardrails ProviderBudget Quota ModelRegistry Usage.
From S2P Require Import Translate Provider Mcp Machine Attempt Dispatch DispatchProps.
From S2P Require Import OpenAI McpGateway Responses Embeddings Streams SharedState.

Module Scenario.
Import Json App Prog Attempt Dispatch.

(** A host whose JSON text is a stand-in: nothing here parses. *)
Definition host : Host :=
  mkHost (λ _, "{}") (λ _, None) (λ s, s) (λ s, [Z.of_nat (String.length s)]) (λ _, [])
    (λ u, "u") (λ s, if String.eqb s "k" then Some 7%N else None) (λ _, true) (λ _ _, true)
    (λ _ _, None) (λ _ m, map_to_list m) map_values.

Definition channel : Channel.Channel := Channel.sample_channel "1" "a" 1 100.
Definition key (denied : list string) : VirtualKey.VirtualKey.VirtualKey :=
  VirtualKey.VirtualKey.mkKey 7%N "hash" "ms-vk-0000000000" "k" (Some 20) None true 0
    VirtualKey.VirtualKey.default_spend None denied [] None None None None.

Definition params (fallbacks : gmap string (list string)) : ProxyParams :=
  mkParams (Some 60) None (Some 30) 2 fallbacks ∅ ∅ 10 100 ∅ 0 [] 0 ∅ ∅ ∅.

Definition state (denied : list string) : AppState :=
  mkApp (ChannelManager.ChannelManager.mkManager {[1%N := channel]} 5 ∅ false)
    (ModelRegistry.ModelRegistry.mkRegistry ∅ ∅) Affinity.Affinity.default_state ∅ ∅ Cooldown.new
    Cache.Cache.default_cache InFlight.start ∅ (RateLimiter.RateLimiter.new None 0) ∅ ∅
    (VirtualKey.VirtualKey.rebuild_index [key denied]
       (VirtualKey.VirtualKey.set_keys {[7%N := key denied]}
          (VirtualKey.VirtualKey.with_store_path "keys.json")))
    ProviderBudget.ProviderBudget.new KeyRateLimiter.new
    (Guardrails.Guardrails.mkConfig false [] [] 0 "") Router.Router.WeightedRandom Mcp.Manager.new_manager.

(** Everything happens at the same instant; each upstream answers the same. *)
Definition reading (resp : Request → option UpstreamResponse) (n : nat) : Reading :=
  mkReading 1000 (VirtualKey.VirtualKey.mkDate "2026-01-01" "2026-01") (λ lo _, lo) (λ _, true)
    (λ _, true) resp (λ _, true) false (O, None) "id" (λ _, inl []) (λ _ _ _, inr "").
Definition replies (status : Z) (text : string) (_ : Request) : option UpstreamResponse :=
  Some (mkUpstream status (λ _, None) text text [] 0).

Definition request (model : string) : value :=
  obj [("model", Str model); ("messages", Array [obj [("role", Str "user"); ("content", Str "hi")]])].
Definition headers : list (string * string) := [("x-virtual-key-id", "k")].

Definition serve (fallbacks : gmap string (list string)) (resp : Request → option UpstreamResponse)
    (model : string) (s : AppState) : list event * ending Response * AppState :=
  run host (reading resp) alone 0
    (OpenAI.handle_chat_completions host (params fallbacks) (OpenAI.mkMcpParams false 10) headers
       (request model)) s.

(** The key's spend today, and whether a request is registered in flight. *)
Definition spend_today (s : AppState) : option Z :=
  (λ k, VirtualKey.VirtualKey.d_cents (VirtualKey.VirtualKey.today (VirtualKey.VirtualKey.spend k)))
    <$> VirtualKey.VirtualKey.get (virtual_key_store s) 7%N.
Definition in_flight_count (s : AppState) : nat := size (InFlight.inflight (in_flight s)).
Definition ends {A} (e : ending A) : string :=
  match e with Returned _ => "returned" | Panicked => "panicked" | Waiting => "waiting" end.
Definition status_of (e : ending Response) : option Z :=
  match e with Returned r => Some (resp_status r) | _ => None end.
Definition bodies_sent (tr : list event) : list (option string) :=
  omap (λ e, match e with
             | @Did X o x =>
                 match o with
                 | Send r | SendWithin _ r => Some (get (req_body r) "model" ≫= as_str)
                 | _ => None
                 end
             end) tr.

(** A request that the upstream rejects with 400 keeps its reservation of five
    cents although nothing was delivered, and its key stays registered: the
    same request sent again reserves as much once more and waits for ever. *)
Definition rejected := serve ∅ (replies 400 "bad") "gpt-4" (state []).
Definition repeated := serve ∅ (replies 200 "fine") "gpt-4" rejected.2.

Example rejected_request_strands :
  status_of rejected.1.2 = Some 400 ∧ spend_today rejected.2 = Some 5 ∧
  in_flight_count rejected.2 = 1%nat ∧
  ends repeated.1.2 = "waiting" ∧ spend_today repeated.2 = Some 10 ∧ bodies_sent repeated.1.1 = [].
Proof. vm_compute. done. Qed.

(** The models a key is denied are looked up for the requested model only: one
    that is reached through the fallback chain is sent all the same. *)
Definition overflowing :=
  serve {["gpt-3" := ["gpt-4"]]} (replies 400 "maximum context length") "gpt-3" (state ["gpt-4"]).

Example fallback_reaches_denied_model :
  VirtualKey.VirtualKey.is_model_denied (key ["gpt-4"]) "gpt-4" = true ∧
  bodies_sent overflowing.1.1 = [Some "gpt-3"; Some "gpt-4"] ∧
  status_of overflowing.1.2 = Some 429 ∧ spend_today overflowing.2 = Some 0.
Proof. vm_compute. done. Qed.

(** A request that is served keeps its reservation until its task has run,
    which settles it with the costs (none here, as no price is configured). *)
Definition served := serve ∅ (replies 200 "fine") "gpt-4" (state []).
Definition tasks_of (tr : list event) : list Task :=
  omap (λ e, match e with @Did X o x => match o with Spawn t => Some t | _ => None end end) tr.
Definition run_all (ts : list Task) (s : AppState) : AppState :=
  foldl (λ s t, (run host (reading (replies 200 "")) alone 0 (run_task host t) s).2) s ts.

Example served_and_settled :
  status_of served.1.2 = Some 200 ∧ in_flight_count served.2 = 0%nat ∧
  Active.get (active_requests served.2) 1%N = 0 ∧ spend_today served.2 = Some 5 ∧
  spend_today (run_all (tasks_of served.1.1) served.2) = Some 0.
Proof. vm_compute. done. Qed.

(** The task of a stream that ends with its usage, seven cents being reserved. *)
Definition stream_host : Host :=
  mkHost (print host)
    (λ s, if String.eqb s "usage"
          then Some (obj [("usage", obj [("prompt_tokens", num 3); ("completion_tokens", num 4)])])
          else None)
    (quote host) (blake3 host) (sha256 host) (show_uuid host) (parse_uuid host) (alphanumeric host)
    (valid_header host) (credential_get host) (iter host) (channel_order host).
Definition stream_text (_ : nat) (_ : option nat) : string :=
  "data: usage" +:+ newlines 2 +:+ "data: [DONE]" +:+ newlines 2.

Lemma stream_task_settles_witness :
  let '(tr, e, _) := run stream_host (reading (replies 200 "")) alone 0
    (run_task stream_host (AfterStream channel "gpt-4" None F64.one (Some 7%N) 7 1%N "key"
       stream_text "id")) (state []) in
  let m := observe Monitor.see Monitor.nothing_seen tr in
  e = Returned () ∧ Monitor.held m = -1 ∧ Monitor.completed m = 1 ∧ Monitor.settled m = 7.
Proof.
  exact (DispatchProps.stream_task_settles stream_host (reading (replies 200 "")) alone 0 (state [])
    channel "gpt-4" None F64.one 7%N 7 1%N "key" stream_text "id" ltac:(lia)).
Defined.

(** An upstream that fails after its first line: the task caches the line, and
    the next identical request gets it as the whole answer. *)
Definition failing (n : nat) : Reading :=
  let r := reading (replies 200 "") n in
  mkReading (now r) (local_date r) (rng r) (link r) (client_ok r) (answer r) (in_time r) (woken r)
    (2%nat, None) (simple r) (peer_tools r) (peer_call r).
Definition cut_short (chunks : list Provider.chunk) : Task :=
  AfterStream channel "gpt-4" None F64.one None 0 1%N "key"
    (λ k connected, Provider.forward_stream StreamsProps.plain connected "" (take k chunks)) "id".
Definition after_failure : AppState :=
  (run host failing alone 0
    (run_task host (cut_short (StreamsProps.first_line ++ [Provider.StreamError]))) (state [])).2.

Lemma broken_stream_cached_witness :
  let broken := run host failing alone 0
    (run_task host (cut_short (StreamsProps.first_line ++ [Provider.StreamError]))) (state []) in
  broken = run host failing alone 0 (run_task host (cut_short StreamsProps.first_line)) (state []) ∧
  Cache.Cache.get (request_cache after_failure) 1%N "key" 1001 = Some "data: {}".
Proof.
  split; [|vm_compute; done].
  exact (proj1 (StreamsProps.broken_stream_cached host failing alone 0 (state []) channel "gpt-4"
    None F64.one None 0 1%N "key" StreamsProps.plain StreamsProps.first_line Provider.StreamError []
    "id" ltac:(done) ltac:(done) ltac:(cbn; lia) ltac:(done))).
Defined.

(** A server that offers one tool, to a client of the gateway. *)
Definition serving : AppState := set_mcp_manager McpProps.sample_manager (state []).
Definition offering (n : nat) : Reading :=
  let r := reading (replies 200 "") n in
  mkReading (now r) (local_date r) (rng r) (link r) (client_ok r) (answer r) (in_time r) (woken r)
    (forwarded r) (simple r)
    (λ p, if N.eqb p 7 then inl [Mcp.Mcp.mkRmcpTool "read" None ∅] else inr "gone")
    (λ p name _, inl (Mcp.Mcp.mkResult [] None)).

Lemma gateway_tool_reachable_witness :
  match run host offering alone 0 McpGateway.list_tools serving with
  | (_, Returned tools, s') =>
      Mcp.Mcp.tool_name <$> tools = ["mcp__fs__read"] ∧
      ∀ tool, tool ∈ tools → ∃ id orig p,
        Mcp.Mcp.tool_name tool = Mcp.Mcp.make_namespaced_name id orig ∧
        GatewayFacts.peer id s' = inl p
  | _ => False
  end.
Proof.
  pose proof (GatewayProps.gateway_tool_reachable host offering alone 0 serving
    (λ A m, Permutation_refl _) (λ k s id, eq_refl)) as H.
  destruct (run host offering alone 0 McpGateway.list_tools serving) as [[tr [tools| |]] s'] eqn:E;
    [|done..].
  split; [|intros tool Hin; destruct (H tool Hin) as (id&orig&p&H1&H2&_); by exists id, orig, p].
  assert ((run host offering alone 0 McpGateway.list_tools serving).1.2 = Returned tools) as Ht
    by (by rewrite E).
  vm_compute in Ht. injection Ht as <-. reflexivity.
Defined.

(** The concrete gateway is well typed. *)
Lemma state_well_formed denied : SharedState.well_formed (state denied).
Proof.
  split; cbn; try match goal with |- map_Forall _ _ => apply map_Forall_empty end.
  - apply map_Forall_singleton. by split.
  - rewrite map_size_empty. apply Nat.le_0_l.
  - split; cbn.
    + constructor.
    + intros k. rewrite lookup_empty. split; [by intros ?%not_elem_of_nil|by intros []].
    + rewrite map_size_empty. apply Nat.le_0_l.
  - split; [by split|apply map_Forall_empty].
  - split; apply map_Forall_empty.
  - split; unfold VirtualKey.VirtualKey.keys; cbn.
    + by intros u k [<- <-]%lookup_singleton_Some.
    + intros u k [<- <-]%lookup_singleton_Some. by rewrite lookup_insert_eq.
    + intros p u. rewrite insert_empty. intros [<- <-]%lookup_singleton_Some.
      exists (key denied). by rewrite lookup_singleton_eq.
Qed.

Lemma shared_state_typed_witness :
  let '(_, _, s) := run host (reading (replies 200 "fine")) alone 0
    (OpenAI.handle_chat_completions host (params ∅) (OpenAI.mkMcpParams false 10) headers
       (request "gpt-4")) (state []) in
  SharedState.well_formed s.
Proof.
  assert (SharedState.lawful host) as Hlaw by (split; [intros A m|intros m]; reflexivity).
  assert (∀ n, Router.Router.in_range (rng (reading (replies 200 "fine") n))) as Hr
    by (intros n lo hi Hle; cbn; lia).
  pose proof (proj1 (SharedProps.shared_state_typed host (params ∅) (reading (replies 200 "fine")) alone 0
    (state []) Hlaw Hr (λ n s, rtc_refl _ s) (state_well_formed [])) Response
    (OpenAI.handle_chat_completions host (params ∅) (OpenAI.mkMcpParams false 10) headers
       (request "gpt-4"))) as H.
  destruct (run _ _ _ _ _ _) as [[tr e] s']. exact (proj1 H).
Defined.

(** The registry's models and a channel's, listed. *)
Definition registry : ModelRegistry.ModelRegistry.ModelRegistry :=
  ModelRegistry.ModelRegistry.mkRegistry
    {["gpt-4" := ModelRegistry.ModelRegistry.default_capabilities]} ∅.

Lemma models_listed_once_witness :
  let ids := (OpenAI.first_met ∅ (OpenAI.offered host [channel] registry)).*1 in
  NoDup ids ∧ ("gpt-4" ∈ ids ↔
    (∃ ch, ch ∈ [channel] ∧ Channel.enabled ch = true ∧ is_Some (Channel.model_mapping ch !! "gpt-4")) ∨
    is_Some (ModelRegistry.ModelRegistry.models registry !! "gpt-4")).
Proof.
  assert (∀ A (m : gmap string A), iter host A m ≡ₚ map_to_list m) as Hiter by done.
  pose proof (ModelListProps.models_listed_once host [channel] registry Hiter) as [H1 H2].
  exact (conj H1 (H2 "gpt-4")).
Defined.

Lemma responses_request_shape_witness :
  match Responses.translate_request host ResponsesProps.continued with
  | inl chat => get (insert_field "stream" (Bool false) chat) "model" = Some (Str "gpt-4")
  | inr _ => False
  end.
Proof.
  exact (ResponsesProps.responses_request_shape host ResponsesProps.continued
    (obj [("messages", Array [obj [("role", Str "user"); ("content", Str "and then?")]]);
          ("model", Str "gpt-4")]) "model"
    ltac:(vm_compute; reflexivity)).
Defined.
End Scenario.
