(* ===== verification/Launch.v ===== *)
(** The start of the gateway (server/services.rs): the shared state that is built of a
    configuration, the tasks that complete it, and the discovery of models, which runs
    beside the requests (also of model_registry.rs). *)

From S2P Require Import Prelude F64 Json PayloadRules Channel ChannelManager RedisRateLimit.
From S2P Require Import RateLimiter Trackers Router Affinity Fallback PersistedStore.
From S2P Require Import VirtualKey Cache Guardrails ProviderBudget Quota Notification ModelRegistry Usage.
From S2P Require Import Mcp Watcher Access Startup Config Machine OpenAI SharedState Scenario.

(** ** The state (start_gateway_services) *)
Module Launch.
Import App Gateway ConfigFile.

(** guardrails.rs: the limits start empty, and the message as it is derived. *)
Definition default_guardrails : Guardrails.GuardrailsConfig := Guardrails.mkConfig false [] [] 0 "".

(** [connect] is the thread that connects to Redis: it has failed, or panicked. *)
Definition redis_prefix (connect : string → string → outcome bool) (r : option RedisConfig) : option string :=
  match r with
  | Some c => match connect (url c) (key_prefix c) with Done true => Some (key_prefix c) | _ => None end
  | None => None
  end.
Definition rate_limiter_of (prefix : option string) (now : Instant) : RateLimiter.RateLimiter :=
  match prefix with Some p => RateLimiter.with_redis None p now | None => RateLimiter.new None now end.
Definition key_rate_limiter_of (prefix : option string) : KeyRateLimiter.KeyRateLimiter :=
  match prefix with Some p => KeyRateLimiter.with_redis p | None => KeyRateLimiter.new end.

Definition proxy_params (g : GatewayConfig) : ProxyParams :=
  mkParams (request_timeout_secs g) (stream_keepalive_secs g) (stream_ttft_timeout_secs g) (max_retries g)
    (model_fallbacks g) (context_window_fallbacks g) (model_aliases g) (retry_base_ms g) (retry_max_ms g)
    (model_retry_overrides g) (nonstream_keepalive_interval_secs g) (effective_passthrough_headers g)
    (stream_bootstrap_retries g) (model_groups g) (model_pricing g) (completion_ratios g).
Definition mcp_params (g : GatewayConfig) : OpenAI.McpParams := OpenAI.mkMcpParams (mcp_auto_inject g) (mcp_max_iterations g).
Definition security (env : option string) (g : GatewayConfig) : Gate.Security :=
  Settings.security env (admin_token g) (admin_tokens g).

Section start.
(** What the host gives: the reading of identifiers, new ones for the channels whose
    own cannot be read, and the connection to Redis with what it holds. *)
Context (parse_uuid : string → option Uuid) (fresh : nat → Uuid) (connect : string → string → outcome bool) (db : Redis.Db).

Definition channel_manager (c : AppConfig) (now : DateTime) : ChannelManager.ChannelManager :=
  ChannelManager.new parse_uuid now (imap (λ i ch, (ch, fresh i)) (channels c))
    (circuit_breaker_minutes (gateway c)) (disable_cooling (gateway c)).

(** The state before the tasks that were spawned have run. *)
Definition initial_state (config_dir : string) (c : AppConfig) (now : Instant) : AppState :=
  let g := gateway c in
  let prefix := redis_prefix connect (redis g) in
  let stores := Settings.configure_channels parse_uuid now (channels c)
                  (Watcher.mkStores (channel_manager c now) Manager.new_manager (rate_limiter_of prefix now) ∅) in
  mkApp (channel_manager c now) ModelRegistry.new Affinity.default_state Active.new Latency.new Cooldown.new
    (Cache.new (millis_of_secs (cache_ttl_secs g)) (Z.to_nat (max_cache_entries g)) (Cache.parse_mode (cache_mode g)))
    InFlight.start (Watcher.payload_rules stores) (Watcher.rate_limiter stores) db ∅
    (VirtualKey.with_store_path (config_dir +:+ "/virtual_keys.json")) ProviderBudget.new
    (key_rate_limiter_of prefix) default_guardrails (routing_strategy g) Manager.new_manager.

End start.

(** What the tasks that read a file have: serde's reading of the three documents, where
    two of the files are (the store of virtual keys knows its own), and the order in which
    the map of keys is iterated. *)
Record Documents := mkDocuments {
  parse : string → option Json.value;
  print : Json.value → string;
  backup_path : string → DateTime → string;
  keys_of : Json.value → option (gmap Uuid VirtualKey.VirtualKey);
  quotas_of : Json.value → option (gmap Uuid Quota.QuotaInfo);
  spend_of : Json.value → option (gmap string ProviderBudget.ProviderSpend);
  quota_path : string;
  spend_path : string;
  key_order : gmap Uuid VirtualKey.VirtualKey → list VirtualKey.VirtualKey;
}.
(** What one of them finds: the file, if there is one, whether it can be read and, if it
    cannot be parsed, renamed, and when. *)
Record Found := mkFound { file : option string; read_ok : bool; rename_ok : bool; found_at : DateTime }.

(** The tasks that are spawned and end: the tool servers and the budgets of the
    configuration, these one by one, and the three stores that are kept in files.  (Those that
    load the log and the audit log touch nothing of this state.) *)
Inductive StartTask :=
  | LoadServers
  | SetBudget (provider : string) (b : ProviderBudget.ProviderBudgetConfig)
  | LoadQuota (f : Found)
  | LoadKeys (f : Found)
  | LoadSpend (f : Found).
Definition start_tasks (quota keys spend : Found) (c : AppConfig) : list StartTask :=
  LoadServers :: ((λ '(p, b), SetBudget p b) <$> map_to_list (provider_budgets (gateway c) : gmap string ProviderBudget.ProviderBudgetConfig))
  ++ [LoadQuota quota; LoadKeys keys; LoadSpend spend].

Section tasks.
Context (d : Documents) (c : AppConfig).

Definition loaded `{Countable K} {V} (from : Json.value → option (gmap K V)) (f : Found) (s : Persisted.PersistedStore K V)
    : Persisted.PersistedStore K V :=
  (Persisted.load (parse d) (print d) from (backup_path d) (read_ok f) (rename_ok f) (found_at f) s
     match file f with Some json => {[Persisted.store_path s := json]} | None => ∅ end).1.
(** [VirtualKeyStore::load] *)
Definition load_keys (f : Found) (s : VirtualKey.VirtualKeyStore) : VirtualKey.VirtualKeyStore :=
  let st := loaded (keys_of d) f (VirtualKey.store s) in
  VirtualKey.rebuild_index (key_order d (Persisted.data st)) (VirtualKey.mkStore st (VirtualKey.prefix_index s)).
Definition start_task (t : StartTask) (s : AppState) : AppState :=
  match t with
  | LoadServers => set_mcp_manager (Manager.load_configs (mcp_servers c)) s
  | SetBudget p b => set_provider_budgets (ProviderBudget.set_budget (App.provider_budgets s) p b) s
  | LoadQuota f =>
      set_quota_store (Persisted.data (loaded (quotas_of d) f (Persisted.mkStore (quota_store s) (quota_path d) false))) s
  | LoadKeys f => set_virtual_key_store (load_keys f (virtual_key_store s)) s
  | LoadSpend f =>
      let spend := loaded (spend_of d) f (Persisted.mkStore (ProviderBudget.spend (App.provider_budgets s)) (spend_path d) false) in
      set_provider_budgets (ProviderBudget.mkBudgetStore (ProviderBudget.configs (App.provider_budgets s)) (Persisted.data spend)) s
  end.
End tasks.

(** The tasks that go on: what they do, when they begin and how often they come, in
    seconds; a ticker of period zero panics. *)
Inductive Service := Probe | PollQuota | CleanAffinity | SweepCache | CleanCooldowns.
Definition background_services (g : GatewayConfig) : list (Service * Z * Z) :=
  (if (health_check_enabled g : bool) && (0 <? health_check_interval_secs g) then [(Probe, 0, health_check_interval_secs g : Z)] else []) ++
  [(PollQuota, 0, quota_poll_interval_secs g : Z); (CleanAffinity, 300, 300); (SweepCache, 60, 60); (CleanCooldowns, 300, 300)].
End Launch.

(** ** The discovery of models (run_model_discovery; model_registry.rs) *)
Module Discovery.
Import Json Notification.

(** The segments of an IPv6 address are 16 bits each. *)
Definition is_private_ip (ip : IpAddr) : bool :=
  match ip with
  | V4 a => is_loopback a || is_private a || is_link_local a || is_unspecified a || is_broadcast a
  | V6 a =>
      let s0 := Z.shiftr a 112 in
      v6_is_loopback a || v6_is_unspecified a || (Z.land s0 0xfe00 =? 0xfc00) || (Z.land s0 0xffc0 =? 0xfe80)
  end.

(** What is read of an address: its scheme and, if it has one, its host as text. *)
Record Url := mkUrl { scheme : string; host_str : option string }.
(** No answer; or a status, how it is printed, and the document of the body. *)
Inductive Reply := Failed (e : string) | Answered (status : Z) (shown : string) (body : Json.value + string).

Section discovery.
(** [Url::parse] and the parsing of an [IpAddr]; [fetch] sends the request. *)
Context (parse_url : string → Url + string) (parse_ip : string → option IpAddr) (fetch : string → string → Reply).

Definition check_endpoint (endpoint : string) : option string :=
  match parse_url endpoint with
  | inr e => Some e
  | inl parsed =>
      if negb (String.eqb (scheme parsed) "https") then Some "models_endpoint must use HTTPS" else
      let host := default "" (host_str parsed) in
      if match parse_ip host with Some ip => is_private_ip ip | None => false end
      then Some "models_endpoint must not point to a private/reserved IP" else
      let host_lower := to_lowercase host in
      if String.eqb host_lower "localhost" || String.eqb host_lower "metadata.google.internal"
      then Some "models_endpoint must not point to a private/internal host" else None
  end.
Definition listed_models (body : Json.value) : list string :=
  match get body "data" ≫= as_array with
  | Some arr => omap (λ m, get m "id" ≫= as_str) arr
  | None => []
  end.
Definition refresh_from_endpoint (endpoint api_key : string) : list string + string :=
  match check_endpoint endpoint with
  | Some e => inr e
  | None =>
      match fetch endpoint api_key with
      | Failed e => inr ("Failed to fetch models from endpoint: " +:+ e)
      | Answered status shown body =>
          if negb ((200 <=? status) && (status <? 300)) then inr ("Failed to fetch models: HTTP " +:+ shown)
          else match body with
               | inr e => inr ("Failed to parse models response: " +:+ e)
               | inl v => inl (listed_models v)
               end
      end
  end.

(** The channels that are visited: their identifier, endpoint and interval, in the order
    in which they are seen. *)
Definition discovered (channels : list Channel.Channel) : list (Uuid * string * Z) :=
  omap (λ ch, (λ ep, (Channel.id ch, ep, Channel.models_refresh_interval_secs ch)) <$> Channel.models_endpoint ch) channels.

(** One tick of a channel's task, for which the manager has this key, or none. *)
Section ticks.
Context (iter : gmap string ModelRegistry.ModelCapabilities → list (string * ModelRegistry.ModelCapabilities)).
Definition tick (endpoint : string) (api_key : option string) (now_secs : Z) (r : ModelRegistry.ModelRegistry)
    : ModelRegistry.ModelRegistry :=
  match api_key with
  | None => r
  | Some key =>
      match refresh_from_endpoint endpoint key with
      | inl models => ModelRegistry.update_models iter r models endpoint now_secs
      | inr _ => r
      end
  end.
(** The task after so many ticks; [credential] is the key at each, [now_secs] the time. *)
Definition discovery_task (endpoint : string) (interval_secs : Z) (credential : nat → option string) (now_secs : nat → Z)
    (ticks : nat) (r : ModelRegistry.ModelRegistry) : outcome ModelRegistry.ModelRegistry :=
  if interval_secs =? 0 then Panic
  else Done (foldl (λ r n, tick endpoint (credential n) (now_secs n) r) r (seq 0 ticks)).
End ticks.
End discovery.
End Discovery.

Module LaunchFacts.
Import App Launch SharedState SharedFacts.

Lemma limiter_set_tpm r u l now : limiter_ok r → limiter_ok (RateLimiter.set_channel_tpm_limit r u l now).
Proof.
  intros H. unfold RateLimiter.set_channel_tpm_limit. destruct (limiter_create r u now H) as ([H1 H2]&Ht&Hr).
  destruct (RateLimiter.get_or_create_channel r u now) as [r' s]. cbn in *. split; [done|]. by apply map_Forall_insert_2.
Qed.
Lemma limiter_set_rpm r u l now : limiter_ok r → limiter_ok (RateLimiter.set_channel_rpm_limit r u l now).
Proof.
  intros H. unfold RateLimiter.set_channel_rpm_limit. destruct (limiter_create r u now H) as ([H1 H2]&Ht&Hr).
  destruct (RateLimiter.get_or_create_channel r u now) as [r' s]. cbn in *. split; [done|]. by apply map_Forall_insert_2.
Qed.
Lemma limiter_configured parse_uuid now cs s :
  limiter_ok (Watcher.rate_limiter s) → limiter_ok (Watcher.rate_limiter (Settings.configure_channels parse_uuid now cs s)).
Proof.
  unfold Settings.configure_channels. revert s. induction cs as [|ch cs IH]; intros s H; [done|]. cbn [foldl]. apply IH.
  unfold Settings.configure_channel. destruct (parse_uuid (Channel.c_id ch)) as [u|]; [|done]. cbn [Watcher.rate_limiter].
  destruct (Channel.c_rpm_limit ch), (Channel.c_tpm_limit ch); auto using limiter_set_tpm, limiter_set_rpm.
Qed.
Lemma limiter_new prefix now : limiter_ok (rate_limiter_of prefix now).
Proof. destruct prefix; (split; [apply window_new|apply map_Forall_empty]). Qed.

Lemma configured_channel_ok parse_uuid fresh now ch : 0 ≤ Channel.c_priority ch →
  let c := Channel.from_config parse_uuid fresh now ch in channel_ok (Channel.id c) c ∧ position_ok ∅ (Channel.id c) c.
Proof.
  intros Hp. split; [by split|]. intros Hk. rewrite lookup_empty. cbn [default from_option]. unfold rotated_keys.
  cbn in Hk |- *. rewrite length_app. destruct (Channel.c_api_keys ch); [done|]. cbn. lia.
Qed.
Lemma manager_configured parse_uuid fresh c now :
  Forall (λ ch, 0 ≤ Channel.c_priority ch) (ConfigFile.channels c) → manager_ok (channel_manager parse_uuid fresh c now).
Proof.
  intros Hp. unfold manager_ok, channel_manager, ChannelManager.new. cbn. unfold ChannelManager.collect_channels.
  assert (∀ (l : list (Channel.ChannelConfig * Uuid)) (m : gmap Uuid Channel.Channel), Forall (λ x, 0 ≤ Channel.c_priority x.1) l →
    map_Forall (λ u c, channel_ok u c ∧ position_ok ∅ u c) m →
    map_Forall (λ u c, channel_ok u c ∧ position_ok ∅ u c)
      (foldl (λ (m : gmap Uuid Channel.Channel) c, <[Channel.id c := c]> m) m (map (λ '(c, f), Channel.from_config parse_uuid f now c) l))) as H.
  { intros l. induction l as [|[ch f] l IH]; intros m Hl Hm; [done|]. inversion Hl; subst. cbn. apply IH; [done|].
    apply map_Forall_insert_2; [|done]. by apply configured_channel_ok. }
  apply H; [|apply map_Forall_empty]. clear H. generalize fresh. induction Hp as [|ch l Hch _ IH]; intros f; [constructor|].
  cbn. constructor; [done|]. apply (IH (f ∘ S)).
Qed.

Lemma servers_loaded configs :
  map_Forall (λ id e, Manager.config_id (Manager.config e) = id) (Manager.entries (Manager.load_configs configs)).
Proof.
  unfold Manager.load_configs. cbn. assert (∀ m : gmap string Manager.McpServerEntry, map_Forall (λ id e, Manager.config_id (Manager.config e) = id) m →
    map_Forall (λ id e, Manager.config_id (Manager.config e) = id)
      (foldl (λ es c, <[Manager.config_id c := Manager.fresh_entry c]> es) m configs)) as H; [|by apply H, map_Forall_empty].
  induction configs as [|c l IH]; intros m Hm; [done|]. cbn. apply IH. by apply map_Forall_insert_2.
Qed.

Lemma initial_typed parse_uuid fresh connect db dir c now :
  Forall (λ ch, 0 ≤ Channel.c_priority ch) (ConfigFile.channels c) →
  well_formed (initial_state parse_uuid fresh connect db dir c now).
Proof.
  intros Hp. split; unfold initial_state; cbn -[Settings.configure_channels ModelRegistry.new];
    try match goal with |- map_Forall _ _ => apply map_Forall_empty end.
  - by apply manager_configured.
  - rewrite map_size_empty. apply Nat.le_0_l.
  - split; cbn; [constructor| |rewrite map_size_empty; apply Nat.le_0_l].
    intros k. rewrite lookup_empty. split; [by intros ?%not_elem_of_nil|by intros []].
  - apply limiter_configured, limiter_new.
  - destruct (redis_prefix _ _); (split; apply map_Forall_empty).
  - split; unfold VirtualKey.keys; cbn; intros ? ?; by rewrite lookup_empty.
Qed.
(** What the files hold: keys and quotas under their own identifiers, and amounts of 64
    bits. *)
Definition holds `{Countable K} {V} (d : Documents) (from : Json.value → option (gmap K V)) (P : K → V → Prop) (f : Found) : Prop :=
  ∀ json m, file f = Some json →
    Persisted.from_json (parse d) from (Persisted.strip_schema_version (parse d) (print d) json) = Some m → map_Forall P m.
Definition task_ok (d : Documents) (t : StartTask) : Prop :=
  match t with
  | LoadServers | SetBudget _ _ => True
  | LoadQuota f => holds d (quotas_of d) (λ u i, Quota.channel_id i = u) f
  | LoadKeys f => holds d (keys_of d) (λ u k, VirtualKey.id k = u) f
  | LoadSpend f => holds d (spend_of d) (λ _, spend_ok) f
  end.

(** What a load leaves is what there was and, perhaps, what the file holds. *)
Lemma loaded_data `{Countable K} {V} d (from : Json.value → option (gmap K V)) P f s :
  holds d from P f → ∃ m, map_Forall P m ∧ Persisted.data (loaded d from f s) = Persisted.data s ∪ m.
Proof.
  intros Hf. assert (∃ m, map_Forall P m ∧ Persisted.data s = Persisted.data s ∪ m) as Hsame
    by (exists ∅; split; [apply map_Forall_empty|by rewrite map_union_empty]).
  unfold loaded, Persisted.load. destruct (file f) as [json|] eqn:Ef; [|by rewrite lookup_empty].
  rewrite lookup_singleton_eq. destruct (read_ok f); [|done]. cbn [negb].
  destruct (Persisted.from_json _ _ _) as [m|] eqn:Em; [|done]. exists m. split; [by eapply Hf|done].
Qed.
Lemma forall_merged `{Countable K} {V} (P : K → V → Prop) (m1 m2 : gmap K V) :
  map_Forall P m1 → map_Forall P m2 → map_Forall P (m1 ∪ m2).
Proof. intros H1 H2 k v [Hk|[_ Hk]]%lookup_union_Some_raw; eauto. Qed.

Lemma keys_loaded d f s :
  (∀ m, key_order d m ≡ₚ map_values m) → task_ok d (LoadKeys f) →
  StoreFacts.index_ok (λ _, True) s → StoreFacts.index_ok (λ _, True) (load_keys d f s).
Proof.
  intros Ho Hf Hs. destruct (loaded_data d (keys_of d) _ f (VirtualKey.store s) Hf) as (m&Hm&Hd).
  pose proof (StoreFacts.load_index (λ _, True) s m (key_order d (VirtualKey.keys s ∪ m)) Hm (Ho _) Hs) as [H1 _ H3].
  unfold load_keys. rewrite Hd. fold (VirtualKey.keys s). split.
  - unfold VirtualKey.keys at 1. cbn. rewrite Hd. exact H1.
  - intros i k _ Hn. by exfalso.
  - intros p u Hp. unfold VirtualKey.keys at 1. cbn. rewrite Hd. by apply H3.
Qed.
Lemma start_task_typed d c t s :
  (∀ m, key_order d m ≡ₚ map_values m) → task_ok d t → well_formed s → well_formed (start_task d c t s).
Proof.
  intros Ho Hok []. destruct t as [|p b|f|f|f]; (split; [try done..]).
  - cbn. apply servers_loaded.
  - cbn. destruct (loaded_data d (quotas_of d) _ f (Persisted.mkStore (quota_store s) (quota_path d) false) Hok) as (m&Hm&->).
    by apply forall_merged.
  - by apply keys_loaded.
  - cbn. destruct (loaded_data d (spend_of d) _ f
      (Persisted.mkStore (ProviderBudget.spend (App.provider_budgets s)) (spend_path d) false) Hok) as (m&Hm&->).
    by apply forall_merged.
Qed.
End LaunchFacts.

Module LaunchProps.
Import App Prog Launch SharedState SharedFacts Typing CrashFree LaunchFacts.

(** C19. The gateway starts well typed, whatever its configuration: the state that is built
    of it is well-formed, and stays so while the spawned tasks -- the loads of the tool
    servers, the budgets, the quotas, the virtual keys and the providers' spend -- run in any
    order and number, also between the operations of a request, where operations of other
    requests, periodic clean-ups, quota polls and changes of keys, quotas and budgets come as
    well; and no operation panics.  It is asked of the files that they hold keys and quotas
    under their own identifiers, and of the configuration that no priority is negative,
    which is what its type says. *)
Theorem launch_typed h d parse_uuid fresh connect db dir c now done readings others later n :
  lawful h → (∀ m, key_order d m ≡ₚ map_values m) → (∀ n, Router.Router.in_range (rng (readings n))) →
  (∀ n s, rtc (elsewhere h) s (others n s)) →
  Forall (task_ok d) done → (∀ n, Forall (task_ok d) (later n)) →
  Forall (λ ch, 0 ≤ Channel.c_priority ch) (ConfigFile.channels c) →
  let run_tasks ts s := foldl (λ s t, start_task d c t s) s ts in
  let start := run_tasks done (initial_state parse_uuid fresh connect db dir c now) in
  well_formed start ∧
  ∀ A (p : prog A),
    let '(_, e, s) := run h readings (λ n s, run_tasks (later n) (others n s)) n p start in
    well_formed s ∧ (crash_free p → e ≠ Panicked).
Proof.
  intros Hlaw Hord Hr Ho Hdone Hlater Hp run_tasks start.
  assert (∀ ts s, Forall (task_ok d) ts → well_formed s → well_formed (run_tasks ts s)) as Ht.
  { intros ts s Hts. revert s. induction Hts as [|t ts Hok _ IH]; intros s Hs; [exact Hs|]. apply IH. by apply start_task_typed. }
  assert (well_formed start) as Hs by (by apply Ht, initial_typed). split; [done|]. intros A p.
  apply (run_keeps h Hlaw); [done| |done]. intros m s H. apply Ht; [done|]. by apply (elsewheres_keep h Hlaw _ _ (Ho m s)).
Qed.

(** The budgets of the file are those the tasks leave, in whatever order they run. *)
Theorem budgets_from_file d quota keys spend c ts s :
  ts ≡ₚ start_tasks quota keys spend c →
  ProviderBudget.configs (App.provider_budgets (foldl (λ s t, start_task d c t s) s ts)) =
    (Gateway.provider_budgets (ConfigFile.gateway c) : gmap string ProviderBudget.ProviderBudgetConfig) ∪
    ProviderBudget.configs (App.provider_budgets s).
Proof.
  intros Hts. set (B := (Gateway.provider_budgets (ConfigFile.gateway c) : gmap string ProviderBudget.ProviderBudgetConfig)).
  assert (∀ p b, SetBudget p b ∈ ts ↔ B !! p = Some b) as Hin.
  { intros p b. rewrite Hts. unfold start_tasks. fold B. rewrite elem_of_cons, elem_of_app, list_elem_of_fmap. split.
    - intros [?|[([p' b']&[= -> ->]&H)|H]]; [done|by apply elem_of_map_to_list in H|]. set_solver.
    - intros H. right. left. exists (p, b). split; [done|]. by apply elem_of_map_to_list. }
  clear Hts. apply map_eq. intros p.
  assert ((∀ b, SetBudget p b ∉ ts) ∧ B !! p = None ∨ ∃ b, B !! p = Some b ∧ SetBudget p b ∈ ts) as Hp.
  { destruct (B !! p) as [b|] eqn:E; [right; exists b; split; [done|]; by apply Hin|]. left. split; [|done]. intros b H%Hin. congruence. }
  assert (∀ b b', SetBudget p b ∈ ts → SetBudget p b' ∈ ts → b = b') as Huniq by (intros b b' H%Hin H'%Hin; congruence).
  clear Hin. revert Hp Huniq. induction ts as [|t ts IH] using rev_ind; intros Hp Hu.
  { destruct Hp as [[_ E]|(b&_&H)]; [|by apply not_elem_of_nil in H]. cbn. rewrite lookup_union, E. by destruct (ProviderBudget.configs (App.provider_budgets s) !! p). }
  rewrite foldl_app. cbn [foldl]. destruct t as [|q b|f|f|f].
  1,3-5: cbn; apply IH; [|intros; apply Hu; set_solver]; destruct Hp as [[H E]|(b&E&H)]; [left|right; exists b]; set_solver.
  - cbn. destruct (decide (p = q)) as [->|Hne].
    + rewrite lookup_insert_eq. destruct Hp as [[H _]|(b'&E&H)]; [exfalso; apply (H b); set_solver|].
      rewrite lookup_union, E. rewrite (Hu b b'); [by destruct (ProviderBudget.configs (App.provider_budgets s) !! q)|set_solver|done].
    + rewrite lookup_insert_ne by done. apply IH; [|intros; apply Hu; set_solver].
      destruct Hp as [[H E]|(b'&E&H)]; [left|right; exists b']; set_solver.
Qed.
End LaunchProps.

Module DiscoveryProps.
Import Json Notification Discovery.

Section props.
Context (parse_url : string → Url + string) (parse_ip : string → option IpAddr).

(** A request for the models of a channel is sent only over https, to a host that is not
    an address of a private range nor one of the two names; otherwise nothing is sent,
    whatever would be answered. A host in brackets, as addresses of version 6 are
    written, is not read as an address and passes. *)
Theorem discovery_guard endpoint :
  match check_endpoint parse_url parse_ip endpoint with
  | None => ∃ u, parse_url endpoint = inl u ∧ scheme u = "https" ∧
      (∀ ip, parse_ip (default "" (host_str u)) = Some ip → is_private_ip ip = false) ∧
      to_lowercase (default "" (host_str u)) ∉ ["localhost"; "metadata.google.internal"]
  | Some e => ∀ fetch key, refresh_from_endpoint parse_url parse_ip fetch endpoint key = inr e
  end ∧
  ((∀ s, starts_with s "[" = true → parse_ip s = None) →
   ∀ host, starts_with host "[" = true → parse_url endpoint = inl (mkUrl "https" (Some host)) →
     check_endpoint parse_url parse_ip endpoint = None).
Proof.
  split.
  - destruct (check_endpoint parse_url parse_ip endpoint) as [e|] eqn:E.
    { intros fetch key. unfold refresh_from_endpoint. by rewrite E. }
    revert E. unfold check_endpoint. destruct (parse_url endpoint) as [u|]; [|done].
    destruct (String.eqb_spec (scheme u) "https") as [Hs|]; [|done]. cbn [negb]. cbv zeta.
    destruct (match parse_ip _ with Some ip => _ | None => _ end) eqn:Ei; [done|].
    destruct (String.eqb_spec (to_lowercase (default "" (host_str u))) "localhost"); [done|].
    destruct (String.eqb_spec (to_lowercase (default "" (host_str u))) "metadata.google.internal"); [done|]. intros _.
    exists u. split_and!; [done|done| |set_solver]. intros ip Hip. by rewrite Hip in Ei.
  - intros Hlaw host Hb Hu. unfold check_endpoint. rewrite Hu. cbn [scheme host_str]. change (String.eqb "https" "https") with true.
    cbn [negb default from_option id]. cbv zeta. rewrite (Hlaw host Hb). destruct host as [|c s]; [done|].
    unfold starts_with in Hb. cbn [String.prefix] in Hb. destruct (ascii_dec "["%char c) as [<-|]; [|done]. clear Hb.
    assert (∀ s', to_lowercase (String "[" s') = String "[" (to_lowercase s')) as Hl by done.
    rewrite Hl. done.
Qed.

(** *** What a tick leaves *)

Context (fetch : string → string → Reply).
Context (iter : gmap string ModelRegistry.ModelCapabilities → list (string * ModelRegistry.ModelCapabilities)).

Definition sourced (src : string) (r : ModelRegistry.ModelRegistry) (m : string) : Prop :=
  ∃ c, ModelRegistry.models r !! m = Some c ∧ ModelRegistry.source c = Some src.
Lemma discovered_sourced src found : ∀ r m, m ∈ found ∨ sourced src r m →
  sourced src (foldl (ModelRegistry.discover iter src) r found) m.
Proof.
  induction found as [|x found IH]; intros r m; [by intros [?%not_elem_of_nil|]|]. intros H. cbn [foldl]. apply IH.
  destruct (decide (m = x)) as [->|Hne].
  - right. unfold sourced, ModelRegistry.discover. cbn. rewrite lookup_insert_eq. by eexists.
  - destruct H as [[?|?]%elem_of_cons|(c&Hc&Hs)]; [done|by left|]. right. exists c. unfold ModelRegistry.discover. cbn.
    by rewrite lookup_insert_ne.
Qed.

(** A channel that names an endpoint and no interval has the interval zero, with which
    its task panics before it has asked once. With any other interval, the models of
    the last answer are in the registry after a tick that had a key and an answer, with
    the endpoint as their source; and a tick without either changes nothing. *)
Theorem discovery_needs_interval endpoint interval credential now_secs ticks r :
  let task n := discovery_task parse_url parse_ip fetch iter endpoint interval credential now_secs n r in
  (interval = 0 → task ticks = Panic) ∧
  (interval ≠ 0 → ∃ r0 r1, task ticks = Done r0 ∧ task (S ticks) = Done r1 ∧
     match credential ticks ≫= λ k, match refresh_from_endpoint parse_url parse_ip fetch endpoint k with inl l => Some l | inr _ => None end with
     | Some found => (∀ m, m ∈ found → sourced endpoint r1 m) ∧ ModelRegistry.refresh_times r1 !! endpoint = Some (now_secs ticks)
     | None => r1 = r0
     end).
Proof.
  cbn zeta. unfold discovery_task. split; [by intros ->|]. intros Hi. destruct (Z.eqb_spec interval 0); [done|].
  eexists _, _. split_and!; [reflexivity|reflexivity|]. rewrite seq_S, foldl_app. cbn [foldl Nat.add].
  set (r0 := foldl _ r (seq 0 ticks)). unfold tick. destruct (credential ticks) as [k|]; [|done]. cbn [mbind option_bind].
  destruct (refresh_from_endpoint _ _ _ _ _) as [found|]; [|done]. unfold ModelRegistry.update_models. split.
  - intros m Hm. destruct (discovered_sourced endpoint found (ModelRegistry.forget_source endpoint r0) m (or_introl Hm)) as (c&Hc&Hs).
    exists c. by split.
  - cbn. by rewrite lookup_insert_eq.
Qed.
End props.
End DiscoveryProps.

Module LaunchSample.
Import App Prog Launch SharedState LaunchFacts LaunchProps.

(** A file with one channel, whose identifier cannot be read, and one budget. *)
Definition keys : Gateway.GatewayOf option.
Proof.
  constructor; match goal with
  | |- option (gmap string ProviderBudget.ProviderBudgetConfig) => exact (Some {["openai" := ProviderBudget.mkBudget (Some 100) None]})
  | _ => exact None
  end.
Defined.
Definition gateway : Gateway.GatewayConfig := Gateway.fill keys.
Definition config : ConfigFile.AppConfig := ConfigFile.mkConfig gateway [Channel.sample_config "k" "a" 1 100] [].
(** The file of keys holds one; the other two cannot be read. *)
Definition documents : Documents :=
  mkDocuments (λ s, Some (Json.Str s)) (λ v, default "" (Json.as_str v)) (λ p _, p +:+ ".bak")
    (λ v, if String.eqb (default "" (Json.as_str v)) "one key" then Some {[7%N := Scenario.key []]} else None)
    (λ _, None) (λ _, None) "/etc/quota.json" "/etc/provider_budgets.json" map_values.
Definition found (file : option string) : Found := mkFound file true true 0.
Definition started (ts : list StartTask) : AppState :=
  foldl (λ s t, start_task documents config t s)
    (initial_state (parse_uuid Scenario.host) (λ n, 100 + N.of_nat n)%N (λ _ _, Panic) ∅ "/etc" config 1000) ts.
Definition tasks : list StartTask :=
  start_tasks (found (Some "?")) (found (Some "one key")) (found None) config.

Lemma keys_ok : task_ok documents (LoadKeys (found (Some "one key"))).
Proof.
  intros json m [= <-]. unfold Persisted.from_json, Persisted.strip_schema_version. cbn. intros [= <-].
  intros u k [<- <-]%lookup_singleton_Some. reflexivity.
Qed.
Lemma tasks_ok : Forall (task_ok documents) tasks.
Proof.
  change tasks with [LoadServers; SetBudget "openai" (ProviderBudget.mkBudget (Some 100) None);
    LoadQuota (found (Some "?")); LoadKeys (found (Some "one key")); LoadSpend (found None)].
  apply Forall_cons; split; [exact I|]. apply Forall_cons; split; [exact I|].
  apply Forall_cons; split; [intros json m [= <-]; discriminate|]. apply Forall_cons; split; [apply keys_ok|].
  apply Forall_cons; split; [by intros json m|]. apply Forall_nil_2.
Qed.
Example key_loaded :
  VirtualKey.keys (virtual_key_store (started tasks)) !! 7%N = Some (Scenario.key []) ∧
  VirtualKey.prefix_index (virtual_key_store (started tasks)) !! VirtualKey.key_prefix (Scenario.key []) = Some 7%N.
Proof. vm_compute. split; reflexivity. Qed.

Lemma launch_typed_witness :
  well_formed (started tasks) ∧
  let '(_, e, s) := run Scenario.host (Scenario.reading (Scenario.replies 200 "fine")) (λ _ s, s) 0
    (OpenAI.handle_chat_completions Scenario.host (proxy_params gateway) (mcp_params gateway) Scenario.headers
       (Scenario.request "gpt-4")) (started tasks) in
  well_formed s.
Proof.
  assert (lawful Scenario.host) as Hlaw by (split; [intros A m|intros m]; reflexivity).
  assert (∀ n, Router.Router.in_range (rng (Scenario.reading (Scenario.replies 200 "fine") n))) as Hr by (intros n lo hi Hle; cbn; lia).
  assert (Forall (λ ch, 0 ≤ Channel.c_priority ch) (ConfigFile.channels config)) as Hp by (repeat constructor; cbn; lia).
  destruct (launch_typed Scenario.host documents (parse_uuid Scenario.host) (λ n, 100 + N.of_nat n)%N (λ _ _, Panic) ∅ "/etc" config 1000
    tasks (Scenario.reading (Scenario.replies 200 "fine")) (λ _ s, s) (λ _, []) 0 Hlaw (λ m, reflexivity _) Hr (λ n s, rtc_refl _ s)
    tasks_ok (λ n, List.Forall_nil _) Hp) as [H1 H2].
  split; [exact H1|]. specialize (H2 _ (OpenAI.handle_chat_completions Scenario.host (proxy_params gateway) (mcp_params gateway)
    Scenario.headers (Scenario.request "gpt-4"))). unfold started. cbn [foldl] in H2.
  destruct (run _ _ _ _ _ _) as [[tr e] s]. exact (proj1 H2).
Defined.
Lemma budgets_from_file_witness :
  ProviderBudget.configs (App.provider_budgets (started tasks)) !! "openai" = Some (ProviderBudget.mkBudget (Some 100) None).
Proof.
  unfold started, tasks. rewrite (budgets_from_file documents (found (Some "?")) (found (Some "one key")) (found None) config
    (start_tasks (found (Some "?")) (found (Some "one key")) (found None) config)) by done. reflexivity.
Defined.

(** A limit of the file holds for a channel whose identifier can be read; one that
    cannot runs under a new identifier and without its limit. *)
Definition limited (cid : string) : Channel.ChannelConfig :=
  Channel.mkChannelConfig cid "a" "openai" 1 100 None None None "api_key" "ref" None "https://api.openai.com" true ∅ None
    (Some 10) None None None None None [] [] None None None None 0 [].
Example limits_need_id :
  let start cid := initial_state (parse_uuid Scenario.host) (λ n, 100 + N.of_nat n)%N (λ _ _, Panic) ∅ "/etc"
                     (ConfigFile.mkConfig gateway [limited cid] []) 1000 in
  let limit s u := RateLimiter.rpm ∘ RateLimiter.limits <$> RateLimiter.channels (rate_limiter s) !! u in
  is_Some (ChannelManager.channels (channel_mgr (start "k")) !! 7%N) ∧ limit (start "k") 7%N = Some 10 ∧
  is_Some (ChannelManager.channels (channel_mgr (start "?")) !! 100%N) ∧ limit (start "?") 100%N = None.
Proof. cbn zeta. split_and!; [by eexists|reflexivity|by eexists|reflexivity]. Qed.
End LaunchSample.
